(* ===== verification/_CoqProject ===== *)
-Q . S2P
Prelude.v
Fixed.v
IntentBook.v
RbTree.v
RbHeap.v
RbCorrect.v
RbRemove.v
PoolLinks.v
IntentTree.v
SeatTree.v
BookInvariant.v
BookShape.v
BookSteps.v
Ledger.v
Governance.v
Attestation.v
World.v
Demo.v
Footprint.v
Totals.v
Solvency.v
MatchIx.v
Intent.v
Settlement.v
Lifecycle.v
OrderBook.v
Authority.v
Custody.v
Dispatch.v
Bystanders.v
DemoWorld.v
Fills.v
Market.v
Expansion.v
BookHistory.v
Conservation.v
Balances.v
Effects.v
Fees.v
Trades.v
Inline.v
Evolution.v
Lifetimes.v
Invariants.v
Backing.v
Backed.v
Reentry.v
Recovery.v
Maturity.v
Tokens.v
Vaults.v
Wrapped.v
Exit.v
