(* ===== verification/Prelude.v ===== *)
(** * polyleverage: a Rocq model of the program and its correctness theorems

    polyleverage is a Solana program for leveraged contracts on the price of a prediction
    market. Traders deposit collateral into margin accounts, post intents (limit offers) on
    the book of an instrument, and crossing intents are matched, one contract at a time, into
    PMLCs ("matched contracts") that lock the same collateral on both sides. A contract ends by
    liquidation, by resolution of its market or by mutual close, each on a price signed by an
    off-chain attestor, or passes to another owner by novation or substitution. Administrators
    set the configuration, fees, registries and instruments.

    ** How the development is laid out

    Every handler of [src/processor/] is one definition over a [World], the map from account
    keys to accounts (owner, lamports, data). An account's data is one of the structs of
    [src/state/] or raw bytes; [load], [with_mut], [init_account] are the bytemuck reads and
    writes with their length and discriminator checks. A computation is [M S A]: a function
    from a state to an answer ([Ok], [Err] with the program's error, [Panic], [Diverge]) and a
    state; what ran before a failure stays written, and [transaction] (Dispatch.v) undoes the
    failed ones. Integers are [Z] with the source's checked, saturating, wrapping or truncating
    operation written out at its width.

    - This file: errors, the answer and state monads, machine integers, shared tactics.
    - Fixed.v: [src/math/fixed.rs], prices, sizes, profit and bounded equity.
    - IntentBook.v, RbHeap.v, IntentTree.v, SeatTree.v: [state/intent_book.rs],
      [state/intent_tree.rs], [state/seat_tree.rs]. The node pool and its allocator, and the
      pointer red-black trees; the two trees share their algorithms through the interface
      [RbAccess] of field accessors.
    - RbTree.v, RbCorrect.v, RbRemove.v, PoolLinks.v: the functional red-black trees and
      zippers those algorithms implement, and the proof that they do.
    - BookInvariant.v, BookShape.v, BookSteps.v, OrderBook.v, Market.v: what makes a book
      [whole] (free list, watermark, two price trees and the seat tree on disjoint slots),
      that each step keeps it, and its meaning, a finite map of offers.
    - Ledger.v: margin accounts, fee treasury, user volumes, fee schedule.
    - Governance.v: configuration, multisig, timelock, registries, sessions, instruments,
      market nonces and contracts.
    - Attestation.v: [src/attestation.rs], the signed payloads and the Ed25519 introspection.
    - World.v: accounts, [src/utils.rs], [src/seeds.rs], and the runtime the program calls.
    - MatchIx.v, Intent.v, Settlement.v, Lifecycle.v, Authority.v, Custody.v: the handlers of
      [src/processor/], and Dispatch.v: the tags and [process_instruction].
    - Footprint.v: how properties of whole handlers are proved from their primitive writes
      ([respects], [guarded], [yields]) and how a successful run is read back ([inv_world]).
    - Totals.v: sums over the program's accounts.
    - Solvency.v, Conservation.v; Balances.v, Effects.v, Fees.v, Trades.v, Inline.v;
      Expansion.v; BookHistory.v; Evolution.v, Lifetimes.v, Invariants.v; Fills.v; Reentry.v;
      Backing.v, Backed.v, Recovery.v, Maturity.v; Vaults.v, Exit.v, Wrapped.v: the theorems
      about handlers and histories, below.
    - Bystanders.v, Tokens.v: the interface [Bystander] of the facts that instructions which move
      no tokens leave alone, the laws of the token program ([TokenLaws]), and what follows for
      token accounts and mints.
    - Demo.v, DemoWorld.v: a runtime and a world to compute with, the inputs of the witnesses.

    ** What is assumed

    Code that is not under [src/] is a parameter: the class [Runtime] (address derivation, the
    clock, the instructions sysvar, the token account layout, calls to other programs) and the
    class [Borsh] (the decoding of instruction payloads). Its documented behaviour is the class
    [RuntimeLaws] (the system program creates only empty accounts of its own, zeroed, for the
    requested owner; the token program writes only its own accounts), [TokenLaws] (tokens leave
    an account on its owner's or delegate's word, balances and supplies change as the call says,
    no call makes an account a token account, and a signed transfer between thawed accounts of
    one mint that have the amount and the room goes through) and
    [BorshWidths] (decoded integers fit their width). [Demo.demo] is an instance of all of them,
    so the laws can hold.

    ** What the theorems show

    - Value (Conservation.v): whatever instruction is sent, what the program owes in a mint
      changes by exactly its deposits, withdrawals and sweeps ([value_is_conserved]), given
      contracts whose pot fits a [u64] and bounties of at most the pot; a post with an inline
      match and a larger bounty are the exceptions, shown by example.
    - Solvency (Vaults.v, Exit.v, Wrapped.v): over every history, the vault of a mint holds at least what the
      program owes in it ([vault_covers_liabilities]), so every free balance can be withdrawn
      ([free_balances_are_withdrawable]). The terms of the instruments that keep
      the accounts sane are part of the invariant of Backing.v. The supply of the wrapped
      stablecoin is at most what its authority holds of trusted ones ([wusd_is_covered],
      Wrapped.v).
    - Backing (Backing.v, Backed.v, Recovery.v, Maturity.v): per trader and mint, the reserved balances are
      what the trader's offers hold and the locked balances the trader's collateral in live
      contracts, over every history ([balances_stay_backed]); each instruction is a list of
      postings to both sides that cancel ([tally], [quiet]). So an offer can always be
      cancelled and its reservation recovered ([offers_are_recoverable]), and a contract between
      two traders resolved once its outcome is attested ([contracts_are_settleable]).
    - Who is paid what (Effects.v, Fees.v, Trades.v, Reentry.v): for each instruction that moves
      collateral, who had to sign, what it did to the book and the contract, and the exact change
      of the three balances of every margin account, unnamed accounts unchanged. The amounts are
      written out: the long's share of a pot is [long_equity] of the [profit] at the mark the
      attestation's bytes carry, the taker's fee is the tier of the volumes [charged] read, a
      side that passes is [side_passes]. The settlement theorems and the substitution are about
      a contract whose pot fits a [u64] ([contract_fits]).
    - The inline match of a post (Inline.v): a match that fails after it wrote keeps what it
      wrote ([failed_match_consumes_offers]).
    - The order book (Market.v, BookHistory.v, Fills.v): every operation refines an operation
      on the finite map of offers and never panics nor loops; traversal in price-time order,
      discovery of the best pair, cancellation; books stay whole over every history without
      [ExpandIntentBook], which breaks them (Expansion.v: every new slot is handed out twice,
      [expansion_hands_out_twice]); the fills of an intent give everything back.
    - Histories (Invariants.v): account invariants, the life of contracts, attestations used
      once, the attestor's delay, fees that never rise, sessions, and who may change what.
    - Components (Governance.v, Ledger.v, Fixed.v, Attestation.v, Dispatch.v): the registry as a
      finite set, the quorum, the volume window, the fee tiers, midpoint, profit and equity,
      the Ed25519 gate, the attestation layout, dispatch by tag.

    ** Fuel and bounds

    Tree loops run with fuel [node_fuel], the number of slots of the pool plus one; the proofs show
    a run over a whole book always ends with a value before it is used up (a loop that outruns
    its fuel answers [Diverge], and no property excludes that by hypothesis). The traversal's
    stack of 64 is the source's; it suffices for pools of at most 2^31 slots ([spannable]),
    since a red-black tree of n nodes is at most 2 log2 (n + 1) high.

    ** What is not modelled

    The entrypoint and module lists; the Borsh decoding; the text of errors and logs; the
    padding and reserved bytes of the structs, and raw bytes that happen to carry the layout
    of one; the runtime's own checks after an instruction (rent, lamport balance, writability);
    lamports moved inside the calls; the field [max_pairs], which the source decodes and ignores;
    the tests.

    ** What is left

    The effects of pruning, wrapping and the delegated variants stated as exactly as those of
    Trades.v; the effect of a post whose inline match succeeds. *)
From Stdlib Require Import ZArith Lia Bool.
From stdpp Require Export prelude gmap sorting.

#[export] Set Default Goal Selector "!".
#[global] Open Scope Z_scope.

(* ------------------------------------------------------------------ *)
(** ** Errors: [src/error.rs] *)

(** [enum PolyleverageError], the program's own error codes. *)
Inductive PolyleverageError :=
| InvalidProgramConfig | InvalidAdminSigner | InvalidPda | InvalidAccountOwner
| AlreadyInitialized | NotInitialized | MissingSigner | InvalidMint | InvalidVault
| InvalidTokenAccountOwner | AccountDataTooSmall
| InsufficientFreeCollateral | InsufficientReservedCollateral
| InsufficientLockedCollateral | InstrumentPaused | GlobalPaused
| InvalidLeverageBucket | InvalidCollateralBucket | InvalidPriceRange
| PriceNotTickAligned | IntentExpired | IntentNotFound | IntentBookFull
| InvalidContractCount
| NotOppositeSides | InstrumentMismatch | NoRangeOverlap | ArithmeticOverflow
| ArithmeticUnderflow | DivisionByZero
| PmlcNotLive | NotLiquidatable | InvalidPmlcSide
| MissingEd25519Verify | Ed25519PubkeyMismatch | Ed25519MessageMismatch
| AttestationBadMagic | AttestationWrongType | AttestationWrongMarket
| AttestationStale | AttestationNonceReplayed | AttestationWrongPmlc
| FeeScheduleNotInitialized | FeeIncreaseBlocked | FeeAccountsRequired
| TimelockNotExecutable | TimelockPayloadMismatch
| InsufficientMultisigApprovals | InvalidMultisigConfig
| BucketNotInRegistry | StablecoinNotAccepted | StablecoinDecimalsMismatch
| InsufficientStablecoinReserve
| SessionNotActive | SessionDelegateMismatch | SessionOwnerMismatch
| SessionInstrumentNotAllowed | SessionPerIntentCapExceeded
| SessionCumulativeCapExceeded
| UnsupportedInstruction | InvalidInstructionData.

#[export] Instance PolyleverageError_eq_dec : EqDecision PolyleverageError.
Proof. solve_decision. Defined.

(** The [#[repr(u32)]] discriminants, the program's public error ABI. *)
Definition error_code (e : PolyleverageError) : Z :=
  match e with
  | InvalidProgramConfig => 0 | InvalidAdminSigner => 1 | InvalidPda => 2
  | InvalidAccountOwner => 3 | AlreadyInitialized => 4 | NotInitialized => 5
  | MissingSigner => 6 | InvalidMint => 7 | InvalidVault => 8
  | InvalidTokenAccountOwner => 9 | AccountDataTooSmall => 10
  | InsufficientFreeCollateral => 100 | InsufficientReservedCollateral => 101
  | InsufficientLockedCollateral => 102 | InstrumentPaused => 103
  | GlobalPaused => 104 | InvalidLeverageBucket => 105
  | InvalidCollateralBucket => 106 | InvalidPriceRange => 107
  | PriceNotTickAligned => 108 | IntentExpired => 109 | IntentNotFound => 110
  | IntentBookFull => 111 | InvalidContractCount => 112
  | NotOppositeSides => 200 | InstrumentMismatch => 201 | NoRangeOverlap => 202
  | ArithmeticOverflow => 203 | ArithmeticUnderflow => 204
  | DivisionByZero => 205
  | PmlcNotLive => 300 | NotLiquidatable => 301 | InvalidPmlcSide => 302
  | MissingEd25519Verify => 400 | Ed25519PubkeyMismatch => 401
  | Ed25519MessageMismatch => 402 | AttestationBadMagic => 403
  | AttestationWrongType => 404 | AttestationWrongMarket => 405
  | AttestationStale => 406 | AttestationNonceReplayed => 407
  | AttestationWrongPmlc => 408
  | FeeScheduleNotInitialized => 500 | FeeIncreaseBlocked => 501
  | FeeAccountsRequired => 502
  | TimelockNotExecutable => 600 | TimelockPayloadMismatch => 601
  | InsufficientMultisigApprovals => 700 | InvalidMultisigConfig => 701
  | BucketNotInRegistry => 710 | StablecoinNotAccepted => 720
  | StablecoinDecimalsMismatch => 721 | InsufficientStablecoinReserve => 722
  | SessionNotActive => 800 | SessionDelegateMismatch => 801
  | SessionOwnerMismatch => 802 | SessionInstrumentNotAllowed => 803
  | SessionPerIntentCapExceeded => 804 | SessionCumulativeCapExceeded => 805
  | UnsupportedInstruction => 900 | InvalidInstructionData => 901
  end.

(** The variants of [solana_program::ProgramError] the program returns or
    receives; its own errors travel as [Custom(code)]. *)
Inductive ProgramError :=
| Custom (code : Z)
| InvalidArgument
| InvalidAccountData
| NotEnoughAccountKeys
| AccountBorrowFailed
| RuntimeError (code : Z).  (* an error raised by a called program *)

#[export] Instance ProgramError_eq_dec : EqDecision ProgramError.
Proof. solve_decision. Defined.

(** [impl From<PolyleverageError> for ProgramError]. *)
Definition into_program_error (e : PolyleverageError) : ProgramError :=
  Custom (error_code e).
Coercion into_program_error : PolyleverageError >-> ProgramError.

(* ------------------------------------------------------------------ *)
(** ** Outcomes and the state-and-error monad *)

(** The outcome of a Rust computation: a value, a returned [ProgramError], an
    abort that no caller can catch (a panic: an arithmetic overflow, since the release
    profile sets [overflow-checks], or an index out of bounds; or a failed call into
    another program), or a loop that has not finished within the fuel of the model. *)
Inductive Res (A : Type) :=
| Ok (a : A)
| Err (e : ProgramError)
| Panic
| Diverge.
Arguments Ok {A} a.
Arguments Err {A} e.
Arguments Panic {A}.
Arguments Diverge {A}.

#[export] Instance Res_eq_dec `{EqDecision A} : EqDecision (Res A).
Proof. solve_decision. Defined.

Definition is_ok {A} (r : Res A) : bool :=
  match r with Ok _ => true | _ => false end.

#[export] Instance Res_ret : MRet Res := @Ok.
#[export] Instance Res_bind : MBind Res := fun A B f r =>
  match r with Ok a => f a | Err e => Err e | Panic => Panic | Diverge => Diverge end.

(** A computation over a state [S]. An error keeps the state reached so far:
    a handler's writes before an early return stay in place, and only the
    runtime reverts them when the whole instruction fails. *)
Definition M (S A : Type) : Type := S -> Res A * S.

#[export] Instance M_ret {S} : MRet (M S) := fun A a s => (Ok a, s).
#[export] Instance M_bind {S} : MBind (M S) := fun A B f m s =>
  match m s with
  | (Ok a, s') => f a s'
  | (Err e, s') => (Err e, s')
  | (Panic, s') => (Panic, s')
  | (Diverge, s') => (Diverge, s')
  end.

Section monad_operations.
Context {S : Type}.

Definition lift {A} (r : Res A) : M S A := fun s => (r, s).
Definition fail {A} (e : ProgramError) : M S A := lift (Err e).
Definition panic {A} : M S A := lift Panic.
Definition gets {A} (f : S -> A) : M S A := fun s => (Ok (f s), s).
Definition modify (f : S -> S) : M S unit := fun s => (Ok tt, f s).
Definition put (s : S) : M S unit := modify (fun _ => s).

(** [if b { return Err(e) }] *)
Definition bail_if (b : bool) (e : ProgramError) : M S unit :=
  if b then fail e else mret tt.

(** [o.ok_or(e)?] *)
Definition ok_or {A} (o : option A) (e : ProgramError) : M S A :=
  match o with Some a => mret a | None => fail e end.

(** A checked machine operation of the [overflow-checks] profile. *)
Definition or_panic {A} (o : option A) : M S A :=
  match o with Some a => mret a | None => panic end.

(** [if b { m }] *)
Definition when (b : bool) (m : M S unit) : M S unit :=
  if b then m else mret tt.

(** [match m { Ok(()) => .., Err(err) => .. }]: the caller sees the error as a
    value, and what [m] wrote before failing stays written. *)
Definition catch {A} (m : M S A) : M S (A + ProgramError) := fun s =>
  match m s with
  | (Ok a, s') => (Ok (inl a), s')
  | (Err e, s') => (Ok (inr e), s')
  | (Panic, s') => (Panic, s')
  | (Diverge, s') => (Diverge, s')
  end.
End monad_operations.

(** [Result::ok_or] on a pure [Option]. *)
Definition opt_ok_or {A} (o : option A) (e : ProgramError) : Res A :=
  match o with Some a => Ok a | None => Err e end.

(* ------------------------------------------------------------------ *)
(** ** Machine integers *)

Definition U8_MAX : Z := 2 ^ 8 - 1.
Definition U16_MAX : Z := 2 ^ 16 - 1.
Definition U32_MAX : Z := 2 ^ 32 - 1.
Definition U64_MAX : Z := 2 ^ 64 - 1.
Definition U128_MAX : Z := 2 ^ 128 - 1.
Definition I64_MIN : Z := - 2 ^ 63.
Definition I64_MAX : Z := 2 ^ 63 - 1.
Definition I128_MIN : Z := - 2 ^ 127.
Definition I128_MAX : Z := 2 ^ 127 - 1.

Definition in_u (max x : Z) : bool := (0 <=? x) && (x <=? max).
Definition in_i128 (x : Z) : bool := (I128_MIN <=? x) && (x <=? I128_MAX).
Abbreviation is_u64 x := (0 <= x <= U64_MAX).

(** A checked operation of width [max]: [None] when the exact result does not
    fit. *)
Definition checked (max x : Z) : option Z := if in_u max x then Some x else None.
Definition checked_i128 (x : Z) : option Z := if in_i128 x then Some x else None.
Definition checked_div_u (a b : Z) : option Z :=
  if b =? 0 then None else Some (a / b).

(** Saturating operations. *)
Definition saturate (lo hi x : Z) : Z := Z.max lo (Z.min hi x).
Abbreviation sat_u64 x := (saturate 0 U64_MAX x).
Abbreviation sat_i64 x := (saturate I64_MIN I64_MAX x).
Abbreviation sat_i128 x := (saturate I128_MIN I128_MAX x).

(** [as] casts: truncation to the low bits. *)
Definition as_u (w x : Z) : Z := x mod 2 ^ w.
Definition as_i (w x : Z) : Z :=
  let r := x mod 2 ^ w in if r <? 2 ^ (w - 1) then r else r - 2 ^ w.

Definition in_i64 (x : Z) : bool := (I64_MIN <=? x) && (x <=? I64_MAX).
Definition checked_i64 (x : Z) : option Z := if in_i64 x then Some x else None.

Definition u64_try_from (x : Z) : option Z := checked U64_MAX x.

(** A public key, read as the big-endian number of its 32 bytes, so that the
    derived byte-wise [Ord] of [Pubkey] is the order of [Z].
    [Pubkey::default()] is 0. *)
Definition Pubkey : Type := Z.
#[export] Instance Pubkey_eq_dec : EqDecision Pubkey := Z.eq_dec.
#[export] Instance Pubkey_countable : Countable Pubkey := Z_countable.

(* ------------------------------------------------------------------ *)
(** ** Reasoning about successful runs *)

Lemma bind_ok_inv {S A B} (m : M S A) (f : A -> M S B) s b s' :
  (m ≫= f) s = (Ok b, s') ->
  exists a s1, m s = (Ok a, s1) /\ f a s1 = (Ok b, s').
Proof.
  unfold mbind, M_bind. destruct (m s) as [[a|e| |] s1] eqn:E; intros H;
    try discriminate. eauto.
Qed.

Lemma bind_ok {S A B} (m : M S A) (f : A -> M S B) s a s1 :
  m s = (Ok a, s1) -> (m ≫= f) s = f a s1.
Proof. unfold mbind, M_bind. by intros ->. Qed.

Lemma res_bind_ok_inv {A B} (m : Res A) (f : A -> Res B) b :
  m ≫= f = Ok b -> exists a, m = Ok a /\ f a = Ok b.
Proof. destruct m; cbn; intros; try discriminate; eauto. Qed.

Lemma bail_if_ok_inv {S} b e (s s' : S) u :
  bail_if b e s = (Ok u, s') -> b = false /\ s' = s.
Proof. unfold bail_if, fail, lift, mret, M_ret. destruct b; intros; simplify_eq; auto. Qed.

Lemma ok_or_ok_inv {S A} (o : option A) e (s s' : S) a :
  ok_or o e s = (Ok a, s') -> o = Some a /\ s' = s.
Proof. unfold ok_or, fail, lift, mret, M_ret. destruct o; intros; simplify_eq; auto. Qed.

Lemma or_panic_ok_inv {S A} (o : option A) (s s' : S) a :
  or_panic o s = (Ok a, s') -> o = Some a /\ s' = s.
Proof. unfold or_panic, panic, lift, mret, M_ret. destruct o; intros; simplify_eq; auto. Qed.

Lemma lift_ok_inv {S A} (r : Res A) (s s' : S) a :
  lift r s = (Ok a, s') -> r = Ok a /\ s' = s.
Proof. unfold lift. intros; simplify_eq; auto. Qed.

Lemma gets_ok_inv {S A} (f : S -> A) (s s' : S) a :
  gets f s = (Ok a, s') -> a = f s /\ s' = s.
Proof. unfold gets. intros; simplify_eq; auto. Qed.

Lemma ret_ok_inv {S A} (x : A) (s s' : S) a :
  mret (M := M S) x s = (Ok a, s') -> a = x /\ s' = s.
Proof. unfold mret, M_ret. intros; simplify_eq; auto. Qed.

Lemma fail_ok_inv {S A} e (s s' : S) (a : A) :
  fail e s = (Ok a, s') -> False.
Proof. unfold fail, lift. intros; simplify_eq. Qed.

(** One inversion step on a successful run. *)
Ltac inv_ok_step :=
  match goal with
  | H : mbind (M := M _) _ _ _ = (Ok _, _) |- _ =>
      apply bind_ok_inv in H as (? & ? & ? & H)
  | H : mbind (M := Res) _ _ = Ok _ |- _ =>
      apply res_bind_ok_inv in H as (? & ? & H)
  | H : bail_if _ _ _ = (Ok _, _) |- _ =>
      apply bail_if_ok_inv in H as [? ?]; subst
  | H : ok_or _ _ _ = (Ok _, _) |- _ => apply ok_or_ok_inv in H as [? ?]; subst
  | H : or_panic _ _ = (Ok _, _) |- _ => apply or_panic_ok_inv in H as [? ?]; subst
  | H : lift _ _ = (Ok _, _) |- _ => apply lift_ok_inv in H as [? ?]; subst
  | H : gets _ _ = (Ok _, _) |- _ => apply gets_ok_inv in H as [? ?]; subst
  | H : mret _ _ = (Ok _, _) |- _ => apply ret_ok_inv in H as [? ?]; subst
  | H : fail _ _ = (Ok _, _) |- _ => exfalso; exact (fail_ok_inv _ _ _ _ H)
  end.
Ltac inv_ok := repeat inv_ok_step.

(* ------------------------------------------------------------------ *)
(** ** Total correctness of a computation

    [runs m s Q]: from state [s], [m] returns a value, and value and final
    state satisfy [Q]. No error, no panic and no exhausted loop. *)

Definition runs {S A} (m : M S A) (s : S) (Q : A -> S -> Prop) : Prop :=
  match m s with (Ok a, s') => Q a s' | _ => False end.

Section runs_rules.
Context {S : Type}.
Implicit Types s : S.

Lemma runs_bind {A B} (m : M S A) (f : A -> M S B) s Q :
  runs m s (fun a s' => runs (f a) s' Q) -> runs (m ≫= f) s Q.
Proof. unfold runs, mbind, M_bind. by destruct (m s) as [[] ?]. Qed.

Lemma runs_ret {A} (a : A) s (Q : A -> S -> Prop) :
  Q a s -> runs (mret a) s Q.
Proof. done. Qed.

Lemma runs_gets {A} (f : S -> A) s (Q : A -> S -> Prop) :
  Q (f s) s -> runs (gets f) s Q.
Proof. done. Qed.

Lemma runs_bail_if b e s (Q : unit -> S -> Prop) :
  b = false -> Q tt s -> runs (bail_if b e) s Q.
Proof. by intros ->. Qed.

Lemma runs_mono {A} (m : M S A) s (Q Q' : A -> S -> Prop) :
  runs m s Q -> (forall a s', Q a s' -> Q' a s') -> runs m s Q'.
Proof. unfold runs. destruct (m s) as [[] ?]; auto. Qed.

Lemma runs_ok {A} (m : M S A) s (Q : A -> S -> Prop) :
  runs m s Q <-> exists a s', m s = (Ok a, s') /\ Q a s'.
Proof.
  unfold runs. split.
  - destruct (m s) as [[] ?]; eauto; done.
  - by intros (a & s' & -> & ?).
Qed.
End runs_rules.

(* ------------------------------------------------------------------ *)
(** ** Arithmetic lemmas and tactics *)

(** Unfold the machine bounds so that [lia] sees numerals. *)
Ltac unfold_bounds :=
  unfold saturate, U8_MAX, U16_MAX, U32_MAX, U64_MAX, U128_MAX, I64_MIN, I64_MAX,
    I128_MIN, I128_MAX in *.
Ltac mlia := unfold_bounds; lia.

Lemma in_u_spec max x : in_u max x = true <-> 0 <= x <= max.
Proof. unfold in_u. rewrite andb_true_iff, !Z.leb_le. lia. Qed.

Lemma checked_some max x y : checked max x = Some y <-> y = x /\ 0 <= x <= max.
Proof.
  unfold checked. destruct (in_u max x) eqn:E.
  - apply in_u_spec in E. split; [intros; simplify_eq; auto | intros [-> _]; done].
  - split; [done|]. intros [_ H]. apply in_u_spec in H. congruence.
Qed.

Ltac checked_facts :=
  repeat match goal with
  | H : checked _ _ = Some _ |- _ => apply checked_some in H as [? ?]; subst
  end.

Lemma checked_none max x : checked max x = None <-> ~ (0 <= x <= max).
Proof.
  unfold checked. destruct (in_u max x) eqn:E.
  - apply in_u_spec in E. split; [done | tauto].
  - split; [|done]. intros _ H. apply in_u_spec in H. congruence.
Qed.

(** Two words side by side. *)
Lemma shifted_words hi lo w : 0 <= w -> 0 <= lo < 2 ^ w -> Z.lor (Z.shiftl hi w) lo = hi * 2 ^ w + lo.
Proof.
  intros Hw Hlo. rewrite <- Z.shiftl_mul_pow2 by lia.
  assert (H : Z.land (Z.shiftl hi w) lo = 0).
  { apply Z.bits_inj'. intros i Hi. rewrite Z.land_spec, Z.bits_0. destruct (Z.lt_ge_cases i w).
    - by rewrite Z.shiftl_spec_low.
    - rewrite <- (Z.mod_small lo (2 ^ w)) by lia. rewrite Z.mod_pow2_bits_high by lia. apply andb_false_r. }
  pose proof (Z.add_lor_land (Z.shiftl hi w) lo). lia.
Qed.

Lemma checked_i128_some x y :
  checked_i128 x = Some y <-> y = x /\ I128_MIN <= x <= I128_MAX.
Proof.
  unfold checked_i128, in_i128. destruct (_ && _) eqn:E.
  - apply andb_true_iff in E as [?%Z.leb_le ?%Z.leb_le].
    split; [intros; simplify_eq; auto | intros [-> _]; done].
  - split; [done|]. intros [_ [H1 H2]].
    apply Z.leb_le in H1, H2. rewrite H1, H2 in E. done.
Qed.

Lemma checked_i64_some x y :
  checked_i64 x = Some y <-> y = x /\ I64_MIN <= x <= I64_MAX.
Proof.
  unfold checked_i64, in_i64. destruct (_ && _) eqn:E.
  - apply andb_true_iff in E as [?%Z.leb_le ?%Z.leb_le].
    split; [intros; simplify_eq; auto | intros [-> _]; done].
  - split; [done|]. intros [_ [H1 H2]].
    apply Z.leb_le in H1, H2. rewrite H1, H2 in E. done.
Qed.

Lemma as_u_small w x : 0 <= x < 2 ^ w -> as_u w x = x.
Proof. intros. unfold as_u. by apply Z.mod_small. Qed.

(** A signed number survives the trip through its unsigned representation. *)
Lemma as_i_as_u x : I64_MIN <= x <= I64_MAX -> as_i 64 (as_u 64 x) = x.
Proof.
  intros. unfold as_i, as_u. rewrite Z.mod_mod by lia. unfold_bounds.
  destruct (Z.ltb_spec (x mod 2 ^ 64) (2 ^ (64 - 1)));
    Z.to_euclidean_division_equations; lia.
Qed.

(* ------------------------------------------------------------------ *)
(** ** Sorted sequences *)

Lemma sorted_impl {A} (R R' : A -> A -> Prop) l :
  (forall x y, R x y -> R' x y) -> StronglySorted R l -> StronglySorted R' l.
Proof.
  intros HR. induction 1 as [|x l Hl IH Hx]; constructor; [done|].
  eapply Forall_impl; [exact Hx|]. auto.
Qed.

Lemma sorted_app {A} (R : A -> A -> Prop) l1 l2 :
  StronglySorted R (l1 ++ l2) <->
  StronglySorted R l1 /\ StronglySorted R l2 /\ (forall x y, x ∈ l1 -> y ∈ l2 -> R x y).
Proof.
  induction l1 as [|a l1 IH]; cbn.
  - split; [intros ?; split_and!; [constructor|done|set_solver]|tauto].
  - split.
    + inversion 1 as [|? ? Hs Ha]; subst. apply IH in Hs as (? & ? & ?).
      apply Forall_app in Ha as [Ha1 Ha2]. rewrite Forall_forall in Ha2.
      split_and!; [by constructor|done|]. intros x y [->|?]%elem_of_cons ?; auto.
    + intros (Hs & ? & Hxy). inversion Hs as [|? ? Hs' Ha]; subst. constructor.
      * apply IH. split_and!; [done|done|]. intros. apply Hxy; [by right|done].
      * apply Forall_app. split; [done|]. apply Forall_forall. intros y Hy. apply Hxy; [by left|done].
Qed.
