(* ===== verification/Fixed.v ===== *)
(** * Fixed-point prices and settlement arithmetic: [src/math/fixed.rs] *)
From S2P Require Import Prelude.

Definition PRICE_ONE : Z := 1000000000000000000.
Definition BPS_DENOM : Z := 10000.

Definition validate_price (price_fp : Z) : Res unit :=
  if (price_fp =? 0) || (PRICE_ONE <=? price_fp) then Err InvalidPriceRange
  else Ok tt.

Definition validate_price_ticked (price_fp tick_fp : Z) : Res unit :=
  _ ← validate_price price_fp;
  if (tick_fp =? 0) || negb (price_fp mod tick_fp =? 0) then Err PriceNotTickAligned
  else Ok tt.

(** Each partial sum is a [u64]; [price_midpoint_exact] shows none overflows. *)
Definition price_midpoint (a b : Z) : Z :=
  a / 2 + b / 2 + Z.land (Z.land a 1) (Z.land b 1).

Definition notional_atoms (collateral_bucket leverage_bps : Z) : Res Z :=
  opt_ok_or
    (v ← checked U128_MAX (collateral_bucket * leverage_bps);
     checked_div_u v BPS_DENOM)
    ArithmeticOverflow.

Definition position_size_fp (notional_atoms entry_price_fp : Z) : Res Z :=
  if entry_price_fp =? 0 then Err DivisionByZero
  else
    opt_ok_or
      (v ← checked U128_MAX (notional_atoms * PRICE_ONE);
       checked_div_u v entry_price_fp)
      ArithmeticOverflow.

(** [i128] division truncates towards zero ([Z.quot]); the subtraction of two
    widened [u64]s cannot overflow. *)
Definition pnl_long_atoms (entry_fp mark_fp size_fp : Z) : Res Z :=
  let delta_fp := mark_fp - entry_fp in
  let size_i := as_i 128 size_fp in
  opt_ok_or
    (v ← checked_i128 (delta_fp * size_i); Some (Z.quot v PRICE_ONE))
    ArithmeticOverflow.

Definition bounded_equity (collateral_atoms pnl : Z) : Z :=
  let eq := sat_i128 (collateral_atoms + pnl) in
  let max := sat_i128 (collateral_atoms * 2) in
  as_u 64 (Z.max 0 (Z.min max eq)).

(* ------------------------------------------------------------------ *)
(** ** Price validation *)

Lemma validate_price_ok p : validate_price p = Ok tt <-> p <> 0 /\ p < PRICE_ONE.
Proof.
  unfold validate_price. destruct (Z.eqb_spec p 0), (Z.leb_spec PRICE_ONE p); cbn;
    split; intros; try done; lia.
Qed.

(** A limit price is accepted exactly when it lies strictly between 0 and 1 and
    is a multiple of a non-zero tick. *)
Lemma validate_price_ticked_ok p tick :
  0 <= p -> 0 <= tick ->
  validate_price_ticked p tick = Ok tt <->
  0 < p < PRICE_ONE /\ 0 < tick /\ (tick | p).
Proof.
  intros Hp Ht. unfold validate_price_ticked.
  destruct (validate_price p) as [[]|e| |] eqn:E; cbn.
  - apply validate_price_ok in E as [? ?].
    destruct (Z.eqb_spec tick 0) as [->|]; cbn; [split; [done | intros (?& ? & _); lia]|].
    destruct (Z.eqb_spec (p mod tick) 0) as [E|E]; cbn.
    + split; [intros _|done]. rewrite <- Z.mod_divide by lia. lia.
    + split; [done|]. rewrite <- Z.mod_divide by lia. lia.
  - split; [done|]. intros [? _].
    assert (validate_price p = Ok tt) by (apply validate_price_ok; lia). congruence.
  - unfold validate_price in E. by destruct (_ || _).
  - unfold validate_price in E. by destruct (_ || _).
Qed.

(* ------------------------------------------------------------------ *)
(** ** Midpoint *)

Lemma land_1 a : Z.land a 1 = a mod 2.
Proof. exact (Z.land_ones a 1 ltac:(lia)). Qed.

Lemma land_bits a b :
  Z.land (a mod 2) (b mod 2) = (a mod 2) * (b mod 2).
Proof.
  pose proof (Z.mod_pos_bound a 2 ltac:(lia)).
  pose proof (Z.mod_pos_bound b 2 ltac:(lia)).
  assert (a mod 2 = 0 \/ a mod 2 = 1) as [-> | ->] by lia;
  assert (b mod 2 = 0 \/ b mod 2 = 1) as [-> | ->] by lia; reflexivity.
Qed.

(** The overflow-free midpoint is the exact floor of the average. *)
Lemma price_midpoint_exact a b : price_midpoint a b = (a + b) / 2.
Proof.
  unfold price_midpoint. rewrite !land_1, land_bits.
  pose proof (Z.mod_pos_bound a 2 ltac:(lia)).
  pose proof (Z.mod_pos_bound b 2 ltac:(lia)).
  assert (a mod 2 = 0 \/ a mod 2 = 1) as [Ha|Ha] by lia;
  assert (b mod 2 = 0 \/ b mod 2 = 1) as [Hb|Hb] by lia;
  rewrite Ha, Hb; Z.to_euclidean_division_equations; lia.
Qed.

Lemma price_midpoint_between a b :
  a <= b -> a <= price_midpoint a b <= b.
Proof. rewrite price_midpoint_exact. Z.to_euclidean_division_equations; lia. Qed.

Lemma price_midpoint_comm a b : price_midpoint a b = price_midpoint b a.
Proof. rewrite !price_midpoint_exact. f_equal. lia. Qed.

Lemma price_midpoint_u64 a b :
  is_u64 a -> is_u64 b ->
  is_u64 (a / 2 + b / 2) /\ is_u64 (price_midpoint a b).
Proof.
  rewrite price_midpoint_exact. unfold_bounds.
  Z.to_euclidean_division_equations; lia.
Qed.

(* ------------------------------------------------------------------ *)
(** ** Size and profit *)

Lemma notional_atoms_ok c lev n :
  notional_atoms c lev = Ok n <->
  0 <= c * lev <= U128_MAX /\ n = c * lev / BPS_DENOM.
Proof.
  unfold notional_atoms, checked_div_u.
  destruct (checked U128_MAX (c * lev)) as [v|] eqn:E; cbn.
  - apply checked_some in E as [-> ?]. split; [intros; simplify_eq; auto|].
    intros [_ ->]. done.
  - apply checked_none in E. split; [done | tauto].
Qed.

Lemma position_size_fp_ok n entry size :
  entry <> 0 ->
  position_size_fp n entry = Ok size <->
  0 <= n * PRICE_ONE <= U128_MAX /\ size = n * PRICE_ONE / entry.
Proof.
  intros Hne. unfold position_size_fp, checked_div_u.
  destruct (Z.eqb_spec entry 0); [done|].
  destruct (checked U128_MAX (n * PRICE_ONE)) as [v|] eqn:E; cbn.
  - apply checked_some in E as [-> ?]. destruct (Z.eqb_spec entry 0); [done|].
    split; [intros; simplify_eq; auto|]. intros [_ ->]. done.
  - apply checked_none in E. split; [done | tauto].
Qed.

(** With a notional that fits a [u64], the size never overflows and fits an
    [i128], whatever the (non-zero) entry price. *)
Lemma position_size_fits n entry :
  is_u64 n -> 0 < entry ->
  exists size, position_size_fp n entry = Ok size /\ 0 <= size <= I128_MAX.
Proof.
  intros Hn He. exists (n * PRICE_ONE / entry). split.
  - apply position_size_fp_ok; [lia|]. split; [|done].
    unfold PRICE_ONE. unfold_bounds. lia.
  - assert (0 <= n * PRICE_ONE <= I128_MAX) by (unfold PRICE_ONE; unfold_bounds; lia).
    split; [apply Z.div_pos; lia|].
    etransitivity; [|apply H]. apply Z.div_le_upper_bound; nia.
Qed.

Lemma as_i_small w x : 0 < w -> 0 <= x < 2 ^ (w - 1) -> as_i w x = x.
Proof.
  intros Hw Hx. unfold as_i.
  assert (2 ^ w = 2 * 2 ^ (w - 1)) as E
    by (rewrite <- Z.pow_succ_r by lia; f_equal; lia).
  rewrite Z.mod_small by lia. by destruct (Z.ltb_spec x (2 ^ (w - 1))); [|lia].
Qed.

Lemma pnl_long_atoms_ok entry mark size p :
  0 <= size <= I128_MAX ->
  pnl_long_atoms entry mark size = Ok p <->
  I128_MIN <= (mark - entry) * size <= I128_MAX /\
  p = Z.quot ((mark - entry) * size) PRICE_ONE.
Proof.
  intros Hs. unfold pnl_long_atoms.
  rewrite as_i_small by (unfold_bounds; lia).
  destruct (checked_i128 _) as [v|] eqn:E; cbn.
  - apply checked_i128_some in E as [-> ?].
    split; [intros; simplify_eq; auto|]. intros [_ ->]. done.
  - split; [done|]. intros [H _].
    assert (checked_i128 ((mark - entry) * size) = Some ((mark - entry) * size))
      by (by apply checked_i128_some). congruence.
Qed.

Lemma quot_error a b : 0 < b -> Z.abs (a - Z.quot a b * b) < b.
Proof.
  intros Hb. pose proof (Z.quot_rem' a b).
  pose proof (Z.rem_bound_abs a b ltac:(lia)). lia.
Qed.

(** The profit of a long is [notional * (mark - entry) / entry] up to two
    atoms of rounding: the sized, truncated computation never drifts further. *)
Lemma pnl_long_is_return n entry mark size p :
  is_u64 n -> 0 < entry <= PRICE_ONE -> 0 <= mark <= PRICE_ONE ->
  position_size_fp n entry = Ok size ->
  pnl_long_atoms entry mark size = Ok p ->
  Z.abs (p * entry - n * (mark - entry)) < 2 * entry.
Proof.
  intros Hn He Hm Hsize Hpnl.
  destruct (position_size_fits n entry Hn ltac:(lia)) as (size' & Hs' & Hr).
  rewrite Hsize in Hs'. simplify_eq.
  apply position_size_fp_ok in Hsize as [_ Hsz]; [|lia].
  apply pnl_long_atoms_ok in Hpnl as [_ Hp]; [|done].
  set (d := mark - entry) in *.
  pose proof (quot_error (d * size') PRICE_ONE ltac:(unfold PRICE_ONE; lia)) as Hq.
  rewrite <- Hp in Hq.
  pose proof (Z.mod_pos_bound (n * PRICE_ONE) entry ltac:(lia)) as Hmod.
  pose proof (Z.div_mod (n * PRICE_ONE) entry ltac:(lia)) as Hdm.
  rewrite <- Hsz in Hdm. set (r := (n * PRICE_ONE) mod entry) in *.
  assert (Hd : Z.abs d <= PRICE_ONE) by lia.
  assert (H0 : 0 < PRICE_ONE) by (unfold PRICE_ONE; lia).
  generalize dependent PRICE_ONE. intros P ? ? ? ? Hq ? ? Hdm ? ?.
  assert (E : (p * entry - n * d) * P
              = - (d * size' - p * P) * entry - d * r) by nia.
  assert (Hb : Z.abs ((p * entry - n * d) * P) < 2 * entry * P).
  { rewrite E. assert (Z.abs (d * r) <= P * entry) by (rewrite Z.abs_mul; nia).
    assert (Z.abs (- (d * size' - p * P) * entry) < P * entry)
      by (rewrite Z.abs_mul, Z.abs_opp; nia). lia. }
  rewrite Z.abs_mul in Hb. nia.
Qed.

(** Profit is monotone in the mark. *)
Lemma pnl_long_mono entry m1 m2 size p1 p2 :
  0 <= size <= I128_MAX -> m1 <= m2 ->
  pnl_long_atoms entry m1 size = Ok p1 -> pnl_long_atoms entry m2 size = Ok p2 ->
  p1 <= p2.
Proof.
  intros Hs Hm H1 H2.
  apply pnl_long_atoms_ok in H1 as [_ ->]; [|done].
  apply pnl_long_atoms_ok in H2 as [_ ->]; [|done].
  apply Z.quot_le_mono; [unfold PRICE_ONE; lia|]. nia.
Qed.

(* ------------------------------------------------------------------ *)
(** ** Bounded equity *)

(** For a collateral whose double fits a [u64], the long equity is the exact
    clamp of [c + pnl] to [[0, 2c]], even where the [i128] addition
    saturates. *)
Lemma bounded_equity_clamp c pnl :
  0 <= c -> 2 * c <= U64_MAX -> I128_MIN <= pnl <= I128_MAX ->
  bounded_equity c pnl = Z.max 0 (Z.min (2 * c) (c + pnl)).
Proof.
  intros Hc H2 Hp. unfold bounded_equity. rewrite as_u_small.
  - unfold_bounds. lia.
  - unfold_bounds. lia.
Qed.

Lemma bounded_equity_range c pnl :
  0 <= c -> 2 * c <= U64_MAX -> I128_MIN <= pnl <= I128_MAX ->
  0 <= bounded_equity c pnl <= 2 * c.
Proof. intros. rewrite bounded_equity_clamp by done. lia. Qed.

(* ------------------------------------------------------------------ *)
(** ** Properties *)

(** C35: the clearing price of two [u64] limits is computed without overflow
    (neither the sum of the halves nor the result leaves the [u64] range), is the exact
    floor of their average, does not depend on their order and lies between them. *)
Theorem midpoint_fair a b :
  is_u64 a -> is_u64 b -> a <= b ->
  is_u64 (a / 2 + b / 2) /\ is_u64 (price_midpoint a b) /\
  price_midpoint a b = (a + b) / 2 /\ price_midpoint b a = price_midpoint a b /\
  a <= price_midpoint a b <= b.
Proof.
  intros Ha Hb Hab. split; [by apply price_midpoint_u64|].
  split; [by apply price_midpoint_u64|]. split; [apply price_midpoint_exact|].
  split; [apply price_midpoint_comm | by apply price_midpoint_between].
Qed.

Lemma midpoint_fair_witness :
  price_midpoint (U64_MAX - 2) U64_MAX = U64_MAX - 1 /\ U64_MAX - 2 <= U64_MAX - 1 <= U64_MAX.
Proof.
  destruct (midpoint_fair (U64_MAX - 2) U64_MAX) as (_ & _ & _ & _ & H);
    [split; discriminate|split; discriminate|discriminate|].
  split; [reflexivity | exact H].
Defined.

(** C36: for a [u64] notional, an entry price in (0, 1] and a mark in [0, 1], sizing
    never fails, and the profit of the sized long is [notional * (mark - entry) / entry]
    to within two atoms of rounding; the only failure is an [i128] overflow of the
    product, reported as ArithmeticOverflow. *)
Theorem pnl_is_leveraged_return n entry mark :
  is_u64 n -> 0 < entry <= PRICE_ONE -> 0 <= mark <= PRICE_ONE ->
  exists size, position_size_fp n entry = Ok size /\ 0 <= size <= I128_MAX /\
    match pnl_long_atoms entry mark size with
    | Ok p => Z.abs (p * entry - n * (mark - entry)) < 2 * entry
    | Err e => e = ArithmeticOverflow /\ ~ (I128_MIN <= (mark - entry) * size <= I128_MAX)
    | _ => False
    end.
Proof.
  intros Hn He Hm. destruct (position_size_fits n entry Hn ltac:(lia)) as (size & Hs & Hr).
  exists size. split; [done|]. split; [done|].
  destruct (pnl_long_atoms entry mark size) as [p|e| |] eqn:E.
  - by eapply pnl_long_is_return.
  - split; [|intros Hp; pose proof (proj2 (pnl_long_atoms_ok entry mark size _ Hr) (conj Hp eq_refl));
      congruence].
    unfold pnl_long_atoms in E. destruct (v ← _; _); cbn in E; congruence.
  - unfold pnl_long_atoms in E. by destruct (v ← _; _).
  - unfold pnl_long_atoms in E. by destruct (v ← _; _).
Qed.

(** Entry 0.50, mark 0.60, notional 1000 atoms: a return of a fifth. *)
Lemma pnl_is_leveraged_return_witness :
  pnl_long_atoms (PRICE_ONE / 2) (6 * (PRICE_ONE / 10)) 2000 = Ok 200.
Proof.
  destruct (pnl_is_leveraged_return 1000 (PRICE_ONE / 2) (6 * (PRICE_ONE / 10)))
    as (size & Hs & _ & H); [split; discriminate|split; [reflexivity|discriminate]|
    split; discriminate|].
  vm_compute in Hs. injection Hs as <-. vm_compute. reflexivity.
Defined.

(** Whatever the profit, a side's settlement equity is the exact clamp of
    [collateral + profit] to [[0, 2 * collateral]], as a [u64], even where the [i128]
    sum saturates, and it grows with the profit. *)
Theorem equity_is_clamped c pnl pnl' :
  0 <= c -> 2 * c <= U64_MAX ->
  I128_MIN <= pnl <= I128_MAX -> pnl <= pnl' <= I128_MAX ->
  bounded_equity c pnl = Z.max 0 (Z.min (2 * c) (c + pnl)) /\
  0 <= bounded_equity c pnl <= bounded_equity c pnl' /\ bounded_equity c pnl' <= 2 * c.
Proof. intros. rewrite !bounded_equity_clamp by mlia. lia. Qed.

Lemma equity_is_clamped_witness :
  bounded_equity 100 I128_MIN = 0 /\ bounded_equity 100 I128_MAX = 200.
Proof.
  destruct (equity_is_clamped 100 I128_MIN I128_MAX) as [H1 H2];
    [discriminate|discriminate|split; discriminate|split; discriminate|].
  split; [exact H1 | vm_compute; reflexivity].
Defined.
