(* ===== verification/IntentBook.v ===== *)
(** * The intent book: [src/state/intent_book.rs]

    The node pool of one instrument's order book: a header and a slice of
    96-byte slots, each an intent, a trader's seat or a free-list entry, with the
    allocator over them. Index 0 is the null sentinel. *)
From S2P Require Import Prelude.

Definition NODE_SIZE : Z := 96.
Definition NODE_TAG_FREE : Z := 0.
Definition NODE_TAG_INTENT : Z := 1.
Definition NODE_TAG_SEAT : Z := 2.
Definition RB_RED : Z := 0.
Definition RB_BLACK : Z := 1.
Definition INTENT_FLAG_REENTRY : Z := 1.
Definition SIDE_LONG : Z := 0.
Definition SIDE_SHORT : Z := 1.
Definition NULL_IDX : Z := 0.

(** The header, without its discriminator (the account-data constructor plays
    that role) and its zero padding. *)
Record IntentBookHeader := {
  bh_bump : Z;
  bh_instrument : Pubkey;
  long_tree_root : Z;
  short_tree_root : Z;
  seat_tree_root : Z;
  freelist_head : Z;
  node_count : Z;
  capacity : Z;
  bh_next_intent_id : Z;
  bh_next_seq : Z;
  cached_max_fee_bps : Z;
}.

Definition INTENT_BOOK_HEADER_LEN : Z :=
  1 + 1 + 6 + 32 + 4 + 4 + 4 + 4 + 4 + 4 + 8 + 8 + 2 + 6 + 32.

Record IntentNode := {
  in_side : Z;
  in_color : Z;
  in_flags : Z;
  in_left : Z;
  in_right : Z;
  in_parent : Z;
  in_price_fp : Z;
  in_id : Z;
  in_owner_seat : Z;
  in_contracts_total : Z;
  in_contracts_remaining : Z;
  in_expiration_slot : Z;
  in_post_seq : Z;
  in_reserved_collateral : Z;
  in_fee_buffer : Z;
}.

Record SeatNode := {
  sn_color : Z;
  sn_left : Z;
  sn_right : Z;
  sn_parent : Z;
  sn_trader : Pubkey;
  sn_active_intent_count : Z;
  sn_flags : Z;
}.

(** [RawNode], read through its tag byte. *)
Inductive RawNode :=
| RFree (next_free : Z)
| RIntent (n : IntentNode)
| RSeat (n : SeatNode).

Definition tag (s : RawNode) : Z :=
  match s with
  | RFree _ => NODE_TAG_FREE
  | RIntent _ => NODE_TAG_INTENT
  | RSeat _ => NODE_TAG_SEAT
  end.

Definition as_intent (s : RawNode) : option IntentNode :=
  match s with RIntent n => Some n | _ => None end.
Definition as_seat (s : RawNode) : option SeatNode :=
  match s with RSeat n => Some n | _ => None end.

(** [alloc_node] reinterprets whatever the slot holds as a [FreeNode]: the
    [next_free] word (bytes 4..8) overlays the [left] link of the other two
    variants. *)
Definition next_free_of (s : RawNode) : Z :=
  match s with
  | RFree next => next
  | RIntent n => n.(in_left)
  | RSeat n => n.(sn_left)
  end.

(** [BookMut]: header and pool of one book account. *)
Record Book := { header : IntentBookHeader; nodes : list RawNode }.

(* ---- record updates ---- *)

Definition with_header (b : Book) (h : IntentBookHeader) : Book :=
  {| header := h; nodes := b.(nodes) |}.
Definition with_nodes (b : Book) (ns : list RawNode) : Book :=
  {| header := b.(header); nodes := ns |}.

Definition header_alloc (h : IntentBookHeader) (fl nc cap : Z) : IntentBookHeader :=
  {| bh_bump := h.(bh_bump); bh_instrument := h.(bh_instrument);
     long_tree_root := h.(long_tree_root); short_tree_root := h.(short_tree_root);
     seat_tree_root := h.(seat_tree_root);
     freelist_head := fl; node_count := nc; capacity := cap;
     bh_next_intent_id := h.(bh_next_intent_id); bh_next_seq := h.(bh_next_seq);
     cached_max_fee_bps := h.(cached_max_fee_bps) |}.
Definition header_counters (h : IntentBookHeader) (id seq : Z) : IntentBookHeader :=
  {| bh_bump := h.(bh_bump); bh_instrument := h.(bh_instrument);
     long_tree_root := h.(long_tree_root); short_tree_root := h.(short_tree_root);
     seat_tree_root := h.(seat_tree_root);
     freelist_head := h.(freelist_head); node_count := h.(node_count);
     capacity := h.(capacity);
     bh_next_intent_id := id; bh_next_seq := seq;
     cached_max_fee_bps := h.(cached_max_fee_bps) |}.
Definition header_roots (h : IntentBookHeader) (lr sr st : Z) : IntentBookHeader :=
  {| bh_bump := h.(bh_bump); bh_instrument := h.(bh_instrument);
     long_tree_root := lr; short_tree_root := sr; seat_tree_root := st;
     freelist_head := h.(freelist_head); node_count := h.(node_count);
     capacity := h.(capacity);
     bh_next_intent_id := h.(bh_next_intent_id); bh_next_seq := h.(bh_next_seq);
     cached_max_fee_bps := h.(cached_max_fee_bps) |}.

(** Slot [idx] of the pool. *)
Definition slot (b : Book) (idx : Z) : option RawNode := b.(nodes) !! Z.to_nat idx.
Definition set_slot (b : Book) (idx : Z) (s : RawNode) : Book :=
  with_nodes b (<[Z.to_nat idx := s]> b.(nodes)).

(* ------------------------------------------------------------------ *)
(** ** Node allocator *)

(** [self.nodes[idx as usize]] panics out of range. *)
Definition alloc_node : M Book Z :=
  h ← gets header;
  if negb (h.(freelist_head) =? NULL_IDX) then
    let idx := h.(freelist_head) in
    b ← gets id;
    free_node ← or_panic (slot b idx);
    modify (fun b => with_header b
      (header_alloc b.(header) (next_free_of free_node) h.(node_count) h.(capacity)));;
    mret idx
  else
    bail_if (h.(capacity) <=? h.(node_count)) IntentBookFull;;
    let idx := h.(node_count) in
    nc ← ok_or (checked U32_MAX (h.(node_count) + 1)) ArithmeticOverflow;
    modify (fun b => with_header b
      (header_alloc b.(header) h.(freelist_head) nc h.(capacity)));;
    mret idx.

Definition free_node (idx : Z) : M Book unit :=
  b ← gets id;
  bail_if ((idx =? NULL_IDX) || (Z.of_nat (length b.(nodes)) <=? idx))
    InvalidAccountData;;
  let next := b.(header).(freelist_head) in
  modify (fun b => set_slot b idx (RFree next));;
  modify (fun b => with_header b
    (header_alloc b.(header) idx b.(header).(node_count) b.(header).(capacity))).

(* ---- typed node access ---- *)

Definition intent (idx : Z) : M Book IntentNode :=
  b ← gets id;
  s ← ok_or (slot b idx) InvalidAccountData;
  ok_or (as_intent s) IntentNotFound.

(** Update in place through [self.intent_mut(idx)?]. *)
Definition intent_mut (idx : Z) (f : IntentNode -> IntentNode) : M Book unit :=
  n ← intent idx;
  modify (fun b => set_slot b idx (RIntent (f n))).

Definition seat (idx : Z) : M Book SeatNode :=
  b ← gets id;
  s ← ok_or (slot b idx) InvalidAccountData;
  ok_or (as_seat s) IntentNotFound.

Definition seat_mut (idx : Z) (f : SeatNode -> SeatNode) : M Book unit :=
  n ← seat idx;
  modify (fun b => set_slot b idx (RSeat (f n))).

Definition write_intent (idx : Z) (node : IntentNode) : M Book unit :=
  b ← gets id;
  _ ← ok_or (slot b idx) InvalidAccountData;
  modify (fun b => set_slot b idx (RIntent node)).

Definition write_seat (idx : Z) (node : SeatNode) : M Book unit :=
  b ← gets id;
  _ ← ok_or (slot b idx) InvalidAccountData;
  modify (fun b => set_slot b idx (RSeat node)).

Definition next_seq : M Book Z :=
  s ← gets (fun b => b.(header).(bh_next_seq));
  s' ← ok_or (checked U64_MAX (s + 1)) ArithmeticOverflow;
  modify (fun b => with_header b
    (header_counters b.(header) b.(header).(bh_next_intent_id) s'));;
  mret s.

Definition next_intent_id : M Book Z :=
  id ← gets (fun b => b.(header).(bh_next_intent_id));
  id' ← ok_or (checked U64_MAX (id + 1)) ArithmeticOverflow;
  modify (fun b => with_header b
    (header_counters b.(header) id' b.(header).(bh_next_seq)));;
  mret id.

(* ---- initialisation ---- *)

Definition intent_book_byte_size (capacity : Z) : Z :=
  INTENT_BOOK_HEADER_LEN + capacity * NODE_SIZE.

(** The account's bytes are zeroed first: every slot reads as a [RFree 0]. *)
Definition init_intent_book (bytes_len : Z) (instrument : Pubkey) (capacity bump
    cached_max_fee_bps : Z) : Res Book :=
  if negb (bytes_len =? intent_book_byte_size capacity) then Err AccountDataTooSmall
  else Ok {|
    header := {|
      bh_bump := bump; bh_instrument := instrument;
      long_tree_root := NULL_IDX; short_tree_root := NULL_IDX;
      seat_tree_root := NULL_IDX; freelist_head := NULL_IDX;
      node_count := 1; capacity := capacity;
      bh_next_intent_id := 1; bh_next_seq := 1;
      cached_max_fee_bps := cached_max_fee_bps |};
    nodes := replicate (Z.to_nat capacity) (RFree 0) |}.

(** Linear scan for an intent by id ([find_intent_by_id], the same function in
    [processor/intent.rs], [match_ix.rs] and [substitute.rs]): the first slot
    that holds it, with the side recorded in the node. *)
Fixpoint find_in_slots (id i : Z) (ns : list RawNode) : Res (Z * Z) :=
  match ns with
  | [] => Err IntentNotFound
  | s :: ns =>
      if negb (tag s =? NODE_TAG_INTENT) then find_in_slots id (i + 1) ns
      else match as_intent s with
           | Some node =>
               if node.(in_id) =? id then Ok (i, node.(in_side))
               else find_in_slots id (i + 1) ns
           | None => find_in_slots id (i + 1) ns
           end
  end.
Definition find_intent_by_id (id : Z) : M Book (Z * Z) :=
  b ← gets (fun b => b); lift (find_in_slots id 0 b.(nodes)).
