(* ===== verification/RbTree.v ===== *)
(** * Red-black trees of node indices, and their zippers

    The abstract side of the two pointer trees of the book: a tree whose nodes
    carry only a colour and a pool index, the zipper a fix-up loop walks up
    along, the red-black invariants of both, and the in-order sequence. *)
From S2P Require Import Prelude IntentBook.

Inductive tree :=
| Leaf
| Node (c : Z) (l : tree) (i : Z) (r : tree).

Definition top (t : tree) : Z := match t with Leaf => 0 | Node _ _ i _ => i end.
Definition color_of (t : tree) : Z :=
  match t with Leaf => RB_BLACK | Node c _ _ _ => c end.
Definition blacken (t : tree) : tree :=
  match t with Leaf => Leaf | Node _ l i r => Node RB_BLACK l i r end.

Fixpoint inorder (t : tree) : list Z :=
  match t with Leaf => [] | Node _ l i r => inorder l ++ i :: inorder r end.

Fixpoint height (t : tree) : nat :=
  match t with Leaf => 0 | Node _ l _ r => S (Nat.max (height l) (height r)) end.

(** A crumb records an ancestor: [CL c i r] when the focus is its left child. *)
Inductive crumb :=
| CL (c i : Z) (r : tree)
| CR (l : tree) (c i : Z).
Abbreviation ctx := (list crumb).

Definition ctx_top (k : ctx) : Z :=
  match k with [] => 0 | CL _ i _ :: _ => i | CR _ _ i :: _ => i end.

Definition plug1 (t : tree) (f : crumb) : tree :=
  match f with CL c i r => Node c t i r | CR l c i => Node c l i t end.
Definition plug (t : tree) (k : ctx) : tree := foldl plug1 t k.

(** The in-order sequence on each side of the focus. *)
Fixpoint before (k : ctx) : list Z :=
  match k with
  | [] => []
  | CL _ _ _ :: k => before k
  | CR l _ i :: k => before k ++ inorder l ++ [i]
  end.
Fixpoint after (k : ctx) : list Z :=
  match k with
  | [] => []
  | CL _ i r :: k => i :: inorder r ++ after k
  | CR _ _ _ :: k => after k
  end.

Lemma inorder_plug t k : inorder (plug t k) = before k ++ inorder t ++ after k.
Proof.
  revert t. induction k as [|[c i r|l c i] k IH]; intros t; cbn.
  - by rewrite app_nil_r.
  - rewrite IH. cbn. by rewrite <- !app_assoc.
  - rewrite IH. cbn. by rewrite <- !app_assoc.
Qed.

Lemma before_app k1 k2 : before (k1 ++ k2) = before k2 ++ before k1.
Proof.
  induction k1 as [|[] k1 IH]; cbn; [by rewrite app_nil_r|done|]. by rewrite IH, <- app_assoc.
Qed.
Lemma after_app k1 k2 : after (k1 ++ k2) = after k1 ++ after k2.
Proof.
  induction k1 as [|[] k1 IH]; cbn; [done| |done]. by rewrite IH, <- app_assoc.
Qed.

Lemma plug_app t k1 k2 : plug t (k1 ++ k2) = plug (plug t k1) k2.
Proof. apply foldl_app. Qed.

Lemma plug_top t t' k : k <> [] -> top (plug t k) = top (plug t' k).
Proof.
  destruct k as [|f k] using rev_ind; [done|]. intros _.
  rewrite !plug_app. by destruct f.
Qed.

(** The indices of a context, nearest crumb first. *)
Fixpoint cidx (k : ctx) : list Z :=
  match k with
  | [] => []
  | CL _ i r :: k => i :: inorder r ++ cidx k
  | CR l _ i :: k => i :: inorder l ++ cidx k
  end.

Lemma top_plug_cidx t k : k <> [] -> top (plug t k) ∈ cidx k.
Proof.
  revert t. induction k as [|f k IH]; [done|]. intros t _.
  destruct k as [|f' k]; [destruct f; cbn; set_solver|].
  assert (top (plug t (f :: f' :: k)) ∈ cidx (f' :: k)) as H by (by apply IH).
  revert H. generalize (f' :: k). intros k'. destruct f; cbn; set_solver.
Qed.

Lemma inorder_plug_perm t k : inorder (plug t k) ≡ₚ inorder t ++ cidx k.
Proof.
  revert t. induction k as [|[c i r|l c i] k IH]; intros t; cbn.
  - by rewrite app_nil_r.
  - rewrite IH. cbn. by rewrite <- app_assoc.
  - rewrite IH. cbn. rewrite <- app_assoc. cbn.
    rewrite <- !Permutation_middle. f_equiv. apply Permutation_app_swap_app.
Qed.

Lemma cidx_app k1 k2 : cidx (k1 ++ k2) ≡ₚ cidx k1 ++ cidx k2.
Proof.
  induction k1 as [|[] k1 IH]; cbn; [done|..]; by rewrite IH, <- app_assoc.
Qed.

(** Every node of a tree can be focused. *)
Lemma focus t i : i ∈ inorder t ->
  exists c l r k, t = plug (Node c l i r) k.
Proof.
  induction t as [|c l IHl j r IHr]; cbn; [set_solver|].
  rewrite elem_of_app, elem_of_cons. intros [Hl | [-> | Hr]].
  - destruct (IHl Hl) as (c' & l' & r' & k & ->).
    exists c', l', r', (k ++ [CL c j r]). by rewrite plug_app.
  - by exists c, l, r, [].
  - destruct (IHr Hr) as (c' & l' & r' & k & ->).
    exists c', l', r', (k ++ [CR l c j]). by rewrite plug_app.
Qed.

(** A step to the left of a node. *)
Definition is_CL (f : crumb) : Prop := match f with CL _ _ _ => True | _ => False end.

Lemma before_CL k : Forall is_CL k -> before k = [].
Proof. induction 1 as [|[] k]; cbn; [done | done | contradiction]. Qed.

(* ------------------------------------------------------------------ *)
(** ** Red-black invariants *)

(** [rb c n t]: [t] is a red-black tree with root colour [c] and black height
    [n]; a red node has black children. *)
Inductive rb : Z -> nat -> tree -> Prop :=
| rb_leaf : rb RB_BLACK 0 Leaf
| rb_red n l i r :
    rb RB_BLACK n l -> rb RB_BLACK n r -> rb RB_RED n (Node RB_RED l i r)
| rb_black n cl cr l i r :
    rb cl n l -> rb cr n r -> rb RB_BLACK (S n) (Node RB_BLACK l i r).

(** A red-black tree as a whole: its root is black. *)
Definition rbtree (t : tree) : Prop := exists n, rb RB_BLACK n t.

(** [ctx_rb k red n]: the context becomes a red-black tree when plugged with a
    tree of black height [n], which may be red only if [red]. *)
Inductive ctx_rb : ctx -> bool -> nat -> Prop :=
| ctx_rb_nil n : ctx_rb [] false n
| ctx_rb_Lb a n c i r k :
    rb c n r -> ctx_rb k a (S n) -> ctx_rb (CL RB_BLACK i r :: k) true n
| ctx_rb_Rb a n c i l k :
    rb c n l -> ctx_rb k a (S n) -> ctx_rb (CR l RB_BLACK i :: k) true n
| ctx_rb_Lr n i r k :
    rb RB_BLACK n r -> ctx_rb k true n -> ctx_rb (CL RB_RED i r :: k) false n
| ctx_rb_Rr n i l k :
    rb RB_BLACK n l -> ctx_rb k true n -> ctx_rb (CR l RB_RED i :: k) false n.

Create HintDb rbdb discriminated.
#[export] Hint Constructors rb ctx_rb : rbdb.

Lemma rb_color c n t : rb c n t -> color_of t = c.
Proof. by inversion 1. Qed.

Lemma rb_colors c n t : rb c n t -> c = RB_RED \/ c = RB_BLACK.
Proof. inversion 1; auto. Qed.

Lemma rb_nonleaf c n t : rb c (S n) t -> exists l i r, t = Node c l i r.
Proof. inversion 1; eauto. Qed.

Lemma rb_blacken c n t : rb c n t -> exists m, rb RB_BLACK m (blacken t) /\
  (c = RB_RED -> m = S n).
Proof. inversion 1; subst; cbn; eauto 6 with rbdb; eexists; split; eauto with rbdb; done. Qed.

Lemma rb_blacken_id n t : rb RB_BLACK n t -> blacken t = t.
Proof. by inversion 1. Qed.

Lemma rb_plug c n t k a :
  rb c n t -> ctx_rb k a n -> (c = RB_RED -> a = true) -> rbtree (plug t k).
Proof.
  intros Ht Hk. revert c t Ht. induction Hk; intros c0 t Ht Hc; cbn.
  - destruct (rb_colors _ _ _ Ht) as [-> | ->]; [by specialize (Hc eq_refl)|].
    by exists n.
  - eapply IHHk; [by econstructor | done].
  - eapply IHHk; [by econstructor | done].
  - destruct (rb_colors _ _ _ Ht) as [-> | ->]; [by specialize (Hc eq_refl)|].
    eapply IHHk; [by econstructor | done].
  - destruct (rb_colors _ _ _ Ht) as [-> | ->]; [by specialize (Hc eq_refl)|].
    eapply IHHk; [by econstructor | done].
Qed.

(** Conversely a focused red-black tree splits into its two parts. *)
Lemma rb_unplug t k a0 c0 n0 :
  rb c0 n0 (plug t k) -> (c0 = RB_RED -> a0 = true) -> forall k0,
  ctx_rb k0 a0 n0 ->
  exists c n a, rb c n t /\ ctx_rb (k ++ k0) a n /\ (c = RB_RED -> a = true).
Proof.
  revert t. induction k as [|f k IH]; intros t Ht Hc k0 Hk0; cbn in *.
  - by exists c0, n0, a0.
  - destruct (IH _ Ht Hc k0 Hk0) as (c & n & a & Hp & Hk & Hca).
    destruct f as [c' i r|l c' i]; inversion Hp; subst; cbn.
    + rewrite (Hca eq_refl) in Hk.
      exists RB_BLACK, n, false. split; [done|]. split; [|done]. by constructor.
    + eexists _, _, true. split; [done|]. split; [|done]. by econstructor.
    + rewrite (Hca eq_refl) in Hk.
      exists RB_BLACK, n, false. split; [done|]. split; [|done]. by constructor.
    + eexists _, _, true. split; [done|]. split; [|done]. by econstructor.
Qed.

Lemma rbtree_unplug t k :
  rbtree (plug t k) ->
  exists c n a, rb c n t /\ ctx_rb k a n /\ (c = RB_RED -> a = true).
Proof.
  intros [n H].
  destruct (rb_unplug t k false RB_BLACK n H ltac:(done) [] (ctx_rb_nil n))
    as (c & m & a & ? & Hk & ?).
  rewrite app_nil_r in Hk. by exists c, m, a.
Qed.

(* ------------------------------------------------------------------ *)
(** ** Height: twice the logarithm of the size *)

Lemma height_inorder t : (height t <= length (inorder t))%nat.
Proof. induction t; cbn; rewrite ?length_app; cbn; lia. Qed.

Lemma rb_size c n t : rb c n t -> 2 ^ Z.of_nat n <= Z.of_nat (length (inorder t)) + 1.
Proof.
  induction 1; cbn [inorder]; rewrite ?length_app; cbn [length].
  - done.
  - lia.
  - rewrite Nat2Z.inj_succ, Z.pow_succ_r by lia. lia.
Qed.

Lemma rb_height c n t : rb c n t ->
  (height t <= 2 * n + (if decide (c = RB_RED) then 1 else 0))%nat.
Proof.
  induction 1; cbn [height]; repeat case_decide; try done; lia.
Qed.

Lemma rbtree_height t :
  rbtree t -> 2 ^ (Z.of_nat (height t) / 2) <= Z.of_nat (length (inorder t)) + 1.
Proof.
  intros [n H]. etransitivity; [|by eapply rb_size].
  apply Z.pow_le_mono_r; [lia|].
  pose proof (rb_height _ _ _ H). case_decide; [done|].
  transitivity (Z.of_nat (2 * n) / 2); [apply Z.div_le_mono; lia|].
  rewrite Nat2Z.inj_mul, Z.mul_comm, Z.div_mul by lia. lia.
Qed.
