(* ===== verification/RbHeap.v ===== *)
(** * Red-black trees in a node pool

    The rotations, the two fix-up loops, transplant and removal shared by
    [src/state/intent_tree.rs] and [src/state/seat_tree.rs], written once over the
    interface the two files implement (their field accessors), with the proof that
    they implement the red-black trees of [RbTree]. *)
From S2P Require Import Prelude IntentBook RbTree.

(** The accessors of a pointer tree in a pool of nodes: what
    [get_left] .. [set_tree_root] are in the two files. *)
Class RbAccess (S : Type) := {
  get_left : Z -> M S Z;
  get_right : Z -> M S Z;
  get_parent : Z -> M S Z;
  get_color : Z -> M S Z;
  set_left : Z -> Z -> M S unit;
  set_right : Z -> Z -> M S unit;
  set_parent : Z -> Z -> M S unit;
  set_color : Z -> Z -> M S unit;
  tree_root : M S Z;
  set_tree_root : Z -> M S unit;
  (** whether a rotation refuses a missing child (intent trees do) *)
  null_check : bool;
  (** bound on the iterations of a loop, from the size of the pool *)
  node_fuel : S -> nat;
}.

Section algorithms.
Context {S : Type} `{RbAccess S}.

Definition rotate_left (x : Z) : M S unit :=
  y ← get_right x;
  bail_if (null_check && (y =? NULL_IDX)) InvalidAccountData;;
  y_left ← get_left y;
  set_right x y_left;;
  when (negb (y_left =? NULL_IDX)) (set_parent y_left x);;
  x_parent ← get_parent x;
  set_parent y x_parent;;
  (if x_parent =? NULL_IDX then set_tree_root y
   else
     xpl ← get_left x_parent;
     if xpl =? x then set_left x_parent y else set_right x_parent y);;
  set_left y x;;
  set_parent x y.

Definition rotate_right (x : Z) : M S unit :=
  y ← get_left x;
  bail_if (null_check && (y =? NULL_IDX)) InvalidAccountData;;
  y_right ← get_right y;
  set_left x y_right;;
  when (negb (y_right =? NULL_IDX)) (set_parent y_right x);;
  x_parent ← get_parent x;
  set_parent y x_parent;;
  (if x_parent =? NULL_IDX then set_tree_root y
   else
     xpr ← get_right x_parent;
     if xpr =? x then set_right x_parent y else set_left x_parent y);;
  set_right y x;;
  set_parent x y.

(** One test of [while get_parent(z) != NULL && color(get_parent(z)) == RED] *)
Definition parent_is_red (z : Z) : M S bool :=
  zp ← get_parent z;
  if negb (zp =? NULL_IDX) then
    zp' ← get_parent z; c ← get_color zp'; mret (c =? RB_RED)
  else mret false.

(** [y != NULL && get_color(y) == RB_RED] *)
Definition uncle_is_red (y : Z) : M S bool :=
  if negb (y =? NULL_IDX) then c ← get_color y; mret (c =? RB_RED)
  else mret false.

(** One iteration of the insert fix-up; returns the next [z]. *)
Definition insert_fixup_step (z : Z) : M S Z :=
  p ← get_parent z;
  gp ← get_parent p;
  gpl ← get_left gp;
  if p =? gpl then
    y ← get_right gp;
    red ← uncle_is_red y;
    if red : bool then
      set_color p RB_BLACK;;
      set_color y RB_BLACK;;
      set_color gp RB_RED;;
      mret gp
    else
      pr ← get_right p;
      z ← (if z =? pr then rotate_left p;; mret p else mret z);
      p ← get_parent z;
      gp ← get_parent p;
      set_color p RB_BLACK;;
      set_color gp RB_RED;;
      rotate_right gp;;
      mret z
  else
    y ← get_left gp;
    red ← uncle_is_red y;
    if red : bool then
      set_color p RB_BLACK;;
      set_color y RB_BLACK;;
      set_color gp RB_RED;;
      mret gp
    else
      pl ← get_left p;
      z ← (if z =? pl then rotate_right p;; mret p else mret z);
      p ← get_parent z;
      gp ← get_parent p;
      set_color p RB_BLACK;;
      set_color gp RB_RED;;
      rotate_left gp;;
      mret z.

Fixpoint insert_fixup_loop (fuel : nat) (z : Z) : M S unit :=
  match fuel with
  | O => lift Diverge
  | Datatypes.S fuel =>
      go ← parent_is_red z;
      if go : bool then z ← insert_fixup_step z; insert_fixup_loop fuel z
      else mret tt
  end.

Definition insert_fixup (z : Z) : M S unit :=
  fuel ← gets node_fuel;
  insert_fixup_loop fuel z;;
  root ← tree_root;
  when (negb (root =? NULL_IDX)) (set_color root RB_BLACK).

(** The descent of an insertion: [go_left j] compares the new node with node
    [j]; the leaf position is below [parent], on the side of the last answer. *)
Fixpoint descend (fuel : nat) (go_left : Z -> M S bool) (root : Z) : M S (Z * bool) :=
  match fuel with
  | O => lift Diverge
  | Datatypes.S fuel =>
      less ← go_left root;
      if less : bool then
        l ← get_left root;
        if l =? NULL_IDX then mret (root, true) else descend fuel go_left l
      else
        r ← get_right root;
        if r =? NULL_IDX then mret (root, false) else descend fuel go_left r
  end.

(** The shared body of the two [insert]s, on a node already reset to a red leaf. *)
Definition insert_node (go_left : Z -> M S bool) (idx : Z) : M S unit :=
  root ← tree_root;
  if root =? NULL_IDX then
    set_color idx RB_BLACK;;
    set_tree_root idx
  else
    fuel ← gets node_fuel;
    '(parent, less) ← descend fuel go_left root;
    set_parent idx parent;;
    (if less : bool then set_left parent idx else set_right parent idx);;
    insert_fixup idx.

Fixpoint tree_minimum_loop (fuel : nat) (idx : Z) : M S Z :=
  match fuel with
  | O => lift Diverge
  | Datatypes.S fuel =>
      if negb (idx =? NULL_IDX) then
        l ← get_left idx;
        if l =? NULL_IDX then mret idx else tree_minimum_loop fuel l
      else mret NULL_IDX
  end.

Definition tree_minimum (idx : Z) : M S Z :=
  fuel ← gets node_fuel; tree_minimum_loop fuel idx.

Definition transplant (u v : Z) : M S unit :=
  up ← get_parent u;
  (if up =? NULL_IDX then set_tree_root v
   else
     upl ← get_left up;
     if u =? upl then set_left up v else set_right up v);;
  when (negb (v =? NULL_IDX)) (set_parent v up).

(** [color(first(w)) == BLACK && color(second(w)) == BLACK] *)
Definition children_black (first second : Z -> M S Z) (w : Z) : M S bool :=
  l ← first w;
  c ← get_color l;
  if c =? RB_BLACK then
    r ← second w; c' ← get_color r; mret (c' =? RB_BLACK)
  else mret false.

(** The removal fix-up on one side; [near] is the side of [x], [far] that of its
    sibling [w]; [rotate] and [rotate'] rotate towards [near] and [far].

    Case 1: a red sibling is rotated above the parent; the next sibling. *)
Definition fixup_red_sibling (far : Z -> M S Z) (rotate : Z -> M S unit)
    (x_parent w : Z) : M S Z :=
  wc ← get_color w;
  if wc =? RB_RED then
    set_color w RB_BLACK;;
    set_color x_parent RB_RED;;
    rotate x_parent;;
    far x_parent
  else mret w.

(** Case 3: a black far nephew; rotate the red near one into its place. *)
Definition fixup_near_nephew (near far : Z -> M S Z) (rotate' : Z -> M S unit)
    (x_parent w : Z) : M S Z :=
  wr ← far w;
  wrc ← get_color wr;
  if wrc =? RB_BLACK then
    wl ← near w;
    set_color wl RB_BLACK;;
    set_color w RB_RED;;
    rotate' w;;
    far x_parent
  else mret w.

(** Case 4: a red far nephew. *)
Definition fixup_far_nephew (far : Z -> M S Z) (rotate : Z -> M S unit)
    (x_parent w : Z) : M S unit :=
  xp_color ← get_color x_parent;
  set_color w xp_color;;
  set_color x_parent RB_BLACK;;
  wr ← far w;
  set_color wr RB_BLACK;;
  rotate x_parent.

(** One iteration: the next [(x, x_parent)], or the [x] the [break] leaves. *)
Definition remove_fixup_side (near far : Z -> M S Z) (rotate rotate' : Z -> M S unit)
    (x_parent : Z) : M S ((Z * Z) + Z) :=
  w ← far x_parent;
  w ← fixup_red_sibling far rotate x_parent w;
  black ← children_black near far w;
  if black : bool then
    set_color w RB_RED;;
    let x := x_parent in
    x_parent ← get_parent x;
    mret (inl (x, x_parent))
  else
    w ← fixup_near_nephew near far rotate' x_parent w;
    fixup_far_nephew far rotate x_parent w;;
    x ← tree_root;
    mret (inr x).

Definition remove_fixup_step (x x_parent : Z) : M S ((Z * Z) + Z) :=
  xpl ← get_left x_parent;
  if x =? xpl then
    remove_fixup_side get_left get_right rotate_left rotate_right x_parent
  else
    remove_fixup_side get_right get_left rotate_right rotate_left x_parent.

Fixpoint remove_fixup_loop (fuel : nat) (x x_parent : Z) : M S Z :=
  match fuel with
  | O => lift Diverge
  | Datatypes.S fuel =>
      root ← tree_root;
      go ← (if negb (x =? root) then c ← get_color x; mret (c =? RB_BLACK)
            else mret false);
      if go : bool then
        r ← remove_fixup_step x x_parent;
        match r with
        | inl (x, x_parent) => remove_fixup_loop fuel x x_parent
        | inr x => mret x
        end
      else mret x
  end.

Definition remove_fixup (x x_parent : Z) : M S unit :=
  fuel ← gets node_fuel;
  x ← remove_fixup_loop fuel x x_parent;
  when (negb (x =? NULL_IDX)) (set_color x RB_BLACK).

(** A node with at most one child [x] is replaced by it. *)
Definition splice_out (z x zc : Z) : M S (Z * Z * Z) :=
  zp ← get_parent z;
  transplant z x;;
  x_parent ← (if x =? NULL_IDX then mret zp else get_parent x);
  mret (zc, x, x_parent).

(** Unlink the successor [y] of [z] from below, and hang the rest of [z]'s right
    subtree under it; the parent of the place [y] left. *)
Definition detach_successor (z z_right y x : Z) : M S Z :=
  yp ← get_parent y;
  if yp =? z then
    when (negb (x =? NULL_IDX)) (set_parent x y);;
    mret y
  else
    yp ← get_parent y;
    yr ← get_right y;
    transplant y yr;;
    set_right y z_right;;
    set_parent z_right y;;
    mret yp.

(** A node with two children is replaced by its successor. *)
Definition splice_successor (z z_left z_right : Z) : M S (Z * Z * Z) :=
  y ← tree_minimum z_right;
  yc ← get_color y;
  x ← get_right y;
  x_parent ← detach_successor z z_right y x;
  transplant z y;;
  set_left y z_left;;
  set_parent z_left y;;
  z_color ← get_color z;
  set_color y z_color;;
  mret (yc, x, x_parent).

(** Remove node [z]; its own fields are left as they are. *)
Definition remove (z : Z) : M S unit :=
  bail_if (z =? NULL_IDX) IntentNotFound;;
  zc ← get_color z;
  z_left ← get_left z;
  z_right ← get_right z;
  '(y_original_color, x, x_parent) ←
    (if z_left =? NULL_IDX then splice_out z z_right zc
     else if z_right =? NULL_IDX then splice_out z z_left zc
     else splice_successor z z_left z_right);
  when (y_original_color =? RB_BLACK) (remove_fixup x x_parent).
End algorithms.

(* ------------------------------------------------------------------ *)
(** ** What the accessors promise *)

Record Link := mk_link { lk_color : Z; lk_left : Z; lk_right : Z; lk_parent : Z }.

Definition lk_set_color (l : Link) v := mk_link v l.(lk_left) l.(lk_right) l.(lk_parent).
Definition lk_set_left (l : Link) v := mk_link l.(lk_color) v l.(lk_right) l.(lk_parent).
Definition lk_set_right (l : Link) v := mk_link l.(lk_color) l.(lk_left) v l.(lk_parent).
Definition lk_set_parent (l : Link) v := mk_link l.(lk_color) l.(lk_left) l.(lk_right) v.

(** The abstract state of a pool: the links of its live nodes and a root. [same]
    relates two states that differ only in links and root. *)
Class RbView (S : Type) := {
  links : S -> gmap Z Link;
  root : S -> Z;
  same : relation S;
}.

Definition st {S} `{RbView S} (s0 s : S) (h : gmap Z Link) (r : Z) : Prop :=
  links s = h /\ root s = r /\ same s0 s.

Class RbLaws (S : Type) `{RbAccess S, RbView S} := {
  same_preorder :: PreOrder same;
  links_null s : links s !! 0 = None;
  fuel_same s s' : same s s' -> node_fuel s = node_fuel s';
  fuel_enough s (l : list Z) :
    NoDup l -> (forall i, i ∈ l -> is_Some (links s !! i)) -> (length l < node_fuel s)%nat;
  get_left_ok s i l : links s !! i = Some l -> get_left i s = (Ok l.(lk_left), s);
  get_right_ok s i l : links s !! i = Some l -> get_right i s = (Ok l.(lk_right), s);
  get_parent_ok s i l : links s !! i = Some l -> get_parent i s = (Ok l.(lk_parent), s);
  get_color_ok s i l : links s !! i = Some l -> get_color i s = (Ok l.(lk_color), s);
  get_left_null s : get_left 0 s = (Ok 0, s);
  get_right_null s : get_right 0 s = (Ok 0, s);
  get_parent_null s : get_parent 0 s = (Ok 0, s);
  get_color_null s : get_color 0 s = (Ok RB_BLACK, s);
  set_color_null s c : set_color 0 c s = (Ok tt, s);
  set_left_ok s i l v : links s !! i = Some l ->
    exists s', set_left i v s = (Ok tt, s') /\ st s s' (<[i := lk_set_left l v]> (links s)) (root s);
  set_right_ok s i l v : links s !! i = Some l ->
    exists s', set_right i v s = (Ok tt, s') /\ st s s' (<[i := lk_set_right l v]> (links s)) (root s);
  set_parent_ok s i l v : links s !! i = Some l ->
    exists s', set_parent i v s = (Ok tt, s') /\ st s s' (<[i := lk_set_parent l v]> (links s)) (root s);
  set_color_ok s i l v : links s !! i = Some l ->
    exists s', set_color i v s = (Ok tt, s') /\ st s s' (<[i := lk_set_color l v]> (links s)) (root s);
  tree_root_ok s : tree_root s = (Ok (root s), s);
  set_tree_root_ok s v :
    exists s', set_tree_root v s = (Ok tt, s') /\ st s s' (links s) v;
}.

(* ------------------------------------------------------------------ *)
(** ** Representation of trees and zippers *)

Fixpoint tree_at (h : gmap Z Link) (t : tree) (p : Z) : Prop :=
  match t with
  | Leaf => True
  | Node c l i r =>
      h !! i = Some (mk_link c (top l) (top r) p) /\ tree_at h l i /\ tree_at h r i
  end.

Fixpoint ctx_at (h : gmap Z Link) (rt : Z) (k : ctx) (child : Z) : Prop :=
  match k with
  | [] => rt = child
  | CL c i r :: k =>
      h !! i = Some (mk_link c child (top r) (ctx_top k)) /\
      tree_at h r i /\ ctx_at h rt k i
  | CR l c i :: k =>
      h !! i = Some (mk_link c (top l) child (ctx_top k)) /\
      tree_at h l i /\ ctx_at h rt k i
  end.

(** The pool holds the tree [t] in the context [k]. *)
Definition zip_at (h : gmap Z Link) (rt : Z) (t : tree) (k : ctx) : Prop :=
  tree_at h t (ctx_top k) /\ ctx_at h rt k (top t) /\ NoDup (inorder t ++ cidx k) /\
  h !! 0 = None.

(** The pool holds the whole tree [t]. *)
Definition rep (h : gmap Z Link) (rt : Z) (t : tree) : Prop := zip_at h rt t [].

Section frames.
Implicit Types (h : gmap Z Link) (t : tree) (k : ctx).

Lemma tree_at_frame h h' t p :
  (forall j, j ∈ inorder t -> h' !! j = h !! j) -> tree_at h t p -> tree_at h' t p.
Proof.
  revert p. induction t as [|c l IHl i r IHr]; intros p Hf; cbn; [done|].
  intros (Hi & Hl & Hr). rewrite Hf by set_solver.
  split; [done|]. split; [apply IHl | apply IHr]; try done; set_solver.
Qed.

Lemma ctx_at_frame h h' rt k v :
  (forall j, j ∈ cidx k -> h' !! j = h !! j) -> ctx_at h rt k v -> ctx_at h' rt k v.
Proof.
  revert v. induction k as [|[c i r|l c i] k IH]; intros v Hf; cbn; [done|..];
    intros (Hi & Ht & Hk); cbn in Hf; rewrite Hf by set_solver;
    (split; [done|]; split; [eapply tree_at_frame; [|done]; set_solver|]);
    apply IH; try done; set_solver.
Qed.

Lemma tree_at_insert h t p j l :
  j ∉ inorder t -> tree_at h t p -> tree_at (<[j := l]> h) t p.
Proof.
  intros Hj. apply tree_at_frame. intros i Hi. apply lookup_insert_ne. congruence.
Qed.

Lemma ctx_at_insert h rt k v j l :
  j ∉ cidx k -> ctx_at h rt k v -> ctx_at (<[j := l]> h) rt k v.
Proof.
  intros Hj. apply ctx_at_frame. intros i Hi. apply lookup_insert_ne. congruence.
Qed.

Lemma tree_at_dom h t p i : tree_at h t p -> i ∈ inorder t -> is_Some (h !! i).
Proof.
  revert p. induction t as [|c l IHl j r IHr]; intros p; cbn; [set_solver|].
  intros (Hj & Hl & Hr). rewrite elem_of_app, elem_of_cons.
  intros [? | [-> | ?]]; eauto.
Qed.

Lemma ctx_at_dom h rt k v i : ctx_at h rt k v -> i ∈ cidx k -> is_Some (h !! i).
Proof.
  revert v. induction k as [|[c j r|l c j] k IH]; intros v; cbn; [set_solver|..];
    intros (Hj & Ht & Hk); rewrite elem_of_cons, elem_of_app;
    intros [-> | [? | ?]]; eauto using tree_at_dom.
Qed.

(** Moving the focus keeps the pool's contents. *)
Lemma zip_at_up h rt t f k : zip_at h rt t (f :: k) <-> zip_at h rt (plug1 t f) k.
Proof.
  unfold zip_at. destruct f as [c i r|l c i]; cbn.
  - rewrite <- app_assoc. cbn. tauto.
  - assert ((inorder l ++ i :: inorder t) ++ cidx k
            ≡ₚ inorder t ++ i :: inorder l ++ cidx k) as ->; [|tauto].
    rewrite <- app_assoc. cbn. rewrite <- !Permutation_middle. f_equiv.
    apply Permutation_app_swap_app.
Qed.

Lemma zip_at_plug h rt t k1 k2 : zip_at h rt t (k1 ++ k2) <-> zip_at h rt (plug t k1) k2.
Proof.
  revert t. induction k1 as [|f k1 IH]; intros t; [done|].
  cbn [app]. by rewrite zip_at_up, IH.
Qed.

Lemma zip_at_rep h rt t k : zip_at h rt t k <-> rep h rt (plug t k).
Proof. unfold rep. rewrite <- zip_at_plug. by rewrite app_nil_r. Qed.

Lemma zip_at_nodup h rt t k : zip_at h rt t k -> NoDup (inorder t ++ cidx k).
Proof. intros (_ & _ & ? & _). done. Qed.

Lemma zip_at_dom h rt t k i :
  zip_at h rt t k -> i ∈ inorder t ++ cidx k -> is_Some (h !! i) /\ i <> 0.
Proof.
  intros (Ht & Hk & _ & H0) Hi. assert (is_Some (h !! i)) as [l Hl].
  { apply elem_of_app in Hi as [?|?]; eauto using tree_at_dom, ctx_at_dom. }
  split; [by exists l|]. congruence.
Qed.
End frames.
