(* ===== verification/RbCorrect.v ===== *)
(** * The pointer algorithms implement red-black trees

    Total correctness of rotation, insert fix-up, transplant and removal of
    [RbHeap] against the zippers of [RbTree]: each run ends with a value, keeps
    the red-black invariants and the in-order sequence, and touches no link
    outside the tree. *)
From S2P Require Import Prelude IntentBook RbTree RbHeap.

#[export] Existing Instance same_preorder.

(** Facts about distinct indices out of a [NoDup] hypothesis. *)
Ltac nodup_facts H :=
  cbn [inorder cidx app] in H;
  repeat (rewrite <- app_assoc in H; cbn [app] in H);
  rewrite <- ?Permutation_middle in H;
  rewrite ?NoDup_cons, ?not_elem_of_cons, ?not_elem_of_app in H;
  destruct_and? H.

Ltac nonnull :=
  match goal with
  | H0 : ?h !! 0 = None |- _ =>
      repeat match goal with
      | H : h !! ?i = Some _ |- _ =>
          lazymatch goal with
          | _ : i <> 0 |- _ => fail
          | _ => assert (i <> 0) by (intros ->; rewrite H0 in H; discriminate)
          end
      end
  end.

Lemma top_ne t x : x ∉ inorder t -> x <> 0 -> top t <> x.
Proof. destruct t; cbn; [congruence|]. rewrite not_elem_of_app, not_elem_of_cons. intros []; intuition congruence. Qed.

Ltac ne :=
  solve [ assumption | apply not_eq_sym; assumption | congruence
        | apply top_ne; assumption | apply not_eq_sym; apply top_ne; assumption ].

Ltac look :=
  lazymatch goal with
  | |- <[?i := _]> _ !! ?i = Some _ => rewrite lookup_insert_eq; reflexivity
  | |- <[?j := _]> _ !! ?i = Some _ => rewrite lookup_insert_ne by ne; look
  | |- _ !! _ = Some _ => eassumption
  | |- <[?j := _]> _ !! 0 = None => rewrite lookup_insert_ne by ne; look
  | |- _ !! 0 = None => eassumption
  end.

Section wp.
Context {S : Type} {HA : RbAccess S} {HV : RbView S} {HL : RbLaws S}.
Implicit Types (s : S) (h : gmap Z Link) (r : Z).

Lemma st_refl s : st s s (links s) (root s).
Proof. by unfold st. Qed.

Lemma st_trans s0 s s' h r h' r' : st s0 s h r -> st s s' h' r' -> st s0 s' h' r'.
Proof. intros (_ & _ & ?) (? & ? & ?). split_and!; try done. by etrans. Qed.

Lemma wp_get_left s0 s h r i l (Q : Z -> S -> Prop) :
  st s0 s h r -> h !! i = Some l -> Q l.(lk_left) s -> runs (get_left i) s Q.
Proof. intros (<- & _) Hi HQ. unfold runs. by rewrite (get_left_ok _ _ _ Hi). Qed.
Lemma wp_get_right s0 s h r i l (Q : Z -> S -> Prop) :
  st s0 s h r -> h !! i = Some l -> Q l.(lk_right) s -> runs (get_right i) s Q.
Proof. intros (<- & _) Hi HQ. unfold runs. by rewrite (get_right_ok _ _ _ Hi). Qed.
Lemma wp_get_parent s0 s h r i l (Q : Z -> S -> Prop) :
  st s0 s h r -> h !! i = Some l -> Q l.(lk_parent) s -> runs (get_parent i) s Q.
Proof. intros (<- & _) Hi HQ. unfold runs. by rewrite (get_parent_ok _ _ _ Hi). Qed.
Lemma wp_get_color s0 s h r i l (Q : Z -> S -> Prop) :
  st s0 s h r -> h !! i = Some l -> Q l.(lk_color) s -> runs (get_color i) s Q.
Proof. intros (<- & _) Hi HQ. unfold runs. by rewrite (get_color_ok _ _ _ Hi). Qed.

(** The colour of a possibly empty subtree. *)
Lemma wp_get_color_top s0 s h r t p (Q : Z -> S -> Prop) :
  st s0 s h r -> tree_at h t p -> Q (color_of t) s -> runs (get_color (top t)) s Q.
Proof.
  intros Hst Ht HQ. destruct t; cbn in *.
  - unfold runs. by rewrite get_color_null.
  - eapply wp_get_color; [done | apply Ht | done].
Qed.

Lemma wp_set_left s0 s h r i l v (Q : unit -> S -> Prop) :
  st s0 s h r -> h !! i = Some l ->
  (forall s', st s0 s' (<[i := lk_set_left l v]> h) r -> Q tt s') ->
  runs (set_left i v) s Q.
Proof.
  intros Hst Hi HQ. pose proof Hst as (<- & <- & _).
  destruct (set_left_ok _ _ _ v Hi) as (s' & E & ?). unfold runs. rewrite E.
  apply HQ. by eapply st_trans.
Qed.
Lemma wp_set_right s0 s h r i l v (Q : unit -> S -> Prop) :
  st s0 s h r -> h !! i = Some l ->
  (forall s', st s0 s' (<[i := lk_set_right l v]> h) r -> Q tt s') ->
  runs (set_right i v) s Q.
Proof.
  intros Hst Hi HQ. pose proof Hst as (<- & <- & _).
  destruct (set_right_ok _ _ _ v Hi) as (s' & E & ?). unfold runs. rewrite E.
  apply HQ. by eapply st_trans.
Qed.
Lemma wp_set_parent s0 s h r i l v (Q : unit -> S -> Prop) :
  st s0 s h r -> h !! i = Some l ->
  (forall s', st s0 s' (<[i := lk_set_parent l v]> h) r -> Q tt s') ->
  runs (set_parent i v) s Q.
Proof.
  intros Hst Hi HQ. pose proof Hst as (<- & <- & _).
  destruct (set_parent_ok _ _ _ v Hi) as (s' & E & ?). unfold runs. rewrite E.
  apply HQ. by eapply st_trans.
Qed.
Lemma wp_set_color s0 s h r i l v (Q : unit -> S -> Prop) :
  st s0 s h r -> h !! i = Some l ->
  (forall s', st s0 s' (<[i := lk_set_color l v]> h) r -> Q tt s') ->
  runs (set_color i v) s Q.
Proof.
  intros Hst Hi HQ. pose proof Hst as (<- & <- & _).
  destruct (set_color_ok _ _ _ v Hi) as (s' & E & ?). unfold runs. rewrite E.
  apply HQ. by eapply st_trans.
Qed.
Lemma wp_tree_root s0 s h r (Q : Z -> S -> Prop) :
  st s0 s h r -> Q r s -> runs tree_root s Q.
Proof. intros (_ & <- & _) HQ. unfold runs. by rewrite tree_root_ok. Qed.
Lemma wp_set_tree_root s0 s h r v (Q : unit -> S -> Prop) :
  st s0 s h r -> (forall s', st s0 s' h v -> Q tt s') -> runs (set_tree_root v) s Q.
Proof.
  intros Hst HQ. pose proof Hst as (<- & <- & _).
  destruct (set_tree_root_ok s v) as (s' & E & ?). unfold runs. rewrite E.
  apply HQ. by eapply st_trans.
Qed.
Lemma wp_fuel s0 s h r (Q : nat -> S -> Prop) :
  st s0 s h r -> Q (node_fuel s0) s -> runs (gets node_fuel) s Q.
Proof. intros (_ & _ & E) HQ. unfold runs, gets. by rewrite <- (fuel_same _ _ E). Qed.
End wp.

(** Decide the pointer comparison a branch tests. *)
Ltac cmp :=
  match goal with
  | |- context [?a =? ?a] => rewrite Z.eqb_refl
  | |- context [?a =? ?b] => rewrite (proj2 (Z.eqb_neq a b)) by ne
  end; cbn [negb andb].

Ltac wp1 :=
  cbn [lk_color lk_left lk_right lk_parent lk_set_color lk_set_left lk_set_right
       lk_set_parent top ctx_top negb]; unfold NULL_IDX;
  lazymatch goal with
  | |- runs (mbind _ _) _ _ => apply runs_bind
  | |- runs (mret _) _ _ => apply runs_ret
  | |- runs (get_left _) _ _ => eapply wp_get_left; [eassumption | look |]
  | |- runs (get_right _) _ _ => eapply wp_get_right; [eassumption | look |]
  | |- runs (get_parent _) _ _ => eapply wp_get_parent; [eassumption | look |]
  | |- runs (get_color _) _ _ => eapply wp_get_color; [eassumption | look |]
  | |- runs tree_root _ _ => eapply wp_tree_root; [eassumption |]
  | |- runs (set_left _ _) ?s _ =>
      eapply wp_set_left; [eassumption | look | clear dependent s; intros ? ?]
  | |- runs (set_right _ _) ?s _ =>
      eapply wp_set_right; [eassumption | look | clear dependent s; intros ? ?]
  | |- runs (set_parent _ _) ?s _ =>
      eapply wp_set_parent; [eassumption | look | clear dependent s; intros ? ?]
  | |- runs (set_color _ _) ?s _ =>
      eapply wp_set_color; [eassumption | look | clear dependent s; intros ? ?]
  | |- runs (set_tree_root _) ?s _ =>
      eapply wp_set_tree_root; [eassumption | clear dependent s; intros ? ?]
  | |- runs (bail_if _ _) _ _ =>
      apply runs_bail_if; [cmp; rewrite ?andb_false_r; reflexivity |]
  | |- runs (when _ _) _ _ => unfold when; cmp
  | |- runs (if _ then _ else _) _ _ => cmp
  end.

(** The pool after a sequence of updates still holds the given parts. *)
Ltac fin :=
  cbn [plug1 tree_at ctx_at top ctx_top lk_color lk_left lk_right lk_parent lk_set_color
       lk_set_left lk_set_right lk_set_parent inorder cidx];
  repeat match goal with
  | |- _ /\ _ => split
  | |- True => exact I
  | |- tree_at (<[_ := _]> _) _ _ => apply tree_at_insert; [assumption|]
  | |- ctx_at (<[_ := _]> _) _ _ _ => apply ctx_at_insert; [assumption|]
  | |- tree_at _ _ _ => assumption
  | |- ctx_at _ _ _ _ => assumption
  | |- _ !! _ = Some _ => look
  | |- _ !! 0 = None => look
  | |- ?a = ?a => reflexivity
  end.

(** Links outside [l] are those of before. *)
Definition frame (l : list Z) (h h' : gmap Z Link) : Prop :=
  forall j, j ∉ l -> h' !! j = h !! j.

Lemma frame_refl l h : frame l h h.
Proof. by intros j. Qed.
Lemma frame_insert l h h' j v : j ∈ l -> frame l h h' -> frame l h (<[j := v]> h').
Proof. intros Hj Hf i Hi. rewrite lookup_insert_ne; [by apply Hf | set_solver]. Qed.
Lemma frame_trans l h1 h2 h3 : frame l h1 h2 -> frame l h2 h3 -> frame l h1 h3.
Proof. intros H12 H23 j Hj. by rewrite H23, H12. Qed.
Lemma frame_perm l l' h h' : l ≡ₚ l' -> frame l h h' -> frame l' h h'.
Proof. intros E Hf j Hj. apply Hf. by rewrite E. Qed.

#[export] Instance frame_proper : Proper ((≡ₚ) ==> eq ==> eq ==> iff) frame.
Proof. intros l l' E h ? <- h' ? <-. split; by apply frame_perm. Qed.

Ltac fin_frame :=
  repeat (apply frame_insert; [cbn [inorder cidx]; clear; set_solver|]); apply frame_refl.

(** Present the final state and leave the parts of [zip_at]. *)
Ltac same_nodup :=
  match goal with
  | H : NoDup ?l |- NoDup ?l' =>
      replace l' with l
        by (cbn [inorder cidx app];
            repeat (rewrite <- app_assoc; cbn [app]); reflexivity); exact H
  end.
Ltac close_state :=
  match goal with
  | Hs : st _ ?s' ?h' ?r' |- _ => exists h', r'; split; [exact Hs|]
  end;
  split; [|fin_frame];
  unfold zip_at; split; [|split; [|split; [same_nodup|]]].

Section rotations.
Context {S : Type} {HA : RbAccess S} {HV : RbView S} {HL : RbLaws S}.
Implicit Types (s : S) (h : gmap Z Link) (r : Z).

(** A rotation at the focus rearranges two nodes and keeps the rest. *)
Definition rotated (s0 s' : S) h (t : tree) (k : ctx) : Prop :=
  exists h' r', st s0 s' h' r' /\ zip_at h' r' t k /\ frame (inorder t ++ cidx k) h h'.

Lemma rotate_left_ok s0 s h r cx a x cy b y d k :
  st s0 s h r -> zip_at h r (Node cx a x (Node cy b y d)) k ->
  runs (rotate_left x) s (fun _ s' => rotated s0 s' h (Node cy (Node cx a x b) y d) k).
Proof.
  intros Hst (Ht & Hk & Hnd & Hnull). unfold rotate_left. pose proof Hnd as Hnd'.
  destruct b as [|cb bl bi br], k as [|[ck ik rk|lk ck ik] k];
    cbn [tree_at ctx_at top ctx_top] in Ht, Hk; destruct_and? Ht; destruct_and? Hk;
    nodup_facts Hnd; nonnull; repeat wp1.
  all: close_state; fin.
Qed.

Lemma rotate_right_ok s0 s h r cx a x cy b y d k :
  st s0 s h r -> zip_at h r (Node cx (Node cy a y b) x d) k ->
  runs (rotate_right x) s (fun _ s' => rotated s0 s' h (Node cy a y (Node cx b x d)) k).
Proof.
  intros Hst (Ht & Hk & Hnd & Hnull). unfold rotate_right. pose proof Hnd as Hnd'.
  destruct b as [|cb bl bi br], k as [|[ck ik rk|lk ck ik] k];
    cbn [tree_at ctx_at top ctx_top] in Ht, Hk; destruct_and? Ht; destruct_and? Hk;
    nodup_facts Hnd; nonnull; repeat wp1.
  all: close_state; fin.
Qed.
End rotations.

(** Unfold what the pool holds at a focus into facts about its links. *)
Ltac open_zip Hz :=
  let Ht := fresh "Ht" in let Hk := fresh "Hk" in
  let Hnd := fresh "Hnd" in let Hnull := fresh "Hnull" in
  pose proof Hz as (Ht & Hk & Hnd & Hnull);
  let Hnd' := fresh "Hnd'" in
  pose proof Hnd as Hnd';
  cbn [tree_at ctx_at top ctx_top] in Ht, Hk; destruct_and? Ht; destruct_and? Hk;
  nodup_facts Hnd; nonnull.

Ltac close_zip :=
  unfold zip_at; split; [fin|split; [fin|split; [same_nodup|fin]]].

Ltac listeq := cbn [inorder app]; repeat (rewrite <- app_assoc; cbn [app]); reflexivity.

Section insertion.
Context {S : Type} {HA : RbAccess S} {HV : RbView S} {HL : RbLaws S}.
Implicit Types (s : S) (h : gmap Z Link) (r : Z).

Lemma uncle_is_red_ok s0 s h r u g (Q : bool -> S -> Prop) :
  st s0 s h r -> h !! 0 = None -> tree_at h u g ->
  Q (color_of u =? RB_RED) s -> runs (uncle_is_red (top u)) s Q.
Proof.
  intros Hst Hnull Hu HQ. unfold uncle_is_red.
  destruct u as [|cu ul ui ur]; cbn [top].
  - exact HQ.
  - destruct Hu as (Hu & _). nonnull. repeat wp1. exact HQ.
Qed.

Lemma parent_is_red_ok s0 s h r t k (Q : bool -> S -> Prop) :
  st s0 s h r -> zip_at h r t k -> t <> Leaf ->
  Q (match k with
     | CL c _ _ :: _ | CR _ c _ :: _ => c =? RB_RED
     | [] => false
     end) s ->
  runs (parent_is_red (top t)) s Q.
Proof.
  intros Hst Hz Ht0 HQ. unfold parent_is_red.
  destruct t as [|ct tl ti tr]; [done|].
  destruct k as [|[c i u|u c i] k]; open_zip Hz; repeat wp1; exact HQ.
Qed.

(** One iteration on the tree [t] of the grandparent: the violation moves up to
    its root, or down to a child of its new black root. *)
Definition progress (s0 : S) h (t : tree) (k : ctx) (x' : Z) (s' : S) : Prop :=
  exists h' r' t' k' n' a', st s0 s' h' r' /\ zip_at h' r' t' k' /\ top t' = x' /\
    frame (inorder t ++ cidx k) h h' /\
    inorder (plug t' k') = inorder (plug t k) /\
    rb RB_RED n' t' /\ ctx_rb k' a' n' /\ (length k' <= Datatypes.S (length k))%nat.

Lemma progress_intro s0 h t k x' s' h' r' t' k' n' a' :
  st s0 s' h' r' -> frame (inorder t ++ cidx k) h h' ->
  zip_at h' r' t' k' -> top t' = x' ->
  inorder (plug t' k') = inorder (plug t k) ->
  rb RB_RED n' t' -> ctx_rb k' a' n' -> (length k' <= Datatypes.S (length k))%nat ->
  progress s0 h t k x' s'.
Proof. unfold progress. eauto 20. Qed.

Lemma rotated_progress s0 s' h1 h t0 k t1 f t x' n' a' :
  rotated s0 s' h1 (plug1 t f) k -> inorder (plug1 t f) = inorder t0 ->
  t1 = plug1 t f ->
  frame (inorder t0 ++ cidx k) h h1 -> top t = x' ->
  rb RB_RED n' t -> ctx_rb (f :: k) a' n' -> progress s0 h t0 k x' s'.
Proof.
  intros (h' & r' & Hst & Hz & Hf) Hin -> Hf0 Hx Hrb Hk.
  eapply progress_intro; [exact Hst | | apply zip_at_up, Hz | done | | done | done | cbn; lia].
  - eapply frame_trans; [done|]. by rewrite <- Hin.
  - cbn [plug foldl]. fold (plug (plug1 t f) k). rewrite !inorder_plug. by rewrite Hin.
Qed.

Lemma insert_step_left_red s0 s h r p g u k :
  st s0 s h r -> zip_at h r (Node RB_BLACK p g u) k -> color_of u = RB_RED ->
  forall a x b z c n b0,
  p = Node RB_RED (Node RB_RED a x b) z c \/ p = Node RB_RED c z (Node RB_RED a x b) ->
  rb RB_RED n (Node RB_RED a x b) -> rb RB_BLACK n c -> rb RB_RED n u ->
  ctx_rb k b0 (Datatypes.S n) ->
  runs (insert_fixup_step x) s (progress s0 h (Node RB_BLACK p g u) k).
Proof.
  intros Hst Hz Eu a x b z c n b0 Hp Ht Hc Hu Hk. unfold insert_fixup_step.
  destruct u as [|cu ul ui ur]; [discriminate|]. inversion Hu; subst.
  destruct Hp as [-> | ->]; open_zip Hz; repeat wp1;
    (eapply (uncle_is_red_ok _ _ _ _ (Node RB_RED ul ui ur)); [eassumption..|fin|rewrite Eu]);
    repeat wp1.
  - eapply (progress_intro _ _ _ _ _ _ _ _
      (Node RB_RED (Node RB_BLACK (Node RB_RED a x b) z c) g (Node RB_BLACK ul ui ur)) k);
      [eassumption|fin_frame|close_zip|reflexivity|
       rewrite !inorder_plug; reflexivity|eauto with rbdb|eassumption|lia].
  - eapply (progress_intro _ _ _ _ _ _ _ _
      (Node RB_RED (Node RB_BLACK c z (Node RB_RED a x b)) g (Node RB_BLACK ul ui ur)) k);
      [eassumption|fin_frame|close_zip|reflexivity|
       rewrite !inorder_plug; reflexivity|eauto with rbdb|eassumption|lia].
Qed.

Lemma insert_step_right_red s0 s h r p g u k :
  st s0 s h r -> zip_at h r (Node RB_BLACK u g p) k -> color_of u = RB_RED ->
  forall a x b z c n b0,
  p = Node RB_RED (Node RB_RED a x b) z c \/ p = Node RB_RED c z (Node RB_RED a x b) ->
  rb RB_RED n (Node RB_RED a x b) -> rb RB_BLACK n c -> rb RB_RED n u ->
  ctx_rb k b0 (Datatypes.S n) ->
  runs (insert_fixup_step x) s (progress s0 h (Node RB_BLACK u g p) k).
Proof.
  intros Hst Hz Eu a x b z c n b0 Hp Ht Hc Hu Hk. unfold insert_fixup_step.
  destruct u as [|cu ul ui ur]; [discriminate|]. inversion Hu; subst.
  destruct Hp as [-> | ->]; open_zip Hz; repeat wp1;
    (eapply (uncle_is_red_ok _ _ _ _ (Node RB_RED ul ui ur)); [eassumption..|fin|rewrite Eu]);
    repeat wp1.
  - eapply (progress_intro _ _ _ _ _ _ _ _
      (Node RB_RED (Node RB_BLACK ul ui ur) g (Node RB_BLACK (Node RB_RED a x b) z c)) k);
      [eassumption|fin_frame|close_zip|reflexivity|
       rewrite !inorder_plug; reflexivity|eauto with rbdb|eassumption|lia].
  - eapply (progress_intro _ _ _ _ _ _ _ _
      (Node RB_RED (Node RB_BLACK ul ui ur) g (Node RB_BLACK c z (Node RB_RED a x b))) k);
      [eassumption|fin_frame|close_zip|reflexivity|
       rewrite !inorder_plug; reflexivity|eauto with rbdb|eassumption|lia].
Qed.

Lemma black_of_color c n t : rb c n t -> color_of t <> RB_RED -> rb RB_BLACK n t.
Proof.
  intros H Hc. rewrite (rb_color _ _ _ H) in Hc.
  by destruct (rb_colors _ _ _ H) as [-> | ->].
Qed.

Lemma insert_step_left_black s0 s h r p g u k :
  st s0 s h r -> zip_at h r (Node RB_BLACK p g u) k -> (color_of u =? RB_RED) = false ->
  forall a x b z c n b0,
  p = Node RB_RED (Node RB_RED a x b) z c \/ p = Node RB_RED c z (Node RB_RED a x b) ->
  rb RB_RED n (Node RB_RED a x b) -> rb RB_BLACK n c -> rb RB_BLACK n u ->
  ctx_rb k b0 (Datatypes.S n) ->
  runs (insert_fixup_step x) s (progress s0 h (Node RB_BLACK p g u) k).
Proof.
  intros Hst Hz Eu a x b z c n b0 Hp Ht Hc Hu Hk. unfold insert_fixup_step.
  inversion Ht; subst.
  destruct Hp as [-> | ->]; open_zip Hz; repeat wp1;
    (eapply uncle_is_red_ok; [eassumption..|rewrite Eu]); repeat wp1.
  - eapply runs_mono; [eapply (rotate_right_ok s0 _ _ _ RB_RED (Node RB_RED a x b) g RB_BLACK c z u k);
    [eassumption|close_zip]|].
    intros [] s1 Hr. apply runs_ret.
    eapply (rotated_progress _ _ _ _ _ _ _ (CL RB_BLACK z (Node RB_RED c g u)) (Node RB_RED a x b));
      [exact Hr|cbn; listeq|reflexivity|fin_frame|reflexivity|eassumption|eauto with rbdb].
  - apply (proj2 (zip_at_up h r _ (CL RB_BLACK g u) k)) in Hz.
    eapply runs_mono; [eapply (rotate_left_ok s0 _ _ _ _ _ _ _ _ _ _ _ Hst Hz)|].
    clear dependent s. intros [] s (h1 & r1 & Hst & Hz1 & Hf). apply zip_at_up in Hz1. cbn [plug1] in Hz1.
    clear dependent r. clear -Hst Hz1 Hf Ht H3 H4 Hc Hu Hk HL. rename Hz1 into Hz.
    apply runs_ret. open_zip Hz. repeat wp1. 
    eapply runs_mono; [eapply (rotate_right_ok s0 _ _ _ RB_RED (Node RB_RED c z a) g RB_BLACK b x u k);
    [eassumption|close_zip]|].
    intros [] s2 Hr. apply runs_ret.
    eapply (rotated_progress _ _ _ _ _ _ _ (CL RB_BLACK x (Node RB_RED b g u)) (Node RB_RED c z a));
      [exact Hr|cbn; listeq|reflexivity| |reflexivity|eauto with rbdb|eauto with rbdb].
    eapply frame_trans; [eapply frame_perm;[|exact Hf]|fin_frame].
    cbn [cidx]; listeq.
Qed.
Lemma insert_step_right_black s0 s h r p g u k :
  st s0 s h r -> zip_at h r (Node RB_BLACK u g p) k -> (color_of u =? RB_RED) = false ->
  forall a x b z c n b0,
  p = Node RB_RED c z (Node RB_RED a x b) \/ p = Node RB_RED (Node RB_RED a x b) z c ->
  rb RB_RED n (Node RB_RED a x b) -> rb RB_BLACK n c -> rb RB_BLACK n u ->
  ctx_rb k b0 (Datatypes.S n) ->
  runs (insert_fixup_step x) s (progress s0 h (Node RB_BLACK u g p) k).
Proof.
  intros Hst Hz Eu a x b z c n b0 Hp Ht Hc Hu Hk. unfold insert_fixup_step.
  inversion Ht; subst.
  destruct Hp as [-> | ->]; open_zip Hz; repeat wp1;
    (eapply uncle_is_red_ok; [eassumption..|rewrite Eu]); repeat wp1.
  - eapply runs_mono; [eapply (rotate_left_ok s0 _ _ _ RB_RED u g RB_BLACK c z (Node RB_RED a x b) k);
    [eassumption|close_zip]|].
    intros [] s1 Hr. apply runs_ret.
    eapply (rotated_progress _ _ _ _ _ _ _ (CR (Node RB_RED u g c) RB_BLACK z) (Node RB_RED a x b));
      [exact Hr|cbn; listeq|reflexivity|fin_frame|reflexivity|eassumption|eauto with rbdb].
  - apply (proj2 (zip_at_up h r _ (CR u RB_BLACK g) k)) in Hz.
    eapply runs_mono; [eapply (rotate_right_ok s0 _ _ _ _ _ _ _ _ _ _ _ Hst Hz)|].
    clear dependent s. intros [] s (h1 & r1 & Hst & Hz1 & Hf). apply zip_at_up in Hz1. cbn [plug1] in Hz1.
    clear dependent r. clear -Hst Hz1 Hf Ht H3 H4 Hc Hu Hk HL. rename Hz1 into Hz.
    apply runs_ret. open_zip Hz. repeat wp1.
    eapply runs_mono; [eapply (rotate_left_ok s0 _ _ _ RB_RED u g RB_BLACK a x (Node RB_RED b z c) k);
    [eassumption|close_zip]|].
    intros [] s2 Hr. apply runs_ret.
    eapply (rotated_progress _ _ _ _ _ _ _ (CR (Node RB_RED u g a) RB_BLACK x) (Node RB_RED b z c));
      [exact Hr|cbn; listeq|reflexivity| |reflexivity|eauto with rbdb|eauto with rbdb].
    eapply frame_trans; [eapply frame_perm; [|exact Hf]|fin_frame].
    cbn [inorder cidx]. solve_Permutation.
Qed.

Lemma insert_fixup_step_ok s0 s h r t k n :
  st s0 s h r -> zip_at h r t k -> rb RB_RED n t -> ctx_rb k false n -> k <> [] ->
  exists t0 k0, (length k = 2 + length k0)%nat /\
    inorder (plug t0 k0) = inorder (plug t k) /\ inorder t0 ++ cidx k0 ≡ₚ inorder t ++ cidx k /\
    runs (insert_fixup_step (top t)) s (progress s0 h t0 k0).
Proof.
  intros Hst Hz Ht Hk Hne. inversion Ht; subst. cbn [top].
  inversion Hk as [|?????? Hc Hk'|?????? Hc Hk'|? z c k1 Hc Hk'|? z c k1 Hc Hk']; subst;
    [done|..];
    inversion Hk' as [|a0 ? cu g u k2 Hu Hk2|a0 ? cu g u k2 Hu Hk2| |]; subst;
    (eexists (plug1 (plug1 _ _) _), k2; split; [done|]; split; [reflexivity|]);
    (split; [cbn [inorder cidx plug1]; solve_Permutation|]);
    rewrite !zip_at_up in Hz; cbn [plug1] in Hz |- *;
    destruct (color_of u =? RB_RED) eqn:Eu.
  all: try (apply Z.eqb_eq in Eu; pose proof (rb_color _ _ _ Hu); rewrite Eu in *; subst cu;
    solve [eapply insert_step_left_red; eauto | eapply insert_step_right_red; eauto]).
  all: pose proof (black_of_color _ _ _ Hu (proj1 (Z.eqb_neq _ _) Eu));
    solve [eapply insert_step_left_black; eauto | eapply insert_step_right_black; eauto].
Qed.
(** What a run that ends in a whole tree leaves: [t'] in the pool, with the
    in-order sequence [l]; links outside [d] are kept. *)
Definition finishes (s0 : S) h (d l : list Z) (P : tree -> Prop) (s' : S) : Prop :=
  exists h' r' t', st s0 s' h' r' /\ rep h' r' t' /\ frame d h h' /\
    inorder t' = l /\ P t'.

Lemma insert_fixup_loop_ok fuel s0 s h r t k n a :
  st s0 s h r -> zip_at h r t k -> rb RB_RED n t -> ctx_rb k a n ->
  (length k < fuel)%nat ->
  runs (insert_fixup_loop fuel (top t)) s (fun _ =>
    finishes s0 h (inorder t ++ cidx k) (inorder (plug t k)) (fun t' => rbtree (blacken t'))).
Proof.
  revert s h r t k n a. induction fuel as [|fuel IH]; intros s h r t k n a Hst Hz Ht Hk Hl;
    [lia|].
  cbn [insert_fixup_loop]. apply runs_bind. eapply parent_is_red_ok; [eassumption..| |].
  { by inversion Ht. }
  destruct a; [|destruct k as [|f k]].
  - assert (rbtree (plug t k)) as [m Hm] by (eapply rb_plug; eauto).
    replace (match k with _ => _ end) with false by (by inversion Hk).
    apply runs_ret. exists h, r, (plug t k).
    split_and!; [done|by apply (proj1 (zip_at_rep _ _ _ _))|apply frame_refl|done|].
    rewrite (rb_blacken_id _ _ Hm). by exists m.
  - apply runs_ret. exists h, r, t. split_and!; [done|done|apply frame_refl|done|].
    destruct (rb_blacken _ _ _ Ht) as (m & ? & _). by exists m.
  - replace (match f :: k with _ => _ end) with true by (by inversion Hk).
    destruct (insert_fixup_step_ok s0 s h r t (f :: k) n) as (t0 & k0 & Hlen & Hin & Hp & Hrun);
      [eassumption..|done|].
    apply runs_bind. eapply runs_mono; [exact Hrun|].
    intros x' s' (h' & r' & t' & k' & n' & a' & Hst' & Hz' & <- & Hf & Hin' & Ht' & Hk' & Hl').
    eapply runs_mono; [eapply IH; [eassumption..|lia]|].
    intros [] s'' (h2 & r2 & t2 & ? & ? & Hf2 & Hin2 & ?). exists h2, r2, t2.
    split_and!; try done; [|by rewrite Hin2, Hin', Hin].
    eapply frame_trans; [eapply frame_perm; [exact Hp|exact Hf]|].
    eapply frame_perm; [|exact Hf2].
    by rewrite <- !inorder_plug_perm, Hin', Hin.
Qed.

Lemma zip_fuel s0 s h r t k :
  st s0 s h r -> zip_at h r t k -> (length k < node_fuel s0)%nat.
Proof.
  intros (<- & _ & E) Hz. rewrite (fuel_same _ _ E).
  eapply Nat.le_lt_trans; [|apply (fuel_enough s (inorder t ++ cidx k))].
  - rewrite length_app. transitivity (length (cidx k)); [|lia].
    clear. induction k as [|[] k IH]; cbn; rewrite ?length_app; lia.
  - apply Hz.
  - intros i Hi. by eapply zip_at_dom.
Qed.

(** The insert fix-up, from a red node just linked at a leaf. *)
Theorem insert_fixup_ok s0 s h r x k a :
  st s0 s h r -> zip_at h r (Node RB_RED Leaf x Leaf) k -> ctx_rb k a 0 ->
  runs (insert_fixup x) s (fun _ =>
    finishes s0 h (x :: cidx k) (inorder (plug (Node RB_RED Leaf x Leaf) k)) rbtree).
Proof.
  intros Hst Hz Hk. unfold insert_fixup. apply runs_bind. eapply wp_fuel; [done|].
  apply runs_bind. eapply runs_mono.
  { eapply (insert_fixup_loop_ok _ s0 s h r (Node RB_RED Leaf x Leaf)); eauto with rbdb.
    by eapply zip_fuel. }
  clear dependent s. intros [] s (h' & r' & t' & Hst & Hz' & Hf & Hin & Hrb).
  assert (x ∈ inorder t') as Hx.
  { rewrite Hin, inorder_plug_perm. set_solver. }
  destruct t' as [|c l i rr]; [set_solver|].
  open_zip Hz'. subst r'. repeat wp1. 
  eexists _, _, (Node RB_BLACK l i rr). split; [eassumption|]. 
  split; [close_zip|]. split; [|split; [done|exact Hrb]].
  apply frame_insert; [|exact Hf].
  assert (i ∈ inorder (plug (Node RB_RED Leaf x Leaf) k)) as Hi
    by (rewrite <- Hin; cbn; set_solver).
  by rewrite inorder_plug_perm in Hi.
Qed.

(** ** Descent and insertion *)
Variables (go_left : Z -> M S bool) (lt : Z -> bool) (s0 : S).

(** The comparison answers [lt], whatever the links are. *)
Definition compares (t : tree) : Prop :=
  forall j s, j ∈ inorder t -> same s0 s -> runs (go_left j) s (fun b s' => b = lt j /\ s' = s).

Definition leaf_crumb (less : bool) (c p : Z) (q : tree) : crumb :=
  if less then CL c p q else CR q c p.

(** A monotone comparison splits at a node as it splits the sequence. *)
Lemma split_at_node (la lb l1 l2 : list Z) i :
  la ++ i :: lb = l1 ++ l2 ->
  Forall (fun j => lt j = false) l1 -> Forall (fun j => lt j = true) l2 ->
  if lt i then exists m, la = l1 ++ m /\ l2 = m ++ i :: lb
  else exists m, l1 = la ++ i :: m /\ lb = m ++ l2.
Proof.
  intros E H1 H2. apply app_eq_app in E as (m & [[-> E]|[-> E]]).
  - subst l2. apply Forall_app in H2 as [_ [H2 _]%Forall_cons]. rewrite H2. by exists m.
  - destruct m as [|j m]; cbn in E.
    + subst l2. apply Forall_cons in H2 as [-> _]. exists []. by rewrite !app_nil_r.
    + injection E as <- ->. apply Forall_app in H1 as [_ [H1 _]%Forall_cons].
      rewrite H1. by exists m.
Qed.

(** The descent reaches the leaf that splits the sequence at the place of the
    new node. *)
Lemma descend_ok fuel s h r c a i b k l1 l2 :
  st s0 s h r -> zip_at h r (Node c a i b) k -> compares (Node c a i b) ->
  (height (Node c a i b) <= fuel)%nat ->
  inorder (Node c a i b) = l1 ++ l2 ->
  Forall (fun j => lt j = false) l1 -> Forall (fun j => lt j = true) l2 ->
  runs (descend fuel go_left i) s (fun '(p, less) s' => s' = s /\
    exists cp q k', plug Leaf (leaf_crumb less cp p q :: k') = Node c a i b /\
      before (leaf_crumb less cp p q :: k') = l1 /\ after (leaf_crumb less cp p q :: k') = l2).
Proof.
  revert c a i b k l1 l2. induction fuel as [|fuel IH];
    intros c a i b k l1 l2 Hst Hz Hcmp Hf Hl Hl1 Hl2; cbn [height] in Hf; [lia|].
  cbn [descend]. pose proof Hst as (_ & _ & Hsame). apply runs_bind.
  eapply runs_mono; [apply (Hcmp i s); [cbn; set_solver|done]|].
  intros less s' [-> ->]. cbn [inorder] in Hl.
  pose proof (split_at_node _ _ _ _ _ Hl Hl1 Hl2) as Hsplit. destruct (lt i).
  - destruct Hsplit as (m & Ea & ->). open_zip Hz. repeat wp1.
    destruct a as [|ac aa ai ab]; cbn [top].
    + apply runs_ret. split; [done|]. exists c, b, []. cbn.
      destruct l1, m; try done. cbn. by rewrite app_nil_r.
    + cbn [tree_at] in *. destruct_and?. nonnull. cmp. cbn [lk_left lk_right].
      apply (proj2 (zip_at_up h r _ (CL c i b) k)) in Hz.
      eapply runs_mono; [eapply (IH _ _ _ _ _ l1 m); [done|exact Hz| |lia|done|done|]|].
      { intros j s' Hj. apply Hcmp. cbn in *. set_solver. }
      { by apply Forall_app in Hl2 as [? _]. }
      intros [p less] s' (-> & cp & q & k' & E1 & E2 & E3). split; [done|].
      exists cp, q, (k' ++ [CL c i b]). rewrite app_comm_cons.
      rewrite plug_app, E1, before_app, E2, after_app, E3. cbn. by rewrite app_nil_r.
  - destruct Hsplit as (m & -> & Eb). open_zip Hz. repeat wp1.
    destruct b as [|bc ba bi bb]; cbn [top].
    + apply runs_ret. split; [done|]. exists c, a, []. cbn.
      destruct m, l2; try done.
    + cbn [tree_at] in *. destruct_and?. nonnull. cmp. cbn [lk_left lk_right].
      apply (proj2 (zip_at_up h r _ (CR a c i) k)) in Hz.
      eapply runs_mono; [eapply (IH _ _ _ _ _ m l2); [done|exact Hz| |lia|done| |done]|].
      { intros j s' Hj. apply Hcmp. cbn in *. set_solver. }
      { by apply Forall_app in Hl1 as [_ [_ ?]%Forall_cons]. }
      intros [p less] s' (-> & cp & q & k' & E1 & E2 & E3). split; [done|].
      exists cp, q, (k' ++ [CR a c i]). rewrite app_comm_cons.
      rewrite plug_app, E1, before_app, E2, after_app, E3. cbn. by rewrite app_nil_r, <- app_assoc.
Qed.

(** A red leaf hung below [p]. *)
Lemma hang_ok s h r c p q less k x lk (m : M S unit) (Q : unit -> S -> Prop) :
  st s0 s h r -> zip_at h r Leaf (leaf_crumb less c p q :: k) ->
  h !! x = Some lk -> lk.(lk_color) = RB_RED -> lk.(lk_left) = 0 -> lk.(lk_right) = 0 ->
  x ∉ cidx (leaf_crumb less c p q :: k) -> x <> 0 ->
  (forall s' h', st s0 s' h' r ->
    zip_at h' r (Node RB_RED Leaf x Leaf) (leaf_crumb less c p q :: k) ->
    frame (x :: cidx (leaf_crumb less c p q :: k)) h h' -> runs m s' Q) ->
  runs (set_parent x p;; (if less : bool then set_left p x else set_right p x);; m) s Q.
Proof.
  intros Hst Hz Hx Hc Hl Hr Hout Hx0 HQ. destruct lk as [lc ll lr lp]; cbn in Hc, Hl, Hr; subst.
  destruct less; cbn [leaf_crumb] in *; open_zip Hz; cbn [cidx] in Hout;
    rewrite not_elem_of_cons, not_elem_of_app in Hout; destruct_and? Hout;
    do 4 wp1; (eapply HQ; [eassumption| |fin_frame]).
  all: unfold zip_at; split; [fin|]; split; [fin|]; split; [|fin].
  all: cbn; apply NoDup_cons; split; [|exact Hnd'].
  all: cbn; rewrite not_elem_of_cons, not_elem_of_app; auto.
Qed.

(** Insertion puts the new node where the comparison splits the sequence. *)
Theorem insert_node_ok s h r t x lk l1 l2 :
  st s0 s h r -> rep h r t -> rbtree t -> compares t ->
  h !! x = Some lk -> lk.(lk_color) = RB_RED -> lk.(lk_left) = 0 -> lk.(lk_right) = 0 ->
  lk.(lk_parent) = 0 -> x ∉ inorder t ->
  inorder t = l1 ++ l2 ->
  Forall (fun j => lt j = false) l1 -> Forall (fun j => lt j = true) l2 ->
  runs (insert_node go_left x) s (fun _ =>
    finishes s0 h (x :: inorder t) (l1 ++ x :: l2) rbtree).
Proof.
  intros Hst Hz Hrb Hcmp Hx Hc Hl Hr Hp Hout Hin H1 H2.
  pose proof Hz as (_ & _ & _ & H0). assert (x <> 0) as Hx0 by congruence.
  unfold insert_node. apply runs_bind. eapply wp_tree_root; [done|].
  destruct t as [|tc ta ti tb].
  - destruct Hz as (_ & E & _). cbn in E. subst r. change (0 =? NULL_IDX) with true. cbn iota.
    cbn in Hin. destruct l1, l2; try done.
    apply runs_bind. eapply wp_set_color; [done..|]. clear dependent s. intros s Hst.
    eapply wp_set_tree_root; [done|]. clear dependent s. intros s Hst.
    destruct lk as [lc ll lr lp]; cbn in Hc, Hl, Hr, Hp; subst.
    eexists _, _, (Node RB_BLACK Leaf x Leaf). split; [exact Hst|].
    split; [|split; [fin_frame|split; [done|exists 1%nat; eauto with rbdb]]].
    unfold rep, zip_at. split; [fin|]. split; [fin|]. split; [|look].
    cbn. apply NoDup_singleton.
  - pose proof Hz as (_ & E & _). cbn in E. subst r.
    destruct (zip_at_dom _ _ _ _ ti Hz) as [_ Hti]; [cbn; set_solver|].
    rewrite (proj2 (Z.eqb_neq ti NULL_IDX)) by exact Hti.
    apply runs_bind. eapply wp_fuel; [done|].
    apply runs_bind. eapply runs_mono; [eapply descend_ok; eauto|].
    { rewrite (fuel_same _ _ (proj2 (proj2 Hst))). etrans; [apply height_inorder|].
      apply Nat.lt_le_incl, fuel_enough; [|intros j Hj; destruct Hst as (-> & _);
        eapply zip_at_dom; [exact Hz|rewrite elem_of_app; auto]].
      apply zip_at_nodup in Hz. by rewrite app_nil_r in Hz. }
    intros [p less] s' (-> & cp & q & k' & Ek & <- & <-).
    rewrite <- Ek in Hrb, Hz. apply (proj2 (zip_at_rep _ _ _ _)) in Hz.
    destruct (rbtree_unplug _ _ Hrb) as (c' & n & al & Hleaf & Hk & _).
    inversion Hleaf; subst n c'.
    assert (Hperm : cidx (leaf_crumb less cp p q :: k') ≡ₚ inorder (Node tc ta ti tb))
      by (by rewrite <- Ek, inorder_plug_perm).
    rewrite <- Hperm in Hout. clear Hcmp. subst.
    eapply hang_ok; [exact Hst|exact Hz|exact Hx|done..|].
    clear dependent s. intros s h' Hst Hz' Hf.
    eapply runs_mono; [by eapply insert_fixup_ok|].
    intros [] s' (h2 & r2 & t2 & ? & ? & Hf2 & Hin2 & ?). exists h2, r2, t2.
    split; [done|]. split; [done|]. split; [|split; [|done]].
    + rewrite <- Hperm. by eapply frame_trans.
    + by rewrite Hin2, inorder_plug.
Qed.
End insertion.
