(* ===== verification/RbRemove.v ===== *)
(** * Removal from the pointer trees

    The removal of [RbHeap] takes exactly the removed node out of the in-order
    sequence and restores the red-black invariants: transplant and the two ways
    of splicing a node out, and the fix-up loop as a walk up a zipper. *)
From S2P Require Import Prelude IntentBook RbTree RbHeap RbCorrect.

(** ** Reading and writing at a focus

    The pool, seen from a start state [s0] with links [h0]: it holds [t] in [k],
    whose in-order sequence is [l]; links outside [d] are those of [h0]. *)
Section pool.
Context {S : Type} {HA : RbAccess S} {HV : RbView S} {HL : RbLaws S}.
Variables (s0 : S) (h0 : gmap Z Link) (d l : list Z).
Hypothesis Hld : forall i, i ∈ l -> i ∈ d.

Definition pool (s : S) (t : tree) (k : ctx) : Prop :=
  exists h r, st s0 s h r /\ zip_at h r t k /\ frame d h0 h /\ inorder (plug t k) = l.

Lemma pool_up s t f k : pool s t (f :: k) <-> pool s (plug1 t f) k.
Proof.
  unfold pool. split; intros (h & r & ? & Hz & ? & ?); exists h, r;
    [rewrite zip_at_up in Hz | rewrite zip_at_up]; done.
Qed.

Lemma pool_top s c a i b k : pool s (Node c a i b) k ->
  exists h r, st s0 s h r /\ h !! i = Some (mk_link c (top a) (top b) (ctx_top k)) /\
    i <> 0 /\ zip_at h r (Node c a i b) k /\ frame d h0 h.
Proof.
  intros (h & r & Hst & Hz & Hf & Hl). exists h, r. split_and!; try done; [apply Hz|].
  eapply zip_at_dom; [exact Hz|]. cbn. set_solver.
Qed.

Lemma pool_in s t k i : pool s t k -> i ∈ inorder t ++ cidx k -> i ∈ d.
Proof. intros (h & r & _ & _ & _ & <-) Hi. apply Hld. by rewrite inorder_plug_perm. Qed.

Lemma pool_frame s t k h' :
  pool s t k -> forall h, frame d h0 h -> frame (inorder t ++ cidx k) h h' -> frame d h0 h'.
Proof.
  intros Hp h Hf Hf'. eapply frame_trans; [done|]. intros j Hj. apply Hf'.
  intros Hj'. apply Hj. by eapply pool_in.
Qed.

Ltac read Hp := apply pool_top in Hp as (h & r & Hst & Hi & H0 & Hz & Hf).

Lemma pool_get_left s c a i b k (Q : Z -> S -> Prop) :
  pool s (Node c a i b) k -> Q (top a) s -> runs (get_left i) s Q.
Proof. intros Hp HQ. read Hp. by eapply wp_get_left. Qed.
Lemma pool_get_right s c a i b k (Q : Z -> S -> Prop) :
  pool s (Node c a i b) k -> Q (top b) s -> runs (get_right i) s Q.
Proof. intros Hp HQ. read Hp. by eapply wp_get_right. Qed.
Lemma pool_get_parent s c a i b k (Q : Z -> S -> Prop) :
  pool s (Node c a i b) k -> Q (ctx_top k) s -> runs (get_parent i) s Q.
Proof. intros Hp HQ. read Hp. by eapply wp_get_parent. Qed.
Lemma pool_get_color s t k (Q : Z -> S -> Prop) :
  pool s t k -> Q (color_of t) s -> runs (get_color (top t)) s Q.
Proof. intros (h & r & Hst & (Ht & _) & _) HQ. by eapply wp_get_color_top. Qed.

Lemma pool_set_color s c c' a i b k (Q : unit -> S -> Prop) :
  pool s (Node c a i b) k -> (forall s', pool s' (Node c' a i b) k -> Q tt s') ->
  runs (set_color i c') s Q.
Proof.
  intros Hp HQ. pose proof (pool_in _ _ _ i Hp ltac:(cbn; set_solver)) as Hid.
  destruct Hp as (h & r & Hst & Hz & Hf & Hl). open_zip Hz.
  eapply wp_set_color; [done..|]. intros s' Hst'. apply HQ.
  eexists _, _. split; [exact Hst'|]. split; [close_zip|].
  split; [by apply frame_insert|]. rewrite <- Hl, !inorder_plug. done.
Qed.

(** The root is the focus exactly when the context is empty. *)
Lemma pool_root s t k (Q : Z -> S -> Prop) :
  pool s t k -> (forall x, (top t =? x) = bool_decide (k = []) -> Q x s) ->
  runs tree_root s Q.
Proof.
  intros (h & r & Hst & Hz & _) HQ. eapply wp_tree_root; [done|]. apply HQ.
  destruct k as [|f k]; [destruct Hz as (_ & <- & _); apply Z.eqb_refl|].
  apply Z.eqb_neq. intros E.
  assert (r ∈ cidx (f :: k)) as Hr.
  { pose proof (proj1 (zip_at_rep _ _ _ _) Hz) as (_ & -> & _). by apply top_plug_cidx. }
  destruct t as [|c a i b].
  - cbn in E. subst r. destruct (zip_at_dom _ _ _ _ 0 Hz) as [_ ?]; [set_solver|done].
  - destruct Hz as (_ & _ & Hnd & _). apply NoDup_app in Hnd as (_ & Hnd & _).
    apply (Hnd r); [cbn in E; cbn; set_solver|done].
Qed.

Lemma pool_rotate_left s cx a x cy b y e k (Q : unit -> S -> Prop) :
  pool s (Node cx a x (Node cy b y e)) k ->
  (forall s', pool s' (Node cy (Node cx a x b) y e) k -> Q tt s') ->
  runs (rotate_left x) s Q.
Proof.
  intros Hp HQ. pose proof Hp as (h & r & Hst & Hz & Hf & Hl).
  eapply runs_mono; [by eapply rotate_left_ok|].
  intros [] s' (h' & r' & Hst' & Hz' & Hf'). apply HQ. exists h', r'. split_and!; try done.
  - eapply pool_frame; [exact Hp|exact Hf|]. eapply frame_perm; [|exact Hf'].
    cbn. solve_Permutation.
  - rewrite <- Hl, !inorder_plug. listeq.
Qed.
Lemma pool_rotate_right s cx a x cy b y e k (Q : unit -> S -> Prop) :
  pool s (Node cx (Node cy a y b) x e) k ->
  (forall s', pool s' (Node cy a y (Node cx b x e)) k -> Q tt s') ->
  runs (rotate_right x) s Q.
Proof.
  intros Hp HQ. pose proof Hp as (h & r & Hst & Hz & Hf & Hl).
  eapply runs_mono; [by eapply rotate_right_ok|].
  intros [] s' (h' & r' & Hst' & Hz' & Hf'). apply HQ. exists h', r'. split_and!; try done.
  - eapply pool_frame; [exact Hp|exact Hf|]. eapply frame_perm; [|exact Hf'].
    cbn. solve_Permutation.
  - rewrite <- Hl, !inorder_plug. listeq.
Qed.
End pool.

(* ------------------------------------------------------------------ *)
(** ** The fix-up loop, with its two mirror images as one *)

Definition mk (sd : bool) (c : Z) (near : tree) (i : Z) (far : tree) : tree :=
  if sd then Node c near i far else Node c far i near.
Definition cr (sd : bool) (c i : Z) (far : tree) : crumb :=
  if sd then CL c i far else CR far c i.

Lemma plug1_cr sd c i t u : plug1 t (cr sd c i u) = mk sd c t i u.
Proof. by destruct sd. Qed.
Lemma mk_negb sd c t i u : mk (negb sd) c t i u = mk sd c u i t.
Proof. by destruct sd. Qed.
Lemma rb_mk_black sd n cl cr l i r :
  rb cl n l -> rb cr n r -> rb RB_BLACK (S n) (mk sd RB_BLACK l i r).
Proof. destruct sd; eauto with rbdb. Qed.
Lemma rb_mk_red sd n l i r :
  rb RB_BLACK n l -> rb RB_BLACK n r -> rb RB_RED n (mk sd RB_RED l i r).
Proof. destruct sd; eauto with rbdb. Qed.
Lemma ctx_rb_b sd a n c i r k :
  rb c n r -> ctx_rb k a (S n) -> ctx_rb (cr sd RB_BLACK i r :: k) true n.
Proof. destruct sd; eauto with rbdb. Qed.
Lemma ctx_rb_r sd n i r k :
  rb RB_BLACK n r -> ctx_rb k true n -> ctx_rb (cr sd RB_RED i r :: k) false n.
Proof. destruct sd; eauto with rbdb. Qed.
#[export] Hint Resolve rb_mk_black rb_mk_red ctx_rb_b ctx_rb_r : rbdb.

Lemma rb_mk_inv sd c n l i r : rb c n (mk sd c l i r) ->
  (c = RB_RED /\ rb RB_BLACK n l /\ rb RB_BLACK n r) \/
  (c = RB_BLACK /\ exists m cl cr, n = S m /\ rb cl m l /\ rb cr m r).
Proof. destruct sd; cbn; inversion 1; subst; eauto 10. Qed.
Lemma rb_is_mk sd c n t : rb c (S n) t -> exists l i r, t = mk sd c l i r.
Proof. intros (l & i & r & ->)%rb_nonleaf. destruct sd; cbn; eauto. Qed.
Lemma rb_red_is_mk sd n t : rb RB_RED n t -> exists l i r, t = mk sd RB_RED l i r.
Proof. inversion 1; destruct sd; cbn; eauto. Qed.
Lemma top_mk sd c l i r : top (mk sd c l i r) = i.
Proof. by destruct sd. Qed.
Lemma color_of_mk sd c l i r : color_of (mk sd c l i r) = c.
Proof. by destruct sd. Qed.

(** The state of a parent coloured [c] in [k], over children whose black height
    should be [m + 1]. *)
Definition parent_rb (c : Z) (k : ctx) (m : nat) : Prop :=
  (c = RB_BLACK /\ exists a, ctx_rb k a (S (S m))) \/ (c = RB_RED /\ ctx_rb k true (S m)).

(** The tree at the focus lacks one black node to fit [m + 1]: it is black of
    height [m], or a red root the loop stops at and blackens. *)
Definition deficit (m : nat) (t : tree) : Prop :=
  (color_of t = RB_RED /\ rb RB_BLACK (S m) (blacken t)) \/ rb RB_BLACK m t.

(** The state after a write. *)
Ltac next Hp :=
  match type of Hp with RbRemove.pool _ _ _ _ ?s _ _ => clear dependent s; intros s Hp end.

Section fixup.
Context {S : Type} {HA : RbAccess S} {HV : RbView S} {HL : RbLaws S}.
Variables (s0 : S) (h0 : gmap Z Link) (d l : list Z).
Hypothesis Hld : forall i, i ∈ l -> i ∈ d.
Abbreviation pool := (pool s0 h0 d l).

Definition getn (sd : bool) : Z -> M S Z := if sd then get_left else get_right.
Definition rot (sd : bool) : Z -> M S unit := if sd then rotate_left else rotate_right.

Lemma pool_near s sd c a i b k (Q : Z -> S -> Prop) :
  pool s (mk sd c a i b) k -> Q (top a) s -> runs (getn sd i) s Q.
Proof. destruct sd; cbn; intros; [by eapply pool_get_left | by eapply pool_get_right]. Qed.
Lemma pool_far s sd c a i b k (Q : Z -> S -> Prop) :
  pool s (mk sd c a i b) k -> Q (top b) s -> runs (getn (negb sd) i) s Q.
Proof. rewrite <- mk_negb. apply pool_near. Qed.
Lemma pool_rot s sd cx a x cy b y e k (Q : unit -> S -> Prop) :
  pool s (mk sd cx a x (mk sd cy b y e)) k ->
  (forall s', pool s' (mk sd cy (mk sd cx a x b) y e) k -> Q tt s') ->
  runs (rot sd x) s Q.
Proof. destruct sd; cbn; intros; [by eapply pool_rotate_left | by eapply pool_rotate_right]. Qed.
Lemma pool_rot' s sd cx a x cy b y e k (Q : unit -> S -> Prop) :
  pool s (mk sd cx (mk sd cy a y b) x e) k ->
  (forall s', pool s' (mk sd cy a y (mk sd cx b x e)) k -> Q tt s') ->
  runs (rot (negb sd) x) s Q.
Proof. rewrite <- !(mk_negb sd). apply pool_rot. Qed.
Lemma pool_color s sd c c' a i b k (Q : unit -> S -> Prop) :
  pool s (mk sd c a i b) k -> (forall s', pool s' (mk sd c' a i b) k -> Q tt s') ->
  runs (set_color i c') s Q.
Proof. destruct sd; cbn; intros; by eapply pool_set_color. Qed.
Lemma pool_parent s sd c a i b k (Q : Z -> S -> Prop) :
  pool s (mk sd c a i b) k -> Q (ctx_top k) s -> runs (get_parent i) s Q.
Proof. destruct sd; cbn; intros; by eapply pool_get_parent. Qed.

(** Moving the focus to a child and back. *)
Lemma near_dn s sd c a i b k : pool s (mk sd c a i b) k -> pool s a (cr sd c i b :: k).
Proof. by rewrite pool_up, plug1_cr. Qed.
Lemma near_up s sd c a i b k : pool s a (cr sd c i b :: k) -> pool s (mk sd c a i b) k.
Proof. by rewrite pool_up, plug1_cr. Qed.
Lemma far_dn s sd c a i b k :
  pool s (mk sd c a i b) k -> pool s b (cr (negb sd) c i a :: k).
Proof. by rewrite pool_up, plug1_cr, mk_negb. Qed.
Lemma far_up s sd c a i b k :
  pool s b (cr (negb sd) c i a :: k) -> pool s (mk sd c a i b) k.
Proof. by rewrite pool_up, plug1_cr, mk_negb. Qed.

(** Case 1: afterwards the sibling is black. *)
Lemma red_sibling_ok s sd t p w k cp cw m :
  pool s (mk sd cp t p w) k -> rb cw (Datatypes.S m) w -> parent_rb cp k m ->
  (cp = RB_RED -> cw = RB_BLACK) ->
  runs (fixup_red_sibling (getn (negb sd)) (rot sd) p (top w)) s (fun w' s' =>
    exists wt cp' k', w' = top wt /\ pool s' (mk sd cp' t p wt) k' /\
      rb RB_BLACK (Datatypes.S m) wt /\ parent_rb cp' k' m /\ (k' = k \/ cp' = RB_RED)).
Proof.
  intros Hp Hw Hpar Hcp. unfold fixup_red_sibling. apply runs_bind.
  eapply pool_get_color; [by apply far_dn|].
  rewrite (rb_color _ _ _ Hw). destruct (rb_colors _ _ _ Hw) as [-> | ->].
  2: { apply runs_ret. exists w, cp, k. auto 10. }
  destruct (rb_red_is_mk sd _ _ Hw) as (wl & wi & wr & ->).
  apply rb_mk_inv in Hw as [(_ & Hwl & Hwr)|[? _]]; [|done].
  destruct Hpar as [(-> & a & Hk)|(-> & _)]; [|by specialize (Hcp eq_refl)].
  rewrite top_mk. apply runs_bind. eapply pool_color; [by apply far_dn|next Hp].
  apply runs_bind. eapply pool_color; [by apply far_up|next Hp].
  apply runs_bind. eapply pool_rot; [done|next Hp].
  eapply pool_far; [by apply near_dn|].
  exists wl, RB_RED, (cr sd RB_BLACK wi wr :: k). split; [done|].
  split; [by apply near_dn|]. split; [done|]. split; [|auto].
  right. split; [done|]. by eapply ctx_rb_b.
Qed.

Lemma children_black_ok s sd c a i b k (Q : bool -> S -> Prop) :
  pool s (mk sd c a i b) k ->
  Q ((color_of a =? RB_BLACK) && (color_of b =? RB_BLACK)) s ->
  runs (children_black (getn sd) (getn (negb sd)) i) s Q.
Proof.
  intros Hp HQ. unfold children_black. apply runs_bind. eapply pool_near; [done|].
  apply runs_bind. eapply pool_get_color; [by apply near_dn|].
  destruct (color_of a =? RB_BLACK); [|by apply runs_ret].
  apply runs_bind. eapply pool_far; [done|].
  apply runs_bind. eapply pool_get_color; [by apply far_dn|]. by apply runs_ret.
Qed.

(** Case 3: afterwards the far nephew is red. *)
Lemma near_nephew_ok s sd t p a i b k cp ca cb m :
  pool s (mk sd cp t p (mk sd RB_BLACK a i b)) k -> rb ca m a -> rb cb m b ->
  (color_of a =? RB_BLACK) && (color_of b =? RB_BLACK) = false ->
  runs (fixup_near_nephew (getn sd) (getn (negb sd)) (rot (negb sd)) p i) s (fun w' s' =>
    exists a' b' ca', pool s' (mk sd cp t p (mk sd RB_BLACK a' w' b')) k /\
      rb ca' m a' /\ rb RB_RED m b').
Proof.
  intros Hp Ha Hb. rewrite (rb_color _ _ _ Ha), (rb_color _ _ _ Hb).
  intros Hc. unfold fixup_near_nephew. apply far_dn in Hp.
  apply runs_bind. eapply pool_far; [done|].
  apply runs_bind. eapply pool_get_color; [by apply far_dn|].
  rewrite (rb_color _ _ _ Hb). destruct (rb_colors _ _ _ Hb) as [-> | ->]; cbn -[mret mbind].
  { apply runs_ret. exists a, b, ca. split; [by apply far_up|done]. }
  destruct (rb_colors _ _ _ Ha) as [-> | ->]; [|done].
  destruct (rb_red_is_mk sd _ _ Ha) as (al & ai & ar & ->).
  apply rb_mk_inv in Ha as [(_ & Hal & Har)|[? _]]; [|done].
  apply runs_bind. eapply pool_near; [done|]. rewrite top_mk.
  apply runs_bind. eapply pool_color; [by apply near_dn|next Hp].
  apply runs_bind. eapply pool_color; [by apply near_up|next Hp].
  apply runs_bind. eapply pool_rot'; [done|next Hp].
  eapply pool_far; [by apply far_up|]. rewrite top_mk.
  exists al, (mk sd RB_RED ar i b), RB_BLACK.
  split; [by apply far_up|]. eauto with rbdb.
Qed.

(** Case 4: the missing black node is made up for. *)
Lemma far_nephew_ok s sd t p a i b k cp ca m :
  pool s (mk sd cp t p (mk sd RB_BLACK a i b)) k ->
  rb RB_BLACK m t -> rb ca m a -> rb RB_RED m b -> parent_rb cp k m ->
  runs (fixup_far_nephew (getn (negb sd)) (rot sd) p i) s (fun _ s' =>
    exists t', pool s' t' k /\ rbtree (plug t' k)).
Proof.
  intros Hp Ht Ha Hb Hpar. unfold fixup_far_nephew.
  destruct (rb_red_is_mk sd _ _ Hb) as (bl & bi & br & ->).
  apply rb_mk_inv in Hb as [(_ & Hbl & Hbr)|[? _]]; [|done].
  apply runs_bind. rewrite <- (top_mk sd cp t p (mk sd RB_BLACK a i (mk sd RB_RED bl bi br))) at 1.
  eapply pool_get_color; [done|]. rewrite color_of_mk.
  apply runs_bind. eapply pool_color; [by apply far_dn|next Hp].
  apply runs_bind. eapply pool_color; [by apply far_up|next Hp].
  apply far_dn in Hp. apply runs_bind. eapply pool_far; [done|]. rewrite top_mk.
  apply runs_bind. eapply pool_color; [by apply far_dn|next Hp].
  apply far_up, far_up in Hp. eapply pool_rot; [done|next Hp].
  eexists. split; [exact Hp|].
  destruct Hpar as [(-> & a' & Hk)|(-> & Hk)].
  - eapply rb_plug; eauto with rbdb; done.
  - eapply rb_plug; eauto with rbdb.
Qed.

Lemma ctx_parent_rb sd c p w k a m :
  ctx_rb (cr sd c p w :: k) a (Datatypes.S m) ->
  exists cw, rb cw (Datatypes.S m) w /\ parent_rb c k m /\ (c = RB_RED -> cw = RB_BLACK).
Proof.
  unfold parent_rb. destruct sd; cbn; inversion 1; subst; eexists; split_and!; eauto 6; done.
Qed.

(** Case 2 leaves a parent that is one black node short. *)
Lemma deficit_parent sd c t p a i b k m :
  rb RB_BLACK m t -> rb RB_BLACK m a -> rb RB_BLACK m b -> parent_rb c k m ->
  exists m' a', deficit m' (mk sd c t p (mk sd RB_RED a i b)) /\ ctx_rb k a' (Datatypes.S m').
Proof.
  intros Ht Ha Hb [(-> & a' & Hk)|(-> & Hk)].
  - exists (Datatypes.S m), a'. split; [right|done]. eauto with rbdb.
  - exists m, true. split; [left|done]. rewrite color_of_mk. split; [done|].
    destruct sd; cbn; eauto with rbdb.
Qed.

Definition fixup_next (k : ctx) (r : (Z * Z) + Z) (s : S) : Prop :=
  match r with
  | inl (x, x_parent) => exists t' k' m a, x = top t' /\ x_parent = ctx_top k' /\
      pool s t' k' /\ deficit m t' /\ ctx_rb k' a (Datatypes.S m) /\
      (k' = k \/ color_of t' = RB_RED)
  | inr x => exists t', x = top t' /\ pool s t' [] /\ rbtree t'
  end.

Lemma remove_fixup_side_ok s sd c t p w k a m :
  pool s (mk sd c t p w) k -> rb RB_BLACK m t ->
  ctx_rb (cr sd c p w :: k) a (Datatypes.S m) ->
  runs (remove_fixup_side (getn sd) (getn (negb sd)) (rot sd) (rot (negb sd)) p) s
    (fixup_next k).
Proof.
  intros Hp Ht (cw & Hw & Hpar & Hcw)%ctx_parent_rb. unfold remove_fixup_side.
  apply runs_bind. eapply pool_far; [done|]. apply runs_bind.
  eapply runs_mono; [eapply red_sibling_ok; eassumption|].
  clear dependent s w cw. intros w' s (w & c' & k' & -> & Hp & Hw & Hpar' & Hk').
  destruct (rb_is_mk sd _ _ _ Hw) as (wa & wi & wb & ->). rewrite top_mk.
  apply rb_mk_inv in Hw as [[? _]|(_ & ? & ca & cb & [= <-] & Ha & Hb)]; [done|].
  apply runs_bind. eapply children_black_ok; [by apply far_dn|].
  rewrite (rb_color _ _ _ Ha), (rb_color _ _ _ Hb).
  destruct (_ && _) eqn:E.
  - apply andb_true_iff in E as [->%Z.eqb_eq ->%Z.eqb_eq].
    apply runs_bind. eapply pool_color; [by apply far_dn|next Hp].
    apply far_up in Hp. apply runs_bind. eapply pool_parent; [done|]. apply runs_ret.
    destruct (deficit_parent sd c' t p wa wi wb k' m) as (m' & a' & ? & ?); [done..|].
    eexists _, k', m', a'. split; [by rewrite top_mk|]. rewrite color_of_mk. split_and!; try done; tauto.
  - apply runs_bind. rewrite <- (rb_color _ _ _ Ha), <- (rb_color _ _ _ Hb) in E.
    eapply runs_mono; [by eapply near_nephew_ok|].
    clear dependent s wa wb wi. intros wi s (wa & wb & ca' & Hp & Ha & Hb).
    apply runs_bind. eapply runs_mono; [by eapply far_nephew_ok|].
    intros [] s' (t' & Hp' & Hrb). apply runs_bind.
    assert (pool s' (plug t' k') []) as Hp2.
    { destruct Hp' as (h & r & ? & Hz & ? & ?). exists h, r. split_and!; try done.
      by apply (proj1 (zip_at_rep _ _ _ _)). }
    eapply (pool_root s0 h0 d l Hld); [done|]. intros x Hx. apply runs_ret.
    exists (plug t' k'). split; [|done]. symmetry. apply Z.eqb_eq. by rewrite Hx.
Qed.

(** The side test of the loop. *)
Lemma remove_fixup_step_ok s c t p w k sd a m :
  pool s t (cr sd c p w :: k) -> rb RB_BLACK m t ->
  ctx_rb (cr sd c p w :: k) a (Datatypes.S m) ->
  runs (remove_fixup_step (top t) p) s (fixup_next k).
Proof.
  intros Hp Ht Hk. pose proof (near_up _ _ _ _ _ _ _ Hp) as Hp'.
  unfold remove_fixup_step. apply runs_bind. destruct sd.
  - eapply (pool_get_left s0 h0 d l Hld); [exact Hp'|]. rewrite Z.eqb_refl.
    by eapply (remove_fixup_side_ok s true).
  - eapply (pool_get_left s0 h0 d l Hld); [exact Hp'|].
    replace (top t =? top w) with false; [by eapply (remove_fixup_side_ok s false)|].
    symmetry. apply Z.eqb_neq. destruct (ctx_parent_rb _ _ _ _ _ _ _ Hk) as (cw & Hw & _).
    destruct (rb_nonleaf _ _ _ Hw) as (wa & wi & wb & ->).
    destruct Hp as (h & r & _ & Hz & _). cbn [cr] in Hz. destruct t as [|ct ta ti tb]; open_zip Hz; cbn; congruence.
Qed.

Lemma remove_fixup_loop_ok fuel s t k a m :
  pool s t k -> deficit m t -> ctx_rb k a (Datatypes.S m) ->
  (length k < fuel)%nat \/ (color_of t = RB_RED /\ fuel <> O) ->
  runs (remove_fixup_loop fuel (top t) (ctx_top k)) s (fun x s' =>
    exists t' k', x = top t' /\ pool s' t' k' /\ rbtree (plug (blacken t') k')).
Proof.
  revert s t k a m. induction fuel as [|fuel IH]; intros s t k a m Hp Ht Hk Hfuel; [lia|].
  cbn [remove_fixup_loop]. apply runs_bind.
  eapply (pool_root s0 h0 d l Hld); [exact Hp|]. intros root ->.
  destruct k as [|f k].
  { apply runs_bind, runs_ret, runs_ret. exists t, []. split; [done|]. split; [done|].
    destruct Ht as [(_ & ?)|Ht]; [by eexists|]. rewrite (rb_blacken_id _ _ Ht). by eexists. }
  rewrite bool_decide_eq_false_2 by done. cbn [negb]. apply runs_bind, runs_bind.
  eapply pool_get_color; [exact Hp|]. apply runs_ret.
  destruct Ht as [(Hred & Ht)|Ht].
  { rewrite Hred. apply runs_ret. exists t, (f :: k). split; [done|]. split; [done|].
    by eapply rb_plug. }
  rewrite (rb_color _ _ _ Ht). apply runs_bind.
  assert (exists sd c p w, f = cr sd c p w) as (sd & c & p & w & ->).
  { destruct f; [by exists true; eauto | by exists false; eauto]. }
  replace (ctx_top (cr sd c p w :: k)) with p by (by destruct sd).
  eapply runs_mono; [by eapply remove_fixup_step_ok|].
  intros [[x' xp']|x'] s'; cbn [fixup_next].
  - intros (t' & k' & m' & a' & -> & -> & Hp' & Ht' & Hk' & Hd).
    eapply IH; [exact Hp'|exact Ht'|exact Hk'|].
    assert (Hf : (Datatypes.S (length k) < Datatypes.S fuel)%nat).
    { destruct Hfuel as [Hf|[Hred _]]; [exact Hf|]. by rewrite (rb_color _ _ _ Ht) in Hred. }
    destruct Hd as [-> | Hd]; [left; lia|right; split; [done|lia]].
  - intros (t' & -> & Hp' & [n Ht']). apply runs_ret. exists t', []. split_and!; [done|done|].
    cbn. rewrite (rb_blacken_id _ _ Ht'). by exists n.
Qed.

Lemma pool_fuel s t k : pool s t k -> (length k < node_fuel s0)%nat.
Proof. intros (h & r & Hst & Hz & _). by eapply zip_fuel. Qed.

(** The whole fix-up. *)
Lemma remove_fixup_ok s t k a m :
  pool s t k -> deficit m t -> ctx_rb k a (Datatypes.S m) ->
  runs (remove_fixup (top t) (ctx_top k)) s (fun _ s' =>
    exists t', pool s' t' [] /\ rbtree t').
Proof.
  intros Hp Ht Hk. unfold remove_fixup. apply runs_bind.
  pose proof Hp as (h & r & Hst & _). eapply wp_fuel; [done|].
  apply runs_bind. eapply runs_mono; [eapply remove_fixup_loop_ok; eauto using pool_fuel|].
  clear dependent s t k. intros x s (t & k & -> & Hp & Hrb).
  assert (forall s t, pool s t k -> pool s (plug t k) []) as Hwhole.
  { intros s' t' (h' & r' & ? & Hz & ? & ?). exists h', r'. split_and!; try done.
    by apply (proj1 (zip_at_rep _ _ _ _)). }
  destruct t as [|c la i lb]; cbn [top blacken] in *.
  - unfold when. apply runs_ret. eauto.
  - edestruct (pool_top s0 h0 d l Hld) as (? & ? & _ & _ & Hi & _); [exact Hp|].
    unfold when, NULL_IDX. rewrite (proj2 (Z.eqb_neq i 0) Hi).
    eapply pool_set_color; [done..|]. eauto.
Qed.
End fixup.

(* ------------------------------------------------------------------ *)
(** ** Taking a node out *)

Section splice.
Context {S : Type} {HA : RbAccess S} {HV : RbView S} {HL : RbLaws S}.
Implicit Types (s : S) (h : gmap Z Link) (r : Z).

(** The parent link of a subtree's root does not matter to the subtree. *)
Lemma tree_at_reparent h t p p' :
  tree_at h t p -> NoDup (inorder t) -> t <> Leaf -> exists lk, h !! top t = Some lk /\
    tree_at (<[top t := lk_set_parent lk p']> h) t p'.
Proof.
  destruct t as [|c a i b]; [done|]. intros (Hi & Ha & Hb) Hnd _. nodup_facts Hnd.
  eexists. split; [exact Hi|]. cbn [top]. fin.
Qed.

(** The subtree [t] takes the place of node [u], whose links stay. *)
Lemma transplant_ok s0 s h r u lk t p k :
  st s0 s h r -> h !! u = Some lk -> lk.(lk_parent) = ctx_top k -> ctx_at h r k u ->
  tree_at h t p -> NoDup (u :: inorder t ++ cidx k) -> h !! 0 = None ->
  runs (transplant u (top t)) s (fun _ s' => exists h' r', st s0 s' h' r' /\
    zip_at h' r' t k /\ frame (inorder t ++ cidx k) h h').
Proof.
  intros Hst Hu Hpar Hk Ht Hnd H0. unfold transplant. pose proof Hnd as [_ Hnd2]%NoDup_cons.
  apply runs_bind. eapply wp_get_parent; [done..|]. rewrite Hpar.
  destruct k as [|[c i w|w c i] k]; cbn [ctx_at] in Hk; destruct_and? Hk; subst;
    (destruct t as [|tc ta ti tb]; [|cbn [tree_at] in Ht; destruct_and? Ht]);
    nodup_facts Hnd; nonnull; repeat wp1.
  all: eexists _, _; split; [eassumption|]; split;
    [unfold zip_at; split; [fin|split; [fin|split; [exact Hnd2|fin]]]|].
  all: fin_frame.
Qed.

Lemma splice_out_ok s0 s h r c a z b t k :
  st s0 s h r -> zip_at h r (Node c a z b) k -> (a = Leaf /\ t = b) \/ (b = Leaf /\ t = a) ->
  runs (splice_out z (top t) c) s (fun '(yc, x, xp) s' =>
    yc = c /\ x = top t /\ xp = ctx_top k /\
    exists h' r', st s0 s' h' r' /\ zip_at h' r' t k /\ frame (inorder (Node c a z b) ++ cidx k) h h').
Proof.
  intros Hst Hz Ht. pose proof Hz as ((Hi & Ha & Hb) & Hk & Hnd & H0).
  assert (tree_at h t z /\ z :: inorder t ++ cidx k ≡ₚ inorder (Node c a z b) ++ cidx k) as [Htt Hp].
  { destruct Ht as [[-> ->] | [-> ->]]; (split; [done|]); cbn; [done|]. solve_Permutation. }
  unfold splice_out. apply runs_bind. eapply wp_get_parent; [done..|]. cbn [lk_parent].
  apply runs_bind. eapply runs_mono; [eapply transplant_ok; try done; by rewrite Hp|].
  clear dependent s. intros [] s (h' & r' & Hst & Hz' & Hf). apply runs_bind.
  assert (frame (inorder (Node c a z b) ++ cidx k) h h') as Hf'.
  { intros j Hj. rewrite <- Hp in Hj. apply Hf. set_solver. }
  assert (Q : forall xp : Z, xp = ctx_top k -> c = c /\ top t = top t /\ xp = ctx_top k /\
    exists h' r', st s0 s h' r' /\ zip_at h' r' t k /\ frame (inorder (Node c a z b) ++ cidx k) h h')
    by eauto 10.
  destruct t as [|tc ta ti tb]; cbn [top] in *; unfold NULL_IDX.
  - rewrite Z.eqb_refl. apply runs_ret, runs_ret. by apply Q.
  - destruct (zip_at_dom _ _ _ _ ti Hz') as [_ Hne]; [cbn; set_solver|].
    rewrite (proj2 (Z.eqb_neq ti 0) Hne). destruct Hz' as ((Hti & _) & _).
    eapply wp_get_parent; [done..|]. apply runs_ret. by apply Q.
Qed.

(** The leftmost node. *)
Lemma tree_minimum_loop_ok fuel s0 s h r t p :
  st s0 s h r -> tree_at h t p -> h !! 0 = None -> t <> Leaf -> (height t <= fuel)%nat ->
  runs (tree_minimum_loop fuel (top t)) s (fun y s' => s' = s /\
    exists c b kr, t = plug (Node c Leaf y b) kr /\ Forall is_CL kr).
Proof.
  intros Hst Ht H0 Hne Hf. revert fuel p Ht Hne Hf.
  induction t as [|c a IHa i b _]; intros fuel p Ht Hne Hf; [done|].
  cbn [height] in Hf. destruct fuel as [|fuel]; [lia|].
  cbn [tree_minimum_loop top]. destruct Ht as (Hi & Ha & Hb). nonnull.
  unfold NULL_IDX. rewrite (proj2 (Z.eqb_neq i 0)) by done. cbn [negb].
  apply runs_bind. eapply wp_get_left; [done..|]. cbn [lk_left].
  destruct a as [|ac aa ai ab].
  - apply runs_ret. split; [done|]. exists c, b, []. auto.
  - pose proof Ha as (Hai & _). cbn [top]. nonnull. rewrite (proj2 (Z.eqb_neq ai 0)) by done.
    eapply runs_mono; [eapply (IHa fuel); [done|done|lia]|].
    intros y s' (-> & c' & b' & kr & -> & Hkr). split; [done|].
    exists c', b', (kr ++ [CL c i b]). rewrite plug_app. split; [done|].
    apply Forall_app. split; [done|]. by constructor.
Qed.

Lemma tree_minimum_ok s0 s h r c a z b k :
  st s0 s h r -> zip_at h r (Node c a z b) k -> b <> Leaf ->
  runs (tree_minimum (top b)) s (fun y s' => s' = s /\
    exists cy by_ kr, b = plug (Node cy Leaf y by_) kr /\ Forall is_CL kr).
Proof.
  intros Hst Hz Hne. unfold tree_minimum. apply runs_bind.
  pose proof Hst as (Hlk & _ & Hsame). eapply wp_fuel; [done|].
  pose proof Hz as ((_ & _ & Hb) & _ & Hnd & H0).
  eapply tree_minimum_loop_ok; [done|done|done|done|].
  rewrite (fuel_same _ _ Hsame). etrans; [apply height_inorder|].
  apply Nat.lt_le_incl, fuel_enough.
  - cbn in Hnd. apply NoDup_app in Hnd as (Hnd & _).
    apply NoDup_app in Hnd as (_ & _ & Hnd). by apply NoDup_cons in Hnd as [_ ?].
  - rewrite Hlk. intros i Hi. by eapply tree_at_dom.
Qed.

(** [y] has left the subtree [bb] that hangs under it now; node [z] is still
    linked in [k], with [a] on its left. *)
Definition detached h r c a z cy y (bb : tree) (k : ctx) : Prop :=
  (exists rt, h !! z = Some (mk_link c (top a) rt (ctx_top k))) /\
  tree_at h a z /\ ctx_at h r k z /\ (exists p, tree_at h (Node cy Leaf y bb) p) /\
  h !! 0 = None.

(** The nodes of the neighbourhood of [z], with the successor apart. *)
Lemma successor_perm c a z cy y b kr k :
  inorder (Node c a z (plug (Node cy Leaf y b) kr)) ++ cidx k
    ≡ₚ y :: z :: inorder a ++ inorder (plug b kr) ++ cidx k.
Proof. cbn. rewrite !inorder_plug_perm. cbn. solve_Permutation. Qed.

(** The successor is the right child itself. *)
Lemma detach_child_ok s0 s h r c a z cy y b k :
  st s0 s h r -> zip_at h r (Node c a z (Node cy Leaf y b)) k ->
  runs (detach_successor z y y (top b)) s (fun xp s' => xp = y /\
    exists h' r', st s0 s' h' r' /\ detached h' r' c a z cy y b k /\
      frame (inorder (Node c a z (Node cy Leaf y b)) ++ cidx k) h h').
Proof.
  intros Hst Hz. unfold detach_successor, detached.
  destruct b as [|bc ba bi bb]; open_zip Hz; repeat wp1; (split; [done|]);
    (eexists _, _; split; [eassumption|]; split; [|fin_frame]);
    (split; [eexists; look|]; split; [fin|]; split; [fin|]; split; [|look]);
    eexists; fin.
Qed.

Lemma nodup_outside (z w : Z) (la lb lk : list Z) :
  NoDup (z :: la ++ lb ++ lk) -> w ∈ lb ->
  w <> z /\ (w ∉ la) /\ (w ∉ lk).
Proof.
  rewrite NoDup_cons, NoDup_app, NoDup_app. intros (Hz & _ & Hab & _ & Hbk & _) Hw.
  split_and!; [|intros Hw'; apply (Hab w Hw')|by apply Hbk].
  - intros ->. apply Hz. rewrite !elem_of_app. auto.
  - rewrite elem_of_app. auto.
Qed.

(** The successor is further down, at the end of the left spine [f :: kr]. *)
Lemma deep_parent f kr c a z cy y b k :
  NoDup (inorder (Node c a z (plug (Node cy Leaf y b) (f :: kr))) ++ cidx k) -> ctx_top (f :: kr) <> z.
Proof.
  rewrite successor_perm, inorder_plug_perm. intros Hnd E.
  assert (z ∈ cidx (f :: kr)) by (rewrite <- E; destruct f; cbn; set_solver).
  apply NoDup_cons in Hnd as [_ [Hnd _]%NoDup_cons]. apply Hnd.
  rewrite !elem_of_app. auto.
Qed.
Lemma plug_deep_node b f kr : plug b (f :: kr) <> Leaf.
Proof.
  intros E. assert (ctx_top (f :: kr) ∈ inorder (plug b (f :: kr))); [|rewrite E in *; set_solver].
  rewrite inorder_plug_perm. destruct f; cbn; set_solver.
Qed.
Lemma detach_deep_ok s0 s h r c a z cy y b f kr k :
  st s0 s h r -> zip_at h r (Node c a z (plug (Node cy Leaf y b) (f :: kr))) k ->
  runs (detach_successor z (top (plug b (f :: kr))) y (top b)) s (fun xp s' =>
    xp = ctx_top (f :: kr) /\
    exists h' r', st s0 s' h' r' /\ detached h' r' c a z cy y (plug b (f :: kr)) k /\
      frame (inorder (Node c a z (plug (Node cy Leaf y b) (f :: kr))) ++ cidx k) h h').
Proof.
  intros Hst Hz. unfold detach_successor.
  pose proof (zip_at_nodup _ _ _ _ Hz) as Hnd. pose proof (deep_parent _ _ _ _ _ _ _ _ _ Hnd) as Hyp.
  rewrite successor_perm in Hnd.
  apply (proj2 (zip_at_up h r _ (CR a c z) k)) in Hz.
  apply (proj2 (zip_at_plug h r _ (f :: kr) _)) in Hz.
  pose proof Hz as ((Hy & _ & Hb) & Hk & Hnd' & H0).
  assert (ctx_top ((f :: kr) ++ CR a c z :: k) = ctx_top (f :: kr)) as Etop by (by destruct f).
  apply runs_bind. eapply wp_get_parent; [done..|]. cbn [lk_parent]. rewrite Etop.
  rewrite (proj2 (Z.eqb_neq _ _) Hyp).
  apply runs_bind. eapply wp_get_parent; [done..|]. cbn [lk_parent]. rewrite Etop.
  apply runs_bind. eapply wp_get_right; [done..|]. cbn [lk_right].
  apply runs_bind. eapply runs_mono;
    [eapply (transplant_ok s0 s h r y _ b y ((f :: kr) ++ CR a c z :: k));
      [exact Hst|exact Hy|done|exact Hk|exact Hb|exact Hnd'|exact H0]|].
  clear dependent s. intros [] s (h1 & r1 & Hst & Hz1 & Hf).
  assert (y ∉ inorder b ++ cidx ((f :: kr) ++ CR a c z :: k)) as Hy1 by (by apply NoDup_cons in Hnd' as [? _]).
  rewrite <- (Hf y Hy1) in Hy.
  apply (proj1 (zip_at_plug h1 r1 _ (f :: kr) _)) in Hz1.
  assert (Hf' : frame (inorder (Node c a z (plug (Node cy Leaf y b) (f :: kr))) ++ cidx k) h h1).
  { intros j Hj. apply Hf. intros Hj'. apply Hj. rewrite successor_perm, inorder_plug_perm.
    rewrite cidx_app in Hj'. cbn in *. set_solver. }
  pose proof (plug_deep_node b f kr) as HB.
  remember (plug b (f :: kr)) as B eqn:EB.
  apply NoDup_cons in Hnd as [Hny Hnd]. pose proof Hz1 as (HB1 & (Hzl & Ha & Hk1) & Hnd1 & H01).
  apply runs_bind. eapply wp_set_right; [done..|]. clear dependent s. intros s Hst.
  apply (tree_at_insert _ _ _ y (lk_set_right (mk_link cy (top Leaf) (top b) (ctx_top ((f :: kr) ++ CR a c z :: k))) (top B))) in HB1; [|set_solver].
  destruct (tree_at_reparent _ _ _ y HB1) as (lk & HlB & HB2); [by apply NoDup_app in Hnd1 as [? _]|done|].
  apply runs_bind. eapply wp_set_parent; [done..|]. clear dependent s. intros s Hst.
  apply runs_ret. split; [done|]. eexists _, _. split; [exact Hst|].
  assert (top B ∈ inorder B) as HwB by (destruct B; [done|cbn; set_solver]).
  split; [|apply frame_insert; [|apply frame_insert; [|exact Hf']];
    rewrite successor_perm, <- EB, !elem_of_cons, !elem_of_app; tauto].
  destruct (nodup_outside _ _ _ _ _ Hnd HwB) as (Hwz & Hwa & Hwk).
  rewrite not_elem_of_cons, !not_elem_of_app in Hny. destruct_and? Hny.
  unfold detached.
  destruct (zip_at_dom _ _ _ _ (top B) Hz1) as [_ HB0]; [rewrite elem_of_app; auto|].
  destruct (zip_at_dom _ _ _ _ y Hz) as [_ Hy0]; [cbn; apply elem_of_cons; auto|].
  assert (y <> top B) by congruence.
  split; [eexists; look|]. split; [fin|]. split; [fin|]. split; [|look].
  eexists. split; [look|]. split; [done|exact HB2].
Qed.

(** The successor takes the place of [z]. *)
Lemma attach_ok {A} (v : A) s0 s h r c a z cy y bb k :
  st s0 s h r -> detached h r c a z cy y bb k -> a <> Leaf ->
  NoDup (y :: z :: inorder a ++ inorder bb ++ cidx k) ->
  runs (transplant z y;; set_left y (top a);; set_parent (top a) y;;
        z_color ← get_color z; set_color y z_color;; mret v) s (fun v' s' => v' = v /\
    exists h' r', st s0 s' h' r' /\ zip_at h' r' (Node c a y bb) k /\
      frame (y :: z :: inorder a ++ inorder bb ++ cidx k) h h').
Proof.
  intros Hst ((rt & Hz) & Ha & Hk & (p & Ht) & H0) Hne Hnd.
  pose proof Hnd as [Hy [Hzn Hnd2]%NoDup_cons]%NoDup_cons.
  pose proof (nodup_outside z) as Hout'.
  apply NoDup_app in Hnd2 as (Hnda & Haout & Hndb).
  apply runs_bind. eapply runs_mono.
  { eapply (transplant_ok s0 s h r z _ (Node cy Leaf y bb) p k); try done.
    cbn. apply NoDup_cons. split; [set_solver|]. apply NoDup_cons. split; [set_solver|done]. }
  clear dependent s. intros [] s (h1 & r1 & Hst & Hz1 & Hf).
  assert (Hout : forall j, j ∉ y :: inorder bb ++ cidx k -> h1 !! j = h !! j)
    by (intros j Hj; apply Hf; exact Hj).
  assert (h1 !! z = h !! z) as Ez by (apply Hout; set_solver).
  rewrite <- Ez in Hz. clear Ez Hk Ht H0.
  apply (tree_at_frame h h1) in Ha.
  2: { intros j Hj. apply Hout. rewrite elem_of_cons. intros [-> |Hj'];
       [apply Hy; rewrite elem_of_cons, elem_of_app; auto|by apply (Haout j)]. }
  assert (Hf1 : frame (y :: z :: inorder a ++ inorder bb ++ cidx k) h h1).
  { intros j Hj. apply Hout. set_solver. }
  clear Hout Haout Hndb Hnda Hy Hzn Hout' Hf. cbn [app] in *.
  destruct a as [|ac aa ai ab]; [done|]. cbn [tree_at] in Ha. destruct_and? Ha.
  destruct Hz1 as ((Hy1 & _ & Hbb) & Hk1 & Hnd1 & H01).
  pose proof Hnd as Hnd2. nodup_facts Hnd2. nonnull. repeat wp1.
  split; [done|]. eexists _, _. split; [eassumption|]. split.
  - unfold zip_at. split; [fin|]. split; [fin|]. split; [|fin].
    apply NoDup_cons in Hnd as [Hy [_ Hnd]%NoDup_cons].
    assert (inorder (Node c (Node ac aa ai ab) y bb) ++ cidx k ≡ₚ
      y :: inorder (Node ac aa ai ab) ++ inorder bb ++ cidx k) as ->
      by (cbn; solve_Permutation).
    apply NoDup_cons. split; [|done]. rewrite elem_of_cons in Hy. tauto.
  - repeat (apply frame_insert; [rewrite ?elem_of_cons, ?elem_of_app; cbn; set_solver|]). done.
Qed.

Lemma detach_ok s0 s h r c a z cy y b kr k :
  st s0 s h r -> zip_at h r (Node c a z (plug (Node cy Leaf y b) kr)) k ->
  runs (detach_successor z (top (plug (Node cy Leaf y b) kr)) y (top b)) s (fun xp s' =>
    xp = ctx_top (kr ++ CR a c y :: k) /\
    exists h' r', st s0 s' h' r' /\ detached h' r' c a z cy y (plug b kr) k /\
      frame (inorder (Node c a z (plug (Node cy Leaf y b) kr)) ++ cidx k) h h').
Proof.
  intros Hst Hz. destruct kr as [|f kr]; [by eapply detach_child_ok|].
  rewrite (plug_top _ b) by done.
  eapply runs_mono; [by eapply detach_deep_ok|]. intros xp s' [-> H]. split; [|exact H].
  by destruct f.
Qed.

Definition spliced s0 h (t : tree) (k : ctx) (x xp : Z) (s' : S) (t' : tree) (k' : ctx) : Prop :=
  x = top t' /\ xp = ctx_top k' /\ exists h' r', st s0 s' h' r' /\ zip_at h' r' t' k' /\
    frame (inorder t ++ cidx k) h h'.

Lemma splice_successor_ok s0 s h r c a z b k :
  st s0 s h r -> zip_at h r (Node c a z b) k -> a <> Leaf -> b <> Leaf ->
  runs (splice_successor z (top a) (top b)) s (fun '(yc, x, xp) s' =>
    exists cy y bb kr, b = plug (Node cy Leaf y bb) kr /\ Forall is_CL kr /\ yc = cy /\
      spliced s0 h (Node c a z b) k x xp s' bb (kr ++ CR a c y :: k)).
Proof.
  intros Hst Hz Ha Hb. unfold splice_successor. apply runs_bind.
  eapply runs_mono; [by eapply tree_minimum_ok|].
  intros y s1 (-> & cy & bb & kr & -> & Hkr).
  pose proof (zip_at_nodup _ _ _ _ Hz) as Hnd. rewrite successor_perm in Hnd.
  pose proof Hz as Hz2. apply (proj2 (zip_at_up h r _ (CR a c z) k)) in Hz2.
  apply (proj2 (zip_at_plug h r _ kr _)) in Hz2. destruct Hz2 as ((Hy & _) & _).
  apply runs_bind. eapply wp_get_color; [done..|].
  apply runs_bind. eapply wp_get_right; [done..|]. cbn [lk_color lk_right].
  apply runs_bind. eapply runs_mono; [by eapply detach_ok|].
  clear dependent s. intros xp s (-> & h1 & r1 & Hst & Hdet & Hf).
  eapply runs_mono; [by eapply attach_ok|].
  clear dependent s. intros v s (-> & h2 & r2 & Hst & Hz2 & Hf2).
  exists cy, y, bb, kr. split; [done|]. split; [done|]. split; [done|].
  split; [done|]. split; [done|]. exists h2, r2. split; [done|]. split.
  - apply (proj2 (zip_at_plug _ _ _ kr _)). by apply (proj2 (zip_at_up _ _ _ (CR a c y) k)).
  - eapply frame_trans; [exact Hf|]. eapply frame_perm; [|exact Hf2].
    by rewrite successor_perm.
Qed.

Lemma ctx_rb_reindex k1 l c i j k2 a n :
  ctx_rb (k1 ++ CR l c i :: k2) a n -> ctx_rb (k1 ++ CR l c j :: k2) a n.
Proof.
  revert a n. induction k1 as [|f k1 IH]; intros a n; cbn; inversion 1; subst;
    eauto with rbdb.
Qed.

(** The fix-up after the splice, when it is needed. *)
Lemma remove_finish s0 h d t k t' k' yc y s' a n :
  rb yc n (Node yc Leaf y t') \/ rb yc n (Node yc t' y Leaf) ->
  ctx_rb k' a n -> (yc = RB_RED -> a = true) ->
  (forall i, i ∈ inorder (plug t' k') -> i ∈ d) ->
  spliced s0 h t k (top t') (ctx_top k') s' t' k' -> inorder t ++ cidx k ≡ₚ d ->
  runs (when (yc =? RB_BLACK) (remove_fixup (top t') (ctx_top k'))) s' (fun _ =>
    finishes s0 h d (inorder (plug t' k')) rbtree).
Proof.
  intros Ht Hk Hyc Hd (_ & _ & h' & r' & Hst & Hz & Hf) Hperm.
  eapply frame_perm in Hf; [|exact Hperm].
  assert (Hp : pool s0 h d (inorder (plug t' k')) s' t' k') by (exists h', r'; auto).
  assert ((yc = RB_RED /\ rb RB_BLACK n t') \/
          (yc = RB_BLACK /\ exists m ct, n = Datatypes.S m /\ rb ct m t')) as Hcase
    by (destruct Ht as [Ht|Ht]; inversion Ht; subst; eauto 10).
  unfold when. destruct Hcase as [[-> Ht']|[-> (m & ct & -> & Ht')]].
  - change (RB_RED =? RB_BLACK) with false. apply runs_ret.
    exists h', r', (plug t' k'). split_and!; try done.
    + by apply (proj1 (zip_at_rep _ _ _ _)).
    + eapply rb_plug; [exact Ht'|exact Hk|done].
  - change (RB_BLACK =? RB_BLACK) with true. eapply runs_mono.
    { eapply (remove_fixup_ok s0 h d _ Hd); [exact Hp| |exact Hk].
      destruct (rb_colors _ _ _ Ht') as [-> | ->]; [left|by right].
      split; [by apply (rb_color _ _ _ Ht')|].
      destruct (rb_blacken _ _ _ Ht') as (m' & ? & E). by rewrite (E eq_refl) in *. }
    intros [] s2 (t2 & (h2 & r2 & ? & ? & ? & ?) & ?). exists h2, r2, t2. auto.
Qed.

(** The successor leaves a red-black context behind. *)
Lemma successor_rb c a z cy y b kr k :
  rbtree (plug (Node c a z (plug (Node cy Leaf y b) kr)) k) ->
  exists n al, rb cy n (Node cy Leaf y b) /\ ctx_rb (kr ++ CR a c y :: k) al n /\
    (cy = RB_RED -> al = true).
Proof.
  intros H. change (rbtree (plug (plug (Node cy Leaf y b) kr) (CR a c z :: k))) in H.
  rewrite <- plug_app in H. apply rbtree_unplug in H as (c' & n & al & Ht & Hk & Hal).
  assert (c' = cy) as -> by (by inversion Ht). exists n, al. split; [done|]. split; [|done].
  by eapply ctx_rb_reindex.
Qed.

Lemma nodup_split (z : Z) l1 l2 m1 m2 :
  NoDup (l1 ++ z :: l2) -> l1 ++ z :: l2 = m1 ++ z :: m2 -> l1 = m1 /\ l2 = m2.
Proof.
  revert m1. induction l1 as [|x l1 IH]; intros [|w m1]; cbn; intros Hnd E; simplify_eq.
  - done.
  - apply NoDup_cons in Hnd as [H _]. exfalso. apply H. set_solver.
  - apply NoDup_cons in Hnd as [H _]. exfalso. apply H. set_solver.
  - apply NoDup_cons in Hnd as [_ Hnd]. by destruct (IH m1) as [-> ->].
Qed.

Lemma zip_top_leaf h r u k : zip_at h r u k -> top u = 0 -> u = Leaf.
Proof.
  destruct u as [|uc ua ui ub]; [done|]. intros Hz Hu. cbn in Hu. subst ui.
  destruct (zip_at_dom _ _ _ _ 0 Hz) as [_ ?]; [cbn; set_solver|done].
Qed.
Lemma inorder_successor a c y cy bb kr k : Forall is_CL kr ->
  inorder (plug bb (kr ++ CR a c y :: k)) =
  (before k ++ inorder a) ++ inorder (plug (Node cy Leaf y bb) kr) ++ after k.
Proof.
  intros Hkr. rewrite plug_app. cbn [plug foldl plug1]. fold (plug (Node c a y (plug bb kr)) k).
  rewrite inorder_plug. cbn [inorder]. rewrite !inorder_plug, (before_CL _ Hkr). listeq.
Qed.

(** Removal takes exactly [z] out of the sequence. *)
Theorem remove_ok s0 s h r t z l1 l2 :
  st s0 s h r -> rep h r t -> rbtree t -> inorder t = l1 ++ z :: l2 ->
  runs (remove z) s (fun _ => finishes s0 h (l1 ++ z :: l2) (l1 ++ l2) rbtree).
Proof.
  intros Hst Hz Hrb Hl. pose proof (zip_at_nodup _ _ _ _ Hz) as Hnd. cbn [cidx] in Hnd.
  rewrite app_nil_r, Hl in Hnd.
  destruct (focus t z) as (c & a & b & k & ->); [rewrite Hl; set_solver|].
  apply (proj2 (zip_at_rep _ _ _ _)) in Hz. pose proof Hz as ((Hi & _) & _).
  assert (Hperm : inorder (Node c a z b) ++ cidx k ≡ₚ l1 ++ z :: l2)
    by (by rewrite <- Hl, inorder_plug_perm).
  rewrite inorder_plug in Hl. cbn [inorder] in Hl.
  destruct (nodup_split z l1 l2 (before k ++ inorder a) (inorder b ++ after k)) as [-> ->];
    [done|rewrite <- Hl; listeq|].
  destruct (zip_at_dom _ _ _ _ z Hz) as [_ Hz0]; [cbn; set_solver|].
  pose proof (proj2 (zip_at_up h r a (CL c z b) k) Hz) as Hza.
  pose proof (proj2 (zip_at_up h r b (CR a c z) k) Hz) as Hzb.
  unfold remove, NULL_IDX. apply runs_bind, runs_bail_if; [by apply Z.eqb_neq|].
  apply runs_bind. eapply wp_get_color; [done..|].
  apply runs_bind. eapply wp_get_left; [done..|].
  apply runs_bind. eapply wp_get_right; [done..|]. cbn [lk_color lk_left lk_right].
  apply runs_bind.
  assert (Hsub : forall i, i ∈ (before k ++ inorder a) ++ inorder b ++ after k ->
            i ∈ (before k ++ inorder a) ++ z :: inorder b ++ after k)
    by (intros i; rewrite !elem_of_app, elem_of_cons, !elem_of_app; tauto).
  destruct (Z.eqb_spec (top a) 0) as [Ea|Ea];
    [apply zip_top_leaf in Hza; [subst a|done]|destruct (Z.eqb_spec (top b) 0) as [Eb|Eb];
    [apply zip_top_leaf in Hzb; [subst b|done]|]].
  - destruct (rbtree_unplug _ _ Hrb) as (c' & n & al & Ht & Hk & Hal).
    assert (c' = c) as -> by (by inversion Ht).
    eapply runs_mono; [eapply (splice_out_ok _ _ _ _ _ _ _ _ b); eauto|].
    intros [[yc x] xp] s' (-> & -> & -> & Hsp).
    assert (El : inorder (plug b k) = (before k ++ inorder Leaf) ++ inorder b ++ after k)
      by (rewrite inorder_plug; listeq).
    rewrite <- El in *. eapply remove_finish; eauto. by split_and!.
  - destruct (rbtree_unplug _ _ Hrb) as (c' & n & al & Ht & Hk & Hal).
    assert (c' = c) as -> by (by inversion Ht).
    eapply runs_mono; [eapply (splice_out_ok _ _ _ _ _ _ _ _ a); eauto|].
    intros [[yc x] xp] s' (-> & -> & -> & Hsp).
    assert (El : inorder (plug a k) = (before k ++ inorder a) ++ inorder Leaf ++ after k)
      by (rewrite inorder_plug; listeq).
    rewrite <- El in *. eapply remove_finish; eauto. by split_and!.
  - eapply runs_mono; [eapply splice_successor_ok; eauto; by intros ->|].
    intros [[yc x] xp] s' (cy & y & bb & kr & -> & Hkr & -> & Hsp).
    pose proof Hsp as (-> & -> & _).
    destruct (successor_rb _ _ _ _ _ _ _ _ Hrb) as (n & al & Ht & Hk & Hal).
    rewrite <- (inorder_successor a c y cy bb kr k Hkr) in *. eapply remove_finish; eauto.
Qed.
End splice.
