(* ===== verification/PoolLinks.v ===== *)
(** * The links of a book's pool

    A book's slots seen as the abstract pool of [RbHeap]: the links of the slots
    of one kind (intents or seats), the state with those links erased, and the
    laws both instances of the tree interface need. *)
From S2P Require Import Prelude IntentBook RbTree RbHeap.

(** One kind of node: how its links are read, written and erased. *)
Class NodeKind := {
  link : RawNode -> option Link;
  relink : Link -> RawNode -> RawNode;
  link_relink l s : is_Some (link s) -> link (relink l s) = Some l;
  relink_relink l l' s : relink l (relink l' s) = relink l s;
  relink_same s l : link s = Some l -> relink l s = s;
}.

Section pool_links.
Context `{NodeKind}.

Fixpoint links_from (i : Z) (ns : list RawNode) : gmap Z Link :=
  match ns with
  | [] => ∅
  | s :: ns =>
      match link s with
      | Some l => <[i := l]> (links_from (i + 1) ns)
      | None => links_from (i + 1) ns
      end
  end.
Definition pool_links (b : Book) : gmap Z Link := delete 0 (links_from 0 b.(nodes)).

Lemma lookup_links_from i ns j :
  links_from i ns !! j = if i <=? j then ns !! Z.to_nat (j - i) ≫= link else None.
Proof.
  revert i. induction ns as [|s ns IH]; intros i; cbn [links_from].
  { rewrite lookup_empty. by destruct (i <=? j). }
  assert (Hnext : i <> j -> links_from (i + 1) ns !! j =
    if i <=? j then (s :: ns) !! Z.to_nat (j - i) ≫= link else None).
  { intros Hij. rewrite IH. destruct (Z.leb_spec i j), (Z.leb_spec (i + 1) j); try lia; [|done].
    by replace (Z.to_nat (j - i)) with (S (Z.to_nat (j - (i + 1)))) by lia. }
  destruct (link s) as [l|] eqn:El, (decide (i = j)) as [->|Hij].
  - rewrite lookup_insert_eq, Z.leb_refl, Z.sub_diag. by cbn.
  - rewrite lookup_insert_ne by done. by apply Hnext.
  - rewrite IH, Z.leb_refl, Z.sub_diag. destruct (Z.leb_spec (j + 1) j); [lia|]. by cbn.
  - by apply Hnext.
Qed.

Lemma lookup_pool_links b i :
  pool_links b !! i = if 0 <? i then slot b i ≫= link else None.
Proof.
  unfold pool_links, slot. destruct (decide (i = 0)) as [->|Hi].
  { by rewrite lookup_delete_eq. }
  rewrite lookup_delete_ne, lookup_links_from, Z.sub_0_r by done.
  destruct (Z.leb_spec 0 i), (Z.ltb_spec 0 i); try done; lia.
Qed.

Lemma pool_links_some b i l :
  pool_links b !! i = Some l <-> 0 < i /\ exists s, slot b i = Some s /\ link s = Some l.
Proof.
  rewrite lookup_pool_links. destruct (Z.ltb_spec 0 i).
  - rewrite bind_Some. naive_solver.
  - split; [done|]. lia.
Qed.

Lemma slot_set_eq b i s s' : slot b i = Some s -> slot (set_slot b i s') i = Some s'.
Proof.
  unfold slot, set_slot. cbn. intros Hs. apply list_lookup_insert_eq.
  by eapply lookup_lt_Some.
Qed.
Lemma slot_set_ne b i j s' : 0 <= i -> 0 <= j -> i <> j -> slot (set_slot b i s') j = slot b j.
Proof. unfold slot, set_slot. cbn. intros. apply list_lookup_insert_ne. lia. Qed.

(** Rewriting the links of one slot. *)
Lemma pool_links_set b i s l l' :
  0 < i -> slot b i = Some s -> link s = Some l ->
  pool_links (set_slot b i (relink l' s)) = <[i := l']> (pool_links b).
Proof.
  intros Hi Hs Hl. apply map_eq. intros j. destruct (decide (j = i)) as [->|Hj].
  - rewrite lookup_insert_eq. apply pool_links_some. split; [done|].
    eexists. split; [by eapply slot_set_eq|]. apply link_relink. eauto.
  - rewrite lookup_insert_ne, !lookup_pool_links by done.
    destruct (Z.ltb_spec 0 j); [|done]. by rewrite slot_set_ne by lia.
Qed.

(** A pool of distinct live nodes is smaller than the slice. *)
Lemma pool_links_size b (l : list Z) :
  NoDup l -> (forall i, i ∈ l -> is_Some (pool_links b !! i)) ->
  (length l < S (length b.(nodes)))%nat.
Proof.
  intros Hnd Hl. apply Nat.lt_succ_r.
  transitivity (length (seqZ 0 (Z.of_nat (length b.(nodes))))); [|rewrite length_seqZ; lia].
  apply submseteq_length, NoDup_submseteq; [done|].
  intros i Hi. destruct (Hl i Hi) as [lk (Hpos & s & Hs & _)%pool_links_some].
  apply elem_of_seqZ. apply lookup_lt_Some in Hs. lia.
Qed.

(** The nodes with their links erased. *)
Definition null_link : Link := mk_link 0 0 0 0.
Definition erase_node (s : RawNode) : RawNode :=
  match link s with Some _ => relink null_link s | None => s end.
Definition erased (b : Book) : list RawNode := map erase_node b.(nodes).

Lemma erase_relink l s : is_Some (link s) -> erase_node (relink l s) = erase_node s.
Proof.
  intros Hs. unfold erase_node. rewrite (link_relink l s Hs).
  destruct Hs as [? ->]. apply relink_relink.
Qed.

Lemma erased_set b i s l :
  slot b i = Some s -> is_Some (link s) -> erased (set_slot b i (relink l s)) = erased b.
Proof.
  intros Hs Hl. unfold erased, set_slot. cbn. rewrite list_fmap_insert.
  rewrite erase_relink by done. apply list_insert_id.
  rewrite list_lookup_fmap. unfold slot in Hs. by rewrite Hs.
Qed.

(** Equal up to links: slot by slot. *)
Lemma erased_slot b b' i s :
  erased b = erased b' -> slot b i = Some s ->
  exists s', slot b' i = Some s' /\ erase_node s = erase_node s'.
Proof.
  unfold erased, slot. intros E Hs.
  assert (map erase_node (nodes b) !! Z.to_nat i = Some (erase_node s)) as H'
    by (by rewrite list_lookup_fmap, Hs).
  rewrite E, list_lookup_fmap in H'. apply fmap_Some in H' as (s' & ? & ?). eauto.
Qed.
Lemma erased_length b b' : erased b = erased b' -> length b.(nodes) = length b'.(nodes).
Proof. intros E. apply (f_equal length) in E. unfold erased in E. by rewrite !length_map in E. Qed.
End pool_links.
