(* ===== verification/IntentTree.v ===== *)
(** * The price trees: [src/state/intent_tree.rs]

    One red-black tree of intents per side, ordered best price first with FIFO
    among equals; the tree algorithms are those of [RbHeap], run through the
    accessors below. *)
From S2P Require Import Prelude IntentBook RbTree RbHeap RbCorrect RbRemove PoolLinks.

Definition set_links (n : IntentNode) (l : Link) : IntentNode :=
  {| in_side := n.(in_side); in_color := l.(lk_color); in_flags := n.(in_flags);
     in_left := l.(lk_left); in_right := l.(lk_right); in_parent := l.(lk_parent);
     in_price_fp := n.(in_price_fp); in_id := n.(in_id); in_owner_seat := n.(in_owner_seat);
     in_contracts_total := n.(in_contracts_total);
     in_contracts_remaining := n.(in_contracts_remaining);
     in_expiration_slot := n.(in_expiration_slot); in_post_seq := n.(in_post_seq);
     in_reserved_collateral := n.(in_reserved_collateral);
     in_fee_buffer := n.(in_fee_buffer) |}.
Definition node_links (n : IntentNode) : Link :=
  mk_link n.(in_color) n.(in_left) n.(in_right) n.(in_parent).

(** [(price, post_seq, id)], the price reversed on the long side. *)
Definition cmp_key (side : Z) (a b : IntentNode) : comparison :=
  let price := if side =? SIDE_LONG then b.(in_price_fp) ?= a.(in_price_fp)
               else a.(in_price_fp) ?= b.(in_price_fp) in
  match price with
  | Eq => match a.(in_post_seq) ?= b.(in_post_seq) with
          | Eq => a.(in_id) ?= b.(in_id)
          | other => other
          end
  | other => other
  end.

Section tree.
Variable side : Z.

Definition tree_root : M Book Z :=
  if side =? SIDE_LONG then gets (fun b => b.(header).(long_tree_root))
  else if side =? SIDE_SHORT then gets (fun b => b.(header).(short_tree_root))
  else fail InvalidInstructionData.

Definition set_tree_root (root : Z) : M Book unit :=
  if side =? SIDE_LONG then
    modify (fun b => with_header b
      (header_roots b.(header) root b.(header).(short_tree_root) b.(header).(seat_tree_root)))
  else if side =? SIDE_SHORT then
    modify (fun b => with_header b
      (header_roots b.(header) b.(header).(long_tree_root) root b.(header).(seat_tree_root)))
  else fail InvalidInstructionData.

Definition get_left (idx : Z) : M Book Z :=
  if idx =? NULL_IDX then mret NULL_IDX else n ← intent idx; mret n.(in_left).
Definition get_right (idx : Z) : M Book Z :=
  if idx =? NULL_IDX then mret NULL_IDX else n ← intent idx; mret n.(in_right).
Definition get_parent (idx : Z) : M Book Z :=
  if idx =? NULL_IDX then mret NULL_IDX else n ← intent idx; mret n.(in_parent).
Definition get_color (idx : Z) : M Book Z :=
  if idx =? NULL_IDX then mret RB_BLACK else n ← intent idx; mret n.(in_color).
Definition set_left (idx v : Z) : M Book unit :=
  if idx =? NULL_IDX then mret tt
  else intent_mut idx (fun n => set_links n (lk_set_left (node_links n) v)).
Definition set_right (idx v : Z) : M Book unit :=
  if idx =? NULL_IDX then mret tt
  else intent_mut idx (fun n => set_links n (lk_set_right (node_links n) v)).
Definition set_parent (idx v : Z) : M Book unit :=
  if idx =? NULL_IDX then mret tt
  else intent_mut idx (fun n => set_links n (lk_set_parent (node_links n) v)).
Definition set_color (idx c : Z) : M Book unit :=
  if idx =? NULL_IDX then mret tt
  else intent_mut idx (fun n => set_links n (lk_set_color (node_links n) c)).

#[local] Instance intent_access : RbAccess Book := {|
  RbHeap.get_left := get_left; RbHeap.get_right := get_right;
  RbHeap.get_parent := get_parent; RbHeap.get_color := get_color;
  RbHeap.set_left := set_left; RbHeap.set_right := set_right;
  RbHeap.set_parent := set_parent; RbHeap.set_color := set_color;
  RbHeap.tree_root := tree_root; RbHeap.set_tree_root := set_tree_root;
  null_check := true;
  node_fuel := fun b => S (length b.(nodes));
|}.

(** The comparison of the descent: [Less] goes left, [Equal] goes right. *)
Definition go_left (idx root : Z) : M Book bool :=
  a ← intent idx;
  b ← intent root;
  mret (match cmp_key side a b with Lt => true | _ => false end).

Definition insert (idx : Z) : M Book unit :=
  bail_if (idx =? NULL_IDX) InvalidAccountData;;
  intent_mut idx (fun n => set_links n (mk_link RB_RED NULL_IDX NULL_IDX NULL_IDX));;
  insert_node (go_left idx) idx.

Definition remove (z : Z) : M Book unit := RbHeap.remove z.

(** ** In-order traversal with a fixed stack *)
Definition STACK_CAP : nat := 64.

(** [while cur != NULL_IDX]: push [cur] and go left. *)
Fixpoint push_left (fuel : nat) (cur : Z) (stack : list Z) : M Book (list Z) :=
  match fuel with
  | O => lift Diverge
  | S fuel =>
      if negb (cur =? NULL_IDX) then
        bail_if (STACK_CAP <=? length stack)%nat ArithmeticOverflow;;
        l ← get_left cur;
        push_left fuel l (cur :: stack)
      else mret stack
  end.

Section visitor.
Context {A : Type} (visitor : Z -> IntentNode -> A -> bool * A).

Fixpoint visit_loop (fuel : nat) (cur : Z) (stack : list Z) (acc : A) : M Book A :=
  match fuel with
  | O => lift Diverge
  | S fuel =>
      b ← gets id;
      stack ← push_left (S (length b.(nodes))) cur stack;
      match stack with
      | [] => mret acc
      | top :: stack =>
          node ← intent top;
          let '(continue, acc) := visitor top node acc in
          if negb continue then mret acc
          else visit_loop fuel node.(in_right) stack acc
      end
  end.

Definition for_each_best_first (acc : A) : M Book A :=
  root ← tree_root;
  if root =? NULL_IDX then mret acc
  else b ← gets id; visit_loop (S (length b.(nodes))) root [] acc.
End visitor.

Definition is_live (now_slot : Z) (node : IntentNode) : bool :=
  (0 <? node.(in_contracts_remaining)) && (now_slot <? node.(in_expiration_slot)).

Definition first_live (now_slot : Z) : M Book (option (Z * IntentNode)) :=
  for_each_best_first (fun idx node found =>
    if is_live now_slot node then (false, Some (idx, node)) else (true, found)) None.
End tree.

(* ------------------------------------------------------------------ *)
(** ** The accessors meet the tree interface *)

#[local, refine] Instance intent_kind : NodeKind := {|
  link s := match s with RIntent n => Some (node_links n) | _ => None end;
  relink l s := match s with RIntent n => RIntent (set_links n l) | s => s end;
|}.
Proof.
  - intros l [] [? ?]; try discriminate. by destruct l.
  - by intros l l' [].
  - intros [] l; try discriminate. intros [= <-]. by destruct n.
Defined.

Definition side_root (side : Z) (h : IntentBookHeader) : Z :=
  if side =? SIDE_LONG then h.(long_tree_root) else h.(short_tree_root).
Definition set_side_root (side v : Z) (h : IntentBookHeader) : IntentBookHeader :=
  if side =? SIDE_LONG then header_roots h v h.(short_tree_root) h.(seat_tree_root)
  else header_roots h h.(long_tree_root) v h.(seat_tree_root).

Lemma intent_run b i n : slot b i = Some (RIntent n) -> intent i b = (Ok n, b).
Proof. intros Hs. unfold intent, mbind, M_bind, gets, ok_or. cbn. by rewrite Hs. Qed.
Lemma intent_mut_run b i n f :
  slot b i = Some (RIntent n) -> intent_mut i f b = (Ok tt, set_slot b i (RIntent (f n))).
Proof. intros Hs. unfold intent_mut. by rewrite (bind_ok _ _ _ _ _ (intent_run b i n Hs)). Qed.

Section laws.
Variable side : Z.
Hypothesis Hside : side = SIDE_LONG \/ side = SIDE_SHORT.
#[local] Instance this_access : RbAccess Book := intent_access side.

#[local] Instance intent_view : RbView Book := {|
  links := pool_links;
  root := fun b => side_root side b.(header);
  same := fun b b' => erased b = erased b' /\
    set_side_root side 0 b.(header) = set_side_root side 0 b'.(header);
|}.

Lemma links_intent b i l : pool_links b !! i = Some l ->
  0 < i /\ exists n, slot b i = Some (RIntent n) /\ node_links n = l.
Proof.
  intros (Hi & s & Hs & Hl)%pool_links_some. split; [done|].
  destruct s; try discriminate. injection Hl as <-. eauto.
Qed.

Lemma read_ok (g : IntentNode -> Z) b i l :
  pool_links b !! i = Some l -> forall f : Link -> Z, (forall n, g n = f (node_links n)) ->
  forall d, (if i =? NULL_IDX then mret d else n ← intent i; mret (g n)) b = (Ok (f l), b).
Proof.
  intros (Hi & n & Hs & <-)%links_intent f Hf d.
  rewrite (proj2 (Z.eqb_neq i NULL_IDX)) by (unfold NULL_IDX; lia).
  rewrite (bind_ok _ _ _ _ _ (intent_run b i n Hs)). by rewrite <- Hf.
Qed.

Lemma write_ok b i l (f : Link -> Link) :
  pool_links b !! i = Some l ->
  exists b', (if i =? NULL_IDX then mret tt
              else intent_mut i (fun n => set_links n (f (node_links n)))) b = (Ok tt, b') /\
    st b b' (<[i := f l]> (pool_links b)) (side_root side b.(header)).
Proof.
  intros (Hi & n & Hs & <-)%links_intent.
  rewrite (proj2 (Z.eqb_neq i NULL_IDX)) by (unfold NULL_IDX; lia).
  rewrite (intent_mut_run b i n _ Hs). eexists. split; [done|].
  change (RIntent (set_links n (f (node_links n)))) with (relink (f (node_links n)) (RIntent n)).
  split; [|split; [done|split; [|done]]].
  - cbn [links intent_view]. by erewrite pool_links_set.
  - symmetry. by apply erased_set; [|eexists].
Qed.

#[local] Instance intent_laws : RbLaws Book.
Proof.
  split; cbn [links root same node_fuel null_check intent_view this_access intent_access
    RbHeap.get_left RbHeap.get_right RbHeap.get_parent RbHeap.get_color RbHeap.set_left
    RbHeap.set_right RbHeap.set_parent RbHeap.set_color RbHeap.tree_root RbHeap.set_tree_root].
  - split; [by intros b|]. intros b1 b2 b3 [-> ->] [-> ->]. done.
  - intros b. by rewrite lookup_pool_links.
  - intros b b' [E _]. by rewrite (erased_length _ _ E).
  - apply pool_links_size.
  - intros b i l Hi. by apply read_ok.
  - intros b i l Hi. by apply read_ok.
  - intros b i l Hi. by apply read_ok.
  - intros b i l Hi. by apply read_ok.
  - done.
  - done.
  - done.
  - done.
  - done.
  - intros b i l v Hi. by apply (write_ok b i l (fun l => lk_set_left l v)).
  - intros b i l v Hi. by apply (write_ok b i l (fun l => lk_set_right l v)).
  - intros b i l v Hi. by apply (write_ok b i l (fun l => lk_set_parent l v)).
  - intros b i l v Hi. by apply (write_ok b i l (fun l => lk_set_color l v)).
  - intros b. unfold tree_root, side_root. by destruct Hside as [-> | ->].
  - intros b v. unfold set_tree_root, st. cbn [links root same intent_view].
    unfold side_root, set_side_root.
    destruct Hside as [-> | ->]; cbn; (eexists; split; [done|]); by split_and!.
Qed.
End laws.

(* ------------------------------------------------------------------ *)
(** ** The order *)

(** The price rank: lower is better on either side. *)
Definition price_rank (side : Z) (n : IntentNode) : Z :=
  if side =? SIDE_LONG then - n.(in_price_fp) else n.(in_price_fp).

Lemma cmp_key_spec side a b :
  cmp_key side a b =
    match price_rank side a ?= price_rank side b with
    | Eq => match a.(in_post_seq) ?= b.(in_post_seq) with
            | Eq => a.(in_id) ?= b.(in_id) | o => o end
    | o => o
    end.
Proof.
  unfold cmp_key, price_rank. destruct (side =? SIDE_LONG).
  - rewrite Z.compare_opp. by destruct (_ ?= _).
  - by destruct (_ ?= _).
Qed.

(** [a] has a strictly better place than [b]. *)
Definition beats (side : Z) (a b : IntentNode) : Prop :=
  price_rank side a < price_rank side b \/
  (price_rank side a = price_rank side b /\
    (a.(in_post_seq) < b.(in_post_seq) \/
     (a.(in_post_seq) = b.(in_post_seq) /\ a.(in_id) < b.(in_id)))).

Lemma cmp_key_lt side a b : cmp_key side a b = Lt <-> beats side a b.
Proof.
  rewrite cmp_key_spec. unfold beats.
  destruct (Z.compare_spec (price_rank side a) (price_rank side b));
    [destruct (Z.compare_spec a.(in_post_seq) b.(in_post_seq));
      [destruct (Z.compare_spec a.(in_id) b.(in_id))|..]|..];
    split; intros; try done; try lia.
Qed.

Lemma beats_asym side a b : beats side a b -> ~ beats side b a.
Proof. unfold beats. lia. Qed.

Definition node_of (b : Book) (i : Z) : option IntentNode := slot b i ≫= as_intent.

(** Node [i] comes no later than node [j] in best-first order. *)
Definition no_later (side : Z) (b : Book) (i j : Z) : Prop :=
  exists x y, node_of b i = Some x /\ node_of b j = Some y /\ ~ beats side y x.

(** The whole tree of one side: its shape in the pool, the red-black invariants and
    the best-first order of its nodes. *)
Definition side_tree (side : Z) (b : Book) (t : tree) : Prop :=
  rep (pool_links b) (side_root side b.(header)) t /\ rbtree t /\
  (forall i, i ∈ inorder t -> is_Some (node_of b i)) /\
  StronglySorted (no_later side b) (inorder t).

(** An operation on one side that only touched links of the nodes [d] and the
    root of that side. *)
Definition links_only (side : Z) (d : list Z) (b b' : Book) : Prop :=
  erased b = erased b' /\
  set_side_root side 0 b.(header) = set_side_root side 0 b'.(header) /\
  frame d (pool_links b) (pool_links b').

Lemma node_of_slot b i n : node_of b i = Some n <-> slot b i = Some (RIntent n).
Proof.
  unfold node_of. destruct (slot b i) as [[]|]; cbn; split; intros; simplify_eq; done.
Qed.

(** Nodes survive with their links changed at most. *)
Lemma erased_node b b' i n : erased b = erased b' -> node_of b i = Some n ->
  exists l, node_of b' i = Some (set_links n l).
Proof.
  intros E Hn%node_of_slot. destruct (erased_slot b b' i _ E Hn) as (s' & Hs' & Es).
  unfold node_of. rewrite Hs'. destruct s' as [|n'|]; cbn in Es |- *; try discriminate.
  assert (Es' : set_links n null_link = set_links n' null_link) by congruence.
  exists (node_links n'). f_equal.
  transitivity (set_links (set_links n' null_link) (node_links n')); [by destruct n'|].
  by rewrite <- Es'.
Qed.

Lemma no_later_erased side b b' i j :
  erased b = erased b' -> no_later side b i j -> no_later side b' i j.
Proof.
  intros E (x & y & Hx & Hy & H).
  destruct (erased_node _ _ _ _ E Hx) as [lx Hx'], (erased_node _ _ _ _ E Hy) as [ly Hy'].
  by exists (set_links x lx), (set_links y ly).
Qed.

(** The place of a new node in a sorted sequence. *)
Lemma sorted_place side b l n :
  StronglySorted (no_later side b) l -> (forall i, i ∈ l -> is_Some (node_of b i)) ->
  exists l1 l2, l = l1 ++ l2 /\
    (forall j m, j ∈ l1 -> node_of b j = Some m -> ~ beats side n m) /\
    (forall j m, j ∈ l2 -> node_of b j = Some m -> beats side n m).
Proof.
  intros Hs. induction Hs as [|i l Hl IH Hi]; intros Hnode.
  { exists [], []. split; [done|]. set_solver. }
  destruct (Hnode i) as [m Hm]; [by left|].
  assert (Decision (beats side n m)) as [Hb|Hb] by (unfold beats; apply _).
  - exists [], (i :: l). split; [done|]. split; [set_solver|].
    intros j m' [->|Hj]%elem_of_cons Hm'; [congruence|].
    rewrite Forall_forall in Hi. destruct (Hi j Hj) as (x & y & Hx & Hy & Hxy).
    simplify_eq. unfold beats in *. lia.
  - destruct IH as (l1 & l2 & -> & H1 & H2); [intros j Hj; apply Hnode; by right|].
    exists (i :: l1), l2. split; [done|]. split; [|done].
    intros j m' [->|Hj]%elem_of_cons Hm'; [congruence|eauto].
Qed.

(* ------------------------------------------------------------------ *)
(** ** Insertion and removal on one side of a book *)

Section operations.
Variable side : Z.
Hypothesis Hside : side = SIDE_LONG \/ side = SIDE_SHORT.
#[local] Instance op_access : RbAccess Book := intent_access side.
#[local] Instance op_view : RbView Book := intent_view side.
#[local] Instance op_laws : RbLaws Book := intent_laws side Hside.

Definition before_test (b : Book) (n : IntentNode) (j : Z) : bool :=
  match node_of b j with
  | Some m => match cmp_key side n m with Lt => true | _ => false end
  | None => false
  end.

Lemma go_left_compares b n idx t :
  node_of b idx = Some n -> (forall i, i ∈ inorder t -> is_Some (node_of b i)) ->
  compares (go_left side idx) (before_test b n) b t.
Proof.
  intros Hn Ht j b' Hj [E _]. destruct (Ht j Hj) as [m Hm].
  destruct (erased_node _ _ _ _ E Hn) as [ln Hn'%node_of_slot].
  destruct (erased_node _ _ _ _ E Hm) as [lm Hm'%node_of_slot].
  unfold go_left. apply runs_bind. unfold runs at 1. rewrite (intent_run _ _ _ Hn').
  apply runs_bind. unfold runs at 1. rewrite (intent_run _ _ _ Hm').
  apply runs_ret. unfold before_test. rewrite Hm. done.
Qed.

Lemma before_test_spec b n j m :
  node_of b j = Some m -> before_test b n j = true <-> beats side n m.
Proof.
  intros Hm. unfold before_test. rewrite Hm, <- cmp_key_lt.
  by destruct (cmp_key side n m).
Qed.

(** Resetting the links of a node outside the tree. *)
Lemma reset_node b idx n l t :
  slot b idx = Some (RIntent n) -> 0 < idx -> idx ∉ inorder t -> side_tree side b t ->
  let b1 := set_slot b idx (RIntent (set_links n l)) in
  st b b1 (<[idx := l]> (pool_links b)) (side_root side b.(header)) /\
  rep (<[idx := l]> (pool_links b)) (side_root side b.(header)) t.
Proof.
  intros Hs Hi Hout (Hrep & _) b1. split.
  - destruct (write_ok side b idx (node_links n) (fun _ => l)) as (b' & Hrun & Hst).
    { apply pool_links_some. eauto. }
    rewrite (proj2 (Z.eqb_neq idx NULL_IDX)) in Hrun by (unfold NULL_IDX; lia).
    rewrite (intent_mut_run _ _ _ _ Hs) in Hrun. by injection Hrun as <-.
  - destruct Hrep as (Ht & Hk & Hnd & H0). split_and!; [by apply tree_at_insert|done|done|].
    rewrite lookup_insert_ne by lia. done.
Qed.

(** What is left of a finished run, in terms of the book. *)
Lemma finishes_links b b' h d l P :
  finishes b h d l P b' -> frame d (pool_links b) h ->
  exists t', inorder t' = l /\ P t' /\
    rep (pool_links b') (side_root side b'.(header)) t' /\ links_only side d b b'.
Proof.
  intros (h' & r' & t' & (<- & <- & E) & Hrep & Hf & Hin & HP) Hf0. exists t'.
  split; [done|]. split; [done|]. split; [done|]. destruct E as [E1 E2].
  split; [done|]. split; [done|]. by eapply frame_trans.
Qed.

Lemma side_tree_after b b' t' :
  erased b = erased b' -> rep (pool_links b') (side_root side b'.(header)) t' -> rbtree t' ->
  (forall i, i ∈ inorder t' -> is_Some (node_of b i)) ->
  StronglySorted (no_later side b) (inorder t') -> side_tree side b' t'.
Proof.
  intros E Hrep Hrb Hn Hs. split_and!; [done|done| |].
  - intros i Hi. destruct (Hn i Hi) as [n Hni].
    destruct (erased_node _ _ _ _ E Hni) as [l Hl]. eauto.
  - eapply sorted_impl; [|exact Hs]. intros. by eapply no_later_erased.
Qed.

Lemma insert_sorts b t idx n :
  side_tree side b t -> slot b idx = Some (RIntent n) -> 0 < idx -> idx ∉ inorder t ->
  runs (insert side idx) b (fun _ b' => exists t' l1 l2,
    inorder t = l1 ++ l2 /\ inorder t' = l1 ++ idx :: l2 /\ side_tree side b' t' /\
    (forall j m, j ∈ l1 -> node_of b j = Some m -> ~ beats side n m) /\
    (forall j m, j ∈ l2 -> node_of b j = Some m -> beats side n m) /\
    links_only side (idx :: inorder t) b b').
Proof.
  intros Ht Hs Hi Hout. pose proof Ht as (Hrep0 & Hrb & Hnode & Hsort).
  destruct (sorted_place side b (inorder t) n Hsort Hnode) as (l1 & l2 & Hl & H1 & H2).
  unfold insert. apply runs_bind, runs_bail_if; [apply Z.eqb_neq; unfold NULL_IDX; lia|].
  apply runs_bind. unfold runs at 1. rewrite (intent_mut_run _ _ _ _ Hs).
  set (lk := mk_link RB_RED NULL_IDX NULL_IDX NULL_IDX).
  destruct (reset_node b idx n lk t Hs Hi Hout Ht) as [Hst Hrep].
  assert (Hn : node_of b idx = Some n) by (by apply node_of_slot).
  eapply runs_mono.
  { eapply (insert_node_ok (go_left side idx) (before_test b n) b _ _ _ t idx lk l1 l2);
      [exact Hst|exact Hrep|exact Hrb|by apply go_left_compares|apply lookup_insert_eq|
       done|done|done|done|exact Hout|exact Hl|..].
    - apply Forall_forall. intros j Hj. destruct (Hnode j) as [m Hm]; [rewrite Hl, elem_of_app; auto|].
      apply not_true_is_false. rewrite (before_test_spec _ _ _ _ Hm). eauto.
    - apply Forall_forall. intros j Hj. destruct (Hnode j) as [m Hm]; [rewrite Hl, elem_of_app; auto|].
      apply (before_test_spec _ _ _ _ Hm). eauto. }
  intros [] b' Hfin. apply finishes_links in Hfin as (t' & Hin & Hrb' & Hrep' & Hlo).
  2: { apply frame_insert; [by left|apply frame_refl]. }
  exists t', l1, l2. split_and!; try done.
  apply (side_tree_after b); [apply Hlo|done|done|..]; rewrite Hin.
  - intros i. rewrite elem_of_app, elem_of_cons. intros [?|[->|?]];
      [apply Hnode; rewrite Hl, elem_of_app; auto|eauto|apply Hnode; rewrite Hl, elem_of_app; auto].
  - rewrite Hl in Hsort. apply sorted_app in Hsort as (Hs1 & Hs2 & H12).
    apply sorted_app. split_and!; [done| |].
    + constructor; [done|]. apply Forall_forall. intros j Hj.
      destruct (Hnode j) as [m Hm]; [rewrite Hl, elem_of_app; auto|]. exists n, m. split_and!; try done.
      apply beats_asym. eauto.
    + intros x y Hx [->|Hy]%elem_of_cons; [|by apply H12].
      destruct (Hnode x) as [m Hm]; [rewrite Hl, elem_of_app; auto|]. exists m, n. eauto.
Qed.

Lemma remove_takes_out b t z l1 l2 :
  side_tree side b t -> inorder t = l1 ++ z :: l2 ->
  runs (remove side z) b (fun _ b' => exists t',
    inorder t' = l1 ++ l2 /\ side_tree side b' t' /\ links_only side (inorder t) b b').
Proof.
  intros (Hrep & Hrb & Hnode & Hsort) Hl.
  eapply runs_mono; [eapply (remove_ok b b _ _ t z l1 l2);
    [apply st_refl|exact Hrep|exact Hrb|exact Hl]|].
  intros [] b' Hfin. apply finishes_links in Hfin as (t' & Hin & Hrb' & Hrep' & Hlo);
    [|apply frame_refl].
  rewrite <- Hl in Hlo. exists t'. split_and!; try done.
  apply (side_tree_after b); [apply Hlo|done|done|..]; rewrite Hin.
  - intros i Hi. apply Hnode. rewrite Hl, elem_of_app, elem_of_cons. apply elem_of_app in Hi. tauto.
  - rewrite Hl in Hsort. apply sorted_app in Hsort as (Hs1 & Hs2 & H12).
    inversion Hs2; subst. apply sorted_app. split_and!; [done|done|].
    intros x y Hx Hy. apply H12; [done|by right].
Qed.
End operations.

(** The tree of the other side, on other nodes, is not touched. *)
Lemma side_tree_other side side' b b' d t :
  (side = SIDE_LONG \/ side = SIDE_SHORT) -> (side' = SIDE_LONG \/ side' = SIDE_SHORT) ->
  side <> side' -> links_only side d b b' -> (forall i, i ∈ inorder t -> i ∉ d) ->
  side_tree side' b t -> side_tree side' b' t.
Proof.
  intros Hs Hs' Hne (E & Hh & Hf) Hd ((Ht & Hk & Hnd & H0) & Hrb & Hn & Hsort).
  apply (side_tree_after side' b b' t); try done.
  assert (side_root side' b'.(header) = side_root side' b.(header)) as ->.
  { apply (f_equal (side_root side')) in Hh. symmetry. revert Hh. unfold side_root, set_side_root.
    destruct Hs as [-> | ->], Hs' as [-> | ->]; cbn; done. }
  split_and!; [|done|done|].
  - eapply tree_at_frame; [|exact Ht]. intros j Hj. by apply Hf, Hd.
  - by rewrite lookup_pool_links.
Qed.

(* ------------------------------------------------------------------ *)
(** ** Traversal *)

(** The reference: visit a list of nodes until the visitor declines. *)
Fixpoint visit {A} (visitor : Z -> IntentNode -> A -> bool * A)
    (l : list (Z * IntentNode)) (acc : A) : A :=
  match l with
  | [] => acc
  | (i, n) :: l =>
      let '(continue, acc) := visitor i n acc in
      if negb continue then acc else visit visitor l acc
  end.

(** The nodes of a sequence with their indices. *)
Definition entries (b : Book) (l : list Z) : list (Z * IntentNode) :=
  omap (fun i => pair i <$> node_of b i) l.

Section traversal.
Context (b : Book).
Abbreviation h := (pool_links b).

(** A stack entry: a node still to be visited, with its right subtree. *)
Definition pending (st : list (Z * tree)) : list Z :=
  flat_map (fun '(i, r) => i :: inorder r) st.

(** The entries are nodes of the book, and the stack has room for each of the
    subtrees still to come. *)
Fixpoint stack_ok (st : list (Z * tree)) : Prop :=
  match st with
  | [] => True
  | (i, r) :: st =>
      (exists n, node_of b i = Some n /\ n.(in_right) = top r /\ tree_at h r i) /\
      (height r + length st <= STACK_CAP)%nat /\ (height r <= length b.(nodes))%nat /\
      stack_ok st
  end.

Lemma tree_at_intent c l i r p : tree_at h (Node c l i r) p ->
  0 < i /\ exists n, slot b i = Some (RIntent n) /\ n.(in_left) = top l /\ n.(in_right) = top r.
Proof.
  intros (Hi & _ & _). apply links_intent in Hi as (Hpos & n & Hs & Hn).
  split; [done|]. exists n. split; [done|]. by injection Hn as _ -> -> _.
Qed.

Lemma push_left_ok fuel t p st :
  tree_at h t p -> stack_ok st -> (height t + length st <= STACK_CAP)%nat ->
  (height t <= length b.(nodes))%nat -> (height t < fuel)%nat ->
  runs (push_left fuel (top t) (map fst st)) b (fun stack b' => b' = b /\
    exists st', stack = map fst st' /\ stack_ok st' /\
      pending st' = inorder t ++ pending st).
Proof.
  revert fuel p st. induction t as [|c l IHl i r _]; intros fuel p st Ht Hst Hd Hn' Hf;
    (destruct fuel as [|fuel]; [cbn in Hf; lia|]); cbn [push_left top].
  - unfold NULL_IDX. cbn [Z.eqb negb]. apply runs_ret. split; [done|]. by exists st.
  - pose proof Ht as (_ & Hl & Hr).
    destruct (tree_at_intent _ _ _ _ _ Ht) as (Hi & n & Hn & El & Er).
    rewrite (proj2 (Z.eqb_neq i NULL_IDX)) by (unfold NULL_IDX; lia). cbn [negb].
    cbn [height] in Hd, Hn', Hf.
    apply runs_bind, runs_bail_if; [rewrite length_map; apply Nat.leb_gt; lia|].
    apply runs_bind. unfold get_left.
    rewrite (proj2 (Z.eqb_neq i NULL_IDX)) by (unfold NULL_IDX; lia).
    apply runs_bind. unfold runs at 1. rewrite (intent_run _ _ _ Hn). apply runs_ret.
    rewrite El. change (i :: map fst st) with (map fst ((i, r) :: st)).
    eapply runs_mono; [apply (IHl fuel i ((i, r) :: st)); [exact Hl| |cbn; lia|lia|lia]|].
    + cbn. split; [|split_and!; [lia|lia|done]]. exists n. split_and!; [by apply node_of_slot|done|done].
    + intros stack b' (-> & st' & -> & Hok & Hp). split; [done|]. exists st'.
      split; [done|]. split; [done|]. rewrite Hp. cbn. by rewrite <- app_assoc.
Qed.

Lemma entries_cons i n l : node_of b i = Some n -> entries b (i :: l) = (i, n) :: entries b l.
Proof. intros Hn. unfold entries. cbn. by rewrite Hn. Qed.

Lemma visit_loop_ok {A} (visitor : Z -> IntentNode -> A -> bool * A) fuel t p st acc :
  tree_at h t p -> stack_ok st -> (height t + length st <= STACK_CAP)%nat ->
  (height t <= length b.(nodes))%nat -> (length (inorder t ++ pending st) < fuel)%nat ->
  runs (visit_loop visitor fuel (top t) (map fst st) acc) b (fun acc' b' => b' = b /\
    acc' = visit visitor (entries b (inorder t ++ pending st)) acc).
Proof.
  revert t p st acc. induction fuel as [|fuel IH]; intros t p st acc Ht Hst Hd Hh Hf; [lia|].
  cbn [visit_loop]. apply runs_bind, runs_gets. cbn [id].
  apply runs_bind. eapply runs_mono; [eapply push_left_ok; try done; lia|].
  intros stack b' (-> & st' & -> & Hok & Hp). rewrite <- Hp in *.
  destruct st' as [|[i r] st']; cbn [map].
  - by apply runs_ret.
  - destruct Hok as ((n & Hn & Er & Hr) & Hroom & Hsize & Hok). cbn [pending flat_map fst] in *.
    apply runs_bind. unfold runs at 1. rewrite (intent_run _ _ _ (proj1 (node_of_slot _ _ _) Hn)).
    rewrite <- app_comm_cons, (entries_cons _ _ _ Hn). cbn [visit].
    destruct (visitor i n acc) as [continue acc']. destruct continue; cbn [negb].
    + rewrite Er. eapply IH; [exact Hr|done|lia|lia|]. cbn in Hf. unfold pending. lia.
    + by apply runs_ret.
Qed.
End traversal.

(** A book of at most 2^31 slots never outgrows the stack. *)
Lemma stack_suffices b t p rt :
  rep (pool_links b) rt t -> rbtree t -> Z.of_nat (length b.(nodes)) <= 2 ^ 31 ->
  tree_at (pool_links b) t p ->
  (height t <= STACK_CAP)%nat /\ (length (inorder t) < S (length b.(nodes)))%nat.
Proof.
  intros Hrep Hrb Hlen Ht.
  assert (length (inorder t) < S (length b.(nodes)))%nat as Hin.
  { apply pool_links_size.
    - apply zip_at_nodup in Hrep. by rewrite app_nil_r in Hrep.
    - intros i Hi. by eapply tree_at_dom. }
  split; [|done]. pose proof (rbtree_height t Hrb) as Hh.
  assert (Hlt : 2 ^ (Z.of_nat (height t) / 2) < 2 ^ 32) by lia.
  apply Z.pow_lt_mono_r_iff in Hlt; [|lia|lia]. unfold STACK_CAP.
  Z.to_euclidean_division_equations. lia.
Qed.

Lemma for_each_best_first_visits {A} side (visitor : Z -> IntentNode -> A -> bool * A) b t acc :
  (side = SIDE_LONG \/ side = SIDE_SHORT) -> side_tree side b t ->
  Z.of_nat (length b.(nodes)) <= 2 ^ 31 ->
  runs (for_each_best_first side visitor acc) b (fun acc' b' => b' = b /\
    acc' = visit visitor (entries b (inorder t)) acc).
Proof.
  intros Hside (Hrep & Hrb & _ & _) Hlen. pose proof Hrep as (Ht & Hroot & _ & H0).
  destruct (stack_suffices _ _ _ _ Hrep Hrb Hlen Ht) as [Hh Hin].
  unfold for_each_best_first. apply runs_bind.
  assert (tree_root side b = (Ok (top t), b)) as E.
  { rewrite <- Hroot. unfold tree_root, side_root. by destruct Hside as [-> | ->]. }
  unfold runs at 1. rewrite E. destruct t as [|c l i r]; cbn [top].
  - by apply runs_ret.
  - destruct (tree_at_intent _ _ _ _ _ _ Ht) as [Hi _].
    rewrite (proj2 (Z.eqb_neq i NULL_IDX)) by (unfold NULL_IDX; lia).
    apply runs_bind, runs_gets. cbn [id].
    eapply runs_mono; [apply (visit_loop_ok b visitor _ (Node c l i r) _ [] acc Ht)|].
    + done.
    + cbn [length]. lia.
    + pose proof (height_inorder (Node c l i r)). lia.
    + cbn [pending flat_map]. rewrite app_nil_r. done.
    + intros acc' b' [-> ->]. cbn [pending flat_map]. by rewrite app_nil_r.
Qed.

(** [first_live] is a search of the best-first sequence. *)
Lemma visit_find (live : IntentNode -> bool) l :
  visit (fun idx node (found : option (Z * IntentNode)) =>
    if live node then (false, Some (idx, node)) else (true, found)) l None =
  snd <$> list_find (fun e => live (snd e) = true) l.
Proof.
  induction l as [|[i n] l IH]; [done|]. cbn [visit list_find].
  destruct (decide _) as [E|E]; cbn in E; [by rewrite E|].
  apply not_true_is_false in E. rewrite E. cbn [negb]. rewrite IH.
  by destruct (list_find _ l) as [[]|].
Qed.

Lemma elem_entries b l i n : (i, n) ∈ entries b l <-> i ∈ l /\ node_of b i = Some n.
Proof.
  unfold entries. rewrite list_elem_of_omap. split.
  - intros (j & Hj & (m & Hm & [= -> ->])%fmap_Some). done.
  - intros [Hi Hn]. exists i. rewrite Hn. done.
Qed.

Lemma sorted_entries side b l k i n :
  StronglySorted (no_later side b) l -> entries b l !! k = Some (i, n) ->
  forall k' j m, (k <= k')%nat -> entries b l !! k' = Some (j, m) -> ~ beats side m n.
Proof.
  intros Hs. revert k. induction Hs as [|x l Hl IH Hx]; intros k Hk k' j m Hkk Hk'; [done|].
  unfold entries in *. cbn [omap list_omap] in *. destruct (node_of b x) as [nx|] eqn:Ex; cbn in Hk, Hk'.
  2: { by eapply IH. }
  destruct k as [|k], k' as [|k']; cbn in Hk, Hk'; try lia.
  - simplify_eq. unfold beats. lia.
  - simplify_eq. apply list_elem_of_lookup_2, elem_entries in Hk' as [Hj Hm].
    rewrite Forall_forall in Hx. destruct (Hx j Hj) as (a & c & Ha & Hc & Hac). simplify_eq.
    done.
  - eapply IH; [exact Hk| |exact Hk']. lia.
Qed.

Lemma first_live_finds side now_slot b t :
  (side = SIDE_LONG \/ side = SIDE_SHORT) -> side_tree side b t ->
  Z.of_nat (length b.(nodes)) <= 2 ^ 31 ->
  runs (first_live side now_slot) b (fun found b' => b' = b /\
    match found with
    | Some (i, n) => i ∈ inorder t /\ node_of b i = Some n /\ is_live now_slot n = true /\
        (forall j m, j ∈ inorder t -> node_of b j = Some m -> is_live now_slot m = true ->
          ~ beats side m n)
    | None => forall j m, j ∈ inorder t -> node_of b j = Some m -> is_live now_slot m = false
    end).
Proof.
  intros Hside Ht Hlen. unfold first_live. eapply runs_mono.
  { by apply for_each_best_first_visits. }
  intros found b' [-> ->]. split; [done|]. rewrite visit_find.
  destruct Ht as (_ & _ & _ & Hsort).
  destruct (list_find _ _) as [[k [i n]]|] eqn:E; cbn.
  - apply list_find_Some in E as (Hk & Hl & Hfirst). cbn in Hl.
    pose proof (list_elem_of_lookup_2 _ _ _ Hk) as [Hi Hn]%elem_entries.
    split_and!; try done. intros j m Hj Hm Hlm.
    assert ((j, m) ∈ entries b (inorder t)) as [k' Hk']%list_elem_of_lookup
      by (by apply elem_entries).
    eapply sorted_entries; [exact Hsort|exact Hk| |exact Hk'].
    apply Nat.nlt_ge. intros Hlt. by apply (Hfirst k' (j, m) Hk' Hlt).
  - apply list_find_None in E. intros j m Hj Hm. rewrite Forall_forall in E.
    apply not_true_is_false. by apply (E (j, m)), elem_entries.
Qed.
