(* ===== verification/SeatTree.v ===== *)
(** * The seat tree: [src/state/seat_tree.rs]

    The red-black tree of the traders' seats, ordered by public key, over the same
    node pool as the price trees. *)
From S2P Require Import Prelude IntentBook RbTree RbHeap RbCorrect PoolLinks.

Definition set_links (n : SeatNode) (l : Link) : SeatNode :=
  {| sn_color := l.(lk_color); sn_left := l.(lk_left); sn_right := l.(lk_right);
     sn_parent := l.(lk_parent); sn_trader := n.(sn_trader);
     sn_active_intent_count := n.(sn_active_intent_count); sn_flags := n.(sn_flags) |}.
Definition node_links (n : SeatNode) : Link :=
  mk_link n.(sn_color) n.(sn_left) n.(sn_right) n.(sn_parent).

Definition root : M Book Z := gets (fun b => b.(header).(seat_tree_root)).
Definition set_root (v : Z) : M Book unit :=
  modify (fun b => with_header b
    (header_roots b.(header) b.(header).(long_tree_root) b.(header).(short_tree_root) v)).

Definition get_left (idx : Z) : M Book Z :=
  if idx =? NULL_IDX then mret NULL_IDX else n ← seat idx; mret n.(sn_left).
Definition get_right (idx : Z) : M Book Z :=
  if idx =? NULL_IDX then mret NULL_IDX else n ← seat idx; mret n.(sn_right).
Definition get_parent (idx : Z) : M Book Z :=
  if idx =? NULL_IDX then mret NULL_IDX else n ← seat idx; mret n.(sn_parent).
Definition get_color (idx : Z) : M Book Z :=
  if idx =? NULL_IDX then mret RB_BLACK else n ← seat idx; mret n.(sn_color).
Definition set_left (idx v : Z) : M Book unit :=
  if idx =? NULL_IDX then mret tt
  else seat_mut idx (fun n => set_links n (lk_set_left (node_links n) v)).
Definition set_right (idx v : Z) : M Book unit :=
  if idx =? NULL_IDX then mret tt
  else seat_mut idx (fun n => set_links n (lk_set_right (node_links n) v)).
Definition set_parent (idx v : Z) : M Book unit :=
  if idx =? NULL_IDX then mret tt
  else seat_mut idx (fun n => set_links n (lk_set_parent (node_links n) v)).
Definition set_color (idx c : Z) : M Book unit :=
  if idx =? NULL_IDX then mret tt
  else seat_mut idx (fun n => set_links n (lk_set_color (node_links n) c)).

#[local] Instance seat_access : RbAccess Book := {|
  RbHeap.get_left := get_left; RbHeap.get_right := get_right;
  RbHeap.get_parent := get_parent; RbHeap.get_color := get_color;
  RbHeap.set_left := set_left; RbHeap.set_right := set_right;
  RbHeap.set_parent := set_parent; RbHeap.set_color := set_color;
  RbHeap.tree_root := root; RbHeap.set_tree_root := set_root;
  null_check := false;
  node_fuel := fun b => S (length b.(nodes));
|}.

(** [while cur != NULL_IDX] *)
Fixpoint find_loop (fuel : nat) (trader : Pubkey) (cur : Z) : M Book Z :=
  match fuel with
  | O => lift Diverge
  | S fuel =>
      if negb (cur =? NULL_IDX) then
        node ← seat cur;
        match trader ?= node.(sn_trader) with
        | Lt => find_loop fuel trader node.(sn_left)
        | Gt => find_loop fuel trader node.(sn_right)
        | Eq => mret cur
        end
      else mret NULL_IDX
  end.

Definition find (trader : Pubkey) : M Book Z :=
  cur ← root;
  b ← gets id;
  find_loop (S (length b.(nodes))) trader cur.

(** The comparison of the descent: equal keys are refused. *)
Definition go_left (trader : Pubkey) (r : Z) : M Book bool :=
  existing ← seat r;
  match trader ?= existing.(sn_trader) with
  | Lt => mret true
  | Gt => mret false
  | Eq => fail AlreadyInitialized
  end.

Definition insert (idx : Z) : M Book unit :=
  bail_if (idx =? NULL_IDX) InvalidAccountData;;
  seat_mut idx (fun n => set_links n (mk_link RB_RED NULL_IDX NULL_IDX NULL_IDX));;
  n ← seat idx;
  insert_node (go_left n.(sn_trader)) idx.

Definition find_or_create (trader : Pubkey) : M Book Z :=
  existing ← find trader;
  if negb (existing =? NULL_IDX) then mret existing
  else
    idx ← alloc_node;
    write_seat idx {| sn_color := RB_RED; sn_left := NULL_IDX; sn_right := NULL_IDX;
                      sn_parent := NULL_IDX; sn_trader := trader;
                      sn_active_intent_count := 0; sn_flags := 0 |};;
    insert idx;;
    mret idx.

(* ------------------------------------------------------------------ *)
(** ** The accessors meet the tree interface *)

#[local, refine] Instance seat_kind : NodeKind := {|
  link s := match s with RSeat n => Some (node_links n) | _ => None end;
  relink l s := match s with RSeat n => RSeat (set_links n l) | s => s end;
|}.
Proof.
  - intros l [] [? ?]; try discriminate. by destruct l.
  - by intros l l' [].
  - intros [] l; try discriminate. intros [= <-]. by destruct n.
Defined.

Definition set_seat_root (v : Z) (h : IntentBookHeader) : IntentBookHeader :=
  header_roots h h.(long_tree_root) h.(short_tree_root) v.

Lemma seat_run b i n : slot b i = Some (RSeat n) -> seat i b = (Ok n, b).
Proof. intros Hs. unfold seat, mbind, M_bind, gets, ok_or. cbn. by rewrite Hs. Qed.
Lemma seat_mut_run b i n f :
  slot b i = Some (RSeat n) -> seat_mut i f b = (Ok tt, set_slot b i (RSeat (f n))).
Proof. intros Hs. unfold seat_mut. by rewrite (bind_ok _ _ _ _ _ (seat_run b i n Hs)). Qed.

#[local] Instance seat_view : RbView Book := {|
  links := pool_links;
  RbHeap.root := fun b => b.(header).(seat_tree_root);
  same := fun b b' => erased b = erased b' /\
    set_seat_root 0 b.(header) = set_seat_root 0 b'.(header);
|}.

Lemma links_seat b i l : pool_links b !! i = Some l ->
  0 < i /\ exists n, slot b i = Some (RSeat n) /\ node_links n = l.
Proof.
  intros (Hi & s & Hs & Hl)%pool_links_some. split; [done|].
  destruct s; try discriminate. injection Hl as <-. eauto.
Qed.

Lemma seat_read_ok (g : SeatNode -> Z) b i l :
  pool_links b !! i = Some l -> forall f : Link -> Z, (forall n, g n = f (node_links n)) ->
  forall d, (if i =? NULL_IDX then mret d else n ← seat i; mret (g n)) b = (Ok (f l), b).
Proof.
  intros (Hi & n & Hs & <-)%links_seat f Hf d.
  rewrite (proj2 (Z.eqb_neq i NULL_IDX)) by (unfold NULL_IDX; lia).
  rewrite (bind_ok _ _ _ _ _ (seat_run b i n Hs)). by rewrite <- Hf.
Qed.

Lemma seat_write_ok b i l (f : Link -> Link) :
  pool_links b !! i = Some l ->
  exists b', (if i =? NULL_IDX then mret tt
              else seat_mut i (fun n => set_links n (f (node_links n)))) b = (Ok tt, b') /\
    st b b' (<[i := f l]> (pool_links b)) b.(header).(seat_tree_root).
Proof.
  intros (Hi & n & Hs & <-)%links_seat.
  rewrite (proj2 (Z.eqb_neq i NULL_IDX)) by (unfold NULL_IDX; lia).
  rewrite (seat_mut_run b i n _ Hs). eexists. split; [done|].
  change (RSeat (set_links n (f (node_links n)))) with (relink (f (node_links n)) (RSeat n)).
  split; [|split; [done|split; [|done]]].
  - cbn [links seat_view]. by erewrite pool_links_set.
  - symmetry. by apply erased_set; [|eexists].
Qed.

#[local] Instance seat_laws : RbLaws Book.
Proof.
  split; cbn [links RbHeap.root same node_fuel null_check seat_view seat_access
    RbHeap.get_left RbHeap.get_right RbHeap.get_parent RbHeap.get_color RbHeap.set_left
    RbHeap.set_right RbHeap.set_parent RbHeap.set_color RbHeap.tree_root RbHeap.set_tree_root].
  - split; [by intros b|]. intros b1 b2 b3 [-> ->] [-> ->]. done.
  - intros b. by rewrite lookup_pool_links.
  - intros b b' [E _]. by rewrite (erased_length _ _ E).
  - apply pool_links_size.
  - intros b i l Hi. by apply seat_read_ok.
  - intros b i l Hi. by apply seat_read_ok.
  - intros b i l Hi. by apply seat_read_ok.
  - intros b i l Hi. by apply seat_read_ok.
  - done.
  - done.
  - done.
  - done.
  - done.
  - intros b i l v Hi. by apply (seat_write_ok b i l (fun l => lk_set_left l v)).
  - intros b i l v Hi. by apply (seat_write_ok b i l (fun l => lk_set_right l v)).
  - intros b i l v Hi. by apply (seat_write_ok b i l (fun l => lk_set_parent l v)).
  - intros b i l v Hi. by apply (seat_write_ok b i l (fun l => lk_set_color l v)).
  - done.
  - intros b v. eexists. split; [done|]. by unfold st.
Qed.

(* ------------------------------------------------------------------ *)
(** ** Lookup and insertion *)

Definition seat_of (b : Book) (i : Z) : option SeatNode := slot b i ≫= as_seat.
Definition trader_of (b : Book) (i : Z) : option Pubkey := sn_trader <$> seat_of b i.

Definition trader_lt (b : Book) (i j : Z) : Prop :=
  exists x y, trader_of b i = Some x /\ trader_of b j = Some y /\ x < y.

Definition seat_tree (b : Book) (t : tree) : Prop :=
  rep (pool_links b) b.(header).(seat_tree_root) t /\ rbtree t /\
  (forall i, i ∈ inorder t -> is_Some (trader_of b i)) /\
  StronglySorted (trader_lt b) (inorder t).

Definition seat_links_only (d : list Z) (b b' : Book) : Prop :=
  erased b = erased b' /\ set_seat_root 0 b.(header) = set_seat_root 0 b'.(header) /\
  frame d (pool_links b) (pool_links b').

Lemma seat_of_slot b i n : seat_of b i = Some n <-> slot b i = Some (RSeat n).
Proof. unfold seat_of. destruct (slot b i) as [[]|]; cbn; split; intros; simplify_eq; done. Qed.

Lemma erased_seat b b' i n : erased b = erased b' -> seat_of b i = Some n ->
  exists l, seat_of b' i = Some (set_links n l).
Proof.
  intros E Hn%seat_of_slot. destruct (erased_slot b b' i _ E Hn) as (s' & Hs' & Es).
  unfold seat_of. rewrite Hs'. destruct s' as [| |n']; cbn in Es |- *; try discriminate.
  assert (Es' : set_links n null_link = set_links n' null_link) by congruence.
  exists (node_links n'). f_equal.
  transitivity (set_links (set_links n' null_link) (node_links n')); [by destruct n'|].
  by rewrite <- Es'.
Qed.

Lemma trader_of_erased b b' i x :
  erased b = erased b' -> trader_of b i = Some x -> trader_of b' i = Some x.
Proof.
  unfold trader_of. intros E (n & Hn & ->)%fmap_Some.
  destruct (erased_seat _ _ _ _ E Hn) as [l ->]. done.
Qed.

Lemma trader_of_run b i x : trader_of b i = Some x ->
  exists n, seat i b = (Ok n, b) /\ n.(sn_trader) = x.
Proof.
  unfold trader_of. intros (n & Hn & ->)%fmap_Some. exists n. split; [|done].
  by apply seat_run, seat_of_slot.
Qed.

Lemma find_loop_ok b trader fuel t p :
  tree_at (pool_links b) t p -> pool_links b !! 0 = None ->
  (forall i, i ∈ inorder t -> is_Some (trader_of b i)) ->
  StronglySorted (trader_lt b) (inorder t) -> (height t < fuel)%nat ->
  runs (find_loop fuel trader (top t)) b (fun i b' => b' = b /\
    ((i = NULL_IDX /\ forall j, j ∈ inorder t -> trader_of b j <> Some trader) \/
     (i ∈ inorder t /\ trader_of b i = Some trader))).
Proof.
  revert fuel p. induction t as [|c l IHl i r IHr]; intros fuel p Ht H0 Hn Hs Hf;
    (destruct fuel as [|fuel]; [cbn in Hf; lia|]); cbn [find_loop top].
  - unfold NULL_IDX. cbn [Z.eqb negb]. apply runs_ret. split; [done|]. left. set_solver.
  - cbn [height] in Hf. destruct Ht as (Hi & Hl & Hr). cbn [inorder] in *.
    destruct (links_seat _ _ _ Hi) as (Hpos & n & Hslot & Hlk).
    injection Hlk as _ El Er _.
    rewrite (proj2 (Z.eqb_neq i NULL_IDX)) by (unfold NULL_IDX; lia). cbn [negb].
    apply runs_bind. unfold runs at 1. rewrite (seat_run _ _ _ Hslot).
    assert (Htr : trader_of b i = Some n.(sn_trader)).
    { unfold trader_of, seat_of. by rewrite Hslot. }
    apply sorted_app in Hs as (Hs1 & Hs2 & H12). inversion Hs2 as [|? ? Hs2' Hx]; subst.
    rewrite Forall_forall in Hx.
    destruct (Z.compare_spec trader n.(sn_trader)) as [E|E|E].
    + apply runs_ret. split; [done|]. right. split; [set_solver|]. by rewrite Htr, E.
    + rewrite El. eapply runs_mono; [apply (IHl fuel i); [done|done| |done|lia]|].
      { intros j Hj. apply Hn. set_solver. }
      intros k b' [-> [[-> Hk]|[Hk Hk']]]; (split; [done|]); [left|right; set_solver].
      split; [done|]. intros j [Hj|[->|Hj]%elem_of_cons]%elem_of_app; [by apply Hk| |].
      * rewrite Htr. intros [= <-]. lia.
      * destruct (Hx j Hj) as (x & y & Ex & Ey & Hxy). rewrite Ey. intros [= ->]. simplify_eq. lia.
    + rewrite Er. eapply runs_mono; [apply (IHr fuel i); [done|done| |done|lia]|].
      { intros j Hj. apply Hn. set_solver. }
      intros k b' [-> [[-> Hk]|[Hk Hk']]]; (split; [done|]); [left|right; set_solver].
      split; [done|]. intros j [Hj|[->|Hj]%elem_of_cons]%elem_of_app; [| |by apply Hk].
      * destruct (H12 j i Hj) as (x & y & Ex & Ey & Hxy); [by left|].
        rewrite Ex. intros [= ->]. simplify_eq. lia.
      * rewrite Htr. intros [= <-]. lia.
Qed.

Lemma seat_tree_size b t : seat_tree b t ->
  (height t < S (length b.(nodes)))%nat.
Proof.
  intros (Hrep & _). eapply Nat.le_lt_trans; [apply height_inorder|].
  apply pool_links_size.
  - apply zip_at_nodup in Hrep. by rewrite app_nil_r in Hrep.
  - intros i Hi. destruct Hrep as (Ht & _). by eapply tree_at_dom.
Qed.

(** [find] answers for exactly the traders of the tree. *)
Lemma find_ok b t trader : seat_tree b t ->
  runs (find trader) b (fun i b' => b' = b /\
    ((i = NULL_IDX /\ forall j, j ∈ inorder t -> trader_of b j <> Some trader) \/
     (i ∈ inorder t /\ trader_of b i = Some trader))).
Proof.
  intros Ht. pose proof (seat_tree_size _ _ Ht) as Hsz.
  destruct Ht as ((Ht & Hroot & _ & H0) & _ & Hn & Hs).
  unfold find. apply runs_bind, runs_gets, runs_bind, runs_gets. cbn [id].
  replace (seat_tree_root (header b)) with (top t) by done.
  by eapply find_loop_ok.
Qed.

(** The place of a new trader in the sorted sequence. *)
Lemma trader_place b l x :
  StronglySorted (trader_lt b) l -> (forall i, i ∈ l -> is_Some (trader_of b i)) ->
  (forall i, i ∈ l -> trader_of b i <> Some x) ->
  exists l1 l2, l = l1 ++ l2 /\
    (forall j y, j ∈ l1 -> trader_of b j = Some y -> y < x) /\
    (forall j y, j ∈ l2 -> trader_of b j = Some y -> x < y).
Proof.
  intros Hs. induction Hs as [|i l Hl IH Hi]; intros Hsome Hne.
  { exists [], []. split; [done|]. set_solver. }
  destruct (Hsome i) as [y Hy]; [by left|].
  assert (x <> y) by (intros ->; by apply (Hne i); [left|]).
  destruct (Z.lt_ge_cases x y) as [Hlt|Hge].
  - exists [], (i :: l). split; [done|]. split; [set_solver|].
    intros j y' [->|Hj]%elem_of_cons Hy'; [congruence|].
    rewrite Forall_forall in Hi. destruct (Hi j Hj) as (u & v & Hu & Hv & Huv).
    simplify_eq. lia.
  - destruct IH as (l1 & l2 & -> & H1 & H2);
      [intros j Hj; apply Hsome; by right|intros j Hj; apply Hne; by right|].
    exists (i :: l1), l2. split; [done|]. split; [|done].
    intros j y' [->|Hj]%elem_of_cons Hy'; [|eauto]. simplify_eq. lia.
Qed.

Lemma seat_go_left_compares b n t :
  (forall i, i ∈ inorder t -> is_Some (trader_of b i)) ->
  (forall i, i ∈ inorder t -> trader_of b i <> Some n.(sn_trader)) ->
  compares (go_left n.(sn_trader))
    (fun j => match trader_of b j with Some y => n.(sn_trader) <? y | None => false end) b t.
Proof.
  intros Hsome Hne j b' Hj [E _]. destruct (Hsome j Hj) as [y Hy].
  destruct (trader_of_run b' j y (trader_of_erased _ _ _ _ E Hy)) as (m & Hm & <-).
  pose proof (Hne j Hj) as Hnj. rewrite Hy in Hnj.
  unfold go_left. apply runs_bind. unfold runs at 1. rewrite Hm, Hy.
  destruct (Z.compare_spec n.(sn_trader) m.(sn_trader)); [congruence|..];
    apply runs_ret; (split; [|done]); symmetry; [apply Z.ltb_lt | apply Z.ltb_ge]; lia.
Qed.

Lemma seat_insert_sorts b t idx n :
  seat_tree b t -> slot b idx = Some (RSeat n) -> 0 < idx -> idx ∉ inorder t ->
  (forall i, i ∈ inorder t -> trader_of b i <> Some n.(sn_trader)) ->
  runs (insert idx) b (fun _ b' => exists t' l1 l2,
    inorder t = l1 ++ l2 /\ inorder t' = l1 ++ idx :: l2 /\ seat_tree b' t' /\
    seat_links_only (idx :: inorder t) b b').
Proof.
  intros (Hrep & Hrb & Hsome & Hsort) Hs Hi Hout Hne.
  destruct (trader_place b _ _ Hsort Hsome Hne) as (l1 & l2 & Hl & H1 & H2).
  assert (Hn : trader_of b idx = Some n.(sn_trader)) by (unfold trader_of, seat_of; by rewrite Hs).
  unfold insert. apply runs_bind, runs_bail_if; [apply Z.eqb_neq; unfold NULL_IDX; lia|].
  apply runs_bind. unfold runs at 1. rewrite (seat_mut_run _ _ _ _ Hs).
  set (lk := mk_link RB_RED NULL_IDX NULL_IDX NULL_IDX).
  apply runs_bind. unfold runs at 1.
  rewrite (seat_run _ idx (set_links n lk)) by (by eapply slot_set_eq). cbn [sn_trader set_links].
  destruct (seat_write_ok b idx (node_links n) (fun _ => lk)) as (b1 & Hrun & Hst).
  { apply pool_links_some. eauto. }
  rewrite (proj2 (Z.eqb_neq idx NULL_IDX)) in Hrun by (unfold NULL_IDX; lia).
  rewrite (seat_mut_run _ _ _ _ Hs) in Hrun. injection Hrun as <-.
  assert (Hrep1 : rep (<[idx := lk]> (pool_links b)) b.(header).(seat_tree_root) t).
  { destruct Hrep as (Ht & Hk & Hnd & H0). split_and!; [by apply tree_at_insert|done|done|].
    rewrite lookup_insert_ne by lia. done. }
  eapply runs_mono.
  { eapply (insert_node_ok (go_left n.(sn_trader)) _ b _ _ _ t idx lk l1 l2);
      [exact Hst|exact Hrep1|exact Hrb|by apply seat_go_left_compares|apply lookup_insert_eq|
       done|done|done|done|exact Hout|exact Hl|..]; apply Forall_forall; intros j Hj;
      (destruct (Hsome j) as [y Hy]; [rewrite Hl, elem_of_app; auto|]); cbn; rewrite Hy.
    - specialize (H1 j y Hj Hy). lia.
    - specialize (H2 j y Hj Hy). lia. }
  intros [] b' (h' & r' & t' & (<- & <- & E1 & E2) & Hrep' & Hf & Hin & Hrb').
  exists t', l1, l2. split; [done|]. split; [done|]. split.
  - split; [done|]. split; [done|]. rewrite Hin. split.
    + intros i Hi'. assert (is_Some (trader_of b i)) as [y Hy].
      { revert Hi'. rewrite elem_of_app, elem_of_cons. intros [?|[->|?]];
          [apply Hsome; rewrite Hl, elem_of_app; auto|eauto|apply Hsome; rewrite Hl, elem_of_app; auto]. }
      exists y. by eapply trader_of_erased.
    + eapply (sorted_impl (trader_lt b)).
      { intros x y (u & v & Hu & Hv & ?). exists u, v. eauto using trader_of_erased. }
      rewrite Hl in Hsort. apply sorted_app in Hsort as (Hs1 & Hs2 & H12).
      apply sorted_app. split_and!; [done| |].
      * constructor; [done|]. apply Forall_forall. intros j Hj.
        destruct (Hsome j) as [y Hy]; [rewrite Hl, elem_of_app; auto|].
        exists n.(sn_trader), y. eauto.
      * intros x y Hx [->|Hy]%elem_of_cons; [|by apply H12].
        destruct (Hsome x) as [u Hu]; [rewrite Hl, elem_of_app; auto|]. exists u, n.(sn_trader). eauto.
  - split; [done|]. split; [done|]. eapply frame_trans; [|exact Hf].
    apply frame_insert; [by left|apply frame_refl].
Qed.
