(* ===== verification/BookInvariant.v ===== *)
(** * The allocator and the book as a whole

    The invariant of the node pool (free list, watermark, capacity) and the
    invariant of a book: a well-formed pool holding two price trees and a seat
    tree on disjoint nodes. The allocator of [IntentBook] never hands out a node
    in use, and the compound operations of the processors keep the book whole. *)
From S2P Require Import Prelude IntentBook RbTree RbHeap RbCorrect RbRemove PoolLinks SeatTree IntentTree.

Abbreviation intent_links := (@pool_links IntentTree.intent_kind).
Abbreviation seat_links := (@pool_links SeatTree.seat_kind).

(** The free list from [head]: distinct free slots below the watermark. *)
Fixpoint free_chain (b : Book) (head : Z) (fl : list Z) : Prop :=
  match fl with
  | [] => head = NULL_IDX
  | i :: fl =>
      head = i /\ 0 < i < b.(header).(node_count) /\
      exists next, slot b i = Some (RFree next) /\ free_chain b next fl
  end.

Definition in_use (s : RawNode) : bool := negb (tag s =? NODE_TAG_FREE).

Record pool_ok (b : Book) (fl : list Z) : Prop := {
  pool_chain : free_chain b b.(header).(freelist_head) fl;
  pool_nodup : NoDup fl;
  pool_count : 1 <= b.(header).(node_count) <= b.(header).(capacity);
  pool_cap : b.(header).(capacity) = Z.of_nat (length b.(nodes));
  pool_max : b.(header).(capacity) <= U32_MAX;
  pool_used : forall i s, 0 <= i -> slot b i = Some s -> in_use s = true ->
    0 < i < b.(header).(node_count);
}.

Lemma free_chain_ext b b' head fl :
  b.(header).(node_count) <= b'.(header).(node_count) ->
  (forall i next, i ∈ fl -> slot b i = Some (RFree next) -> slot b' i = Some (RFree next)) ->
  free_chain b head fl -> free_chain b' head fl.
Proof.
  intros Hn. revert head. induction fl as [|i fl IH]; intros head Hs; cbn; [done|].
  intros (-> & Hi & next & Hsl & Hc). split; [done|]. split; [lia|]. exists next.
  split; [apply Hs; [by left|done]|]. apply IH; [|done]. intros j nx Hj. apply Hs. by right.
Qed.

Lemma free_chain_free b head fl i :
  free_chain b head fl -> i ∈ fl -> 0 < i < b.(header).(node_count) /\
    exists next, slot b i = Some (RFree next).
Proof.
  revert head. induction fl as [|j fl IH]; intros head; cbn; [set_solver|].
  intros (-> & Hj & next & Hs & Hc) [->|Hi]%elem_of_cons; eauto.
Qed.

(** A slot that is allocated but not yet written. *)
Definition fresh (b : Book) (fl : list Z) (i : Z) : Prop :=
  0 < i < b.(header).(node_count) /\ (i ∉ fl) /\
  exists next, slot b i = Some (RFree next).

(** Trees and counters do not see the allocator's fields. *)
Definition same_roots (b b' : Book) : Prop :=
  b'.(nodes) = b.(nodes) /\
  b'.(header).(long_tree_root) = b.(header).(long_tree_root) /\
  b'.(header).(short_tree_root) = b.(header).(short_tree_root) /\
  b'.(header).(seat_tree_root) = b.(header).(seat_tree_root).

Lemma alloc_node_spec b fl : pool_ok b fl ->
  match alloc_node b with
  | (Ok i, b') => exists fl', pool_ok b' fl' /\ fresh b' fl' i /\ same_roots b b' /\
      (forall j, j ∈ fl' -> j ∈ fl)
  | (Err e, b') => e = IntentBookFull /\ b' = b /\ fl = [] /\
      b.(header).(node_count) = b.(header).(capacity)
  | _ => False
  end.
Proof.
  intros [Hc Hnd Hn Hcap Hmax Hu]. unfold alloc_node.
  rewrite (bind_ok _ _ b b.(header) b) by done.
  destruct fl as [|i fl]; cbn [free_chain] in Hc.
  - rewrite Hc. cbn [Z.eqb NULL_IDX negb].
    destruct (Z.leb_spec (capacity (header b)) (node_count (header b))) as [Hfull|Hroom].
    { cbn. split_and!; try done. lia. }
    cbn. unfold ok_or. rewrite (proj2 (checked_some _ _ _)) by (split; [reflexivity|mlia]). cbn.
    destruct (lookup_lt_is_Some_2 b.(nodes) (Z.to_nat (node_count (header b)))) as [s Hs]; [lia|].
    exists []. split.
    + constructor; cbn; [done|constructor|lia|done|done|].
      intros j s' Hj Hs' Hin. specialize (Hu j s' Hj Hs' Hin). lia.
    + split; [|split; [done|set_solver]]. split; [cbn; lia|]. split; [set_solver|].
      unfold slot. cbn. rewrite Hs.
      destruct s as [next|n|n]; [eauto|exfalso..].
      * pose proof (Hu (node_count (header b)) _ ltac:(lia) Hs eq_refl). lia.
      * pose proof (Hu (node_count (header b)) _ ltac:(lia) Hs eq_refl). lia.
  - destruct Hc as (-> & Hi & next & Hs & Hc).
    rewrite (proj2 (Z.eqb_neq i NULL_IDX)) by (unfold NULL_IDX; lia). cbn [negb].
    rewrite (bind_ok _ _ b b b) by done. rewrite Hs. cbn -[slot]. apply NoDup_cons in Hnd as [Hout Hnd].
    exists fl. split; [|split; [|split; [done|set_solver]]].
    + constructor; cbn; try done.
      eapply (free_chain_ext b); [cbn; done| |exact Hc]. done.
    + split; [cbn; lia|]. split; [done|]. exists next. exact Hs.
Qed.

(** Writing a fresh slot. *)
Lemma pool_ok_write b fl i s :
  pool_ok b fl -> fresh b fl i -> pool_ok (set_slot b i s) fl.
Proof.
  intros [Hc Hnd Hn Hcap Hmax Hu] (Hi & Hout & next & Hs). constructor; cbn; try done.
  - eapply (free_chain_ext b); [cbn; lia| |exact Hc]. intros j nx Hj Hsj.
    destruct (free_chain_free _ _ _ _ Hc Hj) as [Hj' _].
    rewrite slot_set_ne; [done|lia|lia|]. intros ->. done.
  - by rewrite length_insert.
  - intros j s' Hj Hs' Hin. destruct (decide (j = i)) as [->|Hne]; [done|].
    rewrite slot_set_ne in Hs' by lia. eauto.
Qed.

(** [free_node] puts any node below the watermark back. *)
Lemma free_node_spec b fl i :
  pool_ok b fl -> 0 < i < b.(header).(node_count) -> i ∉ fl ->
  exists b', free_node i b = (Ok tt, b') /\ pool_ok b' (i :: fl) /\
    (forall j, 0 <= j -> j <> i -> slot b' j = slot b j) /\
    (exists next, slot b' i = Some (RFree next)) /\
    b'.(header).(long_tree_root) = b.(header).(long_tree_root) /\
    b'.(header).(short_tree_root) = b.(header).(short_tree_root) /\
    b'.(header).(seat_tree_root) = b.(header).(seat_tree_root).
Proof.
  intros [Hc Hnd Hn Hcap Hmax Hu] Hi Hout. unfold free_node.
  rewrite (bind_ok _ _ b b b) by done.
  rewrite (proj2 (Z.eqb_neq i NULL_IDX)) by (unfold NULL_IDX; lia).
  rewrite (proj2 (Z.leb_gt _ _)) by lia. cbn [orb bail_if].
  destruct (lookup_lt_is_Some_2 b.(nodes) (Z.to_nat i)) as [s Hs]; [lia|].
  set (b' := with_header (set_slot b i (RFree b.(header).(freelist_head)))
    (header_alloc b.(header) i b.(header).(node_count) b.(header).(capacity))).
  exists b'. split; [done|].
  assert (Hii : slot b' i = Some (RFree b.(header).(freelist_head))) by (by eapply (slot_set_eq b)).
  assert (Hij : forall j, 0 <= j -> j <> i -> slot b' j = slot b j).
  { intros j Hj Hne. apply (slot_set_ne b); lia. }
  split_and!; eauto. constructor; cbn; try done.
  - split; [done|]. split; [lia|]. eexists. split; [exact Hii|].
    eapply (free_chain_ext b); [cbn; lia| |exact Hc]. intros j nx Hj Hsj.
    destruct (free_chain_free _ _ _ _ Hc Hj) as [Hj' _].
    rewrite Hij; [done|lia|]. intros ->. done.
  - by apply NoDup_cons.
  - by rewrite length_insert.
  - intros j s' Hj Hs' Hin. destruct (decide (j = i)) as [->|Hne].
    + rewrite Hii in Hs'. injection Hs' as <-. done.
    + rewrite Hij in Hs' by done. eauto.
Qed.

(** A freshly initialised book. *)
Lemma init_pool_ok len instrument cap bump bps b :
  1 <= cap <= U32_MAX -> init_intent_book len instrument cap bump bps = Ok b ->
  pool_ok b [].
Proof.
  unfold init_intent_book. intros Hcap. destruct (negb _); [done|]. intros [= <-].
  constructor; cbn; rewrite ?length_replicate; [done|constructor|lia|lia|lia|].
  intros i s Hi Hs. apply lookup_replicate in Hs as [-> _]. done.
Qed.
