(* ===== verification/BookShape.v ===== *)
(** * The shape of a whole book

    A book's pool holds two price trees, the seat tree and the free list on disjoint slots:
    every intent stands in the tree of its side, every seat in the seat tree, and every
    intent names a seat. Each primitive of the book keeps the shape; an intent between its
    slot and its tree is named in the list of slots that are [out]. *)
From S2P Require Import Prelude IntentBook RbTree RbHeap RbCorrect RbRemove PoolLinks SeatTree IntentTree BookInvariant.

(* ------------------------------------------------------------------ *)
(** ** What a slot holds, whatever its links *)

Definition order (n : IntentNode) : IntentNode := IntentTree.set_links n null_link.
Definition desk (n : SeatNode) : SeatNode := SeatTree.set_links n null_link.

Inductive Content := Order (o : IntentNode) | Desk (d : SeatNode).

Definition content_of (s : RawNode) : option Content :=
  match s with
  | RFree _ => None
  | RIntent n => Some (Order (order n))
  | RSeat n => Some (Desk (desk n))
  end.
Definition content (b : Book) (i : Z) : option Content := slot b i ≫= content_of.

Lemma content_order b i o : content b i = Some (Order o) <-> exists n, node_of b i = Some n /\ order n = o.
Proof.
  unfold content, node_of. destruct (slot b i) as [[]|]; cbn; naive_solver.
Qed.
Lemma content_desk b i d : content b i = Some (Desk d) <-> exists n, seat_of b i = Some n /\ desk n = d.
Proof.
  unfold content, seat_of. destruct (slot b i) as [[]|]; cbn; naive_solver.
Qed.

Lemma node_content b i n : node_of b i = Some n -> content b i = Some (Order (order n)).
Proof. intros Hn. apply content_order. eauto. Qed.
Lemma seat_content b i n : seat_of b i = Some n -> content b i = Some (Desk (desk n)).
Proof. intros Hn. apply content_desk. eauto. Qed.

(** Links are not content. *)
Lemma content_erased_intents b b' i :
  @erased IntentTree.intent_kind b = @erased IntentTree.intent_kind b' -> content b' i = content b i.
Proof.
  assert (H : forall b, content b i = @erased IntentTree.intent_kind b !! Z.to_nat i ≫= content_of).
  { intros b0. unfold content, slot, erased. rewrite list_lookup_fmap.
    by destruct (nodes b0 !! Z.to_nat i) as [[]|]. }
  intros E. by rewrite !H, E.
Qed.
Lemma content_erased_seats b b' i :
  @erased SeatTree.seat_kind b = @erased SeatTree.seat_kind b' -> content b' i = content b i.
Proof.
  assert (H : forall b, content b i = @erased SeatTree.seat_kind b !! Z.to_nat i ≫= content_of).
  { intros b0. unfold content, slot, erased. rewrite list_lookup_fmap.
    by destruct (nodes b0 !! Z.to_nat i) as [[]|]. }
  intros E. by rewrite !H, E.
Qed.

(** Seats do not see the intents' links, nor intents the seats'. *)
Lemma seats_erased_intents b b' i :
  @erased IntentTree.intent_kind b = @erased IntentTree.intent_kind b' -> seat_of b' i = seat_of b i.
Proof.
  assert (H : forall b, seat_of b i = @erased IntentTree.intent_kind b !! Z.to_nat i ≫= as_seat).
  { intros b0. unfold seat_of, slot, erased. rewrite list_lookup_fmap.
    by destruct (nodes b0 !! Z.to_nat i) as [[]|]. }
  intros E. by rewrite !H, E.
Qed.
Lemma nodes_erased_seats b b' i :
  @erased SeatTree.seat_kind b = @erased SeatTree.seat_kind b' -> node_of b' i = node_of b i.
Proof.
  assert (H : forall b, node_of b i = @erased SeatTree.seat_kind b !! Z.to_nat i ≫= as_intent).
  { intros b0. unfold node_of, slot, erased. rewrite list_lookup_fmap.
    by destruct (nodes b0 !! Z.to_nat i) as [[]|]. }
  intros E. by rewrite !H, E.
Qed.

(* ------------------------------------------------------------------ *)
(** ** What each part depends on *)

Lemma intent_links_lookup b i :
  intent_links b !! i = if 0 <? i then IntentTree.node_links <$> node_of b i else None.
Proof.
  rewrite (@lookup_pool_links IntentTree.intent_kind). destruct (0 <? i); [|done].
  unfold node_of. by destruct (slot b i) as [[]|].
Qed.
Lemma seat_links_lookup b i :
  seat_links b !! i = if 0 <? i then SeatTree.node_links <$> seat_of b i else None.
Proof.
  rewrite (@lookup_pool_links SeatTree.seat_kind). destruct (0 <? i); [|done].
  unfold seat_of. by destruct (slot b i) as [[]|].
Qed.

Lemma sorted_impl_in {A} (R R' : A -> A -> Prop) l :
  (forall x y, x ∈ l -> y ∈ l -> R x y -> R' x y) -> StronglySorted R l -> StronglySorted R' l.
Proof.
  intros Hr Hs. induction Hs as [|x l Hl IH Hx]; constructor.
  - apply IH. intros y z Hy Hz. apply Hr; by right.
  - rewrite Forall_forall in Hx |- *. intros y Hy. apply Hr; [by left|by right|by apply Hx].
Qed.

Lemma rep_ext h h' rt t :
  (forall i, i ∈ inorder t -> h' !! i = h !! i) -> h' !! 0 = None -> rep h rt t -> rep h' rt t.
Proof.
  intros He H0 (Ht & Hk & Hnd & _). split_and!; try done. by apply (tree_at_frame h).
Qed.

Lemma side_tree_ext side b b' t :
  (forall i, i ∈ inorder t -> node_of b' i = node_of b i) ->
  side_root side b'.(header) = side_root side b.(header) ->
  side_tree side b t -> side_tree side b' t.
Proof.
  intros Hn Hr (Hrep & Hrb & Hnode & Hsort). split_and!; [rewrite Hr|done| |].
  - apply (rep_ext (intent_links b)); [|by rewrite intent_links_lookup|done].
    intros i Hi. by rewrite !intent_links_lookup, Hn.
  - intros i Hi. rewrite Hn by done. by apply Hnode.
  - eapply sorted_impl_in; [|exact Hsort]. intros i j Hi Hj (x & y & Hx & Hy & Hxy).
    exists x, y. by rewrite !Hn.
Qed.
Lemma seat_tree_ext b b' t :
  (forall i, i ∈ inorder t -> SeatTree.node_links <$> seat_of b' i = SeatTree.node_links <$> seat_of b i) ->
  (forall i, i ∈ inorder t -> trader_of b' i = trader_of b i) ->
  b'.(header).(seat_tree_root) = b.(header).(seat_tree_root) ->
  seat_tree b t -> seat_tree b' t.
Proof.
  intros Hn Ht Hr (Hrep & Hrb & Hsome & Hsort). split_and!; [rewrite Hr|done| |].
  - apply (rep_ext (seat_links b)); [|by rewrite seat_links_lookup|done].
    intros i Hi. by rewrite !seat_links_lookup, Hn.
  - intros i Hi. rewrite Ht by done. by apply Hsome.
  - eapply sorted_impl_in; [|exact Hsort]. intros i j Hi Hj (x & y & Hx & Hy & Hxy).
    exists x, y. by rewrite !Ht.
Qed.

(** The allocator only sees its own header fields and which slots are free. *)
Lemma pool_ok_ext b b' fl :
  b'.(header).(freelist_head) = b.(header).(freelist_head) ->
  b'.(header).(node_count) = b.(header).(node_count) ->
  b'.(header).(capacity) = b.(header).(capacity) ->
  length b'.(nodes) = length b.(nodes) ->
  (forall i next, slot b i = Some (RFree next) -> slot b' i = Some (RFree next)) ->
  (forall i, is_Some (content b' i) -> is_Some (content b i)) ->
  pool_ok b fl -> pool_ok b' fl.
Proof.
  intros Hf Hn Hc Hl Hfree Hused [Pc Pd Pn Pcap Pm Pu].
  constructor; rewrite ?Hf, ?Hn, ?Hc, ?Hl; try done.
  - eapply (free_chain_ext b); [by rewrite Hn| |exact Pc]. intros i nx _. apply Hfree.
  - intros i s Hi Hs Hin. destruct (Hused i) as [c Hc'].
    { unfold content. rewrite Hs. destruct s; [done|by eexists..]. }
    unfold content in Hc'. destruct (slot b i) as [s'|] eqn:Es; [|done].
    apply (Pu i s'); [done|done|]. by destruct s'.
Qed.

(* ------------------------------------------------------------------ *)
(** ** The shape *)

(** Where the trees put a slot. *)
Definition placed (tl ts tt : tree) (i : Z) (c : Content) : Prop :=
  match c with
  | Order o => (o.(in_side) = SIDE_LONG /\ i ∈ inorder tl) \/
               (o.(in_side) = SIDE_SHORT /\ i ∈ inorder ts)
  | Desk _ => i ∈ inorder tt
  end.

Record book_shape (out : list Z) (b : Book) (tl ts tt : tree) (fl : list Z) : Prop := {
  shape_pool : pool_ok b fl;
  shape_long : side_tree SIDE_LONG b tl;
  shape_short : side_tree SIDE_SHORT b ts;
  shape_seats : seat_tree b tt;
  shape_placed : forall i c, content b i = Some c -> i ∉ out -> placed tl ts tt i c;
  shape_in_long : forall i, i ∈ inorder tl -> i ∉ out /\
    exists o, content b i = Some (Order o) /\ o.(in_side) = SIDE_LONG;
  shape_in_short : forall i, i ∈ inorder ts -> i ∉ out /\
    exists o, content b i = Some (Order o) /\ o.(in_side) = SIDE_SHORT;
  shape_in_seats : forall i, i ∈ inorder tt -> i ∉ out;
  shape_owner : forall i o, content b i = Some (Order o) ->
    exists d, content b o.(in_owner_seat) = Some (Desk d);
  shape_fresh : forall i o, content b i = Some (Order o) ->
    o.(in_id) < b.(header).(bh_next_intent_id) /\ o.(in_post_seq) < b.(header).(bh_next_seq);
  shape_unique : forall i j o o', content b i = Some (Order o) -> content b j = Some (Order o') ->
    o.(in_id) = o'.(in_id) -> i = j;
}.

Definition whole (b : Book) : Prop := exists tl ts tt fl, book_shape [] b tl ts tt fl.

Lemma content_pos b fl i c : pool_ok b fl -> content b i = Some c ->
  0 < i < b.(header).(node_count).
Proof.
  intros Hp Hc. unfold content in Hc. destruct (slot b i) as [s|] eqn:Es; [|done]. cbn in Hc.
  assert (Hin : in_use s = true) by (by destruct s).
  destruct (Z.lt_ge_cases i 0) as [Hneg|Hpos]; [|by eapply (pool_used _ _ Hp)].
  assert (Es0 : slot b 0 = Some s) by (unfold slot in *; by replace (Z.to_nat i) with (Z.to_nat 0) in Es by lia).
  pose proof (pool_used _ _ Hp 0 s ltac:(lia) Es0 Hin). lia.
Qed.

Lemma slot_set_other b i j s : 0 < i -> j <> i -> slot (set_slot b i s) j = slot b j.
Proof.
  intros Hi Hj. unfold slot, set_slot. cbn. apply list_lookup_insert_ne. lia.
Qed.
Lemma content_set_other b i j s : 0 < i -> j <> i -> content (set_slot b i s) j = content b j.
Proof. intros. unfold content. by rewrite slot_set_other. Qed.
Lemma content_set b i s s' : slot b i = Some s -> content (set_slot b i s') i = content_of s'.
Proof. intros Hs. unfold content. by erewrite slot_set_eq. Qed.

(** The three trees and the free list are disjoint. *)
Lemma seats_hold_desks b t i : seat_tree b t -> i ∈ inorder t -> exists d, content b i = Some (Desk d).
Proof.
  intros (_ & _ & Hs & _) Hi. destruct (Hs i Hi) as [x Hx]. unfold trader_of in Hx.
  destruct (seat_of b i) as [n|] eqn:En; [|done]. eexists. by apply seat_content.
Qed.

(* ------------------------------------------------------------------ *)
(** ** Steps that keep every slot *)

(** Same slots, same roots: only the counters or the allocator's fields differ. *)
Lemma shape_header out b b' tl ts tt fl fl' :
  b'.(nodes) = b.(nodes) ->
  b'.(header).(long_tree_root) = b.(header).(long_tree_root) ->
  b'.(header).(short_tree_root) = b.(header).(short_tree_root) ->
  b'.(header).(seat_tree_root) = b.(header).(seat_tree_root) ->
  b.(header).(bh_next_intent_id) <= b'.(header).(bh_next_intent_id) ->
  b.(header).(bh_next_seq) <= b'.(header).(bh_next_seq) ->
  pool_ok b' fl' -> book_shape out b tl ts tt fl -> book_shape out b' tl ts tt fl'.
Proof.
  intros Hn Hl Hs Ht Hid Hseq Hp [S1 S2 S3 S4 S5 S6 S7 S8 S9 S10 S11].
  assert (Es : forall i, slot b' i = slot b i) by (intros; unfold slot; by rewrite Hn).
  assert (Ec : forall i, content b' i = content b i) by (intros; unfold content; by rewrite Es).
  assert (En : forall i, node_of b' i = node_of b i) by (intros; unfold node_of; by rewrite Es).
  assert (Ed : forall i, seat_of b' i = seat_of b i) by (intros; unfold seat_of; by rewrite Es).
  constructor; try done.
  - by apply (side_tree_ext _ b).
  - by apply (side_tree_ext _ b).
  - apply (seat_tree_ext b); [intros; by rewrite Ed|intros; unfold trader_of; by rewrite Ed|done|done].
  - intros i c. rewrite Ec. apply S5.
  - intros i Hi. rewrite Ec. by apply S6.
  - intros i Hi. rewrite Ec. by apply S7.
  - intros i o. rewrite Ec. intros Ho. destruct (S9 i o Ho) as [d Hd]. exists d. by rewrite Ec.
  - intros i o. rewrite Ec. intros Ho. destruct (S10 i o Ho). lia.
  - intros i j o o'. rewrite !Ec. apply S11.
Qed.

(* ------------------------------------------------------------------ *)
(** ** Moving an intent in and out of its tree *)

Definition tree_of (side : Z) (tl ts : tree) : tree := if side =? SIDE_LONG then tl else ts.
Definition long_after (side : Z) (t tl : tree) : tree := if side =? SIDE_LONG then t else tl.
Definition short_after (side : Z) (t ts : tree) : tree := if side =? SIDE_LONG then ts else t.

Lemma links_only_rest side d b b' tt fl :
  links_only side d b b' -> pool_ok b fl -> seat_tree b tt ->
  pool_ok b' fl /\ seat_tree b' tt /\ (forall i, content b' i = content b i) /\
  b'.(header).(bh_next_intent_id) = b.(header).(bh_next_intent_id) /\
  b'.(header).(bh_next_seq) = b.(header).(bh_next_seq).
Proof.
  intros (E & Hh & _) Hp Ht.
  assert (Hf : freelist_head (header b') = freelist_head (header b) /\
    node_count (header b') = node_count (header b) /\ capacity (header b') = capacity (header b) /\
    seat_tree_root (header b') = seat_tree_root (header b) /\
    bh_next_intent_id (header b') = bh_next_intent_id (header b) /\
    bh_next_seq (header b') = bh_next_seq (header b)).
  { unfold set_side_root in Hh. destruct (side =? SIDE_LONG); injection Hh; intros; split_and!; congruence. }
  destruct Hf as (F1 & F2 & F3 & F4 & F5 & F6).
  assert (Hc : forall i, content b' i = content b i) by (intros; by apply content_erased_intents).
  split_and!; try done.
  - apply (pool_ok_ext b); try done.
    + symmetry. by apply (@erased_length IntentTree.intent_kind).
    + intros i nx Hs. destruct (@erased_slot IntentTree.intent_kind b b' i _ E Hs) as (s' & Hs' & Es).
      rewrite Hs'. by destruct s'; cbn in Es; try discriminate; injection Es as <-.
    + intros i. by rewrite Hc.
  - apply (seat_tree_ext b); try done; intros i _; unfold trader_of;
      by rewrite (seats_erased_intents b b').
Qed.

Section retree.
Context (side : Z) (Hside : side = SIDE_LONG \/ side = SIDE_SHORT) (d out out' : list Z)
  (b b' : Book) (tl ts tt : tree) (fl : list Z) (t' : tree).

(** The orders of a side stay apart from those of the other. *)
Definition of_side (s : Z) (i : Z) : Prop := exists o, content b i = Some (Order o) /\ o.(in_side) = s.
Lemma sides_apart s i : of_side s i -> of_side side i -> s = side.
Proof. intros (o & Hx & Hs) (o' & Hx' & Hs'). congruence. Qed.
Lemma side_apart s t : s <> side -> (forall i, i ∈ d -> of_side side i) ->
  (forall i, i ∈ inorder t -> i ∉ out /\ of_side s i) -> forall i, i ∈ inorder t -> i ∉ d.
Proof. intros Hs Hd Ht i Hi Hid. apply Hs, (sides_apart s i); [by apply Ht|by apply Hd]. Qed.
Lemma side_kept s t : s <> side -> (forall i, i ∈ out' -> i ∈ out \/ of_side side i) ->
  (forall i, i ∈ inorder t -> i ∉ out /\ of_side s i) ->
  forall i, i ∈ inorder t -> i ∉ out' /\ of_side s i.
Proof.
  intros Hs Ho Ht i Hi. destruct (Ht i Hi) as [Hn Hx]. split; [|done].
  intros [?|Hx']%Ho; [done|]. by apply Hs, (sides_apart s i).
Qed.

(** The tree of one side is replaced, the slots that are out change accordingly. *)
Lemma shape_retree :
  book_shape out b tl ts tt fl -> links_only side d b b' -> side_tree side b' t' ->
  (forall i, i ∈ d -> exists o, content b i = Some (Order o) /\ o.(in_side) = side) ->
  (forall i, i ∈ inorder t' -> i ∉ out' /\
     exists o, content b i = Some (Order o) /\ o.(in_side) = side) ->
  (forall i o, content b i = Some (Order o) -> o.(in_side) = side -> i ∉ out' -> i ∈ inorder t') ->
  (forall i, i ∈ out' -> i ∈ out \/ exists o, content b i = Some (Order o) /\ o.(in_side) = side) ->
  (forall i, i ∈ out -> i ∈ out' \/ exists o, content b i = Some (Order o) /\ o.(in_side) = side) ->
  book_shape out' b' (long_after side t' tl) (short_after side t' ts) tt fl.
Proof.
  intros [S1 S2 S3 S4 S5 S6 S7 S8 S9 S10 S11] Hl Ht' Hd Hin Hpl Ho' Ho.
  destruct (links_only_rest _ _ _ _ _ _ Hl S1 S4) as (P1 & P2 & Hc & F1 & F2).
  assert (Hdl : side = SIDE_SHORT -> forall i, i ∈ inorder tl -> i ∉ d)
    by (intros E; apply (side_apart SIDE_LONG); [by rewrite E|done..]).
  assert (Hds : side = SIDE_LONG -> forall i, i ∈ inorder ts -> i ∉ d)
    by (intros E; apply (side_apart SIDE_SHORT); [by rewrite E|done..]).
  assert (Hkl : side = SIDE_SHORT -> forall i, i ∈ inorder tl -> i ∉ out' /\ of_side SIDE_LONG i)
    by (intros E; apply side_kept; [by rewrite E|done..]).
  assert (Hks : side = SIDE_LONG -> forall i, i ∈ inorder ts -> i ∉ out' /\ of_side SIDE_SHORT i)
    by (intros E; apply side_kept; [by rewrite E|done..]).
  assert (Hout : forall i c, content b i = Some c -> i ∉ out' ->
    i ∉ out \/ exists o, c = Order o /\ o.(in_side) = side).
  { intros i c Hx Hi. destruct (decide (i ∈ out)) as [Hi'|]; [|by left].
    destruct (Ho i Hi') as [?|(o & Hx' & Hs)]; [done|]. right. exists o. split; congruence. }
  assert (Hseat : forall i, i ∈ inorder tt -> i ∉ out').
  { intros i Hi [Hi'|(o & Hx & _)]%Ho'; [by apply (S8 i)|].
    destruct (seats_hold_desks _ _ _ S4 Hi) as [dd Hdd]. congruence. }
  assert (Hown : forall i o, content b' i = Some (Order o) ->
    exists dd, content b' o.(in_owner_seat) = Some (Desk dd)).
  { intros i o. rewrite Hc. intros Hx. destruct (S9 i o Hx) as [dd ?]. exists dd. by rewrite Hc. }
  assert (Hfr : forall i o, content b' i = Some (Order o) ->
    o.(in_id) < b'.(header).(bh_next_intent_id) /\ o.(in_post_seq) < b'.(header).(bh_next_seq)).
  { intros i o. rewrite Hc, F1, F2. apply S10. }
  assert (Hun : forall i j o o', content b' i = Some (Order o) -> content b' j = Some (Order o') ->
    o.(in_id) = o'.(in_id) -> i = j).
  { intros i j o o'. rewrite !Hc. apply S11. }
  assert (Hnew : forall i, i ∈ inorder t' -> i ∉ out' /\
    exists o, content b' i = Some (Order o) /\ o.(in_side) = side).
  { intros i Hi. rewrite Hc. by apply Hin. }
  destruct Hside as [E|E]; unfold long_after, short_after; rewrite E; cbn [Z.eqb SIDE_LONG SIDE_SHORT];
    rewrite E in *; constructor; try done.
  - eapply (side_tree_other SIDE_LONG SIDE_SHORT); eauto; done.
  - intros i c. rewrite Hc. intros Hx Hi. destruct c as [o|dd]; cbn.
    + destruct (decide (o.(in_side) = SIDE_LONG)) as [Hs|Hs]; [left; eauto|].
      destruct (Hout i _ Hx Hi) as [Hi'|(o' & [= <-] & ?)]; [|done].
      destruct (S5 i _ Hx Hi') as [[? _]|?]; [done|by right].
    + destruct (Hout i _ Hx Hi) as [Hi'|(o' & ? & ?)]; [|done]. by apply (S5 i (Desk dd)).
  - intros i Hi. rewrite Hc. by apply Hks.
  - eapply (side_tree_other SIDE_SHORT SIDE_LONG); eauto; done.
  - intros i c. rewrite Hc. intros Hx Hi. destruct c as [o|dd]; cbn.
    + destruct (decide (o.(in_side) = SIDE_SHORT)) as [Hs|Hs]; [right; eauto|].
      destruct (Hout i _ Hx Hi) as [Hi'|(o' & [= <-] & ?)]; [|done].
      destruct (S5 i _ Hx Hi') as [?|[? _]]; [by left|done].
    + destruct (Hout i _ Hx Hi) as [Hi'|(o' & ? & ?)]; [|done]. by apply (S5 i (Desk dd)).
  - intros i Hi. rewrite Hc. by apply Hkl.
Qed.
End retree.

Ltac sides :=
  match goal with H : in_side ?o = _, H' : in_side ?o = _ |- _ => rewrite H in H'; discriminate H' end.

Section steps.
Context (out : list Z) (b : Book) (tl ts tt : tree) (fl : list Z).

Lemma tree_of_side side :
  (side = SIDE_LONG \/ side = SIDE_SHORT) -> book_shape out b tl ts tt fl ->
  side_tree side b (tree_of side tl ts) /\
  (forall i, i ∈ inorder (tree_of side tl ts) <-> i ∉ out /\
     exists o, content b i = Some (Order o) /\ o.(in_side) = side).
Proof.
  intros Hside Hb. assert (Hiff : forall i o, content b i = Some (Order o) -> i ∉ out ->
    placed tl ts tt i (Order o)) by (intros i o; apply (shape_placed _ _ _ _ _ _ Hb)).
  destruct Hside as [-> | ->]; unfold tree_of; cbn [Z.eqb SIDE_LONG SIDE_SHORT].
  - split; [by apply (shape_long _ _ _ _ _ _ Hb)|]. intros i.
    split; [apply (shape_in_long _ _ _ _ _ _ Hb)|]. intros (Hi & o & Hx & Hs).
    destruct (Hiff i o Hx Hi) as [[_ ?]|[? _]]; [done|sides].
  - split; [by apply (shape_short _ _ _ _ _ _ Hb)|]. intros i.
    split; [apply (shape_in_short _ _ _ _ _ _ Hb)|]. intros (Hi & o & Hx & Hs).
    destruct (Hiff i o Hx Hi) as [[? _]|[_ ?]]; [sides|done].
Qed.

(** An intent enters the tree of its side, at its best-first place. *)
Lemma shape_insert idx n side :
  (side = SIDE_LONG \/ side = SIDE_SHORT) -> book_shape (idx :: out) b tl ts tt fl -> idx ∉ out ->
  slot b idx = Some (RIntent n) -> n.(in_side) = side ->
  runs (IntentTree.insert side idx) b (fun _ b' => exists t' l1 l2,
    inorder (tree_of side tl ts) = l1 ++ l2 /\ inorder t' = l1 ++ idx :: l2 /\
    book_shape out b' (long_after side t' tl) (short_after side t' ts) tt fl /\
    (forall i, content b' i = content b i)).
Proof.
  intros Hside Hb Hout Hs Hn. pose proof Hb as [S1 S2 S3 S4 S5 S6 S7 S8 S9 S10 S11].
  assert (Hc : content b idx = Some (Order (order n))) by (unfold content; by rewrite Hs).
  pose proof (content_pos _ _ _ _ S1 Hc) as Hpos.
  assert (Hnot : idx ∉ inorder (tree_of side tl ts)).
  { unfold tree_of. destruct (side =? SIDE_LONG); intros Hi;
      [apply S6 in Hi as [Hi _]|apply S7 in Hi as [Hi _]]; apply Hi; by left. }
  assert (Hst : side_tree side b (tree_of side tl ts) /\
    (forall i, i ∈ inorder (tree_of side tl ts) -> i ∉ idx :: out /\
       exists o, content b i = Some (Order o) /\ o.(in_side) = side) /\
    (forall i o, content b i = Some (Order o) -> o.(in_side) = side -> i ∉ idx :: out ->
       i ∈ inorder (tree_of side tl ts))).
  { unfold tree_of. destruct Hside as [-> | ->]; cbn [Z.eqb SIDE_LONG SIDE_SHORT];
      (split; [done|]; split; [done|]); intros i o Hx Hso Hi; destruct (S5 i _ Hx Hi) as [[? ?]|[? ?]];
      try done; sides. }
  destruct Hst as (Hst & Hin & Hpl).
  eapply runs_mono; [apply (insert_sorts side Hside b (tree_of side tl ts) idx n); [done|done|lia|done]|].
  intros [] b' (t' & l1 & l2 & E1 & E2 & Ht' & _ & _ & Hl). exists t', l1, l2.
  split; [done|]. split; [done|].
  assert (Hmem : forall i, i ∈ inorder t' <-> i = idx \/ i ∈ inorder (tree_of side tl ts)).
  { intros i. rewrite E2, E1. set_solver. }
  split; [|intros i; destruct Hl as (E & _); by apply content_erased_intents].
  eapply (shape_retree side Hside); [exact Hb|exact Hl|exact Ht'|..].
  - intros i [->|Hi]%elem_of_cons; [by exists (order n)|]. by destruct (Hin i Hi).
  - intros i [->|Hi]%Hmem; [split; [done|by exists (order n)]|].
    destruct (Hin i Hi) as [Hi' ?]. split; [|done]. intros ?. apply Hi'. by right.
  - intros i o Hx Hso Hi. apply Hmem. destruct (decide (i = idx)) as [->|Hne]; [by left|].
    right. apply (Hpl i o Hx Hso). intros [?|?]%elem_of_cons; done.
  - intros i Hi. left. by right.
  - intros i [->|Hi]%elem_of_cons; [right; by exists (order n)|by left].
Qed.

(** An intent leaves its tree; its slot is still written. *)
Lemma shape_remove z o side :
  (side = SIDE_LONG \/ side = SIDE_SHORT) -> book_shape out b tl ts tt fl -> z ∉ out ->
  content b z = Some (Order o) -> o.(in_side) = side ->
  runs (IntentTree.remove side z) b (fun _ b' => exists t' l1 l2,
    inorder (tree_of side tl ts) = l1 ++ z :: l2 /\ inorder t' = l1 ++ l2 /\
    book_shape (z :: out) b' (long_after side t' tl) (short_after side t' ts) tt fl /\
    (forall i, content b' i = content b i)).
Proof.
  intros Hside Hb Hout Hc Ho. destruct (tree_of_side side Hside Hb) as [Hst Hiff].
  assert (Hz : z ∈ inorder (tree_of side tl ts)) by (apply Hiff; eauto).
  apply list_elem_of_split in Hz as (l1 & l2 & E1).
  eapply runs_mono; [by apply (remove_takes_out side Hside b (tree_of side tl ts) z l1 l2)|].
  intros [] b' (t' & E2 & Ht' & Hl). exists t', l1, l2. split; [done|]. split; [done|].
  assert (Hnd : NoDup (l1 ++ z :: l2)).
  { rewrite <- E1. destruct Hst as ((_ & _ & Hnd & _) & _). by rewrite app_nil_r in Hnd. }
  assert (Hmem : forall i, i ∈ inorder t' <-> i <> z /\ i ∈ inorder (tree_of side tl ts)).
  { intros i. rewrite E2, E1. apply NoDup_app in Hnd as (_ & Hd & Hn%NoDup_cons).
    split.
    - intros [Hi|Hi]%elem_of_app; (split; [|set_solver]); intros ->;
        [by apply (Hd z Hi); left|by apply Hn].
    - set_solver. }
  split; [|intros i; destruct Hl as (E & _); by apply content_erased_intents].
  eapply (shape_retree side Hside); [exact Hb|exact Hl|exact Ht'|..].
  - intros i Hi. by apply Hiff in Hi as [_ ?].
  - intros i (Hne & Hi)%Hmem. apply Hiff in Hi as [Hi ?]. split; [|done].
    intros [?|?]%elem_of_cons; done.
  - intros i o' Hx Hs Hi. apply not_elem_of_cons in Hi as [Hne Hi]. apply Hmem.
    split; [done|]. apply Hiff. eauto.
  - intros i [->|Hi]%elem_of_cons; [right; eauto|by left].
  - intros i Hi. left. by right.
Qed.

(** The slot of an intent outside the trees is freed. *)
Lemma shape_free z o :
  book_shape (z :: out) b tl ts tt fl -> content b z = Some (Order o) ->
  runs (free_node z) b (fun _ b' => exists fl', book_shape out b' tl ts tt fl' /\
    content b' z = None /\ (forall i, i <> z -> content b' i = content b i)).
Proof.
  intros [S1 S2 S3 S4 S5 S6 S7 S8 S9 S10 S11] Hc. pose proof (content_pos _ _ _ _ S1 Hc) as Hpos.
  assert (Hfl : z ∉ fl).
  { intros Hz. destruct (free_chain_free _ _ _ _ (pool_chain _ _ S1) Hz) as (_ & nx & Hs).
    unfold content in Hc. by rewrite Hs in Hc. }
  destruct (free_node_spec b fl z S1 Hpos Hfl) as (b' & E & Hp' & Hsl & (nx & Hz) & R1 & R2 & R3).
  unfold runs. rewrite E. exists (z :: fl).
  assert (Hs : forall i, i <> z -> slot b' i = slot b i).
  { intros i Hi. destruct (Z.lt_ge_cases i 0) as [Hneg|]; [|by apply Hsl].
    unfold slot. replace (Z.to_nat i) with (Z.to_nat 0) by lia. apply (Hsl 0); lia. }
  assert (Hcz : content b' z = None) by (unfold content; by rewrite Hz).
  assert (Hcs : forall i, i <> z -> content b' i = content b i)
    by (intros i Hi; unfold content; by rewrite Hs).
  assert (Hback : forall i c, content b' i = Some c -> i <> z /\ content b i = Some c).
  { intros i c Hx. destruct (decide (i = z)) as [->|Hne]; [congruence|]. by rewrite <- Hcs. }
  assert (Hids : b'.(header).(bh_next_intent_id) = b.(header).(bh_next_intent_id) /\
    b'.(header).(bh_next_seq) = b.(header).(bh_next_seq)).
  { unfold free_node in E. rewrite (bind_ok _ _ b b b) in E by done.
    rewrite (proj2 (Z.eqb_neq z NULL_IDX)) in E by (unfold NULL_IDX; lia).
    destruct (_ <=? z); [done|]. by injection E as <-. }
  destruct Hids as [F1 F2]. split; [|done].
  constructor; try done.
  - apply (side_tree_ext _ b); [|done|done]. intros i Hi. unfold node_of. rewrite Hs; [done|].
    intros ->. apply S6 in Hi as [Hi _]. apply Hi. by left.
  - apply (side_tree_ext _ b); [|done|done]. intros i Hi. unfold node_of. rewrite Hs; [done|].
    intros ->. apply S7 in Hi as [Hi _]. apply Hi. by left.
  - apply (seat_tree_ext b); [..|done|done]; intros i Hi; unfold trader_of, seat_of;
      (rewrite Hs; [done|]); intros ->; apply (S8 z Hi); by left.
  - intros i c (Hne & Hx)%Hback Hi. apply (S5 i c Hx). by intros [?|?]%elem_of_cons.
  - intros i Hi. destruct (S6 i Hi) as [Hi' (o' & Hx & Ho')]. apply not_elem_of_cons in Hi' as [? ?].
    split; [done|]. exists o'. by rewrite Hcs.
  - intros i Hi. destruct (S7 i Hi) as [Hi' (o' & Hx & Ho')]. apply not_elem_of_cons in Hi' as [? ?].
    split; [done|]. exists o'. by rewrite Hcs.
  - intros i Hi Ho'. apply (S8 i Hi). by right.
  - intros i o' (Hne & Hx)%Hback. destruct (S9 i o' Hx) as [d Hd]. exists d. rewrite Hcs; [done|].
    intros E'. congruence.
  - intros i o' (Hne & Hx)%Hback. rewrite F1, F2. by apply (S10 i).
  - intros i j o1 o2 (_ & Hx)%Hback (_ & Hy)%Hback. by apply (S11 i j o1 o2).
Qed.
End steps.
