(* ===== verification/BookSteps.v ===== *)
(** * The primitive steps of a book keep its shape

    Allocating a slot, writing it, seating a trader, updating an intent or a seat in place
    and drawing ids: each keeps [book_shape]. *)
From S2P Require Import Prelude IntentBook RbTree RbHeap RbCorrect RbRemove PoolLinks SeatTree IntentTree BookInvariant BookShape.

Section steps.
Context (out : list Z) (b : Book) (tl ts tt : tree) (fl : list Z).
Context (Hb : book_shape out b tl ts tt fl).

(** A slot without content stands in no tree. *)
Lemma idle_not_placed i : content b i = None ->
  i ∉ inorder tl /\ i ∉ inorder ts /\ i ∉ inorder tt.
Proof.
  intros Hc. split_and!; intros Hi.
  - destruct (shape_in_long _ _ _ _ _ _ Hb i Hi) as (_ & o & Ho & _). congruence.
  - destruct (shape_in_short _ _ _ _ _ _ Hb i Hi) as (_ & o & Ho & _). congruence.
  - destruct (seats_hold_desks b tt i (shape_seats _ _ _ _ _ _ Hb) Hi) as [d Hd]. congruence.
Qed.

Lemma fresh_idle i : fresh b fl i -> content b i = None.
Proof. intros (_ & _ & next & Hs). unfold content. by rewrite Hs. Qed.

(** The allocator hands out an unused slot, or the book is full. *)
Lemma shape_alloc :
  match alloc_node b with
  | (Ok i, b') => exists fl', book_shape out b' tl ts tt fl' /\ fresh b' fl' i /\
      (forall j, content b' j = content b j) /\ b'.(header).(bh_next_intent_id) =
      b.(header).(bh_next_intent_id) /\ b'.(header).(bh_next_seq) = b.(header).(bh_next_seq)
  | (Err e, b') => e = IntentBookFull /\ b' = b
  | _ => False
  end.
Proof.
  pose proof (alloc_node_spec b fl (shape_pool _ _ _ _ _ _ Hb)) as H.
  assert (Hids : (alloc_node b).2.(header).(bh_next_intent_id) = b.(header).(bh_next_intent_id) /\
    (alloc_node b).2.(header).(bh_next_seq) = b.(header).(bh_next_seq)).
  { unfold alloc_node. rewrite (bind_ok _ _ b b.(header) b) by done.
    destruct (negb _).
    - rewrite (bind_ok _ _ b b b) by done. by destruct (slot b (freelist_head (header b))).
    - destruct (_ <=? _); [done|]. cbn. unfold ok_or. by destruct (checked _ _). }
  destruct (alloc_node b) as [[i|e| |] b'] eqn:E; cbn in Hids; try done.
  - destruct H as (fl' & Hp & Hf & (R1 & R2 & R3 & R4) & _), Hids as [F1 F2].
    exists fl'. split; [by apply (shape_header _ b _ _ _ _ fl); try done; lia|].
    split; [done|]. split; [|done]. intros j. unfold content, slot. by rewrite R1.
  - by destruct H as (-> & -> & _).
Qed.

Section write.
Context (i : Z) (Hf : fresh b fl i).

(** What holds whatever is written: the trees and the counters. *)
Lemma written_trees s :
  side_tree SIDE_LONG (set_slot b i s) tl /\ side_tree SIDE_SHORT (set_slot b i s) ts /\
  seat_tree (set_slot b i s) tt.
Proof.
  destruct (idle_not_placed i (fresh_idle i Hf)) as (H1 & H2 & H3).
  assert (Hpos : 0 < i) by apply Hf.
  split_and!.
  - apply (side_tree_ext _ b); [|done|apply (shape_long _ _ _ _ _ _ Hb)].
    intros j Hj. unfold node_of. rewrite slot_set_other; [done|done|]. by intros ->.
  - apply (side_tree_ext _ b); [|done|apply (shape_short _ _ _ _ _ _ Hb)].
    intros j Hj. unfold node_of. rewrite slot_set_other; [done|done|]. by intros ->.
  - apply (seat_tree_ext b); [..|done|apply (shape_seats _ _ _ _ _ _ Hb)]; intros j Hj;
      unfold trader_of, seat_of; (rewrite slot_set_other; [done|done|]); by intros ->.
Qed.

Lemma written_content s j : content (set_slot b i s) j = if decide (j = i) then content_of s else content b j.
Proof.
  destruct Hf as (Hpos & _ & next & Hs).
  destruct (decide (j = i)) as [->|Hne]; [by apply (content_set b i (RFree next))|apply content_set_other; [lia|done]].
Qed.

Lemma shape_write_order n d :
  content b n.(in_owner_seat) = Some (Desk d) ->
  n.(in_id) < b.(header).(bh_next_intent_id) -> n.(in_post_seq) < b.(header).(bh_next_seq) ->
  (forall j o, content b j = Some (Order o) -> o.(in_id) <> n.(in_id)) ->
  book_shape (i :: out) (set_slot b i (RIntent n)) tl ts tt fl.
Proof.
  intros Hown Hid Hseq Hnew. destruct (written_trees (RIntent n)) as (T1 & T2 & T3).
  destruct (idle_not_placed i (fresh_idle i Hf)) as (N1 & N2 & N3).
  pose proof (fresh_idle i Hf) as Hidle.
  pose proof Hb as [S1 S2 S3 S4 S5 S6 S7 S8 S9 S10 S11].
  assert (Hc : forall j, content (set_slot b i (RIntent n)) j =
    if decide (j = i) then Some (Order (order n)) else content b j) by (intros; apply written_content).
  assert (Hd : forall j dd, content b j = Some (Desk dd) -> content (set_slot b i (RIntent n)) j = Some (Desk dd)).
  { intros j dd Hj. rewrite Hc. destruct (decide (j = i)); congruence. }
  constructor; try done.
  - by apply pool_ok_write.
  - intros j c. rewrite Hc. intros Hj Hout. apply not_elem_of_cons in Hout as [Hne Hout].
    rewrite decide_False in Hj by done. by apply S5.
  - intros j Hj. destruct (S6 j Hj) as [Hout Ho]. assert (j <> i) by (by intros ->).
    rewrite Hc, decide_False by done. split; [|done]. by intros [?|?]%elem_of_cons.
  - intros j Hj. destruct (S7 j Hj) as [Hout Ho]. assert (j <> i) by (by intros ->).
    rewrite Hc, decide_False by done. split; [|done]. by intros [?|?]%elem_of_cons.
  - intros j Hj [->|Ho]%elem_of_cons; [done|by apply (S8 j)].
  - intros j o. rewrite Hc. destruct (decide (j = i)) as [->|Hne].
    + intros [= <-]. exists d. by apply Hd.
    + intros Ho. destruct (S9 j o Ho) as [dd Hdd]. eauto.
  - intros j o. rewrite Hc. destruct (decide (j = i)) as [->|Hne]; [intros [= <-]; done|apply S10].
  - intros j k o o'. rewrite !Hc.
    destruct (decide (j = i)) as [->|Hj], (decide (k = i)) as [->|Hk]; [done|..].
    + intros [= <-] Ho E. by destruct (Hnew k o' Ho).
    + intros Ho [= <-] E. by destruct (Hnew j o Ho).
    + apply S11.
Qed.

Lemma shape_write_desk n :
  book_shape (i :: out) (set_slot b i (RSeat n)) tl ts tt fl.
Proof.
  destruct (written_trees (RSeat n)) as (T1 & T2 & T3).
  destruct (idle_not_placed i (fresh_idle i Hf)) as (N1 & N2 & N3).
  pose proof (fresh_idle i Hf) as Hidle.
  pose proof Hb as [S1 S2 S3 S4 S5 S6 S7 S8 S9 S10 S11].
  assert (Hc : forall j, content (set_slot b i (RSeat n)) j =
    if decide (j = i) then Some (Desk (desk n)) else content b j) by (intros; apply written_content).
  assert (Hcs : forall j c, content b j = Some c -> content (set_slot b i (RSeat n)) j = Some c).
  { intros j c Hj. rewrite Hc. destruct (decide (j = i)); congruence. }
  assert (Hco : forall j o, content (set_slot b i (RSeat n)) j = Some (Order o) -> content b j = Some (Order o)).
  { intros j o. rewrite Hc. by destruct (decide (j = i)). }
  constructor; try done.
  - by apply pool_ok_write.
  - intros j c. rewrite Hc. intros Hj Hout. apply not_elem_of_cons in Hout as [Hne Hout].
    rewrite decide_False in Hj by done. by apply S5.
  - intros j Hj. destruct (S6 j Hj) as [Hout (o & Ho & Hs)]. split; [|eauto].
    intros [->|?]%elem_of_cons; done.
  - intros j Hj. destruct (S7 j Hj) as [Hout (o & Ho & Hs)]. split; [|eauto].
    intros [->|?]%elem_of_cons; done.
  - intros j Hj [->|Ho]%elem_of_cons; [done|by apply (S8 j)].
  - intros j o Ho%Hco. destruct (S9 j o Ho) as [dd Hdd]. eauto.
  - intros j o Ho%Hco. by apply (S10 j).
  - intros j k o o' Ho%Hco Ho'%Hco. by apply (S11 j k).
Qed.
End write.
End steps.

(* ------------------------------------------------------------------ *)
(** ** Seating a trader *)

Lemma seat_links_only_rest d b b' tl ts fl :
  seat_links_only d b b' -> pool_ok b fl -> side_tree SIDE_LONG b tl -> side_tree SIDE_SHORT b ts ->
  pool_ok b' fl /\ side_tree SIDE_LONG b' tl /\ side_tree SIDE_SHORT b' ts /\
  (forall i, content b' i = content b i) /\
  b'.(header).(bh_next_intent_id) = b.(header).(bh_next_intent_id) /\
  b'.(header).(bh_next_seq) = b.(header).(bh_next_seq).
Proof.
  intros (E & Hh & _) Hp Hl Hs.
  assert (Hf : freelist_head (header b') = freelist_head (header b) /\
    node_count (header b') = node_count (header b) /\ capacity (header b') = capacity (header b) /\
    long_tree_root (header b') = long_tree_root (header b) /\
    short_tree_root (header b') = short_tree_root (header b) /\
    bh_next_intent_id (header b') = bh_next_intent_id (header b) /\
    bh_next_seq (header b') = bh_next_seq (header b)).
  { unfold set_seat_root in Hh. injection Hh; intros; split_and!; congruence. }
  destruct Hf as (F1 & F2 & F3 & F4 & F5 & F6 & F7).
  assert (Hc : forall i, content b' i = content b i) by (intros; by apply content_erased_seats).
  split_and!; try done.
  - apply (pool_ok_ext b); try done.
    + symmetry. by apply (@erased_length SeatTree.seat_kind).
    + intros i nx Hsl. destruct (@erased_slot SeatTree.seat_kind b b' i _ E Hsl) as (s' & Hs' & Es).
      rewrite Hs'. by destruct s'; cbn in Es; try discriminate; injection Es as <-.
    + intros i. by rewrite Hc.
  - apply (side_tree_ext _ b); [|done|done]. intros i _. by apply nodes_erased_seats.
  - apply (side_tree_ext _ b); [|done|done]. intros i _. by apply nodes_erased_seats.
Qed.

Lemma shape_insert_desk out b tl ts tt fl i n :
  book_shape (i :: out) b tl ts tt fl -> i ∉ out -> slot b i = Some (RSeat n) ->
  (forall j, j ∈ inorder tt -> trader_of b j <> Some n.(sn_trader)) ->
  runs (SeatTree.insert i) b (fun _ b' => exists tt',
    book_shape out b' tl ts tt' fl /\ i ∈ inorder tt' /\
    (forall j, j ∈ inorder tt -> j ∈ inorder tt') /\ (forall j, content b' j = content b j) /\
    b'.(header).(bh_next_intent_id) = b.(header).(bh_next_intent_id) /\
    b'.(header).(bh_next_seq) = b.(header).(bh_next_seq)).
Proof.
  intros [S1 S2 S3 S4 S5 S6 S7 S8 S9 S10 S11] Hout Hs Hnew.
  assert (Hc : content b i = Some (Desk (desk n))) by (unfold content; by rewrite Hs).
  pose proof (content_pos _ _ _ _ S1 Hc) as Hpos.
  eapply runs_mono; [apply (seat_insert_sorts b tt i n); [done|done|lia| |done]|].
  { intros Hi. apply (S8 i Hi). by left. }
  intros [] b' (t' & l1 & l2 & E1 & E2 & Ht' & Hl). exists t'.
  destruct (seat_links_only_rest _ _ _ _ _ _ Hl S1 S2 S3) as (P1 & P2 & P3 & Pc & F1 & F2).
  assert (Hmem : forall j, j ∈ inorder t' <-> j = i \/ j ∈ inorder tt).
  { intros j. rewrite E2, E1. set_solver. }
  split; [|split_and!; try done; intros; apply Hmem; auto].
  constructor; try done.
  - intros j c. rewrite Pc. intros Hj Ho. destruct (decide (j = i)) as [->|Hne].
    + rewrite Hc in Hj. injection Hj as <-. apply Hmem. by left.
    + destruct c as [o|d]; [apply (S5 j (Order o) Hj)|apply Hmem; right; apply (S5 j (Desk d) Hj)];
        by intros [?|?]%elem_of_cons.
  - intros j Hj. rewrite Pc. destruct (S6 j Hj) as [Ho ?]. apply not_elem_of_cons in Ho as [_ ?]. done.
  - intros j Hj. rewrite Pc. destruct (S7 j Hj) as [Ho ?]. apply not_elem_of_cons in Ho as [_ ?]. done.
  - intros j [->|Hj]%Hmem; [done|]. intros Ho. apply (S8 j Hj). by right.
  - intros j o. rewrite Pc. intros Ho. destruct (S9 j o Ho) as [dd Hdd]. exists dd. by rewrite Pc.
  - intros j o. rewrite Pc, F1, F2. apply S10.
  - intros j k o o'. rewrite !Pc. apply S11.
Qed.

(* ------------------------------------------------------------------ *)
(** ** Updates in place *)

(** An intent updated in place keeps what its tree and its owner know it by. *)
Definition same_place (n n' : IntentNode) : Prop :=
  IntentTree.node_links n' = IntentTree.node_links n /\ n'.(in_side) = n.(in_side) /\
  n'.(in_price_fp) = n.(in_price_fp) /\ n'.(in_post_seq) = n.(in_post_seq) /\
  n'.(in_id) = n.(in_id) /\ n'.(in_owner_seat) = n.(in_owner_seat).

Lemma same_place_sym n n' : same_place n n' -> same_place n' n.
Proof. unfold same_place. intuition congruence. Qed.

Lemma beats_same_place side n n' m m' :
  same_place n n' -> same_place m m' -> beats side n m -> beats side n' m'.
Proof.
  intros (_ & _ & E1 & E2 & E3 & _) (_ & _ & E4 & E5 & E6 & _).
  unfold beats, price_rank. by rewrite E1, E2, E3, E4, E5, E6.
Qed.

Lemma side_tree_touch side b b' t :
  (forall i n, i ∈ inorder t -> node_of b i = Some n ->
    exists n', node_of b' i = Some n' /\ same_place n n') ->
  side_root side b'.(header) = side_root side b.(header) ->
  side_tree side b t -> side_tree side b' t.
Proof.
  intros Hn Hr (Hrep & Hrb & Hnode & Hsort). split_and!; [rewrite Hr|done| |].
  - apply (rep_ext (intent_links b)); [|by rewrite intent_links_lookup|done].
    intros i Hi. destruct (Hnode i Hi) as [n Hni]. destruct (Hn i n Hi Hni) as (n' & Hn' & El & _).
    rewrite !intent_links_lookup, Hni, Hn'. cbn. by rewrite El.
  - intros i Hi. destruct (Hnode i Hi) as [n Hni]. destruct (Hn i n Hi Hni) as (n' & Hn' & _). eauto.
  - eapply sorted_impl_in; [|exact Hsort]. intros i j Hi Hj (x & y & Hx & Hy & Hxy).
    destruct (Hn i x Hi Hx) as (x' & Hx' & Ex), (Hn j y Hj Hy) as (y' & Hy' & Ey).
    exists x', y'. split_and!; [done|done|]. intros H. apply Hxy.
    eapply beats_same_place; [..|exact H]; by apply same_place_sym.
Qed.

Section touch.
Context (out : list Z) (b : Book) (tl ts tt : tree) (fl : list Z).
Context (Hb : book_shape out b tl ts tt fl).

Lemma touched_pool i s s' : slot b i = Some s -> content_of s' <> None -> content_of s <> None ->
  pool_ok (set_slot b i s') fl /\ 0 < i /\
  (forall j, content (set_slot b i s') j = if decide (j = i) then content_of s' else content b j).
Proof.
  intros Hs Hc' Hc. pose proof (shape_pool _ _ _ _ _ _ Hb) as Hp.
  assert (Hpos : 0 < i).
  { destruct (content_of s) as [c|] eqn:E; [|done].
    assert (Hx : content b i = Some c) by (unfold content; by rewrite Hs).
    pose proof (content_pos _ _ _ _ Hp Hx). lia. }
  assert (Hall : forall j, content (set_slot b i s') j = if decide (j = i) then content_of s' else content b j).
  { intros j. destruct (decide (j = i)) as [->|Hne]; [by apply (content_set b i s)|by apply content_set_other]. }
  split_and!; try done. apply (pool_ok_ext b); try done.
  - cbn. by rewrite length_insert.
  - intros j nx Hj. rewrite slot_set_other; [done|done|]. intros ->. rewrite Hs in Hj. by injection Hj as ->.
  - intros j. rewrite Hall. destruct (decide (j = i)) as [->|]; [|done]. intros _.
    unfold content. rewrite Hs. cbn. by destruct (content_of s); [eexists|].
Qed.

Lemma shape_touch_order i n n' : slot b i = Some (RIntent n) -> same_place n n' ->
  book_shape out (set_slot b i (RIntent n')) tl ts tt fl /\
  (forall j, content (set_slot b i (RIntent n')) j =
    if decide (j = i) then Some (Order (order n')) else content b j).
Proof.
  intros Hs Hsame. destruct (touched_pool i _ (RIntent n') Hs) as (Hp & Hpos & Hc); [done|done|].
  split; [|done]. pose proof Hb as [S1 S2 S3 S4 S5 S6 S7 S8 S9 S10 S11].
  assert (Hci : content b i = Some (Order (order n))) by (unfold content; by rewrite Hs).
  assert (Hn : forall t j m, j ∈ inorder t -> node_of b j = Some m ->
    exists m', node_of (set_slot b i (RIntent n')) j = Some m' /\ same_place m m').
  { intros t j m _ Hm. destruct (decide (j = i)) as [->|Hne].
    - exists n'. unfold node_of in Hm |- *. erewrite slot_set_eq by done. rewrite Hs in Hm.
      cbn in Hm |- *. by injection Hm as <-.
    - exists m. unfold node_of. by rewrite slot_set_other. }
  destruct Hsame as (El & Eside & Ep & Eseq & Eid & Eown).
  assert (Hx : forall j c, content (set_slot b i (RIntent n')) j = Some c ->
    (content b j = Some c /\ j <> i) \/ (j = i /\ c = Order (order n'))).
  { intros j c. rewrite Hc. destruct (decide (j = i)); [intros [= <-]; by right|by left]. }
  assert (Hd : forall j d, content b j = Some (Desk d) -> content (set_slot b i (RIntent n')) j = Some (Desk d)).
  { intros j d Hj. rewrite Hc. destruct (decide (j = i)); congruence. }
  assert (Ho : forall j side, (exists o, content b j = Some (Order o) /\ o.(in_side) = side) ->
    exists o, content (set_slot b i (RIntent n')) j = Some (Order o) /\ o.(in_side) = side).
  { intros j side (o & Hj & Hside). rewrite Hc. destruct (decide (j = i)) as [->|]; [|eauto].
    exists (order n'). split; [done|]. rewrite Hci in Hj. injection Hj as <-. cbn in *. congruence. }
  constructor; try done.
  - by apply (side_tree_touch _ b); [apply Hn|..].
  - by apply (side_tree_touch _ b); [apply Hn|..].
  - apply (seat_tree_ext b); [..|done|done]; intros j Hj; unfold trader_of, seat_of;
      destruct (seats_hold_desks b tt j S4 Hj) as [d Hdj];
      (rewrite slot_set_other; [done|done|]); intros ->; congruence.
  - intros j c [[Hj Hne]|[-> ->]]%Hx Hout; [by apply S5|].
    pose proof (S5 i _ Hci Hout) as Hpl. cbn in Hpl |- *. by rewrite Eside.
  - intros j Hj. destruct (S6 j Hj). eauto.
  - intros j Hj. destruct (S7 j Hj). eauto.
  - intros j o [[Hj Hne]|[-> [= ->]]]%Hx.
    + destruct (S9 j o Hj) as [d Hdj]. eauto.
    + destruct (S9 i _ Hci) as [d Hdj]. exists d. cbn in *. rewrite Eown. eauto.
  - intros j o [[Hj Hne]|[-> [= ->]]]%Hx; [by apply (S10 j)|].
    pose proof (S10 i _ Hci) as Hlt. cbn in *. by rewrite Eid, Eseq.
  - intros j k o o' [[Hj Hne]|[-> [= ->]]]%Hx [[Hk Hne']|[-> [= ->]]]%Hx E; [by apply (S11 j k o o')|..|done].
    + cbn in E. rewrite Eid in E. by apply (S11 j i o (order n)).
    + cbn in E. rewrite Eid in E. by apply (S11 i k (order n) o').
Qed.

Lemma shape_touch_desk i n n' : slot b i = Some (RSeat n) ->
  SeatTree.node_links n' = SeatTree.node_links n -> n'.(sn_trader) = n.(sn_trader) ->
  book_shape out (set_slot b i (RSeat n')) tl ts tt fl /\
  (forall j, content (set_slot b i (RSeat n')) j =
    if decide (j = i) then Some (Desk (desk n')) else content b j).
Proof.
  intros Hs El Et. destruct (touched_pool i _ (RSeat n') Hs) as (Hp & Hpos & Hc); [done|done|].
  split; [|done]. pose proof Hb as [S1 S2 S3 S4 S5 S6 S7 S8 S9 S10 S11].
  assert (Hci : content b i = Some (Desk (desk n))) by (unfold content; by rewrite Hs).
  assert (Ho : forall j o, content (set_slot b i (RSeat n')) j = Some (Order o) <-> content b j = Some (Order o)).
  { intros j o. rewrite Hc. destruct (decide (j = i)) as [->|]; [|done]. by rewrite Hci. }
  assert (Hd : forall j d, content b j = Some (Desk d) ->
    exists d', content (set_slot b i (RSeat n')) j = Some (Desk d')).
  { intros j d Hj. rewrite Hc. destruct (decide (j = i)); eauto. }
  assert (Hn : forall side t j, (forall k, k ∈ inorder t -> k ∉ out /\ exists o, content b k = Some (Order o)
      /\ o.(in_side) = side) -> j ∈ inorder t ->
    node_of (set_slot b i (RSeat n')) j = node_of b j).
  { intros side t j Ht Hj. destruct (Ht j Hj) as (_ & o & Hx & _).
    unfold node_of. rewrite slot_set_other; [done|done|]. intros ->. congruence. }
  constructor; try done.
  - apply (side_tree_ext _ b); [|done|done]. intros j. by apply (Hn SIDE_LONG tl).
  - apply (side_tree_ext _ b); [|done|done]. intros j. by apply (Hn SIDE_SHORT ts).
  - apply (seat_tree_ext b); [..|done|done]; intros j _; unfold trader_of, seat_of;
      (destruct (decide (j = i)) as [->|Hne]; [|by rewrite slot_set_other]);
      erewrite slot_set_eq by done; rewrite Hs; cbn; by rewrite ?El, ?Et.
  - intros j c. rewrite Hc. destruct (decide (j = i)) as [->|]; [|apply S5].
    intros [= <-] Hout. apply (S5 i _ Hci Hout).
  - intros j Hj. destruct (S6 j Hj) as (? & o & Hx & ?). split; [done|]. exists o. by rewrite Ho.
  - intros j Hj. destruct (S7 j Hj) as (? & o & Hx & ?). split; [done|]. exists o. by rewrite Ho.
  - intros j o Hj%Ho. destruct (S9 j o Hj) as [d Hdj]. eauto.
  - intros j o Hj%Ho. by apply (S10 j).
  - intros j k o o' Hj%Ho Hk%Ho. by apply (S11 j k).
Qed.
End touch.
