(* ===== verification/Ledger.v ===== *)
(** * The ledger accounts

    The per-user margin account ([state/margin_account.rs]), the fee treasury
    ([state/fee_treasury.rs]), the rolling volume counter ([state/user_volume.rs])
    and the fee schedule ([state/fee_schedule.rs]): their operations on every
    branch, the conservation of collateral and the fee bounds. *)
From S2P Require Import Prelude.

(* ------------------------------------------------------------------ *)
(** ** Margin accounts *)

Record MarginAccount := {
  ma_bump : Z;
  ma_owner : Pubkey;
  ma_collateral_mint : Pubkey;
  free_collateral : Z;
  reserved_collateral : Z;
  locked_collateral : Z;
  realized_pnl : Z;
  ma_flags : Z;
}.

Definition MARGIN_ACCOUNT_LEN : Z := 1 + 1 + 6 + 32 + 32 + 8 + 8 + 8 + 8 + 8 + 32.

Definition margin_init (owner collateral_mint : Pubkey) (bump : Z) : MarginAccount :=
  {| ma_bump := bump; ma_owner := owner; ma_collateral_mint := collateral_mint;
     free_collateral := 0; reserved_collateral := 0; locked_collateral := 0;
     realized_pnl := 0; ma_flags := 0 |}.

Definition set_buckets (a : MarginAccount) (f r l : Z) : MarginAccount :=
  {| ma_bump := a.(ma_bump); ma_owner := a.(ma_owner);
     ma_collateral_mint := a.(ma_collateral_mint);
     free_collateral := f; reserved_collateral := r; locked_collateral := l;
     realized_pnl := a.(realized_pnl); ma_flags := a.(ma_flags) |}.
Definition set_realized_pnl (v : Z) (a : MarginAccount) : MarginAccount :=
  {| ma_bump := a.(ma_bump); ma_owner := a.(ma_owner);
     ma_collateral_mint := a.(ma_collateral_mint);
     free_collateral := a.(free_collateral); reserved_collateral := a.(reserved_collateral);
     locked_collateral := a.(locked_collateral);
     realized_pnl := v; ma_flags := a.(ma_flags) |}.
Definition set_free (v : Z) (a : MarginAccount) : MarginAccount :=
  set_buckets a v a.(reserved_collateral) a.(locked_collateral).
Definition set_reserved (v : Z) (a : MarginAccount) : MarginAccount :=
  set_buckets a a.(free_collateral) v a.(locked_collateral).
Definition set_locked (v : Z) (a : MarginAccount) : MarginAccount :=
  set_buckets a a.(free_collateral) a.(reserved_collateral) v.

Definition credit_free (amount : Z) : M MarginAccount unit :=
  a ← gets id;
  v ← ok_or (checked U64_MAX (a.(free_collateral) + amount)) ArithmeticOverflow;
  modify (set_free v).

Definition debit_free (amount : Z) : M MarginAccount unit :=
  a ← gets id;
  v ← ok_or (checked U64_MAX (a.(free_collateral) - amount)) InsufficientFreeCollateral;
  modify (set_free v).

Definition credit_reserved (amount : Z) : M MarginAccount unit :=
  a ← gets id;
  v ← ok_or (checked U64_MAX (a.(reserved_collateral) + amount)) ArithmeticOverflow;
  modify (set_reserved v).

Definition debit_reserved (amount : Z) : M MarginAccount unit :=
  a ← gets id;
  v ← ok_or (checked U64_MAX (a.(reserved_collateral) - amount)) InsufficientReservedCollateral;
  modify (set_reserved v).

Definition credit_locked (amount : Z) : M MarginAccount unit :=
  a ← gets id;
  v ← ok_or (checked U64_MAX (a.(locked_collateral) + amount)) ArithmeticOverflow;
  modify (set_locked v).

Definition debit_locked (amount : Z) : M MarginAccount unit :=
  a ← gets id;
  v ← ok_or (checked U64_MAX (a.(locked_collateral) - amount)) InsufficientLockedCollateral;
  modify (set_locked v).

Definition move_free_to_reserved (amount : Z) : M MarginAccount unit :=
  debit_free amount;; credit_reserved amount.
Definition move_reserved_to_free (amount : Z) : M MarginAccount unit :=
  debit_reserved amount;; credit_free amount.
Definition move_reserved_to_locked (amount : Z) : M MarginAccount unit :=
  debit_reserved amount;; credit_locked amount.
Definition move_locked_to_free (amount : Z) : M MarginAccount unit :=
  debit_locked amount;; credit_free amount.

(* ------------------------------------------------------------------ *)
(** ** Fee treasury *)

Record FeeTreasury := {
  ft_bump : Z;
  ft_collateral_mint : Pubkey;
  accrued_atoms : Z;
  total_swept_atoms : Z;
}.

Definition FEE_TREASURY_LEN : Z := 1 + 1 + 6 + 32 + 8 + 8 + 32.

Definition treasury_init (collateral_mint : Pubkey) (bump : Z) : FeeTreasury :=
  {| ft_bump := bump; ft_collateral_mint := collateral_mint;
     accrued_atoms := 0; total_swept_atoms := 0 |}.

Definition set_accrued (v : Z) (t : FeeTreasury) : FeeTreasury :=
  {| ft_bump := t.(ft_bump); ft_collateral_mint := t.(ft_collateral_mint);
     accrued_atoms := v; total_swept_atoms := t.(total_swept_atoms) |}.
Definition set_swept (v : Z) (t : FeeTreasury) : FeeTreasury :=
  {| ft_bump := t.(ft_bump); ft_collateral_mint := t.(ft_collateral_mint);
     accrued_atoms := t.(accrued_atoms); total_swept_atoms := v |}.

Definition accrue (amount : Z) : M FeeTreasury unit :=
  t ← gets id;
  v ← ok_or (checked U64_MAX (t.(accrued_atoms) + amount)) ArithmeticOverflow;
  modify (set_accrued v).

Definition sweep (amount : Z) : M FeeTreasury unit :=
  t ← gets id;
  v ← ok_or (checked U64_MAX (t.(accrued_atoms) - amount)) ArithmeticOverflow;
  modify (set_accrued v);;
  v ← ok_or (checked U64_MAX (t.(total_swept_atoms) + amount)) ArithmeticOverflow;
  modify (set_swept v).

(* ------------------------------------------------------------------ *)
(** ** Rolling volume *)

Definition USER_VOLUME_EPOCH_SLOTS : Z := 6480000.

Record UserVolume := {
  uv_bump : Z;
  uv_owner : Pubkey;
  uv_collateral_mint : Pubkey;
  volume_current_atoms : Z;
  volume_prev_atoms : Z;
  epoch_start_slot : Z;
  epoch_length_slots : Z;
}.

Definition USER_VOLUME_LEN : Z := 1 + 1 + 6 + 32 + 32 + 8 + 8 + 8 + 8 + 32.

Definition volume_init (owner collateral_mint : Pubkey) (now_slot bump : Z) : UserVolume :=
  {| uv_bump := bump; uv_owner := owner; uv_collateral_mint := collateral_mint;
     volume_current_atoms := 0; volume_prev_atoms := 0;
     epoch_start_slot := now_slot; epoch_length_slots := USER_VOLUME_EPOCH_SLOTS |}.

Definition set_epoch (v : UserVolume) (cur prev start : Z) : UserVolume :=
  {| uv_bump := v.(uv_bump); uv_owner := v.(uv_owner);
     uv_collateral_mint := v.(uv_collateral_mint);
     volume_current_atoms := cur; volume_prev_atoms := prev;
     epoch_start_slot := start; epoch_length_slots := v.(epoch_length_slots) |}.

Definition maybe_roll_epoch (now_slot : Z) : M UserVolume unit :=
  v ← gets id;
  let length := Z.max v.(epoch_length_slots) 1 in
  if now_slot <? v.(epoch_start_slot) then mret tt
  else
    let elapsed := now_slot - v.(epoch_start_slot) in
    if elapsed <? length then mret tt
    else
      let epochs_elapsed := elapsed / length in
      (if epochs_elapsed =? 1 then
         modify (fun v => set_epoch v 0 v.(volume_current_atoms) v.(epoch_start_slot))
       else modify (fun v => set_epoch v 0 0 v.(epoch_start_slot)));;
      shift ← ok_or (checked U64_MAX (epochs_elapsed * length)) ArithmeticOverflow;
      start ← ok_or (checked U64_MAX (v.(epoch_start_slot) + shift)) ArithmeticOverflow;
      modify (fun v => set_epoch v v.(volume_current_atoms) v.(volume_prev_atoms) start).

Definition add_volume (amount now_slot : Z) : M UserVolume unit :=
  maybe_roll_epoch now_slot;;
  v ← gets id;
  c ← ok_or (checked U64_MAX (v.(volume_current_atoms) + amount)) ArithmeticOverflow;
  modify (fun v => set_epoch v c v.(volume_prev_atoms) v.(epoch_start_slot)).

(** On a copy of the account; an error of the roll is ignored. *)
Definition effective_30d_volume (v : UserVolume) (now_slot : Z) : Z :=
  let v := snd (maybe_roll_epoch now_slot v) in
  Z.max v.(volume_current_atoms) v.(volume_prev_atoms).

(* ------------------------------------------------------------------ *)
(** ** Fee schedule *)

Definition FEE_SCHEDULE_MAX_TIERS : Z := 8.

Record FeeTier := { volume_threshold : Z; fee_bps : Z }.
#[export] Instance FeeTier_eq_dec : EqDecision FeeTier.
Proof. solve_decision. Defined.

(** [tiers] has [FEE_SCHEDULE_MAX_TIERS] entries: the array type. *)
Record FeeSchedule := {
  fs_bump : Z;
  tiers : list FeeTier;
  max_tier_fee_bps : Z;
  last_updated_slot : Z;
}.

Definition FEE_SCHEDULE_LEN : Z := 1 + 1 + 6 + 8 * 16 + 2 + 6 + 8 + 32.

(** The loop of [fee_for_volume] over the tiers. *)
Fixpoint last_reached (found volume_30d : Z) (ts : list FeeTier) : Z :=
  match ts with
  | [] => found
  | t :: ts =>
      last_reached (if t.(volume_threshold) <=? volume_30d then t.(fee_bps) else found)
        volume_30d ts
  end.

Definition fee_for_volume (s : FeeSchedule) (volume_30d : Z) : Z :=
  last_reached (from_option fee_bps 0 (head s.(tiers))) volume_30d s.(tiers).

Definition compute_max_fee_bps (ts : list FeeTier) : Z :=
  foldl (fun max t => if max <? t.(fee_bps) then t.(fee_bps) else max) 0 ts.

Fixpoint validate_tiers_from (prev : Z) (ts : list FeeTier) : Res unit :=
  match ts with
  | [] => Ok tt
  | t :: ts =>
      if t.(volume_threshold) <? prev then Err InvalidInstructionData
      else if 1000 <? t.(fee_bps) then Err InvalidInstructionData
      else validate_tiers_from t.(volume_threshold) ts
  end.
Definition validate_tiers (ts : list FeeTier) : Res unit := validate_tiers_from 0 ts.

Definition schedule_init (ts : list FeeTier) (now_slot bump : Z) : FeeSchedule :=
  {| fs_bump := bump; tiers := ts; max_tier_fee_bps := compute_max_fee_bps ts;
     last_updated_slot := now_slot |}.

(* ------------------------------------------------------------------ *)
(** ** Collateral is conserved *)

Definition total (a : MarginAccount) : Z :=
  a.(free_collateral) + a.(reserved_collateral) + a.(locked_collateral).

Definition margin_wf (a : MarginAccount) : Prop :=
  is_u64 a.(free_collateral) /\ is_u64 a.(reserved_collateral) /\ is_u64 a.(locked_collateral).

(** [shifts m df dr dl]: every successful run of [m] moves the three buckets by exactly
    these amounts, leaves the identity of the account alone and keeps the buckets [u64]s. *)
Definition shifts (m : M MarginAccount unit) (df dr dl : Z) : Prop :=
  forall a u a', m a = (Ok u, a') ->
    (margin_wf a -> margin_wf a') /\ a'.(ma_owner) = a.(ma_owner) /\
    a'.(ma_collateral_mint) = a.(ma_collateral_mint) /\ a'.(ma_bump) = a.(ma_bump) /\
    a'.(free_collateral) = a.(free_collateral) + df /\
    a'.(reserved_collateral) = a.(reserved_collateral) + dr /\
    a'.(locked_collateral) = a.(locked_collateral) + dl.

Ltac bucket_step :=
  intros a u a' H; apply bind_ok_inv in H as (a0 & s0 & E & H);
  apply gets_ok_inv in E as [-> ->];
  apply bind_ok_inv in H as (v & s1 & E & H); apply ok_or_ok_inv in E as [E ->];
  apply checked_some in E as [-> E]; injection H as <- <-;
  unfold margin_wf in *; cbn; unfold id in *; split_and!; mlia.

Lemma shifts_credit_free n : shifts (credit_free n) n 0 0.
Proof. bucket_step. Qed.
Lemma shifts_debit_free n : shifts (debit_free n) (- n) 0 0.
Proof. bucket_step. Qed.
Lemma shifts_credit_reserved n : shifts (credit_reserved n) 0 n 0.
Proof. bucket_step. Qed.
Lemma shifts_debit_reserved n : shifts (debit_reserved n) 0 (- n) 0.
Proof. bucket_step. Qed.
Lemma shifts_credit_locked n : shifts (credit_locked n) 0 0 n.
Proof. bucket_step. Qed.
Lemma shifts_debit_locked n : shifts (debit_locked n) 0 0 (- n).
Proof. bucket_step. Qed.

Lemma shifts_seq m1 m2 a b c a' b' c' :
  shifts m1 a b c -> shifts m2 a' b' c' -> shifts (m1;; m2) (a + a') (b + b') (c + c').
Proof.
  intros H1 H2 x u y H. apply bind_ok_inv in H as ([] & z & E1 & E2).
  destruct (H1 _ _ _ E1) as (? & ? & ? & ? & ? & ? & ?).
  destruct (H2 _ _ _ E2) as (? & ? & ? & ? & ? & ? & ?).
  split_and!; try congruence; try (by auto); lia.
Qed.

(** A check that reads the account. *)
Lemma shifts_guard (c : MarginAccount -> bool) e :
  shifts (a ← gets id; bail_if (c a) e) 0 0 0.
Proof.
  intros a u a' H. inv_ok. split_and!; try done; lia.
Qed.

(** A step that touches other fields only. *)
Lemma shifts_modify f :
  (forall a, (f a).(ma_owner) = a.(ma_owner) /\
     (f a).(ma_collateral_mint) = a.(ma_collateral_mint) /\ (f a).(ma_bump) = a.(ma_bump) /\
     (f a).(free_collateral) = a.(free_collateral) /\
     (f a).(reserved_collateral) = a.(reserved_collateral) /\
     (f a).(locked_collateral) = a.(locked_collateral)) ->
  shifts (modify f) 0 0 0.
Proof.
  intros Hf a u a' [= _ <-]. specialize (Hf a). unfold margin_wf.
  destruct Hf as (-> & -> & -> & -> & -> & ->). split_and!; try done; lia.
Qed.

Lemma shifts_ret : shifts (mret tt) 0 0 0.
Proof. intros a u a' [= _ <-]. split_and!; try done; lia. Qed.

Lemma shifts_when (b : bool) m x y z :
  shifts m x y z ->
  shifts (when b m) (if b then x else 0) (if b then y else 0) (if b then z else 0).
Proof. destruct b; [done | intros _; apply shifts_ret]. Qed.

Lemma shifts_eq m x y z x' y' z' :
  shifts m x y z -> x = x' -> y = y' -> z = z' -> shifts m x' y' z'.
Proof. by intros ? -> -> ->. Qed.

Create HintDb shifts discriminated.
#[export] Hint Resolve shifts_guard shifts_credit_free shifts_debit_free shifts_credit_reserved
  shifts_debit_reserved shifts_credit_locked shifts_debit_locked shifts_seq shifts_ret
  shifts_when : shifts.

Ltac shifts_tac := eapply shifts_eq; [eauto with shifts|lia..].

Lemma shifts_free_to_reserved n : shifts (move_free_to_reserved n) (- n) n 0.
Proof. unfold move_free_to_reserved. shifts_tac. Qed.
Lemma shifts_reserved_to_free n : shifts (move_reserved_to_free n) n (- n) 0.
Proof. unfold move_reserved_to_free. shifts_tac. Qed.
Lemma shifts_reserved_to_locked n : shifts (move_reserved_to_locked n) 0 (- n) n.
Proof. unfold move_reserved_to_locked. shifts_tac. Qed.
Lemma shifts_locked_to_free n : shifts (move_locked_to_free n) n 0 (- n).
Proof. unfold move_locked_to_free. shifts_tac. Qed.
#[export] Hint Resolve shifts_free_to_reserved shifts_reserved_to_free
  shifts_reserved_to_locked shifts_locked_to_free : shifts.

(* ------------------------------------------------------------------ *)
(** ** The volume window *)

(** The whole epochs elapsed at a slot; a slot before the start counts none. *)
Definition epochs_elapsed (v : UserVolume) (now : Z) : Z :=
  if now <? v.(epoch_start_slot) then 0
  else (now - v.(epoch_start_slot)) / Z.max v.(epoch_length_slots) 1.

(** The counter after the roll. *)
Definition rolled (v : UserVolume) (now : Z) : UserVolume :=
  let n := epochs_elapsed v now in
  set_epoch v (if n =? 0 then v.(volume_current_atoms) else 0)
    (if n =? 0 then v.(volume_prev_atoms)
     else if n =? 1 then v.(volume_current_atoms) else 0)
    (v.(epoch_start_slot) + n * Z.max v.(epoch_length_slots) 1).

Definition volume_wf (v : UserVolume) : Prop :=
  is_u64 v.(volume_current_atoms) /\ is_u64 v.(epoch_start_slot) /\
  is_u64 v.(epoch_length_slots).

Lemma set_epoch_same v :
  set_epoch v v.(volume_current_atoms) v.(volume_prev_atoms) v.(epoch_start_slot) = v.
Proof. by destruct v. Qed.

Lemma epochs_elapsed_bounds v now :
  v.(epoch_start_slot) <= now ->
  let len := Z.max v.(epoch_length_slots) 1 in
  let n := epochs_elapsed v now in
  0 <= n /\ v.(epoch_start_slot) + n * len <= now < v.(epoch_start_slot) + (n + 1) * len.
Proof.
  intros Hs. cbn. unfold epochs_elapsed. destruct (Z.ltb_spec now v.(epoch_start_slot)); [lia|].
  set (len := Z.max _ 1). assert (0 < len) by lia.
  pose proof (Z.div_mod (now - epoch_start_slot v) len).
  pose proof (Z.mod_pos_bound (now - epoch_start_slot v) len).
  pose proof (Z.div_pos (now - epoch_start_slot v) len). nia.
Qed.

Lemma maybe_roll_epoch_rolls v now :
  volume_wf v -> is_u64 now -> maybe_roll_epoch now v = (Ok tt, rolled v now).
Proof.
  intros (_ & Hs & Hl) Hn. pose proof (epochs_elapsed_bounds v now) as Hb. cbn in Hb.
  unfold maybe_roll_epoch, rolled, epochs_elapsed in *.
  rewrite (bind_ok _ _ v v v) by done.
  destruct (Z.ltb_spec now v.(epoch_start_slot)).
  { cbn. rewrite Z.add_0_r. by rewrite set_epoch_same. }
  destruct Hb as (Hn0 & Hb); [done|].
  set (len := Z.max _ 1) in *. assert (0 < len) by lia.
  set (n := (now - epoch_start_slot v) / len) in *.
  destruct (Z.ltb_spec (now - v.(epoch_start_slot)) len).
  { assert (n = 0) as -> by (apply Z.div_small; lia). cbn. rewrite Z.add_0_r.
    by rewrite set_epoch_same. }
  assert (1 <= n) by (apply Z.div_le_lower_bound; lia).
  assert (E1 : checked U64_MAX (n * len) = Some (n * len)) by (apply checked_some; split; nia).
  assert (E2 : checked U64_MAX (v.(epoch_start_slot) + n * len)
               = Some (v.(epoch_start_slot) + n * len)) by (apply checked_some; split; nia).
  destruct (Z.eqb_spec n 0); [lia|]. destruct (Z.eqb_spec n 1) as [En|En];
    unfold mbind, M_bind, modify, ok_or; cbn; rewrite E1; cbn; rewrite E2; cbn.
  - reflexivity.
  - reflexivity.
Qed.

(** Adding a fill to a trader's volume at a slot first rolls the window by the whole
    epochs that elapsed (none: both counters stay; one: the current volume becomes the
    previous; more: both are dropped), keeps the window's start on the epoch grid, at most
    the slot and less than an epoch behind it, and then counts the fill; it fails only when
    the counter itself overflows. The volume a fee is computed from is the larger of the two
    rolled counters, and reading it changes nothing. *)
Theorem volume_window v amount now :
  volume_wf v -> is_u64 now -> 0 <= amount ->
  let v' := rolled v now in
  add_volume amount now v =
    (if v'.(volume_current_atoms) + amount <=? U64_MAX then
       (Ok tt, set_epoch v' (v'.(volume_current_atoms) + amount) v'.(volume_prev_atoms)
                 v'.(epoch_start_slot))
     else (Err ArithmeticOverflow, v')) /\
  effective_30d_volume v now = Z.max v'.(volume_current_atoms) v'.(volume_prev_atoms) /\
  (v.(epoch_start_slot) <= now ->
   v'.(epoch_start_slot) <= now < v'.(epoch_start_slot) + Z.max v.(epoch_length_slots) 1).
Proof.
  intros Hwf Hn Ha. cbn zeta. pose proof (maybe_roll_epoch_rolls v now Hwf Hn) as Hr.
  split_and!.
  - unfold add_volume. rewrite (bind_ok _ _ _ _ _ Hr). cbn beta.
    rewrite (bind_ok (gets id) _ (rolled v now) (rolled v now) (rolled v now) eq_refl).
    assert (0 <= volume_current_atoms (rolled v now)).
    { destruct Hwf as ([] & _). unfold rolled. cbn. case_match; lia. }
    unfold checked, in_u. destruct (Z.leb_spec 0 (volume_current_atoms (rolled v now) + amount)); [|lia].
    cbn [andb]. destruct (_ <=? U64_MAX); reflexivity.
  - unfold effective_30d_volume. by rewrite Hr.
  - intros Hs. destruct (epochs_elapsed_bounds v now Hs) as [? Hb]. cbn in *. lia.
Qed.

Lemma volume_window_witness :
  let v := {| uv_bump := 1; uv_owner := 5; uv_collateral_mint := 9; volume_current_atoms := 700;
              volume_prev_atoms := 300; epoch_start_slot := 1000; epoch_length_slots := 100 |} in
  snd (add_volume 50 1150 v) =
    {| uv_bump := 1; uv_owner := 5; uv_collateral_mint := 9; volume_current_atoms := 50;
       volume_prev_atoms := 700; epoch_start_slot := 1100; epoch_length_slots := 100 |} /\
  effective_30d_volume v 1150 = 700.
Proof.
  intros v. assert (Hv : volume_wf v) by (unfold volume_wf; cbn; mlia).
  destruct (volume_window v 50 1150 Hv ltac:(mlia) ltac:(lia)) as (E & F & _).
  rewrite E, F. vm_compute. done.
Defined.

(* ------------------------------------------------------------------ *)
(** ** Fee tiers *)

Lemma validate_tiers_from_ok prev ts :
  validate_tiers_from prev ts = Ok tt ->
  StronglySorted (fun t t' => t.(volume_threshold) <= t'.(volume_threshold)) ts /\
  Forall (fun t => prev <= t.(volume_threshold) /\ t.(fee_bps) <= 1000) ts.
Proof.
  revert prev. induction ts as [|t ts IH]; cbn; intros prev H.
  - by split; constructor.
  - destruct (Z.ltb_spec t.(volume_threshold) prev); [done|].
    destruct (Z.ltb_spec 1000 t.(fee_bps)); [done|]. destruct (IH _ H) as [Hs Hf].
    split; constructor; [done|..].
    + eapply Forall_impl; [exact Hf|]. cbn. tauto.
    + lia.
    + eapply Forall_impl; [exact Hf|]. cbn. lia.
Qed.

Lemma compute_max_fee_bps_from ts m :
  let max := foldl (fun max t => if max <? t.(fee_bps) then t.(fee_bps) else max) m ts in
  m <= max /\ Forall (fun t => t.(fee_bps) <= max) ts.
Proof.
  revert m. induction ts as [|t ts IH]; intros m; cbn; [split; [lia|constructor]|].
  destruct (IH (if m <? t.(fee_bps) then t.(fee_bps) else m)) as [Hm Hf].
  destruct (Z.ltb_spec m t.(fee_bps)); split; try lia; constructor; try done; lia.
Qed.

(** The maximum of a schedule bounds every tier. *)
Lemma compute_max_fee_bps_bounds ts :
  Forall (fun t => t.(fee_bps) <= compute_max_fee_bps ts) ts.
Proof. apply (compute_max_fee_bps_from ts 0). Qed.

Lemma compute_max_le ts b :
  0 <= b -> Forall (fun t => t.(fee_bps) <= b) ts -> compute_max_fee_bps ts <= b.
Proof.
  unfold compute_max_fee_bps. intros Hb Hf. revert Hb. generalize 0. 
  induction Hf as [|t ts Ht Hf IH]; intros m Hm; cbn; [done|]. apply IH. by case_match.
Qed.

Lemma last_reached_spec found v ts :
  StronglySorted (fun t t' => t.(volume_threshold) <= t'.(volume_threshold)) ts ->
  (Forall (fun t => v < t.(volume_threshold)) ts /\ last_reached found v ts = found) \/
  exists i t, ts !! i = Some t /\ last_reached found v ts = t.(fee_bps) /\
    t.(volume_threshold) <= v /\
    forall j t', ts !! j = Some t' -> t'.(volume_threshold) <= v -> (j <= i)%nat.
Proof.
  intros Hs. revert found. induction Hs as [|t ts Hs IH Ht]; intros found; cbn.
  { left. by split. }
  destruct (Z.leb_spec t.(volume_threshold) v) as [Hv|Hv].
  - right. destruct (IH t.(fee_bps)) as [[Hn E]|(i & t' & Hi & E & Hv' & Hlast)].
    + exists 0%nat, t. split_and!; try done. intros [|j] t' Hj Hv'; [done|]. cbn in Hj.
      rewrite Forall_lookup in Hn. specialize (Hn _ _ Hj). lia.
    + exists (S i), t'. split_and!; try done. intros [|j] t'' Hj Hv''; [lia|].
      cbn in Hj. specialize (Hlast _ _ Hj Hv''). lia.
  - left. assert (Hn : Forall (fun t' => v < t'.(volume_threshold)) ts).
    { eapply Forall_impl; [exact Ht|]. cbn. lia. }
    split; [by constructor|]. destruct (IH found) as [[_ E]|(i & t' & Hi & _ & Hv' & _)]; [done|].
    rewrite Forall_lookup in Hn. specialize (Hn _ _ Hi). lia.
Qed.

(** The tier that applies, and the bounds on every tier. *)
Lemma fee_of_tier s v :
  validate_tiers s.(tiers) = Ok tt -> s.(tiers) <> [] ->
  exists i t, s.(tiers) !! i = Some t /\ fee_for_volume s v = t.(fee_bps) /\
    (t.(volume_threshold) <= v \/ i = 0%nat) /\
    (forall j t', s.(tiers) !! j = Some t' -> t'.(volume_threshold) <= v -> (j <= i)%nat).
Proof.
  intros Hv Hne. apply validate_tiers_from_ok in Hv as [Hs _]. unfold fee_for_volume.
  destruct (last_reached_spec (from_option fee_bps 0 (head s.(tiers))) v _ Hs)
    as [[Hn E]|(i & t & Hi & E & Hr & Hlast)].
  - destruct s.(tiers) as [|t ts] eqn:Et; [done|]. exists 0%nat, t. cbn in E.
    split_and!; try done; [by right|].
    intros j t' Hj Hr. rewrite Forall_lookup in Hn. specialize (Hn _ _ Hj). lia.
  - exists i, t. split_and!; try done. by left.
Qed.

Lemma tiers_bounded s :
  validate_tiers s.(tiers) = Ok tt -> s.(max_tier_fee_bps) = compute_max_fee_bps s.(tiers) ->
  s.(max_tier_fee_bps) <= 1000 /\
  forall i t, s.(tiers) !! i = Some t -> t.(fee_bps) <= s.(max_tier_fee_bps).
Proof.
  intros Hv Hmax. apply validate_tiers_from_ok in Hv as [_ Hf].
  pose proof (compute_max_fee_bps_bounds s.(tiers)) as Hb. rewrite <- Hmax in Hb. split.
  - rewrite Hmax. apply compute_max_le; [lia|]. eapply Forall_impl; [exact Hf|]. cbn. tauto.
  - rewrite Forall_lookup in Hb. intros i t. apply Hb.
Qed.

Lemma fee_bounded s v :
  validate_tiers s.(tiers) = Ok tt -> s.(tiers) <> [] ->
  s.(max_tier_fee_bps) = compute_max_fee_bps s.(tiers) ->
  fee_for_volume s v <= s.(max_tier_fee_bps) <= 1000.
Proof.
  intros Hv Hne Hmax. destruct (fee_of_tier s v Hv Hne) as (i & t & Hi & -> & _).
  destruct (tiers_bounded s Hv Hmax) as [? Hb]. split; [by eapply Hb|done].
Qed.

(** C33: on a validated schedule the fee of a volume is the fee of the last tier whose
    threshold the volume reaches, or of the first tier when it reaches none; it never
    exceeds the recorded maximum, which is at most ten percent. *)
Theorem fee_tier_selected s v :
  validate_tiers s.(tiers) = Ok tt -> s.(tiers) <> [] ->
  s.(max_tier_fee_bps) = compute_max_fee_bps s.(tiers) ->
  exists i t, s.(tiers) !! i = Some t /\ fee_for_volume s v = t.(fee_bps) /\
    (t.(volume_threshold) <= v \/ i = 0%nat) /\
    (forall j t', s.(tiers) !! j = Some t' -> t'.(volume_threshold) <= v -> (j <= i)%nat) /\
    t.(fee_bps) <= s.(max_tier_fee_bps) <= 1000.
Proof.
  intros Hv Hne Hmax. destruct (fee_of_tier s v Hv Hne) as (i & t & Hi & E & Hr & Hlast).
  destruct (tiers_bounded s Hv Hmax) as [? Hb]. exists i, t. split_and!; try done. by eapply Hb.
Qed.

Lemma fee_tier_selected_witness :
  let ts := [{| volume_threshold := 0; fee_bps := 30 |};
             {| volume_threshold := 1000; fee_bps := 20 |};
             {| volume_threshold := 5000; fee_bps := 5 |}] in
  let s := schedule_init ts 7 255 in
  fee_for_volume s 4999 = 20 /\ s.(max_tier_fee_bps) <= 1000.
Proof.
  intros ts s.
  destruct (fee_tier_selected s 4999 eq_refl ltac:(discriminate) eq_refl)
    as (i & t & _ & E & _ & _ & _ & H).
  split; [reflexivity | exact H].
Defined.
