(* ===== verification/Governance.v ===== *)
(** * Configuration and authority accounts

    [state/program_config.rs], [state/admin_multisig.rs], [state/timelock.rs],
    [state/bucket_registry.rs], [state/stablecoin_registry.rs], [state/session.rs],
    [state/instrument_config.rs], [state/market_nonce.rs] and [state/pmlc.rs]:
    each account's fields, its validation and its operations. Arrays of fixed
    size are lists of that length, zero padded. *)
From S2P Require Import Prelude.

(** The array of [n] slots that starts with [l]; the unused slots hold [d]. *)
Definition padded {A} (n : nat) (d : A) (l : list A) : list A :=
  take n l ++ replicate (n - length l) d.

(** [for i in 0..len { for j in (i+1)..len { if l[i] == l[j] { return Err } } }] *)
Fixpoint has_duplicates {A} `{EqDecision A} (l : list A) : bool :=
  match l with
  | [] => false
  | x :: l => bool_decide (x ∈ l) || has_duplicates l
  end.

Lemma has_duplicates_NoDup {A} `{EqDecision A} (l : list A) :
  has_duplicates l = false <-> NoDup l.
Proof.
  induction l as [|x l IH]; cbn; [split; [constructor|done]|].
  rewrite orb_false_iff, bool_decide_eq_false, NoDup_cons. naive_solver.
Qed.

(** [l[..n].iter().any(|s| s == key)] *)
Definition contains {A} `{EqDecision A} (x : A) (l : list A) : bool := bool_decide (x ∈ l).

(* ------------------------------------------------------------------ *)
(** ** Program configuration *)

Record ProgramConfig := {
  global_pause : Z;
  pc_bump : Z;
  admin : Pubkey;
  fee_treasury_authority : Pubkey;
  attestation_signer : Pubkey;
  default_max_staleness_secs : Z;
}.
Definition PROGRAM_CONFIG_LEN : Z := 1 + 1 + 1 + 5 + 32 + 32 + 32 + 8 + 64.

Definition config_init (admin attestation_signer fee_treasury_authority : Pubkey)
    (default_max_staleness_secs bump : Z) : ProgramConfig :=
  {| global_pause := 0; pc_bump := bump; admin := admin;
     fee_treasury_authority := fee_treasury_authority;
     attestation_signer := attestation_signer;
     default_max_staleness_secs := default_max_staleness_secs |}.
Definition set_global_pause (v : Z) (c : ProgramConfig) : ProgramConfig :=
  {| global_pause := v; pc_bump := c.(pc_bump); admin := c.(admin);
     fee_treasury_authority := c.(fee_treasury_authority);
     attestation_signer := c.(attestation_signer);
     default_max_staleness_secs := c.(default_max_staleness_secs) |}.
Definition set_attestation_signer (v : Pubkey) (c : ProgramConfig) : ProgramConfig :=
  {| global_pause := c.(global_pause); pc_bump := c.(pc_bump); admin := c.(admin);
     fee_treasury_authority := c.(fee_treasury_authority); attestation_signer := v;
     default_max_staleness_secs := c.(default_max_staleness_secs) |}.

(* ------------------------------------------------------------------ *)
(** ** Accounts as an instruction sees them *)

Record AccountInfo := { key : Pubkey; is_signer : bool; is_writable : bool }.

(* ------------------------------------------------------------------ *)
(** ** Admin multisig *)

Definition MAX_MULTISIG_SIGNERS : nat := 16.

Record AdminMultisig := {
  ms_bump : Z;
  threshold : Z;
  n_signers : Z;
  bootstrap_admin : Pubkey;
  ms_version : Z;
  signers : list Pubkey;
}.
Definition ADMIN_MULTISIG_LEN : Z := 1 + 1 + 1 + 1 + 4 + 32 + 8 + 32 * 16 + 64.

(** The checks [init] and [rotate] share. *)
Definition validate_signers (signers : list Pubkey) (threshold : Z) : Res unit :=
  if (length signers =? 0)%nat || (MAX_MULTISIG_SIGNERS <? length signers)%nat then
    Err InvalidInstructionData
  else if (threshold =? 0) || (Z.of_nat (length signers) <? threshold) then
    Err InvalidInstructionData
  else if has_duplicates signers then Err InvalidInstructionData
  else Ok tt.

Definition multisig_init (bootstrap_admin : Pubkey) (signers : list Pubkey)
    (threshold bump : Z) : AdminMultisig :=
  {| ms_bump := bump; threshold := threshold; n_signers := as_u 8 (Z.of_nat (length signers));
     bootstrap_admin := bootstrap_admin; ms_version := 1;
     signers := padded MAX_MULTISIG_SIGNERS 0 signers |}.

(** [&self.signers[..n]] *)
Definition active_signers (v : AdminMultisig) : list Pubkey :=
  take (Nat.min (Z.to_nat v.(n_signers)) MAX_MULTISIG_SIGNERS) v.(signers).

Definition is_member (v : AdminMultisig) (k : Pubkey) : bool := contains k (active_signers v).

(** One count per listed signer that signed, however often it is passed. *)
Definition count_approvals (v : AdminMultisig) (accounts : list AccountInfo) : Z :=
  foldl (fun matched s =>
    if existsb (fun ai => ai.(is_signer) && (ai.(key) =? s)) accounts
    then saturate 0 U8_MAX (matched + 1) else matched) 0 (active_signers v).

Definition check_threshold (v : AdminMultisig) (accounts : list AccountInfo) : Res unit :=
  if v.(threshold) <=? count_approvals v accounts then Ok tt
  else Err InsufficientMultisigApprovals.

Definition rotate (new_signers : list Pubkey) (new_threshold : Z) : M AdminMultisig unit :=
  lift (validate_signers new_signers new_threshold);;
  modify (fun v =>
    {| ms_bump := v.(ms_bump); threshold := new_threshold;
       n_signers := as_u 8 (Z.of_nat (length new_signers));
       bootstrap_admin := v.(bootstrap_admin);
       ms_version := sat_u64 (v.(ms_version) + 1);
       signers := padded MAX_MULTISIG_SIGNERS 0 new_signers |}).

(* ------------------------------------------------------------------ *)
(** ** Timelock proposals *)

Definition TL_KIND_SET_ATTESTATION_SIGNER : Z := 1.
Definition TL_STATUS_PENDING : Z := 0.
Definition TL_STATUS_EXECUTED : Z := 1.
Definition TL_STATUS_CANCELLED : Z := 2.
Definition TIMELOCK_DELAY_SECS : Z := 24 * 60 * 60.

(** [payload] is used through its first 32 bytes only, the new key. *)
Record TimelockProposal := {
  tl_kind : Z;
  tl_status : Z;
  tl_bump : Z;
  proposal_id : Z;
  proposer : Pubkey;
  new_signer : Pubkey;
  proposed_slot : Z;
  proposed_unix_ts : Z;
  executable_after_unix_ts : Z;
}.
Definition TIMELOCK_PROPOSAL_LEN : Z := 1 + 1 + 1 + 1 + 4 + 8 + 32 + 64 + 8 + 8 + 8 + 32.

Definition set_tl_status (v : Z) (p : TimelockProposal) : TimelockProposal :=
  {| tl_kind := p.(tl_kind); tl_status := v; tl_bump := p.(tl_bump);
     proposal_id := p.(proposal_id); proposer := p.(proposer); new_signer := p.(new_signer);
     proposed_slot := p.(proposed_slot); proposed_unix_ts := p.(proposed_unix_ts);
     executable_after_unix_ts := p.(executable_after_unix_ts) |}.

(* ------------------------------------------------------------------ *)
(** ** Bucket registry *)

Definition MAX_LEVERAGE_SLOTS : nat := 16.
Definition MAX_COLLATERAL_SLOTS : nat := 16.

Record BucketRegistry := {
  br_bump : Z;
  n_leverage : Z;
  n_collateral : Z;
  br_version : Z;
  br_leverage_bps : list Z;
  collateral_buckets : list Z;
}.
Definition BUCKET_REGISTRY_LEN : Z := 1 + 1 + 1 + 1 + 4 + 8 + 4 * 16 + 8 * 16 + 64.

(** The loop over one list: each value in range and not repeated later. *)
Fixpoint validate_values (bad : Z -> bool) (e : PolyleverageError) (l : list Z) : Res unit :=
  match l with
  | [] => Ok tt
  | x :: l =>
      if bad x then Err e
      else if bool_decide (x ∈ l) then Err e
      else validate_values bad e l
  end.

Definition validate_inputs (leverages buckets : list Z) : Res unit :=
  if (length leverages =? 0)%nat || (MAX_LEVERAGE_SLOTS <? length leverages)%nat then
    Err InvalidInstructionData
  else if (length buckets =? 0)%nat || (MAX_COLLATERAL_SLOTS <? length buckets)%nat then
    Err InvalidInstructionData
  else
    validate_values (fun l => (l =? 0) || (10000000 <? l)) InvalidLeverageBucket leverages;;
    validate_values (fun b => b =? 0) InvalidCollateralBucket buckets.

Definition registry_init (leverages buckets : list Z) (bump : Z) : BucketRegistry :=
  {| br_bump := bump; n_leverage := as_u 8 (Z.of_nat (length leverages));
     n_collateral := as_u 8 (Z.of_nat (length buckets)); br_version := 1;
     br_leverage_bps := padded MAX_LEVERAGE_SLOTS 0 leverages;
     collateral_buckets := padded MAX_COLLATERAL_SLOTS 0 buckets |}.

Definition registry_set (leverages buckets : list Z) : M BucketRegistry unit :=
  lift (validate_inputs leverages buckets);;
  modify (fun r =>
    {| br_bump := r.(br_bump); n_leverage := as_u 8 (Z.of_nat (length leverages));
       n_collateral := as_u 8 (Z.of_nat (length buckets));
       br_version := sat_u64 (r.(br_version) + 1);
       br_leverage_bps := padded MAX_LEVERAGE_SLOTS 0 leverages;
       collateral_buckets := padded MAX_COLLATERAL_SLOTS 0 buckets |}).

Definition allows_leverage (r : BucketRegistry) (bps : Z) : bool :=
  contains bps (take (Nat.min (Z.to_nat r.(n_leverage)) MAX_LEVERAGE_SLOTS) r.(br_leverage_bps)).
Definition allows_bucket (r : BucketRegistry) (atoms : Z) : bool :=
  contains atoms
    (take (Nat.min (Z.to_nat r.(n_collateral)) MAX_COLLATERAL_SLOTS) r.(collateral_buckets)).

(* ------------------------------------------------------------------ *)
(** ** Stablecoin registry *)

Definition MAX_STABLECOIN_SLOTS : nat := 16.

Record StablecoinRegistry := {
  sr_bump : Z;
  n_mints : Z;
  wusd_decimals : Z;
  wusd_mint : Pubkey;
  sr_version : Z;
  mints : list Pubkey;
}.
Definition STABLECOIN_REGISTRY_LEN : Z := 1 + 1 + 1 + 1 + 4 + 32 + 8 + 32 * 16 + 64.

Definition validate_mints (initial_mints : list Pubkey) : Res unit :=
  if (MAX_STABLECOIN_SLOTS <? length initial_mints)%nat then Err InvalidInstructionData
  else validate_values (fun m => m =? 0) InvalidMint initial_mints.

Definition stablecoins_init (wusd_mint : Pubkey) (wusd_decimals : Z)
    (initial_mints : list Pubkey) (bump : Z) : StablecoinRegistry :=
  {| sr_bump := bump; n_mints := as_u 8 (Z.of_nat (length initial_mints));
     wusd_decimals := wusd_decimals; wusd_mint := wusd_mint; sr_version := 1;
     mints := padded MAX_STABLECOIN_SLOTS 0 initial_mints |}.

Definition is_accepted (r : StablecoinRegistry) (mint : Pubkey) : bool :=
  contains mint (take (Nat.min (Z.to_nat r.(n_mints)) MAX_STABLECOIN_SLOTS) r.(mints)).

Definition set_mints (r : StablecoinRegistry) (ms : list Pubkey) (n : Z) : StablecoinRegistry :=
  {| sr_bump := r.(sr_bump); n_mints := n; wusd_decimals := r.(wusd_decimals);
     wusd_mint := r.(wusd_mint); sr_version := sat_u64 (r.(sr_version) + 1); mints := ms |}.

Definition add_mint (mint : Pubkey) : M StablecoinRegistry unit :=
  r ← gets id;
  bail_if (is_accepted r mint) AlreadyInitialized;;
  let n := Z.to_nat r.(n_mints) in
  bail_if (MAX_STABLECOIN_SLOTS <=? n)%nat InvalidInstructionData;;
  put (set_mints r (<[n := mint]> r.(mints)) (as_u 8 (Z.of_nat (n + 1)))).

(** The first index below [n] holding the mint; [self.mints[i]] past the array
    panics. *)
Fixpoint position (mint : Pubkey) (n i : nat) (ms : list Pubkey) : Res (option nat) :=
  match n, ms with
  | O, _ => Ok None
  | S _, [] => Panic
  | S n, m :: ms => if m =? mint then Ok (Some i) else position mint n (S i) ms
  end.

Definition remove_mint (mint : Pubkey) : M StablecoinRegistry unit :=
  r ← gets id;
  let n := Z.to_nat r.(n_mints) in
  idx ← lift (position mint n 0 r.(mints));
  i ← ok_or idx NotInitialized;
  last ← or_panic (r.(mints) !! (n - 1)%nat);
  let ms := if (i + 1 <? n)%nat then <[i := last]> r.(mints) else r.(mints) in
  put (set_mints r (<[(n - 1)%nat := 0]> ms) (as_u 8 (Z.of_nat (n - 1)))).

(* ------------------------------------------------------------------ *)
(** ** Trading sessions *)

Definition MAX_SESSION_INSTRUMENTS : nat := 8.

Record Session := {
  se_bump : Z;
  revoked : Z;
  n_allowed_instruments : Z;
  se_owner : Pubkey;
  delegate : Pubkey;
  expires_at_slot : Z;
  per_intent_max_collateral_atoms : Z;
  cumulative_collateral_used : Z;
  cumulative_collateral_cap : Z;
  created_at_slot : Z;
  se_version : Z;
  allowed_instruments : list Pubkey;
}.
Definition SESSION_LEN : Z := 1 + 1 + 1 + 1 + 4 + 32 + 32 + 8 + 8 + 8 + 8 + 8 + 8 + 32 * 8 + 64.

Definition validate_session (expires_at_slot per_intent_max cap : Z)
    (allowed : list Pubkey) (created_at_slot : Z) : Res unit :=
  if expires_at_slot <=? created_at_slot then Err InvalidInstructionData
  else if (per_intent_max =? 0) || (cap =? 0) then Err InvalidInstructionData
  else if cap <? per_intent_max then Err InvalidInstructionData
  else if (MAX_SESSION_INSTRUMENTS <? length allowed)%nat then Err InvalidInstructionData
  else Ok tt.

Definition session_init (owner delegate : Pubkey) (bump expires_at_slot per_intent_max cap : Z)
    (allowed : list Pubkey) (created_at_slot : Z) : Session :=
  {| se_bump := bump; revoked := 0;
     n_allowed_instruments := as_u 8 (Z.of_nat (length allowed));
     se_owner := owner; delegate := delegate; expires_at_slot := expires_at_slot;
     per_intent_max_collateral_atoms := per_intent_max;
     cumulative_collateral_used := 0; cumulative_collateral_cap := cap;
     created_at_slot := created_at_slot; se_version := 1;
     allowed_instruments := padded MAX_SESSION_INSTRUMENTS 0 allowed |}.

Definition is_active (s : Session) (current_slot : Z) : bool :=
  (s.(revoked) =? 0) && (current_slot <? s.(expires_at_slot)) &&
  (s.(cumulative_collateral_used) <? s.(cumulative_collateral_cap)).

Definition allows_instrument (s : Session) (instrument : Pubkey) : bool :=
  if s.(n_allowed_instruments) =? 0 then true
  else contains instrument
    (take (Nat.min (Z.to_nat s.(n_allowed_instruments)) MAX_SESSION_INSTRUMENTS)
       s.(allowed_instruments)).

Definition set_session (s : Session) (revoked used : Z) : Session :=
  {| se_bump := s.(se_bump); revoked := revoked;
     n_allowed_instruments := s.(n_allowed_instruments);
     se_owner := s.(se_owner); delegate := s.(delegate);
     expires_at_slot := s.(expires_at_slot);
     per_intent_max_collateral_atoms := s.(per_intent_max_collateral_atoms);
     cumulative_collateral_used := used;
     cumulative_collateral_cap := s.(cumulative_collateral_cap);
     created_at_slot := s.(created_at_slot); se_version := sat_u64 (s.(se_version) + 1);
     allowed_instruments := s.(allowed_instruments) |}.

Definition record_intent (collateral_atoms : Z) : M Session Z :=
  s ← gets id;
  bail_if (collateral_atoms =? 0) InvalidContractCount;;
  bail_if (s.(per_intent_max_collateral_atoms) <? collateral_atoms) SessionPerIntentCapExceeded;;
  new_used ← ok_or (checked U64_MAX (s.(cumulative_collateral_used) + collateral_atoms))
    ArithmeticOverflow;
  bail_if (s.(cumulative_collateral_cap) <? new_used) SessionCumulativeCapExceeded;;
  put (set_session s s.(revoked) new_used);;
  mret new_used.

Definition revoke : M Session unit :=
  modify (fun s => set_session s 1 s.(cumulative_collateral_used)).

(* ------------------------------------------------------------------ *)
(** ** Instruments *)

Definition STATUS_ACTIVE : Z := 0.
Definition STATUS_PAUSED : Z := 1.
Definition STATUS_CLOSED : Z := 2.
Definition ALLOWED_LEVERAGE_BPS : list Z :=
  [20000; 50000; 100000; 200000; 400000; 1000000; 2500000; 10000000].
Definition POLYMARKET : Z := 0.
Definition PYTH : Z := 3.
Definition is_known (s : Z) : bool := (s =? POLYMARKET) || (s =? PYTH).

(** 32-byte identifiers are numbers, as public keys are. *)
Record InstrumentConfig := {
  ic_status : Z;
  ic_bump : Z;
  ic_source : Z;
  ic_market_id : Z;
  source_token_id_a : Z;
  source_token_id_b : Z;
  ic_collateral_mint : Pubkey;
  intent_book : Pubkey;
  leverage_bps : Z;
  collateral_bucket : Z;
  twap_window_slots : Z;
  tick_fp : Z;
  liquidation_bps : Z;
  liquidation_bounty_bps : Z;
  max_staleness_secs : Z;
  reference_usd : Z;
}.
Definition INSTRUMENT_CONFIG_LEN : Z :=
  1 + 1 + 1 + 1 + 4 + 32 + 32 + 32 + 32 + 32 + 4 + 4 + 8 + 8 + 8 + 4 + 2 + 2 + 8 + 8 + 40.

Definition require_active (c : InstrumentConfig) : Res unit :=
  if negb (c.(ic_status) =? STATUS_ACTIVE) then Err InstrumentPaused else Ok tt.

Definition validate_bucket_config (leverage_bps collateral_bucket tick_fp : Z) : Res unit :=
  if negb (contains leverage_bps ALLOWED_LEVERAGE_BPS) then Err InvalidLeverageBucket
  else if collateral_bucket =? 0 then Err InvalidCollateralBucket
  else if tick_fp =? 0 then Err PriceNotTickAligned
  else Ok tt.

(** The checks of [InstrumentConfig::init] after the account's own. *)
Definition validate_instrument (c : InstrumentConfig) : Res unit :=
  if negb (is_known c.(ic_source)) then Err InvalidInstructionData
  else
    (if c.(ic_source) =? PYTH then
       if c.(reference_usd) =? 0 then Err InvalidInstructionData else Ok tt
     else if c.(ic_source) =? POLYMARKET then
       if negb (c.(reference_usd) =? 0) then Err InvalidInstructionData else Ok tt
     else Err InvalidInstructionData);;
    validate_bucket_config c.(leverage_bps) c.(collateral_bucket) c.(tick_fp).

Definition set_ic_status (v : Z) (c : InstrumentConfig) : InstrumentConfig :=
  {| ic_status := v; ic_bump := c.(ic_bump); ic_source := c.(ic_source);
     ic_market_id := c.(ic_market_id); source_token_id_a := c.(source_token_id_a);
     source_token_id_b := c.(source_token_id_b); ic_collateral_mint := c.(ic_collateral_mint);
     intent_book := c.(intent_book); leverage_bps := c.(leverage_bps);
     collateral_bucket := c.(collateral_bucket); twap_window_slots := c.(twap_window_slots);
     tick_fp := c.(tick_fp); liquidation_bps := c.(liquidation_bps);
     liquidation_bounty_bps := c.(liquidation_bounty_bps);
     max_staleness_secs := c.(max_staleness_secs); reference_usd := c.(reference_usd) |}.

(* ------------------------------------------------------------------ *)
(** ** Market nonces *)

Record MarketNonceAccount := {
  is_resolved : Z;
  mn_bump : Z;
  mn_market_id : Z;
  last_accepted_cre_nonce : Z;
  last_accepted_twap_fp : Z;
  last_accepted_ts : Z;
  final_outcome_bps : Z;
}.
Definition MARKET_NONCE_LEN : Z := 1 + 1 + 1 + 5 + 32 + 8 + 8 + 8 + 2 + 6 + 32.

Definition nonce_init (market_id bump : Z) : MarketNonceAccount :=
  {| is_resolved := 0; mn_bump := bump; mn_market_id := market_id;
     last_accepted_cre_nonce := 0; last_accepted_twap_fp := 0; last_accepted_ts := 0;
     final_outcome_bps := 0 |}.

(* ------------------------------------------------------------------ *)
(** ** Matched contracts *)

Definition PMLC_STATUS_LIVE : Z := 0.
Definition PMLC_STATUS_CLOSED : Z := 1.
Definition PMLC_STATUS_LIQUIDATED : Z := 2.
Definition PMLC_STATUS_RESOLVED : Z := 3.
Definition CLOSE_REASON_NONE : Z := 0.
Definition CLOSE_REASON_LIQUIDATED : Z := 1.
Definition CLOSE_REASON_RESOLVED : Z := 2.
Definition CLOSE_REASON_MUTUAL : Z := 3.
Definition PMLC_FLAG_LONG_REENTRY : Z := 1.
Definition PMLC_FLAG_SHORT_REENTRY : Z := 2.

Record Pmlc := {
  pm_status : Z;
  close_reason : Z;
  pm_flags : Z;
  pm_bump : Z;
  pm_id : Z;
  instrument : Pubkey;
  pm_collateral_mint : Pubkey;
  pm_market_id : Z;
  long_owner : Pubkey;
  short_owner : Pubkey;
  collateral_per_side : Z;
  pm_leverage_bps : Z;
  entry_price_fp : Z;
  notional_atoms : Z;
  size_fp_lo : Z;
  size_fp_hi : Z;
  opened_slot : Z;
  last_mark_slot : Z;
  long_reentry_price_fp : Z;
  short_reentry_price_fp : Z;
}.
Definition PMLC_LEN : Z :=
  1 + 1 + 1 + 1 + 1 + 3 + 8 + 32 + 32 + 32 + 32 + 32 + 8 + 4 + 4 + 8 + 8 + 8 + 8 + 8 + 8 + 8 + 8 + 48.

Definition size_fp (p : Pmlc) : Z := Z.lor (Z.shiftl p.(size_fp_hi) 64) p.(size_fp_lo).

Definition require_live (p : Pmlc) : Res unit :=
  if negb (p.(pm_status) =? PMLC_STATUS_LIVE) then Err PmlcNotLive else Ok tt.

Definition set_pm_state (p : Pmlc) (status reason flags mark_slot : Z)
    (long short : Pubkey) : Pmlc :=
  {| pm_status := status; close_reason := reason; pm_flags := flags; pm_bump := p.(pm_bump);
     pm_id := p.(pm_id); instrument := p.(instrument);
     pm_collateral_mint := p.(pm_collateral_mint); pm_market_id := p.(pm_market_id);
     long_owner := long; short_owner := short;
     collateral_per_side := p.(collateral_per_side); pm_leverage_bps := p.(pm_leverage_bps);
     entry_price_fp := p.(entry_price_fp); notional_atoms := p.(notional_atoms);
     size_fp_lo := p.(size_fp_lo); size_fp_hi := p.(size_fp_hi);
     opened_slot := p.(opened_slot); last_mark_slot := mark_slot;
     long_reentry_price_fp := p.(long_reentry_price_fp);
     short_reentry_price_fp := p.(short_reentry_price_fp) |}.

(* ------------------------------------------------------------------ *)
(** ** The stablecoin registry is a finite set *)

Definition stables_ok (r : StablecoinRegistry) : Prop :=
  0 <= r.(n_mints) <= Z.of_nat MAX_STABLECOIN_SLOTS /\
  length r.(mints) = MAX_STABLECOIN_SLOTS /\ NoDup (take (Z.to_nat r.(n_mints)) r.(mints)).

(** The accepted mints. *)
Definition accepted (r : StablecoinRegistry) : list Pubkey :=
  take (Z.to_nat r.(n_mints)) r.(mints).

Lemma is_accepted_elem r m : stables_ok r -> is_accepted r m = bool_decide (m ∈ accepted r).
Proof.
  intros ((? & ?) & ? & _). unfold is_accepted, accepted, contains. rewrite Nat.min_l; [done|].
  lia.
Qed.

Lemma take_insert_last {A} (l : list A) n x :
  (n < length l)%nat -> take (n + 1) (<[n := x]> l) = take n l ++ [x].
Proof.
  intros Hn. replace (n + 1)%nat with (S n) by lia.
  rewrite (take_S_r _ _ x) by (by apply list_lookup_insert_eq).
  by rewrite take_insert_ge.
Qed.

Lemma NoDup_insert_last {A} (l : list A) i x :
  NoDup (l ++ [x]) -> (i < length l)%nat -> NoDup (<[i := x]> l).
Proof.
  intros Hl Hi. destruct (lookup_lt_is_Some_2 l i Hi) as [y Hy].
  rewrite insert_take_drop by done. rewrite <- (take_drop_middle l i y Hy) in Hl at 1.
  rewrite <- app_assoc in Hl. cbn in Hl. revert Hl.
  assert (take i l ++ y :: drop (S i) l ++ [x] ≡ₚ y :: take i l ++ x :: drop (S i) l) as ->.
  { rewrite <- Permutation_middle. constructor. apply Permutation_app_head.
    symmetry. apply Permutation_cons_append. }
  by intros [_ Hn]%NoDup_cons.
Qed.

Lemma position_found mint n i ms j :
  position mint n i ms = Ok (Some j) ->
  (i <= j < i + n)%nat /\ ms !! (j - i)%nat = Some mint.
Proof.
  revert i ms. induction n as [|n IH]; intros i [|m ms]; cbn; try done.
  destruct (Z.eqb_spec m mint) as [->|].
  - intros [= <-]. rewrite Nat.sub_diag. split; [lia|done].
  - intros H. apply IH in H as [? H]. split; [lia|].
    by replace (j - i)%nat with (S (j - S i)) by lia.
Qed.

Lemma position_absent mint n i ms :
  (n <= length ms)%nat -> mint ∉ take n ms -> position mint n i ms = Ok None.
Proof.
  revert i ms. induction n as [|n IH]; intros i [|m ms]; cbn; try done; [lia|].
  intros Hl Hm. apply not_elem_of_cons in Hm as [? Hm].
  destruct (Z.eqb_spec m mint) as [->|]; [done|]. apply IH; [lia|done].
Qed.

Lemma position_present mint n i ms :
  (n <= length ms)%nat -> mint ∈ take n ms -> exists j, position mint n i ms = Ok (Some j).
Proof.
  revert i ms. induction n as [|n IH]; intros i [|m ms]; cbn; try done; try lia; try set_solver.
  intros Hl Hm. destruct (Z.eqb_spec m mint) as [->|Hne]; [eauto|]. apply IH; [lia|].
  apply elem_of_cons in Hm as [?|?]; [by subst|done].
Qed.

Lemma add_mint_spec mint r :
  stables_ok r ->
  if is_accepted r mint then add_mint mint r = (Err AlreadyInitialized, r)
  else if n_mints r =? 16 then add_mint mint r = (Err InvalidInstructionData, r)
  else exists r', add_mint mint r = (Ok tt, r') /\ stables_ok r' /\
    accepted r' = accepted r ++ [mint].
Proof.
  intros Hr. unfold add_mint. rewrite (bind_ok (gets id) _ r r r eq_refl).
  destruct (is_accepted r mint) eqn:Ea; [done|]. cbn -[MAX_STABLECOIN_SLOTS].
  rewrite (is_accepted_elem _ _ Hr) in Ea. apply bool_decide_eq_false in Ea.
  destruct Hr as ((Hn0 & Hn) & Hl & Hd). unfold accepted in *.
  unfold MAX_STABLECOIN_SLOTS in *.
  rewrite (bind_ok _ _ r tt r eq_refl). destruct (Z.eqb_spec (n_mints r) 16) as [E|E].
  { rewrite E. reflexivity. }
  assert (Hb : (16 <=? Z.to_nat (n_mints r))%nat = false) by (apply Nat.leb_gt; lia).
  rewrite Hb. eexists. split; [reflexivity|]. unfold stables_ok, MAX_STABLECOIN_SLOTS. cbn.
  rewrite as_u_small by lia. rewrite Nat2Z.id, take_insert_last by lia.
  rewrite length_insert. split_and!; try done; try lia.
  apply NoDup_app. split_and!; [done| |apply NoDup_singleton]. set_solver.
Qed.

Lemma remove_mint_spec mint r :
  stables_ok r ->
  if is_accepted r mint then
    exists r', remove_mint mint r = (Ok tt, r') /\ stables_ok r' /\
      n_mints r' = n_mints r - 1 /\ forall x, x ∈ accepted r' <-> x ∈ accepted r /\ x <> mint
  else remove_mint mint r = (Err NotInitialized, r).
Proof.
  intros Hr. rewrite (is_accepted_elem _ _ Hr). unfold remove_mint.
  rewrite (bind_ok (gets id) _ r r r eq_refl). cbn zeta.
  destruct Hr as ((Hn0 & Hn) & Hl & Hd). unfold accepted in *. set (n := Z.to_nat (n_mints r)) in *.
  assert (Hlen : (n <= length r.(mints))%nat) by (rewrite Hl; lia).
  case_bool_decide as Hm; cycle 1.
  { rewrite (position_absent _ _ 0 _ Hlen Hm). reflexivity. }
  destruct (position_present _ _ 0 _ Hlen Hm) as [i Hi]. rewrite Hi.
  apply position_found in Hi as [Hin Hi]. rewrite Nat.sub_0_r in Hi.
  destruct (lookup_lt_is_Some_2 r.(mints) (n - 1)%nat ltac:(lia)) as [last Hlast].
  rewrite (bind_ok _ _ r (Some i) r eq_refl), (bind_ok _ _ r i r eq_refl), Hlast,
    (bind_ok _ _ r last r eq_refl).
  assert (Ht : take n r.(mints) = take (n - 1) r.(mints) ++ [last]).
  { replace n with (S (n - 1)) at 1 by lia. by apply take_S_r. }
  rewrite Ht in Hd, Hm |- *. apply NoDup_app in Hd as Hd'. destruct Hd' as (Hd1 & Hd2 & _).
  unfold stables_ok, MAX_STABLECOIN_SLOTS in *.
  assert (Hlt : length (take (n - 1) r.(mints)) = (n - 1)%nat) by (rewrite length_take; lia).
  destruct (Nat.ltb_spec (i + 1) n) as [Hlt'|Hge]; (eexists; split; [reflexivity|]; cbn;
    rewrite as_u_small by lia; rewrite Nat2Z.id, take_insert_ge, !length_insert by lia).
  - rewrite take_insert_lt by lia. set (l := take (n - 1) r.(mints)) in *.
    assert (Hli : l !! i = Some mint) by (unfold l; rewrite lookup_take_lt by lia; done).
    split_and!; try lia.
    + apply NoDup_insert_last; [done|lia].
    + assert (Hp : l ++ [last] ≡ₚ mint :: <[i := last]> l).
      { rewrite <- (take_drop_middle l i mint Hli) at 1.
        rewrite insert_take_drop by lia.
        rewrite <- app_assoc. cbn. rewrite <- Permutation_middle. constructor.
        apply Permutation_app_head. symmetry. apply Permutation_cons_append. }
      assert (Hnd : NoDup (mint :: <[i := last]> l)) by (by rewrite <- Hp).
      apply NoDup_cons in Hnd as [Hnm _].
      intros x. rewrite Hp. rewrite elem_of_cons. split.
      * intros Hx. split; [by right|]. by intros ->.
      * intros [[->|?] ?]; done.
  - assert (i = n - 1)%nat as -> by lia. assert (last = mint) as -> by congruence.
    split_and!; try lia; try done.
    intros x. rewrite elem_of_app, list_elem_of_singleton. split.
    + intros Hx. split; [by left|]. intros ->. by apply (Hd2 mint Hx), list_elem_of_singleton.
    + intros [[?|?] ?]; done.
Qed.

(** The registry as the finite set it stands for. *)
Definition accepted_set (r : StablecoinRegistry) : gset Pubkey := list_to_set (accepted r).

Lemma accepted_size r :
  stables_ok r -> Z.of_nat (size (accepted_set r)) = r.(n_mints).
Proof.
  intros ((? & ?) & Hl & Hd). unfold accepted_set. rewrite size_list_to_set by done.
  unfold accepted. rewrite length_take. lia.
Qed.

(** C31: the stablecoin registry implements a finite set of at most sixteen mints: the
    lookup is membership, adding inserts exactly that mint (and is refused for a member or
    when the set is full), removing deletes exactly that mint whatever its slot (and is
    refused for a stranger), and the array stays free of duplicates. *)
Theorem stablecoins_refine_set r mint :
  stables_ok r ->
  (is_accepted r mint = true <-> mint ∈ accepted_set r) /\
  (let '(res, r') := add_mint mint r in
   if decide (mint ∈ accepted_set r) then res = Err AlreadyInitialized /\ r' = r
   else if decide (size (accepted_set r) = MAX_STABLECOIN_SLOTS) then
     res = Err InvalidInstructionData /\ r' = r
   else res = Ok tt /\ stables_ok r' /\ accepted_set r' = {[mint]} ∪ accepted_set r) /\
  (let '(res, r') := remove_mint mint r in
   if decide (mint ∈ accepted_set r) then
     res = Ok tt /\ stables_ok r' /\ accepted_set r' = accepted_set r ∖ {[mint]}
   else res = Err NotInitialized /\ r' = r).
Proof.
  intros Hr. pose proof (is_accepted_elem r mint Hr) as Ea.
  pose proof (accepted_size r Hr) as Hs.
  assert (Hm : mint ∈ accepted_set r <-> mint ∈ accepted r) by apply elem_of_list_to_set.
  pose proof (add_mint_spec mint r Hr) as Hadd. pose proof (remove_mint_spec mint r Hr) as Hrem.
  rewrite Ea in *. split; [by rewrite bool_decide_eq_true, Hm|].
  case_bool_decide as Hin.
  - rewrite Hadd. destruct Hrem as (r' & -> & Hr' & _ & Hx). rewrite decide_True by tauto.
    rewrite decide_True by tauto. split_and!; try done. apply set_eq. intros x.
    unfold accepted_set. rewrite elem_of_difference, elem_of_singleton, !elem_of_list_to_set. apply Hx.
  - rewrite Hrem, decide_False by tauto. split; [|done].
    destruct (Z.eqb_spec (n_mints r) 16) as [E|E].
    + rewrite Hadd, decide_False by tauto.
      by rewrite decide_True by (unfold MAX_STABLECOIN_SLOTS; lia).
    + destruct Hadd as (r' & -> & Hr' & Ha). rewrite decide_False by tauto.
      rewrite decide_False by (unfold MAX_STABLECOIN_SLOTS; lia).
      split_and!; try done. unfold accepted_set. rewrite Ha. set_solver.
Qed.

Lemma stablecoins_refine_set_witness :
  let r := stablecoins_init 7 6 [11; 22; 33] 254 in
  stables_ok r /\ fst (remove_mint 11 r) = Ok tt /\ is_accepted (snd (remove_mint 11 r)) 33 = true.
Proof.
  intros r. assert (Hr : stables_ok r).
  { split_and!; [by vm_compute|by vm_compute|reflexivity|]. apply (bool_decide_unpack _). vm_compute. exact I. }
  split; [exact Hr|]. destruct (stablecoins_refine_set r 11 Hr) as (_ & _ & Hrem).
  split; vm_compute; reflexivity.
Defined.

(* ------------------------------------------------------------------ *)
(** ** The quorum *)

Definition has_signed (accounts : list AccountInfo) (s : Pubkey) : bool :=
  existsb (fun ai => ai.(is_signer) && (ai.(key) =? s)) accounts.

Lemma has_signed_spec accounts s :
  has_signed accounts s = true <-> exists ai, ai ∈ accounts /\ ai.(is_signer) = true /\ ai.(key) = s.
Proof.
  unfold has_signed. rewrite existsb_exists. split; intros (ai & Hin & H).
  - apply andb_true_iff in H as [? H%Z.eqb_eq]. exists ai.
    split_and!; [by apply list_elem_of_In|done|done].
  - destruct H as [? <-]. exists ai. split; [by apply list_elem_of_In|].
    by rewrite H, Z.eqb_refl.
Qed.

Lemma count_from accounts l m :
  0 <= m -> m + Z.of_nat (length l) <= U8_MAX ->
  foldl (fun matched s =>
    if has_signed accounts s then saturate 0 U8_MAX (matched + 1) else matched) m l
  = m + Z.of_nat (length (filter (fun s => has_signed accounts s = true) l)).
Proof.
  revert m. induction l as [|s l IH]; intros m Hm Hl; cbn [foldl]; [cbn; lia|].
  cbn [length] in Hl. rewrite filter_cons. destruct (has_signed accounts s).
  - rewrite decide_True by done. cbn [length]. rewrite IH; mlia.
  - rewrite decide_False by done. apply IH; lia.
Qed.

Lemma active_length v : (length (active_signers v) <= MAX_MULTISIG_SIGNERS)%nat.
Proof. unfold active_signers. rewrite length_take. lia. Qed.

Lemma count_approvals_filter v accounts :
  count_approvals v accounts =
  Z.of_nat (length (filter (fun s => has_signed accounts s = true) (active_signers v))).
Proof.
  pose proof (active_length v) as Hl. unfold MAX_MULTISIG_SIGNERS in Hl.
  unfold count_approvals. apply count_from; mlia.
Qed.

(** C32: the multisig's threshold is met exactly when that many different listed keys
    signed the instruction; passing a signer's account twice, or signatures of strangers,
    count for nothing. *)
Theorem quorum_is_distinct_members v accounts :
  NoDup (active_signers v) ->
  check_threshold v accounts = Ok tt <->
  exists voters, NoDup voters /\ v.(threshold) <= Z.of_nat (length voters) /\
    forall s, s ∈ voters -> is_member v s = true /\
      exists ai, ai ∈ accounts /\ ai.(is_signer) = true /\ ai.(key) = s.
Proof.
  intros Hnd. unfold check_threshold. rewrite count_approvals_filter.
  set (l := filter _ _). destruct (Z.leb_spec v.(threshold) (Z.of_nat (length l))) as [Ht|Ht].
  - split; [intros _|done]. exists l. split_and!; [by apply NoDup_filter|done|].
    intros s [Hs Hin]%list_elem_of_filter. split; [|by apply has_signed_spec].
    by apply bool_decide_eq_true.
  - split; [done|]. intros (voters & Hv & Hlen & Hin). exfalso.
    assert (length voters <= length l)%nat; [|lia].
    apply submseteq_length, NoDup_submseteq; [done|]. intros s Hs.
    destruct (Hin s Hs) as [Hm Hsig]. apply list_elem_of_filter. split; [by apply has_signed_spec|].
    by apply bool_decide_eq_true in Hm.
Qed.

Lemma quorum_is_distinct_members_witness :
  let v := multisig_init 1 [10; 20; 30] 2 255 in
  let signed k := {| key := k; is_signer := true; is_writable := false |} in
  check_threshold v [signed 10; signed 10; signed 99] = Err InsufficientMultisigApprovals /\
  exists voters : list Pubkey, NoDup voters /\ 2 <= Z.of_nat (length voters).
Proof.
  intros v signed. split; [reflexivity|].
  destruct (proj1 (quorum_is_distinct_members v [signed 30; signed 10; signed 10]
    ltac:(apply (bool_decide_unpack _); vm_compute; exact I)) eq_refl) as (voters & Hn & Hl & _).
  exists voters. split; [exact Hn | exact Hl].
Defined.

(** A multisig that [init] or [rotate] accepted. *)
Definition multisig_ok (v : AdminMultisig) : Prop :=
  exists l, validate_signers l v.(threshold) = Ok tt /\ active_signers v = l.
