(* ===== verification/Attestation.v ===== *)
(** * Oracle attestations: [src/attestation.rs]

    The fixed layout of an attestation and its accessors, the introspection of the
    Ed25519 precompile instruction that carries one, and the freshness and nonce
    checks. Bytes are numbers below 256; 32-byte identifiers are read as the
    big-endian numbers that stand for public keys. *)
From S2P Require Import Prelude.

(* ------------------------------------------------------------------ *)
(** ** Bytes *)

(** [&bytes[off..off + n]] where the caller has checked the length. *)
Definition array_ref (bytes : list Z) (off n : nat) : list Z := take n (drop off bytes).

(** [bytes.get(off..off + n)] *)
Definition get_range (bytes : list Z) (off n : nat) : option (list Z) :=
  if (off + n <=? length bytes)%nat then Some (array_ref bytes off n) else None.

(** [from_le_bytes], and the 32-byte identifiers as big-endian numbers. *)
Definition le_num (bytes : list Z) : Z := foldr (fun b acc => b + 256 * acc) 0 bytes.
Definition be_num (bytes : list Z) : Z := le_num (rev bytes).
Definition i64_from_le (bytes : list Z) : Z := as_i 64 (le_num bytes).

(** [to_le_bytes] *)
Fixpoint le_bytes (n : nat) (x : Z) : list Z :=
  match n with O => [] | S n => x mod 256 :: le_bytes n (x / 256) end.
Definition be_bytes (n : nat) (x : Z) : list Z := rev (le_bytes n x).

Definition byte_at (bytes : list Z) (i : nat) : Z := nth i bytes 0.

(* ------------------------------------------------------------------ *)
(** ** Layout *)

Definition ATTESTATION_MAGIC : list Z := [65; 84; 84; 49].
Definition ATTESTATION_LEN : nat := 4 + 1 + 3 + 32 + 8 + 8 + 48.
Definition ATTESTATION_PAYLOAD_OFFSET : nat := 4 + 1 + 3 + 32 + 8 + 8.
Definition ATT_TYPE_PRICE_TWAP : Z := 1.
Definition ATT_TYPE_RESOLUTION : Z := 2.
Definition ATT_TYPE_HISTORICAL_LIQUIDATION : Z := 3.

(** [Ed25519SigVerify111111111111111111111111111] in base 58. *)
Definition ED25519_PROGRAM_ID : Pubkey :=
  1578283333639560309966238443336078685972541156588233835156235033907424133120.

Record Attestation := { att_bytes : list Z }.

Definition parse (bytes : list Z) : Res Attestation :=
  if negb (length bytes =? ATTESTATION_LEN)%nat then Err InvalidInstructionData
  else if negb (bool_decide (array_ref bytes 0 4 = ATTESTATION_MAGIC)) then
    Err AttestationBadMagic
  else Ok {| att_bytes := bytes |}.

Definition attestation_type (a : Attestation) : Z := byte_at a.(att_bytes) 4.
Definition market_id (a : Attestation) : Z := be_num (array_ref a.(att_bytes) 8 32).
Definition timestamp (a : Attestation) : Z := le_num (array_ref a.(att_bytes) 40 8).
Definition nonce (a : Attestation) : Z := le_num (array_ref a.(att_bytes) 48 8).

Definition require_type (a : Attestation) (t : Z) : Res unit :=
  if negb (attestation_type a =? t) then Err AttestationWrongType else Ok tt.

Definition price_fp (a : Attestation) : Res Z :=
  require_type a ATT_TYPE_PRICE_TWAP;;
  Ok (le_num (array_ref a.(att_bytes) ATTESTATION_PAYLOAD_OFFSET 8)).
Definition att_twap_window_slots (a : Attestation) : Res Z :=
  require_type a ATT_TYPE_PRICE_TWAP;;
  Ok (le_num (array_ref a.(att_bytes) (ATTESTATION_PAYLOAD_OFFSET + 8) 8)).
Definition att_final_outcome_bps (a : Attestation) : Res Z :=
  require_type a ATT_TYPE_RESOLUTION;;
  Ok (le_num (array_ref a.(att_bytes) ATTESTATION_PAYLOAD_OFFSET 2)).
Definition breach_pmlc_pubkey (a : Attestation) : Res Pubkey :=
  require_type a ATT_TYPE_HISTORICAL_LIQUIDATION;;
  Ok (be_num (array_ref a.(att_bytes) ATTESTATION_PAYLOAD_OFFSET 32)).
Definition breach_mark_fp (a : Attestation) : Res Z :=
  require_type a ATT_TYPE_HISTORICAL_LIQUIDATION;;
  Ok (le_num (array_ref a.(att_bytes) (ATTESTATION_PAYLOAD_OFFSET + 32) 8)).
Definition breach_unix_ts (a : Attestation) : Res Z :=
  require_type a ATT_TYPE_HISTORICAL_LIQUIDATION;;
  Ok (i64_from_le (array_ref a.(att_bytes) (ATTESTATION_PAYLOAD_OFFSET + 40) 8)).

(* ------------------------------------------------------------------ *)
(** ** The Ed25519 precompile instruction *)

(** An instruction of the transaction, as the instructions sysvar returns it. *)
Record Instruction := { ix_program_id : Pubkey; ix_data : list Z }.

Definition u16_at (data : list Z) (i : nat) : Z := le_num [byte_at data i; byte_at data (S i)].

Definition extract_verified_ed25519_message (data : list Z) (expected_pubkey : Pubkey)
    : Res (list Z) :=
  if (length data <? 16)%nat then Err MissingEd25519Verify
  else if negb (byte_at data 0 =? 1) || negb (byte_at data 1 =? 0) then Err MissingEd25519Verify
  else
    let signature_offset := Z.to_nat (u16_at data 2) in
    let signature_ix_index := u16_at data 4 in
    let public_key_offset := Z.to_nat (u16_at data 6) in
    let public_key_ix_index := u16_at data 8 in
    let message_offset := Z.to_nat (u16_at data 10) in
    let message_size := Z.to_nat (u16_at data 12) in
    let message_ix_index := u16_at data 14 in
    if negb (signature_ix_index =? U16_MAX) || negb (public_key_ix_index =? U16_MAX)
       || negb (message_ix_index =? U16_MAX) then Err MissingEd25519Verify
    else
      pk_bytes ← opt_ok_or (get_range data public_key_offset 32) MissingEd25519Verify;
      _sig_bytes ← opt_ok_or (get_range data signature_offset 64) MissingEd25519Verify;
      msg_bytes ← opt_ok_or (get_range data message_offset message_size) MissingEd25519Verify;
      if negb (be_num pk_bytes =? expected_pubkey) then Err Ed25519PubkeyMismatch
      else if negb (length msg_bytes =? ATTESTATION_LEN)%nat then Err Ed25519MessageMismatch
      else Ok msg_bytes.

(** [ix] is what [load_instruction_at_checked] answers: [None] for its errors, a
    wrong sysvar account among them. *)
Definition verify_via_ed25519_sysvar (ix : option Instruction) (expected_pubkey : Pubkey)
    : Res (list Z) :=
  ix ← opt_ok_or ix MissingEd25519Verify;
  if negb (ix.(ix_program_id) =? ED25519_PROGRAM_ID) then Err MissingEd25519Verify
  else extract_verified_ed25519_message ix.(ix_data) expected_pubkey.

(** The subtraction follows the test [ts > now], so it cannot underflow. *)
Definition validate_freshness_and_nonce (att : Attestation) (expected_market_id
    last_accepted_nonce now_unix_secs max_staleness_secs : Z) : Res unit :=
  if negb (market_id att =? expected_market_id) then Err AttestationWrongMarket
  else
    let ts := timestamp att in
    if now_unix_secs <? ts then Err AttestationStale
    else if max_staleness_secs <? now_unix_secs - ts then Err AttestationStale
    else if nonce att <=? last_accepted_nonce then Err AttestationNonceReplayed
    else Ok tt.

(* ------------------------------------------------------------------ *)
(** ** Byte lemmas *)

Lemma length_le_bytes n x : length (le_bytes n x) = n.
Proof. revert x. induction n; intros; cbn; auto. Qed.

Lemma le_num_le_bytes n x : le_num (le_bytes n x) = x mod 256 ^ Z.of_nat n.
Proof.
  revert x. induction n as [|n IH]; intros x; cbn [le_bytes le_num foldr].
  { by rewrite Z.mod_1_r. }
  change (foldr _ 0 (le_bytes n (x / 256))) with (le_num (le_bytes n (x / 256))).
  rewrite IH, Nat2Z.inj_succ, Z.pow_succ_r by lia.
  by rewrite Z.rem_mul_r by (try apply Z.pow_nonzero; lia).
Qed.

Lemma le_num_small n x : 0 <= x < 256 ^ Z.of_nat n -> le_num (le_bytes n x) = x.
Proof. intros. rewrite le_num_le_bytes. by apply Z.mod_small. Qed.

Lemma be_num_small n x : 0 <= x < 256 ^ Z.of_nat n -> be_num (be_bytes n x) = x.
Proof. intros. unfold be_num, be_bytes. rewrite rev_involutive. by apply le_num_small. Qed.

Lemma length_be_bytes n x : length (be_bytes n x) = n.
Proof. unfold be_bytes. by rewrite length_rev, length_le_bytes. Qed.

(** A field of a concatenation. *)
Lemma array_ref_app l1 l2 l3 off n :
  off = length l1 -> n = length l2 -> array_ref (l1 ++ l2 ++ l3) off n = l2.
Proof.
  intros -> ->. unfold array_ref. rewrite drop_app_length. by rewrite take_app_length.
Qed.

Lemma array_ref_head l1 l2 n : n = length l1 -> array_ref (l1 ++ l2) 0 n = l1.
Proof. intros ->. apply take_app_length. Qed.

Lemma get_range_some data off n l :
  get_range data off n = Some l <-> (off + n <= length data)%nat /\ l = array_ref data off n.
Proof.
  unfold get_range. destruct (Nat.leb_spec (off + n) (length data)).
  - split; [intros; simplify_eq; auto|]. by intros [_ ->].
  - split; [done|]. lia.
Qed.

(* ------------------------------------------------------------------ *)
(** ** What the attestor and the client build *)

(** The attestation with the given fields, as the module's tests build it. *)
Definition build_attestation (att_type market_id ts nonce : Z) (payload : list Z) : list Z :=
  ATTESTATION_MAGIC ++ [att_type; 0; 0; 0] ++ be_bytes 32 market_id ++ le_bytes 8 ts ++
    le_bytes 8 nonce ++ take 48 payload ++ replicate (48 - length payload) 0.

(** The data of the precompile instruction over one message in the same instruction. *)
Definition ed25519_header (msg_len : Z) : list Z :=
  [1; 0] ++ le_bytes 2 16 ++ le_bytes 2 U16_MAX ++ le_bytes 2 (16 + 64) ++
    le_bytes 2 U16_MAX ++ le_bytes 2 (16 + 64 + 32) ++ le_bytes 2 msg_len ++
    le_bytes 2 U16_MAX.
Definition build_ed25519_ix_data (pubkey : Pubkey) (sig msg : list Z) : list Z :=
  ed25519_header (Z.of_nat (length msg)) ++ sig ++ be_bytes 32 pubkey ++ msg.

(** The payload of a liquidation attestation. *)
Definition liquidation_payload (pmlc mark_fp ts : Z) : list Z :=
  be_bytes 32 pmlc ++ le_bytes 8 mark_fp ++ le_bytes 8 ts.

Lemma length_build_attestation t m ts n p :
  length (build_attestation t m ts n p) = ATTESTATION_LEN.
Proof.
  unfold build_attestation. rewrite !length_app, !length_le_bytes, length_be_bytes,
    length_take, length_replicate. unfold ATTESTATION_MAGIC, ATTESTATION_LEN. cbn [length]. lia.
Qed.

(** Every field sits where the accessors look for it. *)
Lemma build_attestation_layout t m ts n p :
  length p = 48%nat ->
  exists a, a.(att_bytes) = build_attestation t m ts n p /\
    parse (build_attestation t m ts n p) = Ok a /\
    attestation_type a = t /\ array_ref a.(att_bytes) 8 32 = be_bytes 32 m /\
    array_ref a.(att_bytes) 40 8 = le_bytes 8 ts /\
    array_ref a.(att_bytes) 48 8 = le_bytes 8 n /\
    forall off k, (off + k <= 48)%nat ->
      array_ref a.(att_bytes) (56 + off) k = array_ref p off k.
Proof.
  intros Hp. eexists {| att_bytes := _ |}. split; [reflexivity|]. split.
  { unfold parse. rewrite length_build_attestation. cbn [negb Nat.eqb ATTESTATION_LEN].
    rewrite Nat.eqb_refl. reflexivity. }
  split; [reflexivity|]. cbn [att_bytes]. unfold build_attestation.
  split; [by apply (array_ref_app (ATTESTATION_MAGIC ++ [t; 0; 0; 0])); rewrite ?length_be_bytes|].
  split.
  { rewrite !(assoc_L (++)), <- !(assoc_L (++)).
    rewrite (assoc_L (++) ATTESTATION_MAGIC), (assoc_L (++) (ATTESTATION_MAGIC ++ _)).
    apply array_ref_app; [|by rewrite length_le_bytes].
    rewrite !length_app, length_be_bytes. reflexivity. }
  rewrite (assoc_L (++) ATTESTATION_MAGIC), (assoc_L (++) (ATTESTATION_MAGIC ++ _)),
    (assoc_L (++) ((ATTESTATION_MAGIC ++ _) ++ _)).
  split.
  { apply array_ref_app; [|by rewrite length_le_bytes].
    rewrite !length_app, length_be_bytes, length_le_bytes. reflexivity. }
  intros off k Hk. rewrite (assoc_L (++) (((ATTESTATION_MAGIC ++ _) ++ _) ++ _)).
  unfold array_ref. rewrite <- drop_drop.
  rewrite drop_app_length' by (rewrite !length_app, length_be_bytes, !length_le_bytes; reflexivity).
  rewrite (take_ge p) by lia. rewrite Hp. cbn [Nat.sub replicate]. by rewrite app_nil_r.
Qed.

Lemma extract_ok data pk msg :
  extract_verified_ed25519_message data pk = Ok msg <->
  (16 <= length data)%nat /\ byte_at data 0 = 1 /\ byte_at data 1 = 0 /\
  u16_at data 4 = U16_MAX /\ u16_at data 8 = U16_MAX /\ u16_at data 14 = U16_MAX /\
  (exists key, get_range data (Z.to_nat (u16_at data 6)) 32 = Some key /\ be_num key = pk) /\
  is_Some (get_range data (Z.to_nat (u16_at data 2)) 64) /\
  get_range data (Z.to_nat (u16_at data 10)) (Z.to_nat (u16_at data 12)) = Some msg /\
  length msg = ATTESTATION_LEN.
Proof.
  unfold extract_verified_ed25519_message.
  destruct (Nat.ltb_spec (length data) 16); [split; [done|lia]|].
  destruct (Z.eqb_spec (byte_at data 0) 1), (Z.eqb_spec (byte_at data 1) 0); cbn [negb orb];
    try (split; [done|naive_solver]).
  destruct (Z.eqb_spec (u16_at data 4) U16_MAX), (Z.eqb_spec (u16_at data 8) U16_MAX),
    (Z.eqb_spec (u16_at data 14) U16_MAX); cbn [negb orb]; try (split; [done|naive_solver]).
  destruct (get_range data (Z.to_nat (u16_at data 6)) 32) as [key|]; cbn -[u16_at ATTESTATION_LEN];
    [|split; [done|naive_solver]].
  destruct (get_range data (Z.to_nat (u16_at data 2)) 64) as [sig|]; cbn -[u16_at ATTESTATION_LEN];
    [|split; [done|intros (_ & _ & _ & _ & _ & _ & _ & [? ?] & _); done]].
  destruct (get_range data (Z.to_nat (u16_at data 10)) (Z.to_nat (u16_at data 12))) as [m|]; cbn -[u16_at ATTESTATION_LEN];
    [|split; [done|naive_solver]].
  destruct (Z.eqb_spec (be_num key) pk); cbn [negb]; [|split; [done|naive_solver]].
  destruct (Nat.eqb_spec (length m) ATTESTATION_LEN); cbn [negb]; [|split; [done|naive_solver]].
  split; [intros [= ->]; split_and!; eauto | naive_solver].
Qed.

Lemma u16_le_bytes x : 0 <= x <= U16_MAX -> le_num (le_bytes 2 x) = x.
Proof. intros. apply le_num_small. mlia. Qed.

(** The header the client builds points at its own three fields. *)
Lemma build_ed25519_layout pk sig msg :
  length sig = 64%nat -> Z.of_nat (length msg) <= U16_MAX ->
  let data := build_ed25519_ix_data pk sig msg in
  u16_at data 2 = 16 /\ u16_at data 4 = U16_MAX /\ u16_at data 6 = 80 /\
  u16_at data 8 = U16_MAX /\ u16_at data 10 = 112 /\
  u16_at data 12 = Z.of_nat (length msg) /\ u16_at data 14 = U16_MAX /\
  get_range data 16 64 = Some sig /\ get_range data 80 32 = Some (be_bytes 32 pk) /\
  get_range data 112 (length msg) = Some msg.
Proof.
  intros Hsig Hmsg data. set (hdr := ed25519_header (Z.of_nat (length msg))).
  assert (Hlen : length data = (112 + length msg)%nat).
  { unfold data, build_ed25519_ix_data. rewrite !length_app, length_be_bytes, Hsig. cbn. lia. }
  split_and!; try reflexivity.
  - change (u16_at data 12) with (le_num (le_bytes 2 (Z.of_nat (length msg)))).
    apply u16_le_bytes. lia.
  - apply get_range_some. split; [lia|]. symmetry. by apply (array_ref_app hdr).
  - apply get_range_some. split; [lia|]. symmetry. unfold data, build_ed25519_ix_data.
    rewrite (assoc_L (++)).
    apply array_ref_app; rewrite ?length_app, ?length_be_bytes, ?Hsig; reflexivity.
  - apply get_range_some. split; [lia|]. symmetry. unfold data, build_ed25519_ix_data.
    rewrite !(assoc_L (++)), <- (app_nil_r (_ ++ msg)), <- (assoc_L (++) _ msg []).
    apply array_ref_app; rewrite ?length_app, ?length_be_bytes, ?Hsig; reflexivity.
Qed.

(* ------------------------------------------------------------------ *)
(** ** Properties *)

(** C37: the precompile gate accepts exactly the instructions of the Ed25519 program
    whose single signature, key and message all lie in that same instruction, whose key
    is the expected one and whose message has the 104 bytes of an attestation; what it
    returns is that message. Everything else is refused. *)
Theorem ed25519_gate_exact ix pk msg :
  verify_via_ed25519_sysvar ix pk = Ok msg <->
  exists data, ix = Some {| ix_program_id := ED25519_PROGRAM_ID; ix_data := data |} /\
    (16 <= length data)%nat /\ byte_at data 0 = 1 /\ byte_at data 1 = 0 /\
    u16_at data 4 = U16_MAX /\ u16_at data 8 = U16_MAX /\ u16_at data 14 = U16_MAX /\
    (exists key, get_range data (Z.to_nat (u16_at data 6)) 32 = Some key /\ be_num key = pk) /\
    is_Some (get_range data (Z.to_nat (u16_at data 2)) 64) /\
    get_range data (Z.to_nat (u16_at data 10)) (Z.to_nat (u16_at data 12)) = Some msg /\
    length msg = 104%nat.
Proof.
  destruct ix as [[prog data]|]; [|split; [done|naive_solver]].
  unfold verify_via_ed25519_sysvar. cbn [opt_ok_or mbind Res_bind ix_program_id ix_data].
  destruct (Z.eqb_spec prog ED25519_PROGRAM_ID) as [->|]; cbn [negb];
    [|split; [done|naive_solver]].
  rewrite extract_ok. split; [eauto|]. intros (d & [= ->] & H). exact H.
Qed.

(** C38: the instruction a client builds over an attestation is accepted under the
    attestor's key with the attestation itself, refused as Ed25519PubkeyMismatch under
    every other key, and refused outright when another program carries it. *)
Theorem ed25519_roundtrip pk pk' sig t m ts n payload :
  length sig = 64%nat -> 0 <= pk < 256 ^ 32 ->
  let msg := build_attestation t m ts n payload in
  let data := build_ed25519_ix_data pk sig msg in
  verify_via_ed25519_sysvar (Some {| ix_program_id := ED25519_PROGRAM_ID; ix_data := data |}) pk' =
    (if pk =? pk' then Ok msg else Err Ed25519PubkeyMismatch) /\
  forall prog, prog <> ED25519_PROGRAM_ID ->
    verify_via_ed25519_sysvar (Some {| ix_program_id := prog; ix_data := data |}) pk' =
      Err MissingEd25519Verify.
Proof.
  intros Hsig Hpk msg data. split.
  - assert (Hlen : length msg = ATTESTATION_LEN) by apply length_build_attestation.
    destruct (build_ed25519_layout pk sig msg Hsig) as
      (H2 & H4 & H6 & H8 & H10 & H12 & H14 & Hs & Hk & Hm).
    { rewrite Hlen. discriminate. }
    fold data in H2, H4, H6, H8, H10, H12, H14, Hs, Hk, Hm.
    unfold verify_via_ed25519_sysvar. cbn [opt_ok_or mbind Res_bind ix_program_id ix_data].
    rewrite Z.eqb_refl. cbn [negb]. unfold extract_verified_ed25519_message.
    rewrite H2, H4, H6, H8, H10, H12, H14, Nat2Z.id.
    change (length data <? 16)%nat with false. change (byte_at data 0) with 1.
    change (byte_at data 1) with 0. cbn [Z.eqb Pos.eqb negb orb].
    change (Z.to_nat 16) with 16%nat. change (Z.to_nat 80) with 80%nat.
    change (Z.to_nat 112) with 112%nat. rewrite Z.eqb_refl, Hs, Hk, Hm.
    cbn [negb orb opt_ok_or mbind Res_bind]. rewrite be_num_small by done.
    rewrite Hlen, Nat.eqb_refl. by destruct (pk =? pk').
  - intros prog Hne. unfold verify_via_ed25519_sysvar. cbn [opt_ok_or mbind Res_bind ix_program_id].
    by rewrite (proj2 (Z.eqb_neq _ _)) by done.
Qed.

Lemma ed25519_roundtrip_witness :
  verify_via_ed25519_sysvar
    (Some {| ix_program_id := ED25519_PROGRAM_ID;
             ix_data := build_ed25519_ix_data 7 (replicate 64 9) (build_attestation 2 5 1000 3 []) |}) 7 =
  Ok (build_attestation 2 5 1000 3 []).
Proof.
  destruct (ed25519_roundtrip 7 7 (replicate 64 9) 2 5 1000 3 []) as [H _];
    [reflexivity|split; [discriminate|reflexivity]|exact H].
Defined.

(** An attestation read back through the accessors gives the fields it was built
    from: the market, the timestamp and the nonce, and, for a liquidation, the
    contract, the mark and the breach time; the price and outcome accessors refuse it. *)
Theorem attestation_roundtrip m ts n pmlc mark breach :
  0 <= m < 256 ^ 32 -> is_u64 ts -> is_u64 n -> 0 <= pmlc < 256 ^ 32 -> is_u64 mark ->
  I64_MIN <= breach <= I64_MAX ->
  exists a, parse (build_attestation ATT_TYPE_HISTORICAL_LIQUIDATION m ts n
      (liquidation_payload pmlc mark (as_u 64 breach))) = Ok a /\
    market_id a = m /\ timestamp a = ts /\ nonce a = n /\
    breach_pmlc_pubkey a = Ok pmlc /\ breach_mark_fp a = Ok mark /\
    breach_unix_ts a = Ok breach /\
    price_fp a = Err AttestationWrongType /\
    att_twap_window_slots a = Err AttestationWrongType /\
    att_final_outcome_bps a = Err AttestationWrongType.
Proof.
  intros Hm Hts Hn Hp Hk Hb. set (payload := liquidation_payload pmlc mark (as_u 64 breach)).
  destruct (build_attestation_layout ATT_TYPE_HISTORICAL_LIQUIDATION m ts n payload)
    as (a & _ & Hparse & Ht & Hm' & Hts' & Hn' & Hf).
  { unfold payload, liquidation_payload. by rewrite !length_app, length_be_bytes, !length_le_bytes. }
  exists a. split; [done|]. unfold market_id, timestamp, nonce. rewrite Hm', Hts', Hn'.
  rewrite be_num_small, !le_num_small by (try done; mlia).
  do 3 (split; [done|]).
  unfold breach_pmlc_pubkey, breach_mark_fp, breach_unix_ts, price_fp, att_twap_window_slots,
    att_final_outcome_bps, require_type. rewrite Ht. cbn [negb Z.eqb Pos.eqb mbind Res_bind
    ATT_TYPE_HISTORICAL_LIQUIDATION ATT_TYPE_PRICE_TWAP ATT_TYPE_RESOLUTION].
  change ATTESTATION_PAYLOAD_OFFSET with (56 + 0)%nat at 1. rewrite !Hf by lia.
  unfold payload, liquidation_payload. split_and!; try done.
  - rewrite array_ref_head by (by rewrite length_be_bytes). by rewrite be_num_small.
  - rewrite array_ref_app; [|by rewrite length_be_bytes|by rewrite length_le_bytes].
    by rewrite le_num_small by mlia.
  - rewrite (assoc_L (++)), <- (app_nil_r (le_bytes 8 (as_u 64 breach))).
    rewrite array_ref_app; [|by rewrite length_app, length_be_bytes, length_le_bytes|
      by rewrite length_le_bytes].
    unfold i64_from_le. rewrite le_num_small by (apply Z.mod_pos_bound; lia).
    f_equal. by apply as_i_as_u.
Qed.

Lemma attestation_roundtrip_witness :
  exists a, parse (build_attestation 3 77 1700000005 42
      (liquidation_payload 171 123456789 (as_u 64 (-1)))) = Ok a /\
    breach_pmlc_pubkey a = Ok 171 /\ breach_unix_ts a = Ok (-1).
Proof.
  destruct (attestation_roundtrip 77 1700000005 42 171 123456789 (-1))
    as (a & Hp & _ & _ & _ & Hpm & _ & Hb & _); try (split; [discriminate|try discriminate]);
    try reflexivity.
  exists a. split; [exact Hp|]. split; [exact Hpm|exact Hb].
Defined.
