(* ===== verification/World.v ===== *)
(** * Accounts and the runtime

    The accounts an instruction works on, read through the structs of [src/state/], the
    helpers of [src/utils.rs] and [src/seeds.rs], and the interface to the Solana
    runtime and the programs it calls. The runtime is a parameter ([Runtime]); what the
    handlers rely on is stated as laws ([RuntimeLaws]). *)
From S2P Require Import Prelude IntentBook Ledger Governance Attestation.

(* ------------------------------------------------------------------ *)
(** ** Addresses and seeds *)

Definition SYSTEM_PROGRAM_ID : Pubkey := 0.
(** [TokenkegQfeZyiNwAJbNbGKPFXCWuBvf9Ss623VQ5DA] *)
Definition SPL_TOKEN_ID : Pubkey :=
  3106054211088883198575105191760876350940303353676611666299516346430146937001.
(** [Sysvar1nstructions1111111111111111111111111] *)
Definition SYSVAR_INSTRUCTIONS_ID : Pubkey :=
  3010411245946659004650937024412888917526102981211644260807408457663811420160.

(** The seed strings, as bytes. *)
Definition SEED_CONFIG : list Z := [99; 111; 110; 102; 105; 103].
Definition SEED_MARGIN : list Z := [109; 97; 114; 103; 105; 110].
Definition SEED_VAULT : list Z := [118; 97; 117; 108; 116].
Definition SEED_INSTRUMENT : list Z := [105; 110; 115; 116; 114].
Definition SEED_BOOK : list Z := [98; 111; 111; 107].
Definition SEED_PMLC : list Z := [112; 109; 108; 99].
Definition SEED_FEE_SCHEDULE : list Z := [102; 101; 101; 95; 115; 99; 104; 101; 100; 117; 108; 101].
Definition SEED_USER_VOLUME : list Z := [118; 111; 108; 117; 109; 101].
Definition SEED_TREASURY : list Z := [116; 114; 101; 97; 115; 117; 114; 121].
Definition SEED_MARKET_NONCE : list Z := [110; 111; 110; 99; 101].
Definition SEED_TIMELOCK : list Z := [116; 105; 109; 101; 108; 111; 99; 107].
Definition SEED_ADMIN_MULTISIG : list Z :=
  [97; 100; 109; 105; 110; 95; 109; 117; 108; 116; 105; 115; 105; 103].
Definition SEED_BUCKET_REGISTRY : list Z :=
  [98; 117; 99; 107; 101; 116; 95; 114; 101; 103; 105; 115; 116; 114; 121].
Definition SEED_STABLECOIN_REGISTRY : list Z :=
  [115; 116; 97; 98; 108; 101; 99; 111; 105; 110; 95; 114; 101; 103; 105; 115; 116; 114; 121].
Definition SEED_WUSD_MINT : list Z := [119; 117; 115; 100; 95; 109; 105; 110; 116].
Definition SEED_WUSD_AUTHORITY : list Z :=
  [119; 117; 115; 100; 95; 97; 117; 116; 104; 111; 114; 105; 116; 121].
Definition SEED_SESSION : list Z := [115; 101; 115; 115; 105; 111; 110].

(** [key.as_ref()], [u64::to_le_bytes] and [u32::to_le_bytes] as seeds. *)
Definition key_seed (k : Pubkey) : list Z := be_bytes 32 k.
Definition u64_seed (x : Z) : list Z := le_bytes 8 x.
Definition u32_seed (x : Z) : list Z := le_bytes 4 x.

(* ------------------------------------------------------------------ *)
(** ** Accounts *)

(** The data of an account: one of the program's structs, or raw bytes for the
    accounts of other programs, fresh accounts and closed ones. *)
Inductive AccountData :=
| DConfig (v : ProgramConfig)
| DMargin (v : MarginAccount)
| DInstrument (v : InstrumentConfig)
| DBook (v : Book)
| DPmlc (v : Pmlc)
| DNonce (v : MarketNonceAccount)
| DFeeSchedule (v : FeeSchedule)
| DVolume (v : UserVolume)
| DTreasury (v : FeeTreasury)
| DTimelock (v : TimelockProposal)
| DMultisig (v : AdminMultisig)
| DBuckets (v : BucketRegistry)
| DStables (v : StablecoinRegistry)
| DSession (v : Session)
| DBytes (bs : list Z).

Record Account := { acc_owner : Pubkey; acc_lamports : Z; acc_data : AccountData }.

Definition zeros (n : Z) : AccountData := DBytes (replicate (Z.to_nat n) 0).
Definition no_account : Account :=
  {| acc_owner := SYSTEM_PROGRAM_ID; acc_lamports := 0; acc_data := DBytes [] |}.

(** The accounts by key; an address nobody created is empty and the system's. *)
Abbreviation World := (gmap Pubkey Account).

Definition acct (w : World) (k : Pubkey) : Account := default no_account (w !! k).

Definition with_data (a : Account) (d : AccountData) : Account :=
  {| acc_owner := a.(acc_owner); acc_lamports := a.(acc_lamports); acc_data := d |}.
Definition set_data (k : Pubkey) (d : AccountData) (w : World) : World :=
  <[k := with_data (acct w k) d]> w.

Definition data_len (d : AccountData) : Z :=
  match d with
  | DConfig _ => PROGRAM_CONFIG_LEN
  | DMargin _ => MARGIN_ACCOUNT_LEN
  | DInstrument _ => INSTRUMENT_CONFIG_LEN
  | DBook b => intent_book_byte_size (Z.of_nat (length b.(nodes)))
  | DPmlc _ => PMLC_LEN
  | DNonce _ => MARKET_NONCE_LEN
  | DFeeSchedule _ => FEE_SCHEDULE_LEN
  | DVolume _ => USER_VOLUME_LEN
  | DTreasury _ => FEE_TREASURY_LEN
  | DTimelock _ => TIMELOCK_PROPOSAL_LEN
  | DMultisig _ => ADMIN_MULTISIG_LEN
  | DBuckets _ => BUCKET_REGISTRY_LEN
  | DStables _ => STABLECOIN_REGISTRY_LEN
  | DSession _ => SESSION_LEN
  | DBytes bs => Z.of_nat (length bs)
  end.

(** [data[0]], the discriminator of the program's structs. *)
Definition disc (d : AccountData) : option Z :=
  match d with
  | DConfig _ => Some 1 | DMargin _ => Some 2 | DInstrument _ => Some 3 | DBook _ => Some 4
  | DPmlc _ => Some 5 | DNonce _ => Some 8 | DFeeSchedule _ => Some 10 | DVolume _ => Some 11
  | DTreasury _ => Some 12 | DTimelock _ => Some 13 | DMultisig _ => Some 14
  | DBuckets _ => Some 15 | DStables _ => Some 16 | DSession _ => Some 17
  | DBytes bs => head bs
  end.

(* ------------------------------------------------------------------ *)
(** ** The account types

    What the [load], [load_mut] and [init] of each struct in [src/state/] share: the
    exact length, the discriminator and the error of a wrong one. *)
Class AccountType (T : Type) := {
  len_ok : Z -> bool;
  inj : T -> AccountData;
  proj : AccountData -> option T;
  wrong_disc : PolyleverageError;
  proj_inj v : proj (inj v) = Some v;
  inj_proj d v : proj d = Some v -> d = inj v;
  proj_len d v : proj d = Some v -> len_ok (data_len d) = true;
}.

Ltac account_type :=
  first [reflexivity
        | intros []; cbn; intros ?; congruence
        | intros []; cbn; intros ?; solve [discriminate | intros; reflexivity]].

#[export, refine] Instance config_type : AccountType ProgramConfig := {|
  len_ok := Z.eqb PROGRAM_CONFIG_LEN; inj := DConfig;
  proj d := match d with DConfig v => Some v | _ => None end;
  wrong_disc := InvalidProgramConfig |}.
Proof. all: account_type. Defined.
#[export, refine] Instance margin_type : AccountType MarginAccount := {|
  len_ok := Z.eqb MARGIN_ACCOUNT_LEN; inj := DMargin;
  proj d := match d with DMargin v => Some v | _ => None end;
  wrong_disc := NotInitialized |}.
Proof. all: account_type. Defined.
#[export, refine] Instance instrument_type : AccountType InstrumentConfig := {|
  len_ok := Z.eqb INSTRUMENT_CONFIG_LEN; inj := DInstrument;
  proj d := match d with DInstrument v => Some v | _ => None end;
  wrong_disc := NotInitialized |}.
Proof. all: account_type. Defined.
(** A book's length varies: only the header must fit. *)
#[export, refine] Instance book_type : AccountType Book := {|
  len_ok l := INTENT_BOOK_HEADER_LEN <=? l; inj := DBook;
  proj d := match d with DBook v => Some v | _ => None end;
  wrong_disc := NotInitialized |}.
Proof.
  1, 2: account_type.
  intros [] ?; cbn; intros [= <-]. apply Z.leb_le.
  unfold intent_book_byte_size, NODE_SIZE. lia.
Defined.
#[export, refine] Instance pmlc_type : AccountType Pmlc := {|
  len_ok := Z.eqb PMLC_LEN; inj := DPmlc;
  proj d := match d with DPmlc v => Some v | _ => None end;
  wrong_disc := NotInitialized |}.
Proof. all: account_type. Defined.
#[export, refine] Instance nonce_type : AccountType MarketNonceAccount := {|
  len_ok := Z.eqb MARKET_NONCE_LEN; inj := DNonce;
  proj d := match d with DNonce v => Some v | _ => None end;
  wrong_disc := NotInitialized |}.
Proof. all: account_type. Defined.
#[export, refine] Instance fee_schedule_type : AccountType FeeSchedule := {|
  len_ok := Z.eqb FEE_SCHEDULE_LEN; inj := DFeeSchedule;
  proj d := match d with DFeeSchedule v => Some v | _ => None end;
  wrong_disc := FeeScheduleNotInitialized |}.
Proof. all: account_type. Defined.
#[export, refine] Instance volume_type : AccountType UserVolume := {|
  len_ok := Z.eqb USER_VOLUME_LEN; inj := DVolume;
  proj d := match d with DVolume v => Some v | _ => None end;
  wrong_disc := NotInitialized |}.
Proof. all: account_type. Defined.
#[export, refine] Instance treasury_type : AccountType FeeTreasury := {|
  len_ok := Z.eqb FEE_TREASURY_LEN; inj := DTreasury;
  proj d := match d with DTreasury v => Some v | _ => None end;
  wrong_disc := NotInitialized |}.
Proof. all: account_type. Defined.
#[export, refine] Instance timelock_type : AccountType TimelockProposal := {|
  len_ok := Z.eqb TIMELOCK_PROPOSAL_LEN; inj := DTimelock;
  proj d := match d with DTimelock v => Some v | _ => None end;
  wrong_disc := NotInitialized |}.
Proof. all: account_type. Defined.
#[export, refine] Instance multisig_type : AccountType AdminMultisig := {|
  len_ok := Z.eqb ADMIN_MULTISIG_LEN; inj := DMultisig;
  proj d := match d with DMultisig v => Some v | _ => None end;
  wrong_disc := NotInitialized |}.
Proof. all: account_type. Defined.
#[export, refine] Instance buckets_type : AccountType BucketRegistry := {|
  len_ok := Z.eqb BUCKET_REGISTRY_LEN; inj := DBuckets;
  proj d := match d with DBuckets v => Some v | _ => None end;
  wrong_disc := NotInitialized |}.
Proof. all: account_type. Defined.
#[export, refine] Instance stables_type : AccountType StablecoinRegistry := {|
  len_ok := Z.eqb STABLECOIN_REGISTRY_LEN; inj := DStables;
  proj d := match d with DStables v => Some v | _ => None end;
  wrong_disc := NotInitialized |}.
Proof. all: account_type. Defined.
#[export, refine] Instance session_type : AccountType Session := {|
  len_ok := Z.eqb SESSION_LEN; inj := DSession;
  proj d := match d with DSession v => Some v | _ => None end;
  wrong_disc := NotInitialized |}.
Proof. all: account_type. Defined.

(* ------------------------------------------------------------------ *)
(** ** The runtime *)

(** The calls the program makes into other programs. *)
Inductive Cpi :=
| CreateAccount (from to : Pubkey) (lamports space : Z) (owner : Pubkey)
| TransferLamports (from to : Pubkey) (lamports : Z)
| TokenTransfer (source destination authority : Pubkey) (amount : Z)
| TokenMintTo (mint account authority : Pubkey) (amount : Z)
| TokenBurn (account mint authority : Pubkey) (amount : Z)
| InitializeMint2 (mint mint_authority : Pubkey) (freeze_authority : option Pubkey) (decimals : Z).

(** The fields of an SPL token account the program reads. *)
Record TokenAccount := { ta_mint : Pubkey; ta_owner : Pubkey; ta_amount : Z }.

(** What the program gets from [solana_program], [spl_token] and
    [spl_associated_token_account]. Addresses are derived under the program's own id.
    [invoke] is [None] when the called program fails. *)
Class Runtime := {
  program_id : Pubkey;
  find_program_address : list (list Z) -> Pubkey * Z;
  get_associated_token_address : Pubkey -> Pubkey -> Pubkey;
  unpack_token_account : list Z -> Res TokenAccount;
  unpack_mint_decimals : list Z -> Res Z;
  minimum_balance : Z -> Z;
  clock_slot : Z;
  clock_unix_timestamp : Z;
  load_instruction_at : Z -> option Instruction;
  invoke : Cpi -> list (list Z) -> World -> option World;
}.

(** Documented behaviour of the called programs: the system program creates only
    its own accounts without data, zeroed and with the requested owner; no call touches the
    data or the owner of an account that belongs to neither the system program nor the
    token program, and the token program writes its own layouts only. *)
Class RuntimeLaws `{Runtime} := {
  create_fresh from to lam space owner seeds w w' :
    invoke (CreateAccount from to lam space owner) seeds w = Some w' ->
    (acct w to).(acc_owner) = SYSTEM_PROGRAM_ID /\ data_len (acct w to).(acc_data) = 0 /\
    (acct w' to).(acc_data) = zeros space /\ (acct w' to).(acc_owner) = owner;
  create_frame from to lam space owner seeds w w' k :
    invoke (CreateAccount from to lam space owner) seeds w = Some w' -> k <> to ->
    (acct w' k).(acc_data) = (acct w k).(acc_data) /\
    (acct w' k).(acc_owner) = (acct w k).(acc_owner);
  transfer_frame from to lam seeds w w' k :
    invoke (TransferLamports from to lam) seeds w = Some w' ->
    (acct w' k).(acc_data) = (acct w k).(acc_data) /\
    (acct w' k).(acc_owner) = (acct w k).(acc_owner);
  token_frame c seeds w w' k :
    match c with
    | TokenTransfer _ _ _ _ | TokenMintTo _ _ _ _ | TokenBurn _ _ _ _
    | InitializeMint2 _ _ _ _ => True
    | _ => False
    end ->
    invoke c seeds w = Some w' ->
    (acct w' k).(acc_owner) = (acct w k).(acc_owner) /\
    ((acct w k).(acc_owner) <> SPL_TOKEN_ID ->
     (acct w' k).(acc_data) = (acct w k).(acc_data)) /\
    ((acct w k).(acc_owner) = SPL_TOKEN_ID ->
     (acct w' k).(acc_data) = (acct w k).(acc_data) \/
     exists bs, (acct w' k).(acc_data) = DBytes bs);
  program_not_token : program_id <> SPL_TOKEN_ID;
  program_not_system : program_id <> SYSTEM_PROGRAM_ID;
}.

(* ------------------------------------------------------------------ *)
(** ** What the handlers are made of *)

Section helpers.
Context {R : Runtime}.

(** [next_account_info(iter)?], by position. *)
Definition account (accounts : list AccountInfo) (i : nat) : M World AccountInfo :=
  ok_or (accounts !! i) NotEnoughAccountKeys.

Definition data_of (k : Pubkey) : M World AccountData := gets (fun w => (acct w k).(acc_data)).
Definition owner_of (k : Pubkey) : M World Pubkey := gets (fun w => (acct w k).(acc_owner)).

Definition assert_signer (ai : AccountInfo) : M World unit :=
  bail_if (negb ai.(is_signer)) MissingSigner.
Definition assert_writable (ai : AccountInfo) : M World unit :=
  bail_if (negb ai.(is_writable)) InvalidAccountData.

(** [if a.owner != program_id || b.owner != program_id .. { return Err(..) }] *)
Definition owned (w : World) (ai : AccountInfo) : bool :=
  (acct w ai.(key)).(acc_owner) =? program_id.
Definition assert_owned (ais : list AccountInfo) : M World unit :=
  w ← gets id; bail_if (negb (forallb (owned w) ais)) InvalidAccountOwner.

Definition assert_pda {S} (seeds : list (list Z)) (expected : Pubkey) : M S Z :=
  let '(derived, bump) := find_program_address seeds in
  bail_if (negb (derived =? expected)) InvalidPda;;
  mret bump.

(** [T::load(&ai.try_borrow_data()?)?] *)
Definition load (T : Type) `{AccountType T} (k : Pubkey) : M World T :=
  d ← data_of k;
  bail_if (negb (len_ok (data_len d))) AccountDataTooSmall;;
  ok_or (proj d) wrong_disc.

(** [let v = T::load_mut(&mut ai.try_borrow_mut_data()?)?; ..]: the computation on the
    loaded struct writes in place, up to the point where it fails. *)
Definition with_mut {T} `{AccountType T} {A} (k : Pubkey) (m : M T A) : M World A :=
  v ← load T k;
  fun w => let '(r, v') := m v in (r, set_data k (inj v') w).

(** [T::init] after its own validation: the length, then a zero discriminator. *)
Definition init_account {T} `{AccountType T} (k : Pubkey) (v : T) : M World unit :=
  d ← data_of k;
  bail_if (negb (len_ok (data_len d))) AccountDataTooSmall;;
  bail_if (negb (bool_decide (disc d = Some 0))) AlreadyInitialized;;
  modify (set_data k (inj v)).

(** [*bytemuck::from_bytes_mut(&mut data[..LEN]) = v]: a slice out of range panics. *)
Definition overwrite {T} `{AccountType T} (k : Pubkey) (v : T) : M World unit :=
  d ← data_of k;
  if negb (len_ok (data_len d)) then panic else modify (set_data k (inj v)).

(** A failed call ends the transaction: no caller sees it as an error value. *)
Definition invoke_signed (c : Cpi) (seeds : list (list Z)) : M World unit := fun w =>
  match invoke c seeds w with
  | Some w' => (Ok tt, w')
  | None => (Panic, w)
  end.

(** [invoke_signed(&create_account(payer, new, rent.minimum_balance(LEN), LEN, program_id))] *)
Definition create_pda (payer new : Pubkey) (space : Z) (seeds : list (list Z)) (bump : Z)
    : M World unit :=
  invoke_signed (CreateAccount payer new (minimum_balance space) space program_id)
    (seeds ++ [[bump]]).

(** [spl_token::state::Account::unpack_from_slice(&data)?]; the program's own structs
    are no token accounts. *)
Definition load_token (k : Pubkey) : M World TokenAccount :=
  d ← data_of k;
  match d with
  | DBytes bs => lift (unpack_token_account bs)
  | _ => fail InvalidAccountData
  end.

(** [load_instruction_at_checked(index, sysvar)] *)
Definition load_instruction_at_checked (index : Z) (sysvar : AccountInfo) : option Instruction :=
  if sysvar.(key) =? SYSVAR_INSTRUCTIONS_ID then load_instruction_at index else None.

(** [Clock::get()?.unix_timestamp.max(0) as u64] *)
Definition now_unix : Z := as_u 64 (Z.max clock_unix_timestamp 0).

(** [MarginAccount] at the PDA of its owner and mint ([validate_margin_pda] of
    [settlement.rs] and [close_prune.rs], and the inline checks of [match_pair_core]). *)
Definition validate_margin_pda (margin : Pubkey) (owner mint : Pubkey) : M World unit :=
  bump ← assert_pda [SEED_MARGIN; key_seed owner; key_seed mint] margin;
  m ← load MarginAccount margin;
  bail_if (negb (m.(ma_owner) =? owner) || negb (m.(ma_collateral_mint) =? mint)
           || negb (m.(ma_bump) =? bump)) InvalidPda.

(** [if m.owner != owner || m.collateral_mint != mint || m.bump != bump { return Err(..) }]
    on the loaded margin account. *)
Definition check_margin (owner mint bump : Z) : M MarginAccount unit :=
  m ← gets id;
  bail_if (negb (m.(ma_owner) =? owner) || negb (m.(ma_collateral_mint) =? mint)
           || negb (m.(ma_bump) =? bump)) InvalidPda.
End helpers.

(* ------------------------------------------------------------------ *)
(** ** Lemmas *)

Lemma acct_set_eq k d w : acct (set_data k d w) k = with_data (acct w k) d.
Proof. unfold acct, set_data. by rewrite lookup_insert_eq. Qed.
Lemma acct_set_ne k k' d w : k <> k' -> acct (set_data k d w) k' = acct w k'.
Proof. intros. unfold acct, set_data. by rewrite lookup_insert_ne. Qed.
Lemma owner_set k k' d w : (acct (set_data k d w) k').(acc_owner) = (acct w k').(acc_owner).
Proof.
  destruct (decide (k = k')) as [->|]; [by rewrite acct_set_eq|by rewrite acct_set_ne].
Qed.

Lemma acct_insert_eq k a w : acct (<[k := a]> w) k = a.
Proof. unfold acct. by rewrite lookup_insert_eq. Qed.
Lemma acct_insert_ne k k' a w : k <> k' -> acct (<[k := a]> w) k' = acct w k'.
Proof. intros. unfold acct. by rewrite lookup_insert_ne. Qed.

Section helper_lemmas.
Context {R : Runtime}.

Lemma load_ok_inv `{AccountType T} k w w' v :
  load T k w = (Ok v, w') -> w' = w /\ (acct w k).(acc_data) = inj v.
Proof.
  unfold load, data_of. intros Hr. inv_ok. split; [done|]. by apply inj_proj.
Qed.

Lemma load_ok `{AccountType T} k w v :
  (acct w k).(acc_data) = inj v -> load T k w = (Ok v, w).
Proof.
  intros E. unfold load, data_of. rewrite (bind_ok _ _ w (inj v) w).
  - rewrite (proj_len (inj v) v) by apply proj_inj. cbn. unfold ok_or. by rewrite proj_inj.
  - unfold gets. by rewrite E.
Qed.

Lemma with_mut_ok_inv `{AccountType T} {A} k (m : M T A) w w' a :
  with_mut k m w = (Ok a, w') ->
  exists v v', (acct w k).(acc_data) = inj v /\ m v = (Ok a, v') /\ w' = set_data k (inj v') w.
Proof.
  unfold with_mut. intros (v & w1 & Hl & Hm)%bind_ok_inv.
  apply load_ok_inv in Hl as [-> Hd]. destruct (m v) as [r v'] eqn:E. simplify_eq. eauto.
Qed.

(** The run of a computation on the loaded struct. *)
Lemma with_mut_run `{AccountType T} {A} k (m : M T A) w v r v' :
  (acct w k).(acc_data) = inj v -> m v = (r, v') -> with_mut k m w = (r, set_data k (inj v') w).
Proof.
  intros Hd E. unfold with_mut. rewrite (bind_ok _ _ w v w) by by apply load_ok. by rewrite E.
Qed.

Lemma assert_owned_ok_inv ais w w' u :
  assert_owned ais w = (Ok u, w') -> w' = w /\ forallb (owned w) ais = true.
Proof. unfold assert_owned. intros H. inv_ok. split; [done|]. by apply negb_false_iff. Qed.

Lemma assert_pda_ok_inv {S} seeds k (w w' : S) b :
  assert_pda seeds k w = (Ok b, w') -> w' = w /\ find_program_address seeds = (k, b).
Proof.
  unfold assert_pda. destruct (find_program_address seeds) as [d bump]. intros H. inv_ok.
  apply negb_false_iff, Z.eqb_eq in H0. by subst.
Qed.

Lemma invoke_signed_ok_inv c seeds w w' u :
  invoke_signed c seeds w = (Ok u, w') -> invoke c seeds w = Some w'.
Proof. unfold invoke_signed. by destruct (invoke c seeds w); intros; simplify_eq. Qed.
End helper_lemmas.
