(* ===== verification/Demo.v ===== *)
(** * A concrete runtime

    An instance of [Runtime] small enough to compute with, used by the witnesses: an address
    is a small polynomial hash of its seed bytes, the system and token programs do what
    their documentation says on the accounts named in the call. *)
From S2P Require Import Prelude Ledger Governance Attestation World.

Section demo.
Context (slot now : Z) (instructions : list Instruction).

Definition demo_hash (bs : list Z) : Z :=
  10000 + foldl (fun acc b => (acc * 257 + b + 1) mod 65521) 0 bs.

(** Token accounts in the SPL layout: mint, owner, amount. *)
Definition demo_token (bs : list Z) : Res TokenAccount :=
  if (length bs =? 165)%nat && in_u U64_MAX (le_num (take 8 (drop 64 bs))) then
    Ok {| ta_mint := be_num (take 32 bs); ta_owner := be_num (take 32 (drop 32 bs));
          ta_amount := le_num (take 8 (drop 64 bs)) |}
  else Err InvalidAccountData.
Definition demo_set_amount (bs : list Z) (amount : Z) : list Z :=
  take 64 bs ++ le_bytes 8 amount ++ drop 72 bs.

Definition demo_token_data (owner mint amount : Z) : AccountData :=
  DBytes (be_bytes 32 mint ++ be_bytes 32 owner ++ le_bytes 8 amount ++ replicate 93 0).

(** Add to the balance of a token account; [None] when it is none or the balance leaves
    the [u64] range. *)
Definition demo_add (k : Pubkey) (x : Z) (w : World) : option World :=
  if (acct w k).(acc_owner) =? SPL_TOKEN_ID then
    match (acct w k).(acc_data) with
    | DBytes bs =>
        match demo_token bs with
        | Ok t =>
            if in_u U64_MAX (t.(ta_amount) + x)
            then Some (set_data k (DBytes (demo_set_amount bs (t.(ta_amount) + x))) w)
            else None
        | _ => None
        end
    | _ => None
    end
  else None.

(** Take from it, as its owner. *)
Definition demo_take (k authority : Pubkey) (x : Z) (w : World) : option World :=
  match (acct w k).(acc_data) with
  | DBytes bs =>
      match demo_token bs with
      | Ok t => if (t.(ta_owner) =? authority) && in_u U64_MAX x then demo_add k (- x) w else None
      | _ => None
      end
  | _ => None
  end.

(** A mint: its supply, at byte 36 of 82. Add to it, within [u64]. *)
Definition demo_supply (bs : list Z) : option Z :=
  if (length bs =? 82)%nat then Some (le_num (take 8 (drop 36 bs))) else None.
Definition demo_issue (mint : Pubkey) (x : Z) (w : World) : option World :=
  if (acct w mint).(acc_owner) =? SPL_TOKEN_ID then
    match (acct w mint).(acc_data) with
    | DBytes bs =>
        match demo_supply bs with
        | Some n =>
            if in_u U64_MAX (n + x)
            then Some (set_data mint (DBytes (take 36 bs ++ le_bytes 8 (n + x) ++ drop 44 bs)) w)
            else None
        | None => None
        end
    | _ => None
    end
  else None.

Definition demo_invoke (c : Cpi) (seeds : list (list Z)) (w : World) : option World :=
  match c with
  | CreateAccount _ to lamports space owner =>
      if ((acct w to).(acc_owner) =? SYSTEM_PROGRAM_ID) && (data_len (acct w to).(acc_data) =? 0)
      then Some (<[to := {| acc_owner := owner; acc_lamports := lamports;
                            acc_data := zeros space |}]> w)
      else None
  | TransferLamports from to lamports =>
      Some (<[to := {| acc_owner := (acct w to).(acc_owner);
                       acc_lamports := (acct w to).(acc_lamports) + lamports;
                       acc_data := (acct w to).(acc_data) |}]> w)
  | TokenTransfer src dst authority amount => demo_take src authority amount w ≫= demo_add dst amount
  | TokenMintTo mint account _ amount =>
      if in_u U64_MAX amount then demo_add account amount w ≫= demo_issue mint amount else None
  | TokenBurn account mint authority amount =>
      demo_take account authority amount w ≫= demo_issue mint (- amount)
  | InitializeMint2 mint _ _ decimals =>
      match (acct w mint).(acc_data) with
      | DBytes bs =>
          if ((acct w mint).(acc_owner) =? SPL_TOKEN_ID) && (length bs =? 82)%nat
          then Some (set_data mint (DBytes (replicate 44 0 ++ [decimals] ++ replicate 37 0)) w)
          else None
      | _ => None
      end
  end.

Definition demo : Runtime := {|
  program_id := 77;
  find_program_address seeds := (demo_hash (concat seeds), 255);
  get_associated_token_address authority mint := authority + 2 * mint;
  unpack_token_account := demo_token;
  unpack_mint_decimals bs := opt_ok_or (bs !! 44%nat) InvalidAccountData;
  minimum_balance space := 890880 + 6960 * space;
  clock_slot := slot;
  clock_unix_timestamp := now;
  load_instruction_at i := instructions !! Z.to_nat i;
  invoke := demo_invoke |}.

(** What a token step leaves alone. *)
Definition token_framed (w w' : World) : Prop := forall k,
  (acct w' k).(acc_owner) = (acct w k).(acc_owner) /\
  ((acct w k).(acc_owner) <> SPL_TOKEN_ID -> (acct w' k).(acc_data) = (acct w k).(acc_data)) /\
  ((acct w k).(acc_owner) = SPL_TOKEN_ID ->
   (acct w' k).(acc_data) = (acct w k).(acc_data) \/
   exists bs, (acct w' k).(acc_data) = DBytes bs).

Lemma token_framed_set k bs w :
  (acct w k).(acc_owner) = SPL_TOKEN_ID -> token_framed w (set_data k (DBytes bs) w).
Proof.
  intros Ho k'. split; [apply owner_set|]. destruct (decide (k = k')) as [<-|Hk].
  - rewrite acct_set_eq. split; [done|]. intros _. right. by exists bs.
  - rewrite acct_set_ne by done. auto.
Qed.

Lemma token_framed_trans w1 w2 w3 : token_framed w1 w2 -> token_framed w2 w3 -> token_framed w1 w3.
Proof.
  intros H12 H23 k. destruct (H12 k) as (O1 & D1 & B1), (H23 k) as (O2 & D2 & B2).
  rewrite O1 in *. split_and!; [congruence|..].
  - intros Hn. rewrite D2, D1; done.
  - intros Ht. destruct (B2 Ht) as [->|?]; [|by right]. by apply B1.
Qed.

Lemma demo_add_framed k x w w' : demo_add k x w = Some w' -> token_framed w w'.
Proof.
  unfold demo_add. intros H. repeat case_match; simplify_eq. apply token_framed_set.
  by apply Z.eqb_eq.
Qed.
Lemma demo_take_some k a x w w' : demo_take k a x w = Some w' ->
  is_u64 x /\ demo_add k (- x) w = Some w' /\
  exists bs t, (acct w k).(acc_data) = DBytes bs /\ demo_token bs = Ok t /\ t.(ta_owner) = a.
Proof.
  unfold demo_take. intros H. repeat case_match; simplify_eq.
  match goal with H : _ && _ = true |- _ => apply andb_true_iff in H as [?%Z.eqb_eq ?%in_u_spec] end.
  split; [done|]. split; [done|]. do 2 eexists. split; [reflexivity|]. by split.
Qed.
Lemma demo_take_framed k a x w w' : demo_take k a x w = Some w' -> token_framed w w'.
Proof. intros (_ & H & _)%demo_take_some. by eapply demo_add_framed. Qed.

Lemma demo_issue_framed m x w w' : demo_issue m x w = Some w' -> token_framed w w'.
Proof.
  unfold demo_issue. intros H. repeat case_match; simplify_eq. apply token_framed_set. by apply Z.eqb_eq.
Qed.

#[refine] Instance demo_laws : @RuntimeLaws demo := {}.
Proof.
  all: cbn.
  - intros from to lam space owner seeds w w' H. case_match eqn:E; simplify_eq.
    apply andb_true_iff in E as [?%Z.eqb_eq ?%Z.eqb_eq]. by rewrite acct_insert_eq.
  - intros from to lam space owner seeds w w' k H Hk. case_match; simplify_eq.
    by rewrite acct_insert_ne.
  - intros from to lam seeds w w' k H. simplify_eq. destruct (decide (to = k)) as [->|].
    + by rewrite acct_insert_eq.
    + by rewrite acct_insert_ne.
  - intros c seeds w w' k Hc H. revert k. change (token_framed w w').
    destruct c; try done; cbn in H.
    + apply bind_Some in H as (w1 & H1 & H2).
      eapply token_framed_trans; [by eapply demo_take_framed|by eapply demo_add_framed].
    + case_match; [|done]. apply bind_Some in H as (w1 & H1 & H2).
      eapply token_framed_trans; [by eapply demo_add_framed|by eapply demo_issue_framed].
    + apply bind_Some in H as (w1 & H1 & H2).
      eapply token_framed_trans; [by eapply demo_take_framed|by eapply demo_issue_framed].
    + repeat case_match; simplify_eq. apply token_framed_set.
      match goal with E : _ && _ = true |- _ => by apply andb_true_iff in E as [E%Z.eqb_eq _] end.
  - done.
  - done.
Qed.
End demo.
