(* ===== verification/Footprint.v ===== *)
(** * Footprints: what a computation may do to its state, on every path

    [respects R m]: whatever [m] answers (a value, an error, a panic), it takes its state
    only along the preorder [R]. The rules follow the structure of the handlers, so that a
    property of the whole instruction set is proved from its few primitive writes. *)
From S2P Require Import Prelude IntentBook Ledger Governance Attestation World.

Definition respects {S A} (R : S -> S -> Prop) (m : M S A) : Prop :=
  forall s r s', m s = (r, s') -> R s s'.

Section rules.
Context {S : Type} (R : S -> S -> Prop) `{!PreOrder R}.

Lemma respects_bind {A B} (m : M S A) (f : A -> M S B) :
  respects R m -> (forall a s s1, m s = (Ok a, s1) -> respects R (f a)) ->
  respects R (m ≫= f).
Proof.
  intros Hm Hf s r s' E. unfold mbind, M_bind in E. destruct (m s) as [[a|e| |] s1] eqn:E1.
  - etrans; [by eapply Hm|by eapply Hf].
  - simplify_eq. by eapply Hm.
  - simplify_eq. by eapply Hm.
  - simplify_eq. by eapply Hm.
Qed.

Lemma respects_lift {A} (r : Res A) : respects R (lift r).
Proof. intros s r' s' [= _ <-]. done. Qed.
Lemma respects_fail {A} e : respects R (fail (A := A) e).
Proof. apply respects_lift. Qed.
Lemma respects_panic {A} : respects R (panic (A := A)).
Proof. apply respects_lift. Qed.
Lemma respects_ret {A} (a : A) : respects R (mret a).
Proof. intros s r' s' [= _ <-]. done. Qed.
Lemma respects_gets {A} (f : S -> A) : respects R (gets f).
Proof. intros s r' s' [= _ <-]. done. Qed.
Lemma respects_bail_if b e : respects R (bail_if b e).
Proof. destruct b; [apply respects_fail|apply respects_ret]. Qed.
Lemma respects_ok_or {A} (o : option A) e : respects R (ok_or o e).
Proof. destruct o; [apply respects_ret|apply respects_fail]. Qed.
Lemma respects_or_panic {A} (o : option A) : respects R (or_panic o).
Proof. destruct o; [apply respects_ret|apply respects_panic]. Qed.
Lemma respects_modify f : (forall s, R s (f s)) -> respects R (modify f).
Proof. intros Hf s r' s' [= _ <-]. done. Qed.
Lemma respects_when b m : respects R m -> respects R (when b m).
Proof. destruct b; [done|]. intros _. apply respects_ret. Qed.
Lemma respects_catch {A} (m : M S A) : respects R m -> respects R (catch m).
Proof.
  intros Hm s r s' E. unfold catch in E. destruct (m s) as [[] s1] eqn:E1; simplify_eq;
    by eapply Hm.
Qed.
End rules.

Create HintDb respects discriminated.

(** One structural step of a [respects] goal. *)
Ltac respects_step :=
  lazymatch goal with
  | |- respects _ (mbind _ _) => apply respects_bind; [try exact _| |intros ? ? ? ?]
  | |- respects _ (lift _) => apply respects_lift; exact _
  | |- respects _ (fail _) => apply respects_fail; exact _
  | |- respects _ panic => apply respects_panic; exact _
  | |- respects _ (mret _) => apply respects_ret; exact _
  | |- respects _ (gets _) => apply respects_gets; exact _
  | |- respects _ (bail_if _ _) => apply respects_bail_if; exact _
  | |- respects _ (ok_or _ _) => apply respects_ok_or; exact _
  | |- respects _ (or_panic _) => apply respects_or_panic; exact _
  | |- respects _ (when _ _) => apply respects_when; [exact _|]
  | |- respects _ (catch _) => apply respects_catch
  | |- respects _ (match ?x with _ => _ end) => destruct x
  | |- respects _ (let _ := _ in _) => cbv zeta
  end.
Ltac respects_tac := repeat respects_step.

(** Loading only reads. *)
Lemma load_state `{R : Runtime} `{AccountType T} k w r w' : load T k w = (r, w') -> w' = w.
Proof.
  intros E. symmetry. revert E. assert (Hl : respects eq (load T k)); [|apply Hl].
  unfold load, data_of. respects_tac.
Qed.

(** Where the data of account [k] is [d]. *)
Definition holds (k : Pubkey) (d : AccountData) (w : World) : Prop := (acct w k).(acc_data) = d.

Section world_rules.
Context {R : Runtime} (W : World -> World -> Prop) `{!PreOrder W}.

Lemma respects_account accounts i : respects W (account accounts i).
Proof. apply respects_ok_or; exact _. Qed.
Lemma respects_data_of k : respects W (data_of k).
Proof. apply respects_gets; exact _. Qed.
Lemma respects_owner_of k : respects W (owner_of k).
Proof. apply respects_gets; exact _. Qed.
Lemma respects_assert_signer ai : respects W (assert_signer ai).
Proof. apply respects_bail_if; exact _. Qed.
Lemma respects_assert_writable ai : respects W (assert_writable ai).
Proof. apply respects_bail_if; exact _. Qed.
Lemma respects_assert_owned ais : respects W (assert_owned ais).
Proof. unfold assert_owned. respects_tac. Qed.
Lemma respects_load `{AccountType T} k : respects W (load T k).
Proof. unfold load. respects_tac; apply respects_data_of. Qed.
Lemma respects_load_token k : respects W (load_token k).
Proof. unfold load_token. respects_tac; apply respects_data_of. Qed.
Lemma respects_validate_margin_pda k o m : respects W (validate_margin_pda k o m).
Proof.
  unfold validate_margin_pda, assert_pda. respects_tac. apply respects_load.
Qed.
Lemma respects_with_mut `{AccountType T} {A} k (m : M T A) :
  (forall w v r v', (acct w k).(acc_data) = inj v -> m v = (r, v') -> W w (set_data k (inj v') w)) ->
  respects W (with_mut k m).
Proof.
  intros Hm w r w' E. unfold with_mut, mbind, M_bind in E.
  destruct (load T k w) as [r1 w1] eqn:El.
  apply load_state in El as Ew. subst w1.
  destruct r1; simplify_eq; try done.
  apply load_ok_inv in El as [_ Hd]. destruct (m a) as [r' v'] eqn:Em. simplify_eq. by eapply Hm.
Qed.
Lemma respects_init_account `{AccountType T} k (v : T) :
  (forall w bs, (acct w k).(acc_data) = DBytes (0 :: bs) -> W w (set_data k (inj v) w)) ->
  respects W (init_account k v).
Proof.
  intros Hi w r w' E.
  unfold init_account, data_of, modify, mbind, M_bind, gets, bail_if, fail, lift in E.
  destruct (negb (len_ok _)); [by simplify_eq|]. cbn in E.
  destruct (bool_decide (disc _ = Some 0)) eqn:Ed; cbn in E; simplify_eq; [|done].
  apply bool_decide_eq_true in Ed. destruct (acc_data (acct w k)) as [| | | | | | | | | | | | | |bs] eqn:Eb;
    try done. destruct bs as [|b bs]; [done|]. cbn in Ed. simplify_eq. by eapply Hi.
Qed.
Lemma respects_invoke c seeds :
  (forall w w', invoke c seeds w = Some w' -> W w w') -> respects W (invoke_signed c seeds).
Proof.
  intros Hc w r w' E. unfold invoke_signed in E. destruct (invoke c seeds w) eqn:Ei; simplify_eq;
    [by eapply Hc|done].
Qed.
Lemma respects_assert_pda seeds k : respects W (assert_pda seeds k).
Proof. unfold assert_pda. respects_tac. Qed.
End world_rules.

#[export] Hint Resolve respects_account respects_data_of respects_owner_of
  respects_assert_signer respects_assert_writable respects_assert_owned respects_load
  respects_load_token respects_validate_margin_pda respects_assert_pda : respects.

(** ** Steps that rely on what an earlier one saw *)

(** [guarded P R m]: from a state that satisfies [P], [m] steps along [R]. *)
Definition guarded {S A} (P : S -> Prop) (R : S -> S -> Prop) (m : M S A) : Prop :=
  forall s r s', P s -> m s = (r, s') -> R s s'.

Section guarded_rules.
Context {S : Type} (P : S -> Prop) (R : S -> S -> Prop) `{!PreOrder R}.

Lemma guarded_respects {A} (m : M S A) : respects R m -> guarded P R m.
Proof. intros Hm s r s' _ E. by eapply Hm. Qed.

(** The first step keeps [P]. *)
Lemma guarded_bind {A B} (m : M S A) (f : A -> M S B) :
  respects (fun s s' => R s s' /\ (P s -> P s')) m ->
  (forall a s s1, m s = (Ok a, s1) -> P s -> guarded P R (f a)) -> guarded P R (m ≫= f).
Proof.
  intros Hm Hf s r s' Hp E. unfold mbind, M_bind in E. destruct (m s) as [[a|e| |] s1] eqn:E1.
  - apply Hm in E1 as E1'. destruct E1' as [Hr Hp']. etrans; [done|]. eapply Hf; eauto.
  - simplify_eq. by eapply Hm.
  - simplify_eq. by eapply Hm.
  - simplify_eq. by eapply Hm.
Qed.

(** The first step uses [P] up. *)
Lemma guarded_then {A B} (m : M S A) (f : A -> M S B) :
  guarded P R m -> (forall a, respects R (f a)) -> guarded P R (m ≫= f).
Proof.
  intros Hm Hf s r s' Hp E. unfold mbind, M_bind in E. destruct (m s) as [[a|e| |] s1] eqn:E1.
  - etrans; [by eapply Hm|by eapply Hf].
  - simplify_eq. by eapply Hm.
  - simplify_eq. by eapply Hm.
  - simplify_eq. by eapply Hm.
Qed.

End guarded_rules.

(** The first step establishes a fact about its answer. *)
Lemma respects_establish {S A B} (R : S -> S -> Prop) `{!PreOrder R} (P : A -> S -> Prop)
    (m : M S A) (f : A -> M S B) :
  respects R m -> (forall a s s1, m s = (Ok a, s1) -> P a s1) ->
  (forall a s s1, m s = (Ok a, s1) -> guarded (P a) R (f a)) -> respects R (m ≫= f).
Proof.
  intros Hm Hp Hf s r s' E. unfold mbind, M_bind in E. destruct (m s) as [[a|e| |] s1] eqn:E1.
  - etrans; [by eapply Hm|]. eapply Hf; eauto.
  - simplify_eq. by eapply Hm.
  - simplify_eq. by eapply Hm.
  - simplify_eq. by eapply Hm.
Qed.

Lemma respects_load_bind `{R : Runtime} (W : World -> World -> Prop) `{!PreOrder W}
    `{AccountType T} {B} k (f : T -> M World B) :
  (forall v, guarded (holds k (inj v)) W (f v)) -> respects W (load T k ≫= f).
Proof.
  intros Hf w r w' E. unfold mbind, M_bind in E. destruct (load T k w) as [[v|e| |] w1] eqn:El;
    apply load_state in El as Ew; subst w1; try by simplify_eq.
  apply load_ok_inv in El as [_ Hd]. by eapply Hf.
Qed.

(** The data of one account survives. *)
Definition keeps (k : Pubkey) (d : AccountData) (w w' : World) : Prop :=
  holds k d w -> holds k d w'.
#[export] Instance keeps_preorder k d : PreOrder (keeps k d).
Proof. split; unfold keeps; repeat intro; auto. Qed.

(** A write to a struct of one type leaves the accounts of another type alone. *)
Lemma keeps_mut `{R : Runtime} `{AccountType T} {A} k (m : M T A) k0 d0 :
  proj (T := T) d0 = None -> respects (keeps k0 d0) (with_mut k m).
Proof.
  intros Hn. apply respects_with_mut; [exact _|]. intros w v r v' Hd _ H0. unfold holds in *.
  rewrite acct_set_ne; [done|]. intros Hk. rewrite Hk, H0 in Hd. by rewrite Hd, proj_inj in Hn.
Qed.

(** A structural step or a reading helper. *)
Ltac world_step :=
  first
  [ respects_step
  | lazymatch goal with
    | |- respects _ (account _ _) => apply respects_account; exact _
    | |- respects _ (data_of _) => apply respects_data_of; exact _
    | |- respects _ (owner_of _) => apply respects_owner_of; exact _
    | |- respects _ (assert_signer _) => apply respects_assert_signer; exact _
    | |- respects _ (assert_writable _) => apply respects_assert_writable; exact _
    | |- respects _ (assert_owned _) => apply respects_assert_owned; exact _
    | |- respects _ (load _ _) => apply respects_load; exact _
    | |- respects _ (load_token _) => apply respects_load_token; exact _
    | |- respects _ (validate_margin_pda _ _ _) => apply respects_validate_margin_pda; exact _
    | |- respects _ (assert_pda _ _) => apply respects_assert_pda; exact _
    end ].
Ltac world_tac := repeat world_step.

(* ------------------------------------------------------------------ *)
(** ** Reading a successful run backwards

    [inv_world] turns a successful run of a handler into what it read, what it checked and
    the writes it made, in order. *)

Section inversions.
Context {R : Runtime}.

Lemma account_ok_inv accounts i w ai w' :
  account accounts i w = (Ok ai, w') -> accounts !! i = Some ai /\ w' = w.
Proof. apply ok_or_ok_inv. Qed.
Lemma assert_signer_ok_inv ai w u w' :
  assert_signer ai w = (Ok u, w') -> ai.(is_signer) = true /\ w' = w.
Proof. intros [H ->]%bail_if_ok_inv. by apply negb_false_iff in H. Qed.
Lemma assert_writable_ok_inv ai w u w' :
  assert_writable ai w = (Ok u, w') -> ai.(is_writable) = true /\ w' = w.
Proof. intros [H ->]%bail_if_ok_inv. by apply negb_false_iff in H. Qed.
Lemma read_ok_inv {A} (f : World -> A) w a w' : gets f w = (Ok a, w') -> a = f w /\ w' = w.
Proof. apply gets_ok_inv. Qed.

Lemma validate_margin_pda_ok_inv k owner mint w u w' :
  validate_margin_pda k owner mint w = (Ok u, w') ->
  w' = w /\ exists a bump, (acct w k).(acc_data) = DMargin a /\ a.(ma_owner) = owner /\
    a.(ma_collateral_mint) = mint /\
    find_program_address [SEED_MARGIN; key_seed owner; key_seed mint] = (k, bump).
Proof.
  unfold validate_margin_pda. intros (b & w1 & Hp & H)%bind_ok_inv.
  apply assert_pda_ok_inv in Hp as [-> Hp]. apply bind_ok_inv in H as (a & w2 & Hl & H).
  apply load_ok_inv in Hl as [-> Hd]. apply bail_if_ok_inv in H as [H ->].
  apply orb_false_iff in H as [H _]. apply orb_false_iff in H as [H1 H2].
  apply negb_false_iff, Z.eqb_eq in H1, H2. split; [done|]. by exists a, b.
Qed.

Lemma load_token_ok_inv k w t w' :
  load_token k w = (Ok t, w') ->
  w' = w /\ exists bs, holds k (DBytes bs) w /\ unpack_token_account bs = Ok t.
Proof.
  unfold load_token. intros (d & w1 & Hd & E)%bind_ok_inv.
  apply gets_ok_inv in Hd as [-> ->]. destruct (acc_data (acct w k)) eqn:Ed; try done.
  apply lift_ok_inv in E as [? ->]. split; [done|]. by eexists.
Qed.
Lemma owned_spec w ai : owned w ai = true <-> (acct w ai.(key)).(acc_owner) = program_id.
Proof. unfold owned. apply Z.eqb_eq. Qed.

Lemma in_accounts (accounts : list AccountInfo) i ai : accounts !! i = Some ai -> ai ∈ accounts.
Proof. apply list_elem_of_lookup_2. Qed.
End inversions.

Lemma modify_ok_inv {S} (f : S -> S) s u s' : modify f s = (Ok u, s') -> s' = f s.
Proof. by intros [= _ <-]. Qed.

Ltac inv_world_step :=
  first
  [ inv_ok_step
  | match goal with
    | H : modify _ _ = (Ok _, _) |- _ => apply modify_ok_inv in H; subst
    | H : account _ _ _ = (Ok _, _) |- _ => apply account_ok_inv in H as [? ?]; subst
    | H : assert_signer _ _ = (Ok _, _) |- _ => apply assert_signer_ok_inv in H as [? ?]; subst
    | H : assert_writable _ _ = (Ok _, _) |- _ =>
        apply assert_writable_ok_inv in H as [? ?]; subst
    | H : assert_owned _ _ = (Ok _, _) |- _ =>
        apply assert_owned_ok_inv in H as [? ?]; subst
    | H : assert_pda _ _ _ = (Ok _, _) |- _ => apply assert_pda_ok_inv in H as [? ?]; subst
    | H : load _ _ _ = (Ok _, _) |- _ => apply load_ok_inv in H as [? ?]; subst
    | H : data_of _ _ = (Ok _, _) |- _ => apply read_ok_inv in H as [? ?]; subst
    | H : owner_of _ _ = (Ok _, _) |- _ => apply read_ok_inv in H as [? ?]; subst
    | H : validate_margin_pda _ _ _ _ = (Ok _, _) |- _ =>
        apply validate_margin_pda_ok_inv in H as [? (? & ? & ? & ? & ? & ?)]; subst
    | H : load_token _ _ = (Ok _, _) |- _ =>
        apply load_token_ok_inv in H as [? (? & ? & ?)]; subst
    | H : invoke_signed _ _ _ = (Ok _, _) |- _ => apply invoke_signed_ok_inv in H
    | H : (let '(_, _) := ?p in _) _ = (Ok _, _) |- _ => destruct p eqn:?
    | u : unit |- _ => destruct u
    | H : negb _ = false |- _ => apply negb_false_iff in H
    | H : (_ =? _) = true |- _ => apply Z.eqb_eq in H
    | H : (_ =? _) = false |- _ => apply Z.eqb_neq in H
    | H : (_ <? _) = false |- _ => apply Z.ltb_ge in H
    | H : (_ <=? _) = false |- _ => apply Z.leb_gt in H
    | H : _ || _ = false |- _ => apply orb_false_iff in H as [? ?]
    end ].
Ltac inv_world := repeat (inv_world_step; cbv beta in * ).

(** The owner checks of a handler, one per account. *)
Ltac owned_facts :=
  repeat match goal with
  | H : forallb (owned _) _ = true |- _ => cbn [forallb] in H
  | H : _ && _ = true |- _ => apply andb_true_iff in H as [? ?]
  | H : owned _ _ = true |- _ => apply owned_spec in H
  end.

(* ------------------------------------------------------------------ *)
(** ** Successful runs only

    [yields R m]: the runs of [m] that succeed step along [R]; what a failed one wrote is
    undone with its transaction. *)

Definition yields {S A} (R : S -> S -> Prop) (m : M S A) : Prop :=
  forall s a s', m s = (Ok a, s') -> R s s'.

Section yields_rules.
Context {S : Type} (R : S -> S -> Prop) `{!PreOrder R}.

Lemma yields_respects {A} (m : M S A) : respects R m -> yields R m.
Proof. intros Hm s a s' E. by eapply Hm. Qed.
Lemma yields_bind {A B} (m : M S A) (f : A -> M S B) :
  yields R m -> (forall a s s1, m s = (Ok a, s1) -> yields R (f a)) -> yields R (m ≫= f).
Proof.
  intros Hm Hf s b s' E. apply bind_ok_inv in E as (a & s1 & E1 & E2).
  etrans; [by eapply Hm|by eapply Hf].
Qed.
Lemma yields_when b m : yields R m -> yields R (when b m).
Proof. destruct b; [done|]. intros _. apply yields_respects, respects_ret; exact _. Qed.
End yields_rules.

Create HintDb yields discriminated.
#[export] Hint Constants Opaque : yields.

(** One step: the structure of a handler, a reading helper, or a rule of the database. *)
Ltac yields_step :=
  lazymatch goal with
  | |- yields _ (mbind _ _) => apply yields_bind; [try exact _| |intros ? ? ? ?]
  | |- yields _ (when _ _) => apply yields_when; [exact _|]
  | |- yields _ (match ?x with _ => _ end) => destruct x
  | |- yields _ (let _ := _ in _) => cbv zeta
  | |- yields _ _ =>
      solve [ eauto with nocore yields
            | apply yields_respects; solve [world_tac | eauto with nocore yields] ]
  end.
Ltac yields_tac := repeat yields_step.
