(* ===== verification/Totals.v ===== *)
(** * Sums over the accounts of the program

    [sum_over pid h w] adds up [h] over the accounts the program [pid] owns. It depends on them
    only through [h], and a change of one account changes it by the difference there. *)
From S2P Require Import Prelude Ledger Governance Attestation World.

Section totals.
Context (pid : Pubkey).
Implicit Types (h : Pubkey -> AccountData -> Z) (w : World).

(** What an account counts for: nothing unless the program owns it. *)
Definition counted h (k : Pubkey) (a : Account) : Z :=
  if a.(acc_owner) =? pid then h k a.(acc_data) else 0.
Definition sum_over h w : Z := map_fold (fun k a acc => counted h k a + acc) 0 w.

(** A summand that counts empty accounts for nothing. *)
Class Vanishes h : Prop := vanishes k : h k no_account.(acc_data) = 0.

Section sum.
Context h `{!Vanishes h}.

Lemma counted_none k : counted h k no_account = 0.
Proof. unfold counted. case_match; [apply vanishes|done]. Qed.

Lemma sum_insert_new k a w : w !! k = None -> sum_over h (<[k := a]> w) = counted h k a + sum_over h w.
Proof.
  intros Hk. unfold sum_over. apply (map_fold_insert_L (fun k a acc => counted h k a + acc)).
  - intros. lia.
  - done.
Qed.

(** The non-zero summands determine it. *)
Definition summands w : gmap Pubkey Z :=
  map_imap (fun k a => let x := counted h k a in if x =? 0 then None else Some x) w.

Lemma lookup_summands w k :
  summands w !! k = let x := counted h k (acct w k) in if x =? 0 then None else Some x.
Proof.
  unfold summands. rewrite map_lookup_imap. unfold acct. destruct (w !! k) as [a|]; cbn; [done|].
  by rewrite counted_none.
Qed.
Lemma sum_summands w : sum_over h w = map_fold (fun _ x acc => x + acc) 0 (summands w).
Proof.
  induction w as [|k a w Hk IH] using map_ind; [done|].
  rewrite sum_insert_new, IH by done.
  assert (Hs : summands (<[k := a]> w) =
    if counted h k a =? 0 then summands w else <[k := counted h k a]> (summands w)).
  { apply map_eq. intros k'. rewrite lookup_summands. destruct (decide (k = k')) as [<-|Hne].
    - rewrite acct_insert_eq. cbv zeta. destruct (Z.eqb_spec (counted h k a) 0) as [E|E].
      + rewrite lookup_summands. unfold acct. rewrite Hk. cbn. by rewrite counted_none.
      + by rewrite lookup_insert_eq.
    - rewrite acct_insert_ne by done. destruct (counted h k a =? 0);
        [by rewrite lookup_summands|by rewrite lookup_insert_ne, lookup_summands]. }
  rewrite Hs. destruct (Z.eqb_spec (counted h k a) 0) as [->|]; [lia|].
  rewrite (map_fold_insert_L (fun _ x acc => x + acc)).
  - done.
  - intros. lia.
  - rewrite lookup_summands. unfold acct. rewrite Hk. cbn. by rewrite counted_none.
Qed.
End sum.

Lemma sum_ext h h' w w' `{!Vanishes h} `{!Vanishes h'} :
  (forall k, counted h' k (acct w' k) = counted h k (acct w k)) -> sum_over h' w' = sum_over h w.
Proof.
  intros He. rewrite !sum_summands by done. f_equal. apply map_eq. intros k.
  by rewrite !lookup_summands, He.
Qed.

Lemma sum_zero h w `{!Vanishes h} : (forall k, counted h k (acct w k) = 0) -> sum_over h w = 0.
Proof.
  intros Hz. rewrite <- (sum_ext h h w ∅); [done|]. intros k. rewrite Hz. by apply counted_none.
Qed.

(** A change of one account. *)
Lemma sum_change h h' k w w' `{!Vanishes h} `{!Vanishes h'} :
  (forall k', k' <> k -> counted h' k' (acct w' k') = counted h k' (acct w k')) ->
  sum_over h' w' = sum_over h w - counted h k (acct w k) + counted h' k (acct w' k).
Proof.
  intros He. set (w0 := delete k w).
  assert (Hk : w0 !! k = None) by apply lookup_delete_eq.
  assert (H1 : sum_over h w = sum_over h (<[k := acct w k]> w0)).
  { apply sum_ext; try exact _. intros k'. destruct (decide (k = k')) as [<-|Hne].
    - by rewrite acct_insert_eq.
    - rewrite acct_insert_ne by done. unfold acct, w0. by rewrite lookup_delete_ne. }
  assert (H2 : sum_over h' w' = sum_over h' (<[k := acct w' k]> (delete k w'))).
  { apply sum_ext; try exact _. intros k'. destruct (decide (k = k')) as [<-|Hne].
    - by rewrite acct_insert_eq.
    - rewrite acct_insert_ne by done. unfold acct. by rewrite lookup_delete_ne. }
  assert (H3 : sum_over h' (delete k w') = sum_over h w0).
  { apply sum_ext; try exact _. intros k'. unfold w0. destruct (decide (k = k')) as [<-|Hne].
    - unfold acct. rewrite !lookup_delete_eq. by rewrite !counted_none.
    - specialize (He k' ltac:(done)). unfold acct in *. by rewrite !lookup_delete_ne. }
  rewrite H1, H2, !sum_insert_new by (done || apply lookup_delete_eq). lia.
Qed.

(** One account that alone counts, and one of several that count for something. *)
Lemma sum_split h k w `{!Vanishes h} : sum_over h w = counted h k (acct w k) + sum_over h (delete k w).
Proof.
  rewrite (sum_change h h k (delete k w) w).
  - unfold acct at 1. rewrite lookup_delete_eq, (counted_none h). lia.
  - intros k' Hk. unfold acct. by rewrite lookup_delete_ne.
Qed.
Lemma sum_single h k w `{!Vanishes h} :
  (forall k', k' <> k -> counted h k' (acct w k') = 0) -> sum_over h w = counted h k (acct w k).
Proof.
  intros Hz. rewrite (sum_split h k), (sum_zero h (delete k w)); [lia| |exact _]. intros k'.
  unfold acct. destruct (decide (k' = k)) as [->|Hk].
  - rewrite lookup_delete_eq. by apply counted_none.
  - rewrite lookup_delete_ne by done. by apply Hz.
Qed.
Lemma sum_nonneg h w `{!Vanishes h} : (forall k, 0 <= counted h k (acct w k)) -> 0 <= sum_over h w.
Proof.
  induction w as [|k a w Hk IH] using map_ind; [done|]. intros Hp. rewrite sum_insert_new by done.
  pose proof (Hp k) as Ha. rewrite acct_insert_eq in Ha.
  enough (0 <= sum_over h w) by lia. apply IH. intros k'. destruct (decide (k = k')) as [<-|Hne].
  - unfold acct. rewrite Hk. cbn. by rewrite counted_none.
  - specialize (Hp k'). by rewrite acct_insert_ne in Hp.
Qed.
Lemma sum_at_least h k w `{!Vanishes h} :
  (forall k', 0 <= counted h k' (acct w k')) -> counted h k (acct w k) <= sum_over h w.
Proof.
  intros Hp. rewrite (sum_split h k) by exact _. enough (0 <= sum_over h (delete k w)) by lia.
  apply sum_nonneg; [exact _|]. intros k'. unfold acct. destruct (decide (k' = k)) as [->|Hk].
  - rewrite lookup_delete_eq. by rewrite (counted_none h).
  - rewrite lookup_delete_ne by done. apply Hp.
Qed.

Lemma sum_insert_same h k a w `{!Vanishes h} :
  counted h k a = counted h k (acct w k) -> sum_over h (<[k := a]> w) = sum_over h w.
Proof.
  intros He. apply sum_ext; [exact _..|]. intros k'. destruct (decide (k = k')) as [<-|Hne].
  - by rewrite acct_insert_eq.
  - by rewrite acct_insert_ne.
Qed.

Lemma sum_set h k d w `{!Vanishes h} :
  sum_over h (set_data k d w) =
  sum_over h w + (if (acct w k).(acc_owner) =? pid then h k d - h k (acct w k).(acc_data) else 0).
Proof.
  rewrite (sum_change h h k w (set_data k d w)).
  - rewrite acct_set_eq. unfold counted, with_data. cbn. destruct (_ =? pid); lia.
  - intros k' Hk. by rewrite acct_set_ne.
Qed.

Lemma sum_sub h1 h2 w : sum_over (fun k d => h1 k d - h2 k d) w = sum_over h1 w - sum_over h2 w.
Proof.
  unfold sum_over. induction w as [|k a w Hk IH] using map_ind; [done|].
  rewrite !(map_fold_insert_L (fun k a sum => counted _ k a + sum)); try done; try (intros; lia).
  rewrite IH. unfold counted. case_match; lia.
Qed.
End totals.
