(* ===== verification/Solvency.v ===== *)
(** * What the program owes

    The liabilities of the program in one mint: the balances of its margin accounts and
    what its fee treasury accrued. The rules of this file say what each primitive step of a
    handler adds to them; a handler's balance is the sum over its steps. *)
From S2P Require Import Prelude IntentBook Ledger Governance Attestation World Footprint Totals.

Section solvency.
Context {R : Runtime}.

(** What an account of the program is owed in a mint. *)
Definition data_holding (mint : Pubkey) (d : AccountData) : Z :=
  match d with
  | DMargin a => if a.(ma_collateral_mint) =? mint then total a else 0
  | DTreasury t => if t.(ft_collateral_mint) =? mint then t.(accrued_atoms) else 0
  | _ => 0
  end.
Definition holding (mint : Pubkey) (a : Account) : Z :=
  if a.(acc_owner) =? program_id then data_holding mint a.(acc_data) else 0.

Definition liabilities (mint : Pubkey) (w : World) : Z :=
  sum_over program_id (fun _ => data_holding mint) w.

#[export] Instance holding_vanishes mint : Vanishes (fun _ => data_holding mint).
Proof. by intros k. Qed.

Lemma liabilities_ext mint w w' :
  (forall k, holding mint (acct w' k) = holding mint (acct w k)) ->
  liabilities mint w' = liabilities mint w.
Proof. intros He. apply sum_ext; [exact _..|exact He]. Qed.
Lemma liabilities_change mint k w w' :
  (forall k', k' <> k -> holding mint (acct w' k') = holding mint (acct w k')) ->
  liabilities mint w' = liabilities mint w - holding mint (acct w k) + holding mint (acct w' k).
Proof. intros He. refine (sum_change program_id _ _ k w w' He). Qed.
Lemma liabilities_set mint k d w :
  liabilities mint (set_data k d w) =
  liabilities mint w +
  (if (acct w k).(acc_owner) =? program_id
   then data_holding mint d - data_holding mint (acct w k).(acc_data) else 0).
Proof. apply (sum_set program_id (fun _ => data_holding mint)). exact _. Qed.

(* ------------------------------------------------------------------ *)
(** ** Books

    [books mint d w w']: the step adds [d] to the liabilities in [mint], and every account
    that holds a balance of the program keeps its kind, its owner and its mint. *)

Definition purse (k : Pubkey) (mint : Pubkey) (w : World) : Prop :=
  (acct w k).(acc_owner) = program_id /\
  ((exists a, holds k (DMargin a) w /\ a.(ma_collateral_mint) = mint) \/
   (exists t, holds k (DTreasury t) w /\ t.(ft_collateral_mint) = mint)).

Definition books (mint : Pubkey) (d : Z) (w w' : World) : Prop :=
  (forall k m, purse k m w -> purse k m w') /\
  liabilities mint w' = liabilities mint w + d.

Lemma books_refl mint w : books mint 0 w w.
Proof. split; [done|lia]. Qed.
Lemma books_trans mint d1 d2 w1 w2 w3 :
  books mint d1 w1 w2 -> books mint d2 w2 w3 -> books mint (d1 + d2) w1 w3.
Proof. intros [P1 E1] [P2 E2]. split; [auto|lia]. Qed.
Lemma books_eq mint d d' w w' : books mint d w w' -> d = d' -> books mint d' w w'.
Proof. by intros ? <-. Qed.

#[export] Instance books_preorder mint : PreOrder (books mint 0).
Proof.
  split; [intros w; apply books_refl|]. intros w1 w2 w3 H1 H2.
  eapply books_eq; [by eapply books_trans|done].
Qed.

(** Accounts that hold nothing. *)
Definition moneyless (d : AccountData) : Prop :=
  match d with DMargin _ | DTreasury _ => False | _ => True end.

Lemma moneyless_holding d mint : moneyless d -> data_holding mint d = 0.
Proof. by destruct d. Qed.
Lemma purse_money k m w : purse k m w -> ~ moneyless (acct w k).(acc_data).
Proof.
  unfold purse, holds. intros [_ [(a & E & _)|(t & E & _)]] H; by rewrite E in H.
Qed.

Lemma books_set_moneyless mint k d w :
  moneyless (acct w k).(acc_data) -> moneyless d -> books mint 0 w (set_data k d w).
Proof.
  intros H1 H2. split.
  - intros k' m Hp. assert (k <> k').
    { intros ->. by apply purse_money in Hp. }
    unfold purse, holds in *. by rewrite acct_set_ne.
  - rewrite liabilities_set, !moneyless_holding by done. case_match; lia.
Qed.

(** A margin account after a successful bucket computation. *)
Lemma books_margin mint k m df dr dl w u w' :
  shifts m df dr dl -> with_mut k m w = (Ok u, w') ->
  exists a, holds k (DMargin a) w /\
    books mint (if ((acct w k).(acc_owner) =? program_id) && (a.(ma_collateral_mint) =? mint)
                then df + dr + dl else 0) w w'.
Proof.
  intros Hm (a & a' & Hd & E & ->)%with_mut_ok_inv. exists a. split; [done|].
  apply Hm in E as (_ & _ & Emint & _ & Ef & Er & El). split.
  - intros k' m' [Ho Hp]. destruct (decide (k = k')) as [<-|Hne].
    + split; [by rewrite owner_set|]. unfold holds in *. rewrite acct_set_eq.
      destruct Hp as [(b & Hb & <-)|(b & Hb & _)]; rewrite Hd in Hb; [|done].
      injection Hb as <-. left. by exists a'.
    + unfold purse, holds. by rewrite acct_set_ne.
  - rewrite liabilities_set, Hd. cbn. rewrite Emint. unfold total.
    destruct (_ =? program_id); cbn; [|lia]. destruct (_ =? mint); lia.
Qed.

(** Moving value between the buckets of one account. *)
Lemma books_shift mint k m df dr dl w u w' :
  shifts m df dr dl -> df + dr + dl = 0 -> with_mut k m w = (Ok u, w') -> books mint 0 w w'.
Proof.
  intros Hm Hz H. destruct (books_margin mint _ _ _ _ _ _ _ _ Hm H) as (a & _ & Hb).
  eapply books_eq; [exact Hb|]. rewrite Hz. by case_match.
Qed.

(** Value in or out of an account known to be a purse. *)
Lemma books_purse mint m0 k m df dr dl w u w' :
  purse k m0 w -> shifts m df dr dl -> with_mut k m w = (Ok u, w') ->
  books mint (if m0 =? mint then df + dr + dl else 0) w w'.
Proof.
  intros [Ho Hp] Hm H. destruct (books_margin mint _ _ _ _ _ _ _ _ Hm H) as (a & Ha & Hb).
  rewrite Ho, Z.eqb_refl in Hb. destruct Hp as [(b & Hb' & <-)|(b & Hb' & _)];
    unfold holds in *; rewrite Ha in Hb'; [|done]. by injection Hb' as <-.
Qed.

(** The treasury. *)
Definition accrues (m : M FeeTreasury unit) (x : Z) : Prop :=
  forall t u t', m t = (Ok u, t') ->
    t'.(ft_collateral_mint) = t.(ft_collateral_mint) /\ t'.(accrued_atoms) = t.(accrued_atoms) + x.

Lemma accrues_accrue x : accrues (accrue x) x.
Proof. intros t u t' H. unfold accrue in H. inv_ok. checked_facts. injection H as _ <-. done. Qed.

Lemma books_treasury mint m0 k m x w u w' :
  purse k m0 w -> accrues m x -> with_mut k m w = (Ok u, w') ->
  books mint (if m0 =? mint then x else 0) w w'.
Proof.
  intros [Ho Hp] Hm (t & t' & Hd & E & ->)%with_mut_ok_inv.
  apply Hm in E as (Emint & Ex). unfold holds in Hp.
  destruct Hp as [(b & Hb & _)|(b & Hb & Hb0)]; rewrite Hd in Hb; [done|injection Hb as <-]. split.
  - intros k' m' [Ho' Hp]. destruct (decide (k = k')) as [<-|Hne].
    + split; [by rewrite owner_set|]. unfold holds in *. rewrite acct_set_eq.
      destruct Hp as [(b & Hb & _)|(b & Hb & <-)]; rewrite Hd in Hb; [done|].
      injection Hb as <-. right. by exists t'.
    + unfold purse, holds. by rewrite acct_set_ne.
  - rewrite liabilities_set, Hd, Ho, Z.eqb_refl. cbn. rewrite Emint, Hb0.
    destruct (_ =? mint); lia.
Qed.

(** Rewriting an account without changing what it is owed. *)
Lemma books_insert mint k a w :
  a.(acc_owner) = (acct w k).(acc_owner) \/ moneyless (acct w k).(acc_data) ->
  a.(acc_data) = (acct w k).(acc_data) -> books mint 0 w (<[k := a]> w).
Proof.
  intros Ho Hd. split.
  - intros k' m' Hp. destruct (decide (k = k')) as [<-|Hne].
    + destruct Ho as [Ho|Ho]; [|by apply purse_money in Hp].
      unfold purse, holds in *. by rewrite acct_insert_eq, Ho, Hd.
    + unfold purse, holds in *. by rewrite acct_insert_ne.
  - rewrite (liabilities_change mint k w).
    + rewrite acct_insert_eq. unfold holding. rewrite Hd. destruct Ho as [->|Ho]; [lia|].
      rewrite moneyless_holding by done. repeat case_match; lia.
    + intros k' Hk. by rewrite acct_insert_ne.
Qed.

(** A computation on any other struct. *)
Lemma respects_moneyless `{AccountType T} {A} mint k (m : M T A) :
  (forall v : T, moneyless (inj v)) -> respects (books mint 0) (with_mut k m).
Proof.
  intros Hm. apply respects_with_mut; [exact _|]. intros w v r v' Hd _.
  apply books_set_moneyless; [rewrite Hd|]; apply Hm.
Qed.

Lemma respects_init_moneyless `{AccountType T} mint k (v : T) :
  data_holding mint (inj v) = 0 -> respects (books mint 0) (init_account k v).
Proof.
  intros Hv. apply respects_init_account; [exact _|]. intros w bs Hd. split.
  - intros k' m Hp. assert (k <> k').
    { intros ->. apply purse_money in Hp. by rewrite Hd in Hp. }
    unfold purse, holds in *. by rewrite acct_set_ne.
  - rewrite liabilities_set, Hd, Hv. case_match; cbn; lia.
Qed.

Context {L : RuntimeLaws}.

(** Calls into other programs leave the program's accounts alone. *)
Lemma books_frame mint w w' :
  (forall k, (acct w k).(acc_owner) = program_id ->
     (acct w' k).(acc_owner) = program_id /\ (acct w' k).(acc_data) = (acct w k).(acc_data)) ->
  (forall k, (acct w k).(acc_owner) <> program_id ->
     (acct w' k).(acc_owner) <> program_id \/ moneyless (acct w' k).(acc_data)) ->
  books mint 0 w w'.
Proof.
  intros H1 H2. split.
  - intros k m [Ho Hp]. unfold purse, holds. destruct (H1 k Ho) as [-> ->]. done.
  - rewrite Z.add_0_r. apply liabilities_ext. intros k. unfold holding.
    destruct (Z.eqb_spec (acct w k).(acc_owner) program_id) as [Ho|Ho].
    + destruct (H1 k Ho) as [-> ->]. by rewrite Z.eqb_refl.
    + destruct (H2 k Ho) as [Hn|Hn]; [by rewrite (proj2 (Z.eqb_neq _ _) Hn)|].
      rewrite moneyless_holding by done. by case_match.
Qed.

Lemma respects_create_books mint payer new lam space owner seeds :
  respects (books mint 0) (invoke_signed (CreateAccount payer new lam space owner) seeds).
Proof.
  apply respects_invoke; [exact _|]. intros w w' E. apply books_frame; intros k Ho.
  - destruct (decide (k = new)) as [->|Hk].
    + apply create_fresh in E as (Ho' & _). rewrite Ho' in Ho. by destruct program_not_system.
    + destruct (create_frame _ _ _ _ _ _ _ _ k E Hk) as [-> ->]. done.
  - destruct (decide (k = new)) as [->|Hk].
    + apply create_fresh in E as (_ & _ & -> & _). by right.
    + destruct (create_frame _ _ _ _ _ _ _ _ k E Hk) as [_ ->]. by left.
Qed.
Lemma respects_transfer_books mint from to lam seeds :
  respects (books mint 0) (invoke_signed (TransferLamports from to lam) seeds).
Proof.
  apply respects_invoke; [exact _|]. intros w w' E. apply books_frame; intros k Ho;
    destruct (transfer_frame _ _ _ _ _ _ k E) as [-> ->]; auto.
Qed.
Lemma respects_token_books mint c seeds :
  match c with CreateAccount _ _ _ _ _ | TransferLamports _ _ _ => False | _ => True end ->
  respects (books mint 0) (invoke_signed c seeds).
Proof.
  intros Hc. apply respects_invoke; [exact _|]. intros w w' E. apply books_frame; intros k Ho;
    destruct (token_frame c seeds w w' k) as (Ho' & Hd & _); try (by destruct c); try done;
    rewrite Ho'; [|by left].
  split; [done|]. apply Hd. rewrite Ho. apply program_not_token.
Qed.
End solvency.

(* ------------------------------------------------------------------ *)
(** ** The rules the handlers use *)

Section yields.
Context {R : Runtime} {L : RuntimeLaws}.

(** Nothing moved in or out of a margin account. *)
Lemma yields_shift mint k m df dr dl :
  shifts m df dr dl -> df + dr + dl = 0 -> yields (books mint 0) (with_mut k m).
Proof. intros Hm Hz w u w' H. by eapply books_shift. Qed.

Lemma yields_config {A} mint k (m : M ProgramConfig A) : yields (books mint 0) (with_mut k m).
Proof. by apply yields_respects, respects_moneyless. Qed.
Lemma yields_instrument {A} mint k (m : M InstrumentConfig A) : yields (books mint 0) (with_mut k m).
Proof. by apply yields_respects, respects_moneyless. Qed.
Lemma yields_book {A} mint k (m : M Book A) : yields (books mint 0) (with_mut k m).
Proof. by apply yields_respects, respects_moneyless. Qed.
Lemma yields_pmlc {A} mint k (m : M Pmlc A) : yields (books mint 0) (with_mut k m).
Proof. by apply yields_respects, respects_moneyless. Qed.
Lemma yields_nonce {A} mint k (m : M MarketNonceAccount A) : yields (books mint 0) (with_mut k m).
Proof. by apply yields_respects, respects_moneyless. Qed.
Lemma yields_schedule {A} mint k (m : M FeeSchedule A) : yields (books mint 0) (with_mut k m).
Proof. by apply yields_respects, respects_moneyless. Qed.
Lemma yields_volume {A} mint k (m : M UserVolume A) : yields (books mint 0) (with_mut k m).
Proof. by apply yields_respects, respects_moneyless. Qed.
Lemma yields_timelock {A} mint k (m : M TimelockProposal A) : yields (books mint 0) (with_mut k m).
Proof. by apply yields_respects, respects_moneyless. Qed.
Lemma yields_multisig {A} mint k (m : M AdminMultisig A) : yields (books mint 0) (with_mut k m).
Proof. by apply yields_respects, respects_moneyless. Qed.
Lemma yields_buckets {A} mint k (m : M BucketRegistry A) : yields (books mint 0) (with_mut k m).
Proof. by apply yields_respects, respects_moneyless. Qed.
Lemma yields_stables {A} mint k (m : M StablecoinRegistry A) : yields (books mint 0) (with_mut k m).
Proof. by apply yields_respects, respects_moneyless. Qed.
Lemma yields_session {A} mint k (m : M Session A) : yields (books mint 0) (with_mut k m).
Proof. by apply yields_respects, respects_moneyless. Qed.

Lemma yields_init `{AccountType T} mint k (v : T) :
  data_holding mint (inj v) = 0 -> yields (books mint 0) (init_account k v).
Proof. intros. by apply yields_respects, respects_init_moneyless. Qed.
Lemma yields_create_pda mint payer new space seeds bump :
  yields (books mint 0) (create_pda payer new space seeds bump).
Proof. apply yields_respects, respects_create_books. Qed.
Lemma yields_invoke mint c seeds : yields (books mint 0) (invoke_signed c seeds).
Proof.
  apply yields_respects. destruct c; try by apply respects_token_books.
  - apply respects_create_books.
  - apply respects_transfer_books.
Qed.

(** A call into another program. *)
Lemma books_invoke mint c seeds w w' : invoke c seeds w = Some w' -> books mint 0 w w'.
Proof.
  intros E. eapply (yields_invoke mint c seeds w tt). unfold invoke_signed. by rewrite E.
Qed.

Lemma purse_margin k a m w :
  (acct w k).(acc_owner) = program_id -> holds k (DMargin a) w -> a.(ma_collateral_mint) = m ->
  purse k m w.
Proof. intros Ho Hd Hm. split; [done|]. left. by exists a. Qed.
Lemma with_mut_owner `{AccountType T} {A} k (m : M T A) w r w' k' :
  with_mut k m w = (r, w') -> (acct w' k').(acc_owner) = (acct w k').(acc_owner).
Proof.
  intros E. unfold with_mut in E. unfold mbind, M_bind in E.
  destruct (load T k w) as [r0 w0] eqn:El. apply load_state in El as ->.
  destruct r0; [destruct (m a)|..]; injection E as _ <-; [by rewrite owner_set|done..].
Qed.

(** An account just created holds nothing. *)
Lemma yields_create_then {A} mint payer new space seeds bump (m : M World A) :
  (forall w a w', moneyless (acct w new).(acc_data) -> m w = (Ok a, w') -> books mint 0 w w') ->
  yields (books mint 0) (create_pda payer new space seeds bump;; m).
Proof.
  intros Hm w a w' (u & w1 & Hc & H)%bind_ok_inv. etrans; [by eapply yields_create_pda|].
  eapply Hm; [|exact H]. apply invoke_signed_ok_inv, create_fresh in Hc as (_ & _ & -> & _). done.
Qed.
Lemma overwrite_ok_inv `{AccountType T} k (v : T) w u w' :
  overwrite k v w = (Ok u, w') -> w' = set_data k (inj v) w.
Proof.
  unfold overwrite, data_of. intros (d & w1 & Hd & E)%bind_ok_inv.
  apply gets_ok_inv in Hd as [-> ->]. destruct (negb _); [done|]. by injection E as _ <-.
Qed.
End yields.

#[export] Hint Resolve yields_config yields_instrument yields_book yields_pmlc yields_nonce
  yields_schedule yields_volume yields_timelock yields_multisig yields_buckets yields_stables
  yields_session yields_create_pda yields_invoke : yields.
#[export] Hint Extern 1 (yields _ (init_account _ _)) => apply yields_init; reflexivity : yields.
#[export] Hint Extern 2 (yields _ (with_mut _ _)) =>
  eapply yields_shift; [solve [eauto with shifts]|lia] : yields.
