(* ===== verification/MatchIx.v ===== *)
(** * Matching: [src/processor/match_ix.rs] and [ensure_fee_treasury] of
    [src/processor/fees.rs]

    The discovery of a crossing pair, the consumption of one contract of each side, the
    taker's fee and the creation of the matched contract. *)
From S2P Require Import Prelude Fixed IntentBook RbHeap IntentTree SeatTree Ledger Governance World.

(** Instruction arguments. *)
Record MatchPairArgs := {
  mp_long_intent_id : Z; mp_short_intent_id : Z; mp_max_contracts : Z
}.

Definition release_fee_buffer_for_fill (fee_buffer contracts_remaining_before fill_contracts : Z)
    : Res Z :=
  if (fill_contracts =? 0) || (contracts_remaining_before =? 0)
     || (contracts_remaining_before <? fill_contracts) then Err InvalidContractCount
  else if fill_contracts =? contracts_remaining_before then Ok fee_buffer
  else opt_ok_or (u64_try_from (fee_buffer * fill_contracts / contracts_remaining_before))
         ArithmeticOverflow.

(* ------------------------------------------------------------------ *)
(** ** Discovery *)

(** The best live intent of [opposite_side] decides: it crosses or nothing does. *)
Definition find_overlap_on_side (opposite_side taker_price now_slot skip_id : Z)
    : M Book (option Z) :=
  for_each_best_first opposite_side (fun _idx node found =>
    if (node.(in_contracts_remaining) =? 0) || (node.(in_expiration_slot) <=? now_slot)
       || (node.(in_id) =? skip_id) then (true, found)
    else
      let crosses := if opposite_side =? SIDE_SHORT then node.(in_price_fp) <=? taker_price
                     else taker_price <=? node.(in_price_fp) in
      (false, if crosses then Some node.(in_id) else found)) None.

Definition scan_for_first_valid_pair (now_slot : Z) : M Book (option (Z * Z)) :=
  best_long ← first_live SIDE_LONG now_slot;
  best_short ← first_live SIDE_SHORT now_slot;
  mret (match best_long, best_short with
        | Some (_, long), Some (_, short) =>
            if short.(in_price_fp) <=? long.(in_price_fp) then Some (long.(in_id), short.(in_id))
            else None
        | _, _ => None
        end).

(* ------------------------------------------------------------------ *)
(** ** Consuming one contract of an intent *)

Definition set_fill (n : IntentNode) (remaining reserved fee_buffer : Z) : IntentNode :=
  {| in_side := n.(in_side); in_color := n.(in_color); in_flags := n.(in_flags);
     in_left := n.(in_left); in_right := n.(in_right); in_parent := n.(in_parent);
     in_price_fp := n.(in_price_fp); in_id := n.(in_id); in_owner_seat := n.(in_owner_seat);
     in_contracts_total := n.(in_contracts_total); in_contracts_remaining := remaining;
     in_expiration_slot := n.(in_expiration_slot); in_post_seq := n.(in_post_seq);
     in_reserved_collateral := reserved; in_fee_buffer := fee_buffer |}.

Definition less_reserved (n : IntentNode) (reserve : Z) : M Book Z :=
  ok_or (checked U64_MAX (n.(in_reserved_collateral) - reserve)) InsufficientReservedCollateral.
Definition fee_release (n : IntentNode) : M Book Z :=
  if n.(in_contracts_remaining) =? 1 then mret n.(in_fee_buffer)
  else lift (release_fee_buffer_for_fill n.(in_fee_buffer) n.(in_contracts_remaining) 1).
Definition less_fee (n : IntentNode) (release : Z) : M Book Z :=
  ok_or (checked U64_MAX (n.(in_fee_buffer) - release)) ArithmeticUnderflow.

(** [if n.contracts_remaining == 0 { remove; free_node }] *)
Definition drop_if_filled (side idx : Z) (n : IntentNode) : M Book unit :=
  when (n.(in_contracts_remaining) =? 0) (IntentTree.remove side idx;; free_node idx).

(** Both intents, one contract each: the reservations and the fee buffers of the nodes
    shrink, a filled intent leaves its tree and its slot. Answers the two fee releases. *)
Definition consume_pair (long_idx short_idx : Z) (long short : IntentNode) (reserve : Z)
    : M Book (Z * Z) :=
  long_reserved ← less_reserved long reserve;
  short_reserved ← less_reserved short reserve;
  release_long ← fee_release long;
  release_short ← fee_release short;
  long_fee ← less_fee long release_long;
  short_fee ← less_fee short release_short;
  let long := set_fill long (long.(in_contracts_remaining) - 1) long_reserved long_fee in
  let short := set_fill short (short.(in_contracts_remaining) - 1) short_reserved short_fee in
  intent_mut long_idx (fun _ => long);;
  intent_mut short_idx (fun _ => short);;
  drop_if_filled SIDE_LONG long_idx long;;
  drop_if_filled SIDE_SHORT short_idx short;;
  mret (release_long, release_short).

(** The two intents by id, checked to be live, opposite and crossing. *)
Definition resolve_pair (long_id short_id now_slot : Z)
    : M Book (Z * Z * IntentNode * IntentNode) :=
  '(long_idx, long_side) ← find_intent_by_id long_id;
  '(short_idx, short_side) ← find_intent_by_id short_id;
  bail_if (negb (long_side =? SIDE_LONG) || negb (short_side =? SIDE_SHORT)) NotOppositeSides;;
  long ← intent long_idx;
  short ← intent short_idx;
  bail_if ((long.(in_expiration_slot) <=? now_slot) || (short.(in_expiration_slot) <=? now_slot))
    IntentExpired;;
  bail_if ((long.(in_contracts_remaining) =? 0) || (short.(in_contracts_remaining) =? 0))
    IntentNotFound;;
  bail_if (long.(in_price_fp) <? short.(in_price_fp)) NoRangeOverlap;;
  mret (long_idx, short_idx, long, short).

Record MatchResult := {
  long_trader : Pubkey;
  short_trader : Pubkey;
  mr_entry_fp : Z;
  n_contracts : Z;
  fee_buf_release_long : Z;
  fee_buf_release_short : Z;
  taker_is_long : bool;
  long_reentry : bool;
  short_reentry : bool;
  long_price : Z;
  short_price : Z;
}.

Section handlers.
Context {R : Runtime}.

(** The part of [match_pair_core] that runs on the book. *)
Definition match_on_book (instrument_key pmlc_key : Pubkey) (bucket long_id short_id : Z)
    : M Book (MatchResult * Z * Z) :=
  '(long_idx, short_idx, long, short) ← resolve_pair long_id short_id clock_slot;
  let entry_fp := price_midpoint long.(in_price_fp) short.(in_price_fp) in
  let taker_is_long := short.(in_post_seq) <? long.(in_post_seq) in
  '(release_long, release_short) ← consume_pair long_idx short_idx long short bucket;
  pmlc_id ← next_intent_id;
  let '(pda, bump) :=
    find_program_address [SEED_PMLC; key_seed instrument_key; u64_seed pmlc_id] in
  bail_if (negb (pda =? pmlc_key)) InvalidPda;;
  long_seat ← seat long.(in_owner_seat);
  short_seat ← seat short.(in_owner_seat);
  mret ({| long_trader := long_seat.(sn_trader); short_trader := short_seat.(sn_trader);
           mr_entry_fp := entry_fp; n_contracts := 1;
           fee_buf_release_long := release_long; fee_buf_release_short := release_short;
           taker_is_long := taker_is_long;
           long_reentry := negb (Z.land long.(in_flags) INTENT_FLAG_REENTRY =? 0);
           short_reentry := negb (Z.land short.(in_flags) INTENT_FLAG_REENTRY =? 0);
           long_price := long.(in_price_fp); short_price := short.(in_price_fp) |},
        pmlc_id, bump).

(* ------------------------------------------------------------------ *)
(** ** Lazily created accounts *)

Definition ensure_fee_treasury (payer treasury mint : Pubkey) : M World unit :=
  bump ← assert_pda [SEED_TREASURY; key_seed mint] treasury;
  d ← data_of treasury;
  if negb (data_len d =? 0) then
    o ← owner_of treasury;
    bail_if (negb (o =? program_id)) InvalidAccountOwner;;
    t ← load FeeTreasury treasury;
    bail_if (negb (t.(ft_collateral_mint) =? mint) || negb (t.(ft_bump) =? bump)) InvalidPda
  else
    create_pda payer treasury FEE_TREASURY_LEN [SEED_TREASURY; key_seed mint] bump;;
    init_account treasury (treasury_init mint bump).

Definition ensure_user_volume (payer volume owner mint : Pubkey) (now_slot : Z) : M World unit :=
  bump ← assert_pda [SEED_USER_VOLUME; key_seed owner; key_seed mint] volume;
  d ← data_of volume;
  if negb (data_len d =? 0) then
    o ← owner_of volume;
    bail_if (negb (o =? program_id)) InvalidAccountOwner;;
    v ← load UserVolume volume;
    bail_if (negb (v.(uv_owner) =? owner) || negb (v.(uv_collateral_mint) =? mint)
             || negb (v.(uv_bump) =? bump)) InvalidPda
  else
    create_pda payer volume USER_VOLUME_LEN [SEED_USER_VOLUME; key_seed owner; key_seed mint] bump;;
    init_account volume (volume_init owner mint now_slot bump).

(* ------------------------------------------------------------------ *)
(** ** The core *)

Record FeeCtx := {
  fee_schedule_ai : AccountInfo;
  taker_volume_ai : AccountInfo;
  maker_volume_ai : AccountInfo;
  fee_treasury_ai : AccountInfo;
}.

Record MatchCtx := {
  payer : AccountInfo;
  instrument_ai : AccountInfo;
  book_ai : AccountInfo;
  long_margin_ai : AccountInfo;
  short_margin_ai : AccountInfo;
  pmlc_ai : AccountInfo;
  mc_system_program : AccountInfo;
  fee_ctx : option FeeCtx;
}.

(** The taker's fee: the accounts it needs, the tier of the taker's volume, both
    volumes credited with the matched collateral, the fee accrued. *)
Definition charge_taker (ctx : MatchCtx) (fc : FeeCtx) (r : MatchResult) (mint : Pubkey)
    (per_side_collateral : Z) : M World Z :=
  ensure_fee_treasury ctx.(payer).(key) fc.(fee_treasury_ai).(key) mint;;
  let taker := if r.(taker_is_long) then r.(long_trader) else r.(short_trader) in
  let maker := if r.(taker_is_long) then r.(short_trader) else r.(long_trader) in
  ensure_user_volume ctx.(payer).(key) fc.(taker_volume_ai).(key) taker mint clock_slot;;
  ensure_user_volume ctx.(payer).(key) fc.(maker_volume_ai).(key) maker mint clock_slot;;
  sched ← load FeeSchedule fc.(fee_schedule_ai).(key);
  vol ← load UserVolume fc.(taker_volume_ai).(key);
  let fee_bps := fee_for_volume sched (effective_30d_volume vol clock_slot) in
  let fee_atoms := as_u 64 (per_side_collateral * fee_bps / BPS_DENOM) in
  with_mut fc.(taker_volume_ai).(key) (add_volume per_side_collateral clock_slot);;
  with_mut fc.(maker_volume_ai).(key) (add_volume per_side_collateral clock_slot);;
  when (0 <? fee_atoms) (with_mut fc.(fee_treasury_ai).(key) (accrue fee_atoms));;
  mret fee_atoms.

(** One side's margin: lock the collateral, give the fee buffer back, pay the fee. *)
Definition settle_margin (collateral fee_buf fee : Z) (is_taker : bool) : M MarginAccount unit :=
  move_reserved_to_locked collateral;;
  when (0 <? fee_buf) (move_reserved_to_free fee_buf);;
  when (is_taker && (0 <? fee)) (debit_free fee).

Definition reentry_flags (r : MatchResult) : Z :=
  let flags := if r.(long_reentry) then Z.lor 0 PMLC_FLAG_LONG_REENTRY else 0 in
  if r.(short_reentry) then Z.lor flags PMLC_FLAG_SHORT_REENTRY else flags.

(** The new contract, with the size split into two words. *)
Definition new_pmlc (r : MatchResult) (instrument_key : Pubkey) (inst : InstrumentConfig)
    (pmlc_id bump notional size : Z) : Pmlc :=
  {| pm_status := PMLC_STATUS_LIVE; close_reason := 0; pm_flags := reentry_flags r;
     pm_bump := bump; pm_id := pmlc_id; Governance.instrument := instrument_key;
     pm_collateral_mint := inst.(ic_collateral_mint); pm_market_id := inst.(ic_market_id);
     long_owner := r.(long_trader); short_owner := r.(short_trader);
     collateral_per_side := inst.(collateral_bucket); pm_leverage_bps := inst.(leverage_bps);
     entry_price_fp := r.(mr_entry_fp);
     Governance.notional_atoms := default U64_MAX (u64_try_from notional);
     size_fp_lo := as_u 64 size; size_fp_hi := as_u 64 (Z.shiftr size 64);
     opened_slot := clock_slot; last_mark_slot := clock_slot;
     long_reentry_price_fp := r.(long_price); short_reentry_price_fp := r.(short_price) |}.

(** The margins, the contract's account and the contract, after the fee is known. *)
Definition open_position (ctx : MatchCtx) (r : MatchResult) (inst : InstrumentConfig)
    (pmlc_id pmlc_bump fee : Z) : M World unit :=
  let per_side := r.(n_contracts) * inst.(collateral_bucket) in
  with_mut ctx.(long_margin_ai).(key)
    (settle_margin per_side r.(fee_buf_release_long) fee r.(taker_is_long));;
  with_mut ctx.(short_margin_ai).(key)
    (settle_margin per_side r.(fee_buf_release_short) fee (negb r.(taker_is_long)));;
  create_pda ctx.(payer).(key) ctx.(pmlc_ai).(key) PMLC_LEN
    [SEED_PMLC; key_seed ctx.(instrument_ai).(key); u64_seed pmlc_id] pmlc_bump;;
  notional ← lift (Fixed.notional_atoms inst.(collateral_bucket) inst.(leverage_bps));
  size ← lift (position_size_fp notional r.(mr_entry_fp));
  overwrite ctx.(pmlc_ai).(key)
    (new_pmlc r ctx.(instrument_ai).(key) inst pmlc_id pmlc_bump notional size).

(** Off the book: the traders' margin accounts, the fee, the contract. *)
Definition settle_match (ctx : MatchCtx) (inst : InstrumentConfig) (r : MatchResult)
    (pmlc_id pmlc_bump : Z) : M World unit :=
  validate_margin_pda ctx.(long_margin_ai).(key) r.(long_trader) inst.(ic_collateral_mint);;
  validate_margin_pda ctx.(short_margin_ai).(key) r.(short_trader) inst.(ic_collateral_mint);;
  fc ← ok_or ctx.(fee_ctx) FeeAccountsRequired;
  fee ← charge_taker ctx fc r inst.(ic_collateral_mint)
    (r.(n_contracts) * inst.(collateral_bucket));
  open_position ctx r inst pmlc_id pmlc_bump fee.

Definition match_pair_core (ctx : MatchCtx) (long_intent_id short_intent_id max_contracts : Z)
    : M World unit :=
  inst ← load InstrumentConfig ctx.(instrument_ai).(key);
  lift (require_active inst);;
  bail_if (negb (inst.(intent_book) =? ctx.(book_ai).(key))) InvalidPda;;
  '(r, pmlc_id, pmlc_bump) ← with_mut ctx.(book_ai).(key)
    (match_on_book ctx.(instrument_ai).(key) ctx.(pmlc_ai).(key) inst.(collateral_bucket)
       long_intent_id short_intent_id);
  settle_match ctx inst r pmlc_id pmlc_bump.

(* ------------------------------------------------------------------ *)
(** ** Entry points *)

Definition unpack_accounts (accounts : list AccountInfo) : M World MatchCtx :=
  payer ← account accounts 0;
  instrument_ai ← account accounts 1;
  book_ai ← account accounts 2;
  long_margin_ai ← account accounts 3;
  short_margin_ai ← account accounts 4;
  pmlc_ai ← account accounts 5;
  system_program ← account accounts 6;
  assert_signer payer;;
  assert_writable book_ai;;
  assert_writable long_margin_ai;;
  assert_writable short_margin_ai;;
  assert_writable pmlc_ai;;
  assert_owned [instrument_ai; book_ai; long_margin_ai; short_margin_ai];;
  bail_if (negb (system_program.(key) =? SYSTEM_PROGRAM_ID)) InvalidAccountData;;
  bail_if (length accounts <? 11)%nat FeeAccountsRequired;;
  fee_schedule_ai ← account accounts 7;
  taker_volume_ai ← account accounts 8;
  maker_volume_ai ← account accounts 9;
  fee_treasury_ai ← account accounts 10;
  assert_writable taker_volume_ai;;
  assert_writable maker_volume_ai;;
  assert_writable fee_treasury_ai;;
  assert_owned [fee_schedule_ai];;
  assert_pda [SEED_FEE_SCHEDULE] fee_schedule_ai.(key);;
  mret {| payer := payer; instrument_ai := instrument_ai; book_ai := book_ai;
          long_margin_ai := long_margin_ai; short_margin_ai := short_margin_ai;
          pmlc_ai := pmlc_ai; mc_system_program := system_program;
          fee_ctx := Some {| fee_schedule_ai := fee_schedule_ai;
                             taker_volume_ai := taker_volume_ai;
                             maker_volume_ai := maker_volume_ai;
                             fee_treasury_ai := fee_treasury_ai |} |}.

Definition process_match_pair (accounts : list AccountInfo) (args : MatchPairArgs)
    : M World unit :=
  ctx ← unpack_accounts accounts;
  match_pair_core ctx args.(mp_long_intent_id) args.(mp_short_intent_id) args.(mp_max_contracts).

Definition process_match_best_available (accounts : list AccountInfo) : M World unit :=
  ctx ← unpack_accounts accounts;
  pair ← with_mut ctx.(book_ai).(key) (scan_for_first_valid_pair clock_slot);
  '(long_id, short_id) ← ok_or pair IntentNotFound;
  match_pair_core ctx long_id short_id 1.
End handlers.
