(* ===== verification/Intent.v ===== *)
(** * Posting and cancelling intents: [src/processor/intent.rs] *)
From S2P Require Import Prelude Fixed IntentBook RbHeap IntentTree SeatTree Ledger Governance World MatchIx.

Record PostIntentArgs := {
  pa_side : Z;
  pa_price_fp : Z;
  pa_contracts : Z;
  pa_expiration_slot : Z;
  pa_reentry_enabled : Z;
  pa_try_match : Z;
}.

(** Every product and the quotient are [u128]; only the final cast can fail. *)
Definition fee_buffer_for (contracts collateral_bucket max_tier_fee_bps : Z) : Res Z :=
  opt_ok_or
    (v ← checked U128_MAX (contracts * collateral_bucket);
     v ← checked U128_MAX (v * max_tier_fee_bps);
     v ← checked_div_u v BPS_DENOM;
     u64_try_from v)
    ArithmeticOverflow.

Definition set_active (n : SeatNode) (count : Z) : SeatNode :=
  {| sn_color := n.(sn_color); sn_left := n.(sn_left); sn_right := n.(sn_right);
     sn_parent := n.(sn_parent); sn_trader := n.(sn_trader);
     sn_active_intent_count := count; sn_flags := n.(sn_flags) |}.
(** [seat.active_intent_count = seat.active_intent_count.saturating_sub(n)] *)
Definition fewer_intents (n : Z) (s : SeatNode) : SeatNode :=
  set_active s (saturate 0 U32_MAX (s.(sn_active_intent_count) - n)).

(* ------------------------------------------------------------------ *)
(** ** Opportunistic pruning of the poster's own expired intents *)

Definition MAX_PRUNES_PER_POST : nat := 4.

(** The first [room] expired, unfilled intents of the seat, in slot order. *)
Fixpoint collect_own_expired (seat_idx now : Z) (room : nat) (i : Z) (ns : list RawNode)
    : Res (list (Z * Z * Z)) :=
  match ns, room with
  | [], _ | _, O => Ok []
  | s :: ns, S room' =>
      match as_intent s with
      | None => collect_own_expired seat_idx now room (i + 1) ns
      | Some node =>
          if negb (node.(in_owner_seat) =? seat_idx) || (now <? node.(in_expiration_slot))
             || (node.(in_contracts_remaining) =? 0)
          then collect_own_expired seat_idx now room (i + 1) ns
          else
            total ← opt_ok_or (checked U64_MAX (node.(in_reserved_collateral) + node.(in_fee_buffer)))
              ArithmeticOverflow;
            rest ← collect_own_expired seat_idx now room' (i + 1) ns;
            Ok ((node.(in_side), i, total) :: rest)
      end
  end.

Fixpoint apply_prunes (prunes : list (Z * Z * Z)) (refund : Z) : M Book Z :=
  match prunes with
  | [] => mret refund
  | (side, idx, total) :: prunes =>
      IntentTree.remove side idx;;
      free_node idx;;
      refund ← ok_or (checked U64_MAX (refund + total)) ArithmeticOverflow;
      apply_prunes prunes refund
  end.

(** Answers the refunded reservations. *)
Definition prune_own (owner : Pubkey) (now : Z) : M Book Z :=
  seat_idx ← SeatTree.find owner;
  if negb (seat_idx =? NULL_IDX) then
    b ← gets id;
    prunes ← lift (collect_own_expired seat_idx now MAX_PRUNES_PER_POST 0 b.(nodes));
    refund ← apply_prunes prunes 0;
    when (0 <? length prunes)%nat
      (seat_mut seat_idx (fewer_intents (Z.of_nat (length prunes))));;
    mret refund
  else mret 0.

(* ------------------------------------------------------------------ *)
(** ** Placing an intent *)

(** The seat, the id, the sequence number, the slot and the tree. Answers the id. *)
Definition place_intent (owner : Pubkey) (side flags price contracts expiration reserve fee : Z)
    : M Book Z :=
  seat_idx ← find_or_create owner;
  s ← seat seat_idx;
  count ← ok_or (checked U32_MAX (s.(sn_active_intent_count) + 1)) ArithmeticOverflow;
  seat_mut seat_idx (fun s => set_active s count);;
  intent_id ← next_intent_id;
  post_seq ← next_seq;
  node_idx ← alloc_node;
  write_intent node_idx
    {| in_side := side; in_color := RB_RED; in_flags := flags;
       in_left := NULL_IDX; in_right := NULL_IDX; in_parent := NULL_IDX;
       in_price_fp := price; in_id := intent_id; in_owner_seat := seat_idx;
       in_contracts_total := contracts; in_contracts_remaining := contracts;
       in_expiration_slot := expiration; in_post_seq := post_seq;
       in_reserved_collateral := reserve; in_fee_buffer := fee |};;
  IntentTree.insert side node_idx;;
  mret intent_id.

Section handlers.
Context {R : Runtime}.

(** The checks of [do_post_intent_inner] before anything is written: the instrument,
    the margin account's bump, the reservation and the fee buffer. *)
Definition validate_post (effective_owner : Pubkey) (program_config_ai instrument_ai book_ai
    margin_ai : AccountInfo) (args : PostIntentArgs) : M World (InstrumentConfig * Z * Z * Z) :=
  assert_writable book_ai;;
  assert_writable margin_ai;;
  assert_owned [program_config_ai; instrument_ai; book_ai; margin_ai];;
  cfg ← load ProgramConfig program_config_ai.(key);
  bail_if (negb (cfg.(global_pause) =? 0)) GlobalPaused;;
  inst ← load InstrumentConfig instrument_ai.(key);
  lift (require_active inst);;
  bail_if (negb (inst.(intent_book) =? book_ai.(key))) InvalidPda;;
  margin_bump ← assert_pda
    [SEED_MARGIN; key_seed effective_owner; key_seed inst.(ic_collateral_mint)] margin_ai.(key);
  bail_if (negb (args.(pa_side) =? SIDE_LONG) && negb (args.(pa_side) =? SIDE_SHORT))
    InvalidInstructionData;;
  bail_if (args.(pa_contracts) =? 0) InvalidContractCount;;
  lift (validate_price_ticked args.(pa_price_fp) inst.(tick_fp));;
  bail_if (args.(pa_expiration_slot) <=? clock_slot) IntentExpired;;
  collateral_reserve ← ok_or (checked U64_MAX (args.(pa_contracts) * inst.(collateral_bucket)))
    ArithmeticOverflow;
  book ← load Book book_ai.(key);
  fee_buffer ← lift (fee_buffer_for args.(pa_contracts) inst.(collateral_bucket)
    book.(header).(cached_max_fee_bps));
  mret (inst, margin_bump, collateral_reserve, fee_buffer).

(** The margin account's part: the refund of the pruned intents, then the reservation. *)
Definition reserve_margin (owner mint bump refund total_reserve : Z) : M MarginAccount unit :=
  check_margin owner mint bump;;
  when (0 <? refund) (move_reserved_to_free refund);;
  move_free_to_reserved total_reserve.

(** The match attempt after the post. A [ProgramError] of the match is logged and
    swallowed; what the match wrote before it stays. *)
Definition try_inline_match (payer instrument_ai book_ai margin_ai : AccountInfo)
    (full_accounts : list AccountInfo) (offset : nat) (args : PostIntentArgs) (intent_id : Z)
    : M World unit :=
  if (length full_accounts <? offset + 7)%nat then mret tt
  else
    counterparty_margin_ai ← or_panic (full_accounts !! offset);
    pmlc_ai ← or_panic (full_accounts !! (offset + 1)%nat);
    system_program_ai ← or_panic (full_accounts !! (offset + 2)%nat);
    fee_schedule_ai ← or_panic (full_accounts !! (offset + 3)%nat);
    taker_volume_ai ← or_panic (full_accounts !! (offset + 4)%nat);
    maker_volume_ai ← or_panic (full_accounts !! (offset + 5)%nat);
    fee_treasury_ai ← or_panic (full_accounts !! (offset + 6)%nat);
    let opposite_side := if args.(pa_side) =? SIDE_LONG then SIDE_SHORT else SIDE_LONG in
    counterparty_id ← with_mut book_ai.(key)
      (find_overlap_on_side opposite_side args.(pa_price_fp) clock_slot intent_id);
    match counterparty_id with
    | None => mret tt
    | Some cp_id =>
        let is_long := args.(pa_side) =? SIDE_LONG in
        let ctx :=
          {| payer := payer; instrument_ai := instrument_ai; book_ai := book_ai;
             long_margin_ai := if is_long then margin_ai else counterparty_margin_ai;
             short_margin_ai := if is_long then counterparty_margin_ai else margin_ai;
             pmlc_ai := pmlc_ai; mc_system_program := system_program_ai;
             fee_ctx := Some {| fee_schedule_ai := fee_schedule_ai;
                                taker_volume_ai := taker_volume_ai;
                                maker_volume_ai := maker_volume_ai;
                                fee_treasury_ai := fee_treasury_ai |} |} in
        catch (match_pair_core ctx (if is_long then intent_id else cp_id)
                 (if is_long then cp_id else intent_id) 1);;
        mret tt
    end.

Definition do_post_intent_inner (effective_owner : Pubkey) (payer program_config_ai instrument_ai
    book_ai margin_ai : AccountInfo) (session_ai : option AccountInfo)
    (full_accounts : list AccountInfo) (inline_match_offset : nat) (args : PostIntentArgs)
    : M World unit :=
  '(inst, margin_bump, collateral_reserve, fee_buffer) ←
    validate_post effective_owner program_config_ai instrument_ai book_ai margin_ai args;
  total_reserve ← ok_or (checked U64_MAX (collateral_reserve + fee_buffer)) ArithmeticOverflow;
  match session_ai with
  | Some s => with_mut s.(key) (record_intent total_reserve);; mret tt
  | None => mret tt
  end;;
  pruned_refund ← with_mut book_ai.(key) (prune_own effective_owner clock_slot);
  with_mut margin_ai.(key)
    (reserve_margin effective_owner inst.(ic_collateral_mint) margin_bump pruned_refund
       total_reserve);;
  intent_id ← with_mut book_ai.(key)
    (place_intent effective_owner args.(pa_side)
       (if negb (args.(pa_reentry_enabled) =? 0) then INTENT_FLAG_REENTRY else 0)
       args.(pa_price_fp) args.(pa_contracts) args.(pa_expiration_slot)
       collateral_reserve fee_buffer);
  when (negb (args.(pa_try_match) =? 0))
    (try_inline_match payer instrument_ai book_ai margin_ai full_accounts inline_match_offset
       args intent_id).

Definition process_post_intent (accounts : list AccountInfo) (args : PostIntentArgs)
    : M World unit :=
  owner ← account accounts 0;
  program_config_ai ← account accounts 1;
  instrument_ai ← account accounts 2;
  book_ai ← account accounts 3;
  margin_ai ← account accounts 4;
  assert_signer owner;;
  do_post_intent_inner owner.(key) owner program_config_ai instrument_ai book_ai margin_ai
    None accounts 5 args.

(** The session behind a delegate: live, for this instrument, at its own address.
    Answers the owner it trades for. *)
Definition authorize_session (delegate_key : Pubkey) (instrument session : Pubkey)
    : M World Pubkey :=
  s ← load Session session;
  bail_if (negb (s.(delegate) =? delegate_key)) SessionDelegateMismatch;;
  bail_if (negb (is_active s clock_slot)) SessionNotActive;;
  bail_if (negb (allows_instrument s instrument)) SessionInstrumentNotAllowed;;
  assert_pda [SEED_SESSION; key_seed s.(se_owner)] session;;
  mret s.(se_owner).

Definition process_post_intent_delegated (accounts : list AccountInfo) (args : PostIntentArgs)
    : M World unit :=
  fee_payer ← account accounts 0;
  delegate ← account accounts 1;
  program_config_ai ← account accounts 2;
  instrument_ai ← account accounts 3;
  book_ai ← account accounts 4;
  margin_ai ← account accounts 5;
  session_ai ← account accounts 6;
  assert_signer fee_payer;;
  assert_writable fee_payer;;
  assert_signer delegate;;
  assert_writable session_ai;;
  assert_owned [session_ai];;
  effective_owner ← authorize_session delegate.(key) instrument_ai.(key) session_ai.(key);
  do_post_intent_inner effective_owner fee_payer program_config_ai instrument_ai book_ai margin_ai
    (Some session_ai) accounts 7 args.

(* ------------------------------------------------------------------ *)
(** ** Cancelling *)

(** The part of a cancel that runs on the book, with the caller's authorisation
    [authorize original_owner is_expired]. Answers the intent's owner, the bump of their
    margin account and the reservations to release. *)
Definition cancel_on_book (intent_id : Z) (mint margin : Pubkey)
    (authorize : Pubkey -> bool -> M Book unit) : M Book (Pubkey * Z * Z) :=
  '(node_idx, side) ← find_intent_by_id intent_id;
  node ← intent node_idx;
  s ← seat node.(in_owner_seat);
  let original_owner := s.(sn_trader) in
  authorize original_owner (node.(in_expiration_slot) <=? clock_slot);;
  margin_bump ← assert_pda [SEED_MARGIN; key_seed original_owner; key_seed mint] margin;
  IntentTree.remove side node_idx;;
  free_node node_idx;;
  seat_mut node.(in_owner_seat) (fewer_intents 1);;
  total ← ok_or (checked U64_MAX (node.(in_reserved_collateral) + node.(in_fee_buffer)))
    ArithmeticOverflow;
  mret (original_owner, margin_bump, total).

(** The release to the original owner's free balance. *)
Definition release_margin (owner mint bump total : Z) : M MarginAccount unit :=
  check_margin owner mint bump;; move_reserved_to_free total.

Definition process_cancel_intent (accounts : list AccountInfo) (intent_id : Z) : M World unit :=
  caller ← account accounts 0;
  instrument_ai ← account accounts 1;
  book_ai ← account accounts 2;
  margin_ai ← account accounts 3;
  assert_signer caller;;
  assert_writable book_ai;;
  assert_writable margin_ai;;
  assert_owned [instrument_ai; book_ai; margin_ai];;
  inst ← load InstrumentConfig instrument_ai.(key);
  bail_if (negb (inst.(intent_book) =? book_ai.(key))) InvalidPda;;
  '(original_owner, margin_bump, total) ← with_mut book_ai.(key)
    (cancel_on_book intent_id inst.(ic_collateral_mint) margin_ai.(key)
       (fun original_owner is_expired =>
          bail_if (negb (caller.(key) =? original_owner) && negb is_expired) MissingSigner));
  with_mut margin_ai.(key)
    (release_margin original_owner inst.(ic_collateral_mint) margin_bump total).

Definition process_cancel_intent_delegated (accounts : list AccountInfo) (intent_id : Z)
    : M World unit :=
  fee_payer ← account accounts 0;
  delegate ← account accounts 1;
  instrument_ai ← account accounts 2;
  book_ai ← account accounts 3;
  margin_ai ← account accounts 4;
  session_ai ← account accounts 5;
  assert_signer fee_payer;;
  assert_writable fee_payer;;
  assert_signer delegate;;
  assert_writable book_ai;;
  assert_writable margin_ai;;
  assert_owned [instrument_ai; book_ai; margin_ai; session_ai];;
  session_owner ← authorize_session delegate.(key) instrument_ai.(key) session_ai.(key);
  inst ← load InstrumentConfig instrument_ai.(key);
  bail_if (negb (inst.(intent_book) =? book_ai.(key))) InvalidPda;;
  '(original_owner, margin_bump, total) ← with_mut book_ai.(key)
    (cancel_on_book intent_id inst.(ic_collateral_mint) margin_ai.(key)
       (fun original_owner _ =>
          bail_if (negb (original_owner =? session_owner)) SessionOwnerMismatch));
  with_mut margin_ai.(key)
    (release_margin original_owner inst.(ic_collateral_mint) margin_bump total).
End handlers.
