(* ===== verification/Settlement.v ===== *)
(** * Settlement: [src/processor/settlement.rs] and [process_close_mutual] of
    [src/processor/close_prune.rs]

    The three ways a live contract ends: liquidation at a historical mark, resolution at
    the market's outcome, and a mutual close at an attested price. Each consumes a signed
    attestation with a fresh nonce. *)
From S2P Require Import Prelude Fixed Ledger Governance Attestation World.

(* ------------------------------------------------------------------ *)
(** ** Nonces *)

Definition set_nonce (n : MarketNonceAccount) (resolved nonce twap ts outcome : Z)
    : MarketNonceAccount :=
  {| is_resolved := resolved; mn_bump := n.(mn_bump); mn_market_id := n.(mn_market_id);
     last_accepted_cre_nonce := nonce; last_accepted_twap_fp := twap; last_accepted_ts := ts;
     Governance.final_outcome_bps := outcome |}.

(** The freshness and replay checks against the market's nonce account, and the nonce
    and time of acceptance recorded. *)
Definition accept_nonce (att : Attestation) (market now staleness : Z)
    : M MarketNonceAccount unit :=
  n ← gets id;
  lift (validate_freshness_and_nonce att market n.(last_accepted_cre_nonce) now staleness);;
  modify (fun n => set_nonce n n.(is_resolved) (nonce att) n.(last_accepted_twap_fp)
    n.(last_accepted_ts) n.(Governance.final_outcome_bps));;
  modify (fun n => set_nonce n n.(is_resolved) n.(last_accepted_cre_nonce)
    n.(last_accepted_twap_fp) now n.(Governance.final_outcome_bps)).

Definition set_mark (mark : Z) : M MarketNonceAccount unit :=
  modify (fun n => set_nonce n n.(is_resolved) n.(last_accepted_cre_nonce) mark
    n.(last_accepted_ts) n.(Governance.final_outcome_bps)).
Definition set_outcome (outcome : Z) : M MarketNonceAccount unit :=
  modify (fun n => set_nonce n 1 n.(last_accepted_cre_nonce) n.(last_accepted_twap_fp)
    n.(last_accepted_ts) outcome).

(* ------------------------------------------------------------------ *)
(** ** Margins *)

(** [m.realized_pnl = m.realized_pnl.saturating_add(x)], [.saturating_sub(x)] *)
Definition add_pnl (x : Z) : M MarginAccount unit :=
  modify (fun m => set_realized_pnl (sat_i64 (m.(realized_pnl) + x)) m).
Definition sub_pnl (x : Z) : M MarginAccount unit :=
  modify (fun m => set_realized_pnl (sat_i64 (m.(realized_pnl) - x)) m).

(** Unlock the collateral, credit the equity, record the difference; the [i64]
    difference is computed with overflow checks. *)
Definition settle_equity (collateral equity : Z) : M MarginAccount unit :=
  debit_locked collateral;;
  credit_free equity;;
  d ← or_panic (checked_i64 (as_i 64 equity - as_i 64 collateral));
  add_pnl d.

Record AttestationArgs := { attestation_ix_offset : Z }.

Section handlers.
Context {R : Runtime}.

(** The attestor of an unpaused program. *)
Definition load_attestation_signer (program_config : Pubkey) : M World Pubkey :=
  cfg ← load ProgramConfig program_config;
  bail_if (negb (cfg.(global_pause) =? 0)) GlobalPaused;;
  mret cfg.(attestation_signer).

Definition verified_attestation (sysvar : AccountInfo) (signer : Pubkey) (offset : Z)
    : M World Attestation :=
  bytes ← lift (verify_via_ed25519_sysvar (load_instruction_at_checked offset sysvar) signer);
  lift (parse bytes).

(** A live contract of this instrument, market and mint. *)
Definition load_live_pmlc (pmlc instrument_key : Pubkey) (market : Z) (mint : Pubkey)
    : M World Pmlc :=
  p ← load Pmlc pmlc;
  lift (require_live p);;
  bail_if (negb (p.(Governance.instrument) =? instrument_key)
           || negb (p.(pm_market_id) =? market)
           || negb (p.(pm_collateral_mint) =? mint)) InvalidPda;;
  mret p.

Definition finish_pmlc (status reason : Z) : M Pmlc unit :=
  modify (fun p => set_pm_state p status reason p.(pm_flags) clock_slot
    p.(long_owner) p.(short_owner)).

(** Long's equity at the mark, clamped to [[0, 2c]], and what is left of [2c]. *)
Definition equities (collateral pnl_long : Z) : Z * Z :=
  let eq_long := bounded_equity collateral pnl_long in
  let two_c := sat_u64 (collateral * 2) in
  (eq_long, sat_u64 (two_c - eq_long)).

(* ------------------------------------------------------------------ *)
(** ** Liquidate *)

(** The attestation of a breach of this very contract, not in the future. *)
Definition check_breach (att : Attestation) (pmlc : Pubkey) : M World unit :=
  bail_if (negb (attestation_type att =? ATT_TYPE_HISTORICAL_LIQUIDATION)) AttestationWrongType;;
  breach_pmlc ← lift (breach_pmlc_pubkey att);
  bail_if (negb (breach_pmlc =? pmlc)) AttestationWrongPmlc;;
  breach_ts ← lift (breach_unix_ts att);
  bail_if ((breach_ts <? 0) || (now_unix <? as_u 64 breach_ts)) AttestationStale.

(** Both sides' locked collateral is released, the winner is credited what is left of
    [2c] after the bounty. The two accounts are borrowed together. *)
Definition liquidation_payout (long short : Pubkey) (c bounty : Z) (long_wins : bool)
    : M World unit :=
  let two_c := sat_u64 (c * 2) in
  let winner := if long_wins then long else short in
  let loser := if long_wins then short else long in
  load MarginAccount long;;
  bail_if (long =? short) AccountBorrowFailed;;
  load MarginAccount short;;
  with_mut long (debit_locked c);;
  with_mut short (debit_locked c);;
  with_mut winner (credit_free (sat_u64 (two_c - bounty)));;
  with_mut loser (sub_pnl (as_i 64 c));;
  with_mut winner (add_pnl (as_i 64 (sat_u64 (c - bounty)))).

(** [collateral * bps / BPS_DENOM], truncated to a [u64]. *)
Definition bps_of (collateral bps : Z) : Z := as_u 64 (collateral * bps / BPS_DENOM).

Definition process_liquidate (accounts : list AccountInfo) (args : AttestationArgs)
    : M World unit :=
  keeper ← account accounts 0;
  program_config_ai ← account accounts 1;
  sysvar_ix_ai ← account accounts 2;
  instrument_ai ← account accounts 3;
  pmlc_ai ← account accounts 4;
  market_nonce_ai ← account accounts 5;
  long_margin_ai ← account accounts 6;
  short_margin_ai ← account accounts 7;
  keeper_margin_ai ← account accounts 8;
  assert_signer keeper;;
  assert_writable pmlc_ai;;
  assert_writable market_nonce_ai;;
  assert_writable long_margin_ai;;
  assert_writable short_margin_ai;;
  assert_writable keeper_margin_ai;;
  assert_owned [program_config_ai; instrument_ai; pmlc_ai; market_nonce_ai; long_margin_ai;
                short_margin_ai; keeper_margin_ai];;
  bail_if (negb (sysvar_ix_ai.(key) =? SYSVAR_INSTRUCTIONS_ID)) InvalidAccountData;;
  signer ← load_attestation_signer program_config_ai.(key);
  inst ← load InstrumentConfig instrument_ai.(key);
  let mint := inst.(ic_collateral_mint) in
  validate_margin_pda keeper_margin_ai.(key) keeper.(key) mint;;
  att ← verified_attestation sysvar_ix_ai signer args.(attestation_ix_offset);
  check_breach att pmlc_ai.(key);;
  assert_pda [SEED_MARKET_NONCE; key_seed inst.(ic_market_id)] market_nonce_ai.(key);;
  with_mut market_nonce_ai.(key)
    (accept_nonce att inst.(ic_market_id) now_unix inst.(max_staleness_secs);;
     mark ← lift (breach_mark_fp att); set_mark mark);;
  mark_fp ← lift (breach_mark_fp att);
  p ← load_live_pmlc pmlc_ai.(key) instrument_ai.(key) inst.(ic_market_id) mint;
  let c := p.(collateral_per_side) in
  pnl_long ← lift (pnl_long_atoms p.(entry_price_fp) mark_fp (size_fp p));
  let '(eq_long, eq_short) := equities c pnl_long in
  bail_if (bps_of c inst.(liquidation_bps) <? Z.min eq_long eq_short) NotLiquidatable;;
  let long_wins := eq_short <? eq_long in
  let bounty := bps_of c inst.(liquidation_bounty_bps) in
  validate_margin_pda long_margin_ai.(key) p.(long_owner) mint;;
  validate_margin_pda short_margin_ai.(key) p.(short_owner) mint;;
  liquidation_payout long_margin_ai.(key) short_margin_ai.(key) c bounty long_wins;;
  with_mut pmlc_ai.(key) (finish_pmlc PMLC_STATUS_LIQUIDATED CLOSE_REASON_LIQUIDATED);;
  when (0 <? bounty) (with_mut keeper_margin_ai.(key) (credit_free bounty)).

(* ------------------------------------------------------------------ *)
(** ** Resolve and CloseMutual *)

(** The long account's borrow is still alive when the short's is taken. *)
Definition pay_equities (long short : Pubkey) (c eq_long eq_short : Z) : M World unit :=
  with_mut long (settle_equity c eq_long);;
  bail_if (long =? short) AccountBorrowFailed;;
  with_mut short (settle_equity c eq_short).

(** The terminal mark of an outcome: 0, one half, or just below 1. *)
Definition final_mark (outcome : Z) : Res Z :=
  if outcome =? 0 then Ok 0
  else if outcome =? 5000 then Ok (PRICE_ONE / 2)
  else if outcome =? 10000 then Ok (sat_u64 (PRICE_ONE - 1))
  else Err InvalidInstructionData.

(** The long's profit at resolution: a full loss, a full win, or the price move. *)
Definition resolution_pnl (outcome : Z) (p : Pmlc) (final_fp : Z) : Res Z :=
  if outcome =? 0 then Ok (- sat_i128 (p.(collateral_per_side) * 2))
  else if outcome =? 10000 then Ok (sat_i128 (p.(collateral_per_side) * 2))
  else pnl_long_atoms p.(entry_price_fp) final_fp (size_fp p).

Definition process_resolve (accounts : list AccountInfo) (args : AttestationArgs)
    : M World unit :=
  caller ← account accounts 0;
  program_config_ai ← account accounts 1;
  sysvar_ix_ai ← account accounts 2;
  instrument_ai ← account accounts 3;
  pmlc_ai ← account accounts 4;
  market_nonce_ai ← account accounts 5;
  long_margin_ai ← account accounts 6;
  short_margin_ai ← account accounts 7;
  assert_signer caller;;
  assert_writable pmlc_ai;;
  assert_writable market_nonce_ai;;
  assert_writable long_margin_ai;;
  assert_writable short_margin_ai;;
  assert_owned [program_config_ai; instrument_ai; pmlc_ai; market_nonce_ai; long_margin_ai;
                short_margin_ai];;
  signer ← load_attestation_signer program_config_ai.(key);
  inst ← load InstrumentConfig instrument_ai.(key);
  let mint := inst.(ic_collateral_mint) in
  att ← verified_attestation sysvar_ix_ai signer args.(attestation_ix_offset);
  bail_if (negb (attestation_type att =? ATT_TYPE_RESOLUTION)) AttestationWrongType;;
  assert_pda [SEED_MARKET_NONCE; key_seed inst.(ic_market_id)] market_nonce_ai.(key);;
  with_mut market_nonce_ai.(key)
    (accept_nonce att inst.(ic_market_id) now_unix inst.(max_staleness_secs);;
     outcome ← lift (att_final_outcome_bps att); set_outcome outcome);;
  outcome ← lift (att_final_outcome_bps att);
  final_fp ← lift (final_mark outcome);
  p ← load_live_pmlc pmlc_ai.(key) instrument_ai.(key) inst.(ic_market_id) mint;
  let c := p.(collateral_per_side) in
  pnl_long ← lift (resolution_pnl outcome p final_fp);
  let '(eq_long, eq_short) := equities c pnl_long in
  validate_margin_pda long_margin_ai.(key) p.(long_owner) mint;;
  validate_margin_pda short_margin_ai.(key) p.(short_owner) mint;;
  pay_equities long_margin_ai.(key) short_margin_ai.(key) c eq_long eq_short;;
  with_mut pmlc_ai.(key) (finish_pmlc PMLC_STATUS_RESOLVED CLOSE_REASON_RESOLVED).

Definition process_close_mutual (accounts : list AccountInfo) (args : AttestationArgs)
    : M World unit :=
  long_owner_ai ← account accounts 0;
  short_owner_ai ← account accounts 1;
  program_config_ai ← account accounts 2;
  sysvar_ix_ai ← account accounts 3;
  instrument_ai ← account accounts 4;
  pmlc_ai ← account accounts 5;
  market_nonce_ai ← account accounts 6;
  long_margin_ai ← account accounts 7;
  short_margin_ai ← account accounts 8;
  assert_signer long_owner_ai;;
  assert_signer short_owner_ai;;
  assert_writable pmlc_ai;;
  assert_writable market_nonce_ai;;
  assert_writable long_margin_ai;;
  assert_writable short_margin_ai;;
  assert_owned [program_config_ai; instrument_ai; pmlc_ai; market_nonce_ai; long_margin_ai;
                short_margin_ai];;
  bail_if (negb (sysvar_ix_ai.(key) =? SYSVAR_INSTRUCTIONS_ID)) InvalidAccountData;;
  signer ← load_attestation_signer program_config_ai.(key);
  inst ← load InstrumentConfig instrument_ai.(key);
  let mint := inst.(ic_collateral_mint) in
  att ← verified_attestation sysvar_ix_ai signer args.(attestation_ix_offset);
  bail_if (negb (attestation_type att =? ATT_TYPE_PRICE_TWAP)) AttestationWrongType;;
  window ← lift (att_twap_window_slots att);
  bail_if (negb (window =? inst.(twap_window_slots))) AttestationWrongType;;
  assert_pda [SEED_MARKET_NONCE; key_seed inst.(ic_market_id)] market_nonce_ai.(key);;
  with_mut market_nonce_ai.(key)
    (n ← gets id;
     lift (validate_freshness_and_nonce att inst.(ic_market_id) n.(last_accepted_cre_nonce)
             now_unix inst.(max_staleness_secs));;
     modify (fun n => set_nonce n n.(is_resolved) (nonce att) n.(last_accepted_twap_fp)
       n.(last_accepted_ts) n.(Governance.final_outcome_bps));;
     price ← lift (price_fp att);
     set_mark price;;
     modify (fun n => set_nonce n n.(is_resolved) n.(last_accepted_cre_nonce)
       n.(last_accepted_twap_fp) now_unix n.(Governance.final_outcome_bps)));;
  mark_fp ← lift (price_fp att);
  p ← load_live_pmlc pmlc_ai.(key) instrument_ai.(key) inst.(ic_market_id) mint;
  bail_if (negb (p.(long_owner) =? long_owner_ai.(key))
           || negb (p.(short_owner) =? short_owner_ai.(key))) InvalidPmlcSide;;
  let c := p.(collateral_per_side) in
  pnl_long ← lift (pnl_long_atoms p.(entry_price_fp) mark_fp (size_fp p));
  let '(eq_long, eq_short) := equities c pnl_long in
  validate_margin_pda long_margin_ai.(key) long_owner_ai.(key) mint;;
  validate_margin_pda short_margin_ai.(key) short_owner_ai.(key) mint;;
  pay_equities long_margin_ai.(key) short_margin_ai.(key) c eq_long eq_short;;
  with_mut pmlc_ai.(key) (finish_pmlc PMLC_STATUS_CLOSED CLOSE_REASON_MUTUAL).
End handlers.
