(* ===== verification/Lifecycle.v ===== *)
(** * The life of a contract after the match: [src/processor/novate.rs],
    [substitute.rs], [reentry.rs], [close_pmlc.rs], and [process_prune_expired] of
    [close_prune.rs]

    Novation and substitution hand one side of a live contract to another trader,
    re-entry posts a closed side's intent again, closing refunds the rent, and pruning
    releases what expired intents hold. *)
From S2P Require Import Prelude Fixed IntentBook RbHeap IntentTree SeatTree Ledger Governance World MatchIx Intent.

(** A change of owner of one side of a contract. *)
Definition hand_over (side : Z) (new_owner : Pubkey) (mark_slot : Z) (p : Pmlc) : Pmlc :=
  if side =? SIDE_LONG then
    set_pm_state p p.(pm_status) p.(close_reason) p.(pm_flags) mark_slot new_owner p.(short_owner)
  else
    set_pm_state p p.(pm_status) p.(close_reason) p.(pm_flags) mark_slot p.(long_owner) new_owner.
Definition owner_of_side (side : Z) (p : Pmlc) : Pubkey :=
  if side =? SIDE_LONG then p.(long_owner) else p.(short_owner).

(** [p.flags &= !mask] *)
Definition clear_flag (mask : Z) (p : Pmlc) : Pmlc :=
  set_pm_state p p.(pm_status) p.(close_reason) (Z.land p.(pm_flags) (U8_MAX - mask))
    p.(last_mark_slot) p.(long_owner) p.(short_owner).

Definition check_owner_mint (owner mint : Pubkey) : M MarginAccount unit :=
  m ← gets id;
  bail_if (negb (m.(ma_owner) =? owner) || negb (m.(ma_collateral_mint) =? mint)) InvalidPda.

Section handlers.
Context {R : Runtime}.

(* ------------------------------------------------------------------ *)
(** ** Novate *)

Definition process_novate (accounts : list AccountInfo) (side : Z) : M World unit :=
  current_owner ← account accounts 0;
  new_owner ← account accounts 1;
  program_config_ai ← account accounts 2;
  instrument_ai ← account accounts 3;
  pmlc_ai ← account accounts 4;
  current_margin_ai ← account accounts 5;
  new_margin_ai ← account accounts 6;
  assert_signer current_owner;;
  assert_signer new_owner;;
  assert_writable pmlc_ai;;
  assert_writable current_margin_ai;;
  assert_writable new_margin_ai;;
  assert_owned [program_config_ai; instrument_ai; pmlc_ai; current_margin_ai; new_margin_ai];;
  cfg ← load ProgramConfig program_config_ai.(key);
  bail_if (negb (cfg.(global_pause) =? 0)) GlobalPaused;;
  bail_if (negb (side =? SIDE_LONG) && negb (side =? SIDE_SHORT)) InvalidPmlcSide;;
  p ← load Pmlc pmlc_ai.(key);
  lift (require_live p);;
  let c := p.(collateral_per_side) in
  let mint := p.(pm_collateral_mint) in
  bail_if (negb (owner_of_side side p =? current_owner.(key))) InvalidPmlcSide;;
  inst ← load InstrumentConfig instrument_ai.(key);
  bail_if (negb (inst.(ic_collateral_mint) =? mint)) InvalidPda;;
  bail_if (negb (instrument_ai.(key) =? p.(Governance.instrument))) InvalidPda;;
  assert_pda [SEED_MARGIN; key_seed current_owner.(key); key_seed mint] current_margin_ai.(key);;
  assert_pda [SEED_MARGIN; key_seed new_owner.(key); key_seed mint] new_margin_ai.(key);;
  with_mut current_margin_ai.(key)
    (check_owner_mint current_owner.(key) mint;; move_locked_to_free c);;
  with_mut new_margin_ai.(key)
    (check_owner_mint new_owner.(key) mint;; debit_free c;; credit_locked c);;
  with_mut pmlc_ai.(key) (modify (hand_over side new_owner.(key) clock_slot)).

(* ------------------------------------------------------------------ *)
(** ** Substitute *)

Record SubstitutionCtx := {
  substitutor_pmlc_side : Z;
  new_pmlc_owner : Pubkey;
  per_contract_collateral : Z;
  per_contract_fee_buf_long : Z;
  per_contract_fee_buf_short : Z;
  substitutor_is_long : bool;
  match_midpoint : Z;
}.

(** The part of [do_substitute] that runs on the book: the crossing pair must straddle
    the contract's entry price, and the substitutor must own the side it exits. *)
Definition substitute_on_book (p : Pmlc) (substitutor : Pubkey) (bucket : Z)
    (args : MatchPairArgs) : M Book SubstitutionCtx :=
  '(long_idx, short_idx, long, short) ←
    resolve_pair args.(mp_long_intent_id) args.(mp_short_intent_id) clock_slot;
  bail_if ((p.(entry_price_fp) <? short.(in_price_fp)) || (long.(in_price_fp) <? p.(entry_price_fp)))
    NoRangeOverlap;;
  let midpoint := price_midpoint long.(in_price_fp) short.(in_price_fp) in
  long_seat ← seat long.(in_owner_seat);
  short_seat ← seat short.(in_owner_seat);
  let substitutor_is_long := long_seat.(sn_trader) =? substitutor in
  let substitutor_is_short := short_seat.(sn_trader) =? substitutor in
  bail_if (negb substitutor_is_long && negb substitutor_is_short) MissingSigner;;
  let side := if substitutor_is_short then SIDE_LONG else SIDE_SHORT in
  bail_if (negb (owner_of_side side p =? substitutor)) InvalidPmlcSide;;
  let new_owner := if substitutor_is_long then short_seat.(sn_trader) else long_seat.(sn_trader) in
  '(release_long, release_short) ← consume_pair long_idx short_idx long short bucket;
  mret {| substitutor_pmlc_side := side; new_pmlc_owner := new_owner;
          per_contract_collateral := bucket;
          per_contract_fee_buf_long := release_long;
          per_contract_fee_buf_short := release_short;
          substitutor_is_long := substitutor_is_long; match_midpoint := midpoint |}.

(** The premium, from the substitutor's side; at most the collateral. *)
Definition settlement_delta (with_settle : bool) (p : Pmlc) (ctx : SubstitutionCtx) (bucket : Z)
    : Res Z :=
  if with_settle then
    pnl_long ← pnl_long_atoms p.(entry_price_fp) ctx.(match_midpoint) (size_fp p);
    let delta := if ctx.(substitutor_pmlc_side) =? SIDE_LONG then pnl_long else - pnl_long in
    if bucket <? Z.abs delta then Err NotLiquidatable else Ok delta
  else Ok 0.

(** The substitutor's intent reservation and contract collateral become free, plus or
    minus the premium. *)
Definition substitutor_side (substitutor mint : Pubkey) (ctx : SubstitutionCtx) (delta : Z)
    : M MarginAccount unit :=
  let fee_buf := if ctx.(substitutor_is_long) then ctx.(per_contract_fee_buf_long)
                 else ctx.(per_contract_fee_buf_short) in
  check_owner_mint substitutor mint;;
  move_reserved_to_free ctx.(per_contract_collateral);;
  when (0 <? fee_buf) (move_reserved_to_free fee_buf);;
  move_locked_to_free ctx.(per_contract_collateral);;
  if 0 <? delta then
    credit_free (as_u 64 delta);;
    modify (fun m => set_realized_pnl (sat_i64 (m.(realized_pnl) + as_i 64 delta)) m)
  else if delta <? 0 then
    debit_free (as_u 64 (- delta));;
    modify (fun m => set_realized_pnl (sat_i64 (m.(realized_pnl) - as_i 64 (as_u 64 (- delta)))) m)
  else mret tt.

(** The counterparty's reservation backs the contract, minus or plus the premium. *)
Definition counterparty_side (mint : Pubkey) (ctx : SubstitutionCtx) (delta : Z)
    : M MarginAccount unit :=
  let fee_buf := if ctx.(substitutor_is_long) then ctx.(per_contract_fee_buf_short)
                 else ctx.(per_contract_fee_buf_long) in
  check_owner_mint ctx.(new_pmlc_owner) mint;;
  move_reserved_to_locked ctx.(per_contract_collateral);;
  when (0 <? fee_buf) (move_reserved_to_free fee_buf);;
  if 0 <? delta then debit_free (as_u 64 delta)
  else if delta <? 0 then credit_free (as_u 64 (- delta))
  else mret tt.

(** Off the book: the two margin accounts, and the side handed over. *)
Definition settle_substitution (substitutor substitutor_margin counterparty_margin pmlc mint : Pubkey)
    (ctx : SubstitutionCtx) (delta : Z) : M World unit :=
  assert_pda [SEED_MARGIN; key_seed substitutor; key_seed mint] substitutor_margin;;
  assert_pda [SEED_MARGIN; key_seed ctx.(new_pmlc_owner); key_seed mint] counterparty_margin;;
  with_mut substitutor_margin (substitutor_side substitutor mint ctx delta);;
  with_mut counterparty_margin (counterparty_side mint ctx delta);;
  with_mut pmlc
    (modify (hand_over ctx.(substitutor_pmlc_side) ctx.(new_pmlc_owner) clock_slot)).

Definition do_substitute (accounts : list AccountInfo) (args : MatchPairArgs)
    (with_settle : bool) : M World unit :=
  substitutor ← account accounts 0;
  instrument_ai ← account accounts 1;
  book_ai ← account accounts 2;
  pmlc_ai ← account accounts 3;
  substitutor_margin_ai ← account accounts 4;
  counterparty_margin_ai ← account accounts 5;
  assert_signer substitutor;;
  assert_writable book_ai;;
  assert_writable pmlc_ai;;
  assert_writable substitutor_margin_ai;;
  assert_writable counterparty_margin_ai;;
  assert_owned [instrument_ai; book_ai; pmlc_ai; substitutor_margin_ai; counterparty_margin_ai];;
  inst ← load InstrumentConfig instrument_ai.(key);
  lift (require_active inst);;
  let mint := inst.(ic_collateral_mint) in
  let bucket := inst.(collateral_bucket) in
  bail_if (negb (inst.(intent_book) =? book_ai.(key))) InvalidPda;;
  p ← load Pmlc pmlc_ai.(key);
  lift (require_live p);;
  bail_if (negb (p.(Governance.instrument) =? instrument_ai.(key))) InvalidPda;;
  bail_if (negb (p.(collateral_per_side) =? bucket)) InvalidPda;;
  ctx ← with_mut book_ai.(key) (substitute_on_book p substitutor.(key) bucket args);
  delta ← lift (settlement_delta with_settle p ctx bucket);
  settle_substitution substitutor.(key) substitutor_margin_ai.(key) counterparty_margin_ai.(key)
    pmlc_ai.(key) mint ctx delta.

Definition process_match_substitute (accounts : list AccountInfo) (args : MatchPairArgs) :=
  do_substitute accounts args false.
Definition process_match_substitute_with_settle (accounts : list AccountInfo)
    (args : MatchPairArgs) :=
  do_substitute accounts args true.

(* ------------------------------------------------------------------ *)
(** ** Re-entry *)

(** [n], or the first smaller count whose reservation and fee buffer fit; the sums are
    [u64] with overflow checks. *)
Fixpoint affordable (n : nat) (bucket max_fee_bps free : Z) : M World nat :=
  match n with
  | O => mret O
  | S n' =>
      let c := Z.of_nat n * bucket in
      c ← or_panic (checked U64_MAX c);
      f ← lift (fee_buffer_for (Z.of_nat n) bucket max_fee_bps);
      sum ← or_panic (checked U64_MAX (c + f));
      if sum <=? free then mret n else affordable n' bucket max_fee_bps free
  end.

(** The reservation and fee buffer of [n] contracts. *)
Definition reservation (n bucket max_fee_bps : Z) : M World (Z * Z * Z) :=
  reserve ← ok_or (checked U64_MAX (n * bucket)) ArithmeticOverflow;
  fee ← lift (fee_buffer_for n bucket max_fee_bps);
  total ← ok_or (checked U64_MAX (reserve + fee)) ArithmeticOverflow;
  mret (reserve, fee, total).

(** How many contracts the free balance buys, with their reservation; [None] when it
    buys none. Dividing by a zero bucket panics. *)
Definition reentry_size (free bucket : Z) (book_key : Pubkey) : M World (option (Z * Z * Z * Z)) :=
  n64 ← or_panic (checked_div_u free bucket);
  if n64 =? 0 then mret None
  else
    let new_contracts := Z.min n64 U16_MAX in
    reserve ← ok_or (checked U64_MAX (new_contracts * bucket)) ArithmeticOverflow;
    book ← load Book book_key;
    let bps := book.(header).(cached_max_fee_bps) in
    fee ← lift (fee_buffer_for new_contracts bucket bps);
    total ← ok_or (checked U64_MAX (reserve + fee)) ArithmeticOverflow;
    if free <? total then
      n ← affordable (Z.to_nat new_contracts) bucket bps free;
      if (n =? 0)%nat then mret None
      else
        '(reserve, fee, total) ← reservation (Z.of_nat n) bucket bps;
        mret (Some (Z.of_nat n, reserve, fee, total))
    else mret (Some (new_contracts, reserve, fee, total)).

Definition reentry_price (side : Z) (p : Pmlc) : Z :=
  if side =? SIDE_LONG then p.(long_reentry_price_fp) else p.(short_reentry_price_fp).
Definition reentry_mask (side : Z) : Z :=
  if side =? SIDE_LONG then PMLC_FLAG_LONG_REENTRY else PMLC_FLAG_SHORT_REENTRY.

(** Reserve, post, and clear the flag so the right cannot be claimed again; with nothing
    affordable the flag is cleared alone. *)
Definition repost (pmlc book margin owner : Pubkey) (side price mask expiration_slot : Z)
    (size : option (Z * Z * Z * Z)) : M World unit :=
  match size with
  | None => with_mut pmlc (modify (clear_flag mask))
  | Some (contracts, reserve, fee, total) =>
      with_mut margin (move_free_to_reserved total);;
      with_mut book
        (place_intent owner side INTENT_FLAG_REENTRY price contracts expiration_slot reserve fee);;
      with_mut pmlc (modify (clear_flag mask))
  end.

Definition process_claim_reentry (accounts : list AccountInfo) (side expiration_slot : Z)
    : M World unit :=
  owner ← account accounts 0;
  program_config_ai ← account accounts 1;
  pmlc_ai ← account accounts 2;
  instrument_ai ← account accounts 3;
  book_ai ← account accounts 4;
  margin_ai ← account accounts 5;
  assert_signer owner;;
  assert_writable pmlc_ai;;
  assert_writable book_ai;;
  assert_writable margin_ai;;
  assert_owned [program_config_ai; pmlc_ai; instrument_ai; book_ai; margin_ai];;
  cfg ← load ProgramConfig program_config_ai.(key);
  bail_if (negb (cfg.(global_pause) =? 0)) GlobalPaused;;
  bail_if (negb (side =? SIDE_LONG) && negb (side =? SIDE_SHORT)) InvalidInstructionData;;
  p ← load Pmlc pmlc_ai.(key);
  bail_if (p.(pm_status) =? PMLC_STATUS_LIVE) PmlcNotLive;;
  let price := reentry_price side p in
  let mask := reentry_mask side in
  let mint := p.(pm_collateral_mint) in
  bail_if (Z.land p.(pm_flags) mask =? 0) InvalidPmlcSide;;
  bail_if (negb (owner_of_side side p =? owner.(key))) MissingSigner;;
  bail_if (negb (instrument_ai.(key) =? p.(Governance.instrument))) InvalidPda;;
  inst ← load InstrumentConfig instrument_ai.(key);
  lift (require_active inst);;
  bail_if (negb (inst.(ic_collateral_mint) =? mint)) InvalidPda;;
  bail_if (negb (inst.(intent_book) =? book_ai.(key))) InvalidPda;;
  lift (validate_price_ticked price inst.(tick_fp));;
  bail_if (expiration_slot <=? clock_slot) IntentExpired;;
  assert_pda [SEED_MARGIN; key_seed owner.(key); key_seed mint] margin_ai.(key);;
  m ← load MarginAccount margin_ai.(key);
  bail_if (negb (m.(ma_owner) =? owner.(key)) || negb (m.(ma_collateral_mint) =? mint)) InvalidPda;;
  size ← reentry_size m.(free_collateral) inst.(collateral_bucket) book_ai.(key);
  repost pmlc_ai.(key) book_ai.(key) margin_ai.(key) owner.(key) side price mask expiration_slot size.

(* ------------------------------------------------------------------ *)
(** ** ClosePmlc *)

(** The lamports move first, then the data is zeroed and the account assigned to the
    system program. *)
Definition close_pmlc_account (recipient pmlc : Pubkey) : M World unit :=
  w ← gets id;
  let lamports := (acct w pmlc).(acc_lamports) in
  modify (fun w => <[pmlc := {| acc_owner := (acct w pmlc).(acc_owner); acc_lamports := 0;
                               acc_data := (acct w pmlc).(acc_data) |}]> w);;
  w ← gets id;
  total ← ok_or (checked U64_MAX ((acct w recipient).(acc_lamports) + lamports))
    ArithmeticOverflow;
  modify (fun w => <[recipient := {| acc_owner := (acct w recipient).(acc_owner);
                                    acc_lamports := total;
                                    acc_data := (acct w recipient).(acc_data) |}]> w);;
  modify (fun w => set_data pmlc (zeros (data_len (acct w pmlc).(acc_data))) w);;
  modify (fun w => <[pmlc := {| acc_owner := SYSTEM_PROGRAM_ID;
                               acc_lamports := (acct w pmlc).(acc_lamports);
                               acc_data := (acct w pmlc).(acc_data) |}]> w).

Definition process_close_pmlc (accounts : list AccountInfo) : M World unit :=
  recipient ← account accounts 0;
  pmlc_ai ← account accounts 1;
  assert_signer recipient;;
  assert_writable recipient;;
  assert_writable pmlc_ai;;
  assert_owned [pmlc_ai];;
  p ← load Pmlc pmlc_ai.(key);
  bail_if (negb ((p.(pm_status) =? PMLC_STATUS_CLOSED) || (p.(pm_status) =? PMLC_STATUS_LIQUIDATED)
                 || (p.(pm_status) =? PMLC_STATUS_RESOLVED))) PmlcNotLive;;
  close_pmlc_account recipient.(key) pmlc_ai.(key).

(* ------------------------------------------------------------------ *)
(** ** PruneExpired *)

(** The first [room] expired, unfilled intents in slot order: side, slot, owner and
    reservations. *)
Fixpoint collect_expired (b : Book) (now : Z) (room : nat) (i : Z) (ns : list RawNode)
    : Res (list (Z * Z * Pubkey * Z)) :=
  match ns with
  | [] => Ok []
  | s :: ns =>
      match as_intent s with
      | None => collect_expired b now room (i + 1) ns
      | Some node =>
          match room with
          | O => Ok []
          | S room' =>
              if (node.(in_contracts_remaining) =? 0) || (now <? node.(in_expiration_slot)) then
                collect_expired b now room (i + 1) ns
              else
                owner ← fst (seat node.(in_owner_seat) b);
                total ← opt_ok_or
                  (checked U64_MAX (node.(in_reserved_collateral) + node.(in_fee_buffer)))
                  ArithmeticOverflow;
                rest ← collect_expired b now room' (i + 1) ns;
                Ok ((node.(in_side), i, owner.(sn_trader), total) :: rest)
          end
      end
  end.

(** The first account from the cursor on that holds the trader's margin. *)
Fixpoint find_margin (trader mint : Pubkey) (j : nat) (margins : list AccountInfo)
    : M World (option (nat * AccountInfo)) :=
  match margins with
  | [] => mret None
  | m_ai :: margins =>
      assert_owned [m_ai];;
      m ← load MarginAccount m_ai.(key);
      if (m.(ma_owner) =? trader) && (m.(ma_collateral_mint) =? mint) then
        assert_pda [SEED_MARGIN; key_seed trader; key_seed mint] m_ai.(key);;
        mret (Some (j, m_ai))
      else find_margin trader mint (S j) margins
  end.

(** An expired intent leaves its tree and slot. *)
Definition drop_expired (side node_idx : Z) : M Book unit :=
  n ← intent node_idx;
  IntentTree.remove side node_idx;;
  free_node node_idx;;
  seat_mut n.(in_owner_seat) (fewer_intents 1).

(** Each piece of work takes the next margin account of its owner. *)
Fixpoint prune_all (book_key mint : Pubkey) (margins : list AccountInfo)
    (work : list (Z * Z * Pubkey * Z)) : M World unit :=
  match work with
  | [] => mret tt
  | (side, node_idx, trader, total) :: work =>
      found ← find_margin trader mint 0 margins;
      '(j, m_ai) ← ok_or found InvalidPda;
      with_mut m_ai.(key) (move_reserved_to_free total);;
      with_mut book_key (drop_expired side node_idx);;
      prune_all book_key mint (drop (S j) margins) work
  end.

Definition process_prune_expired (accounts : list AccountInfo) : M World unit :=
  caller ← account accounts 0;
  instrument_ai ← account accounts 1;
  book_ai ← account accounts 2;
  assert_signer caller;;
  assert_writable book_ai;;
  assert_owned [instrument_ai; book_ai];;
  inst ← load InstrumentConfig instrument_ai.(key);
  bail_if (negb (inst.(intent_book) =? book_ai.(key))) InvalidPda;;
  let margins := drop 3 accounts in
  book ← load Book book_ai.(key);
  work ← lift (collect_expired book clock_slot (length margins) 0 book.(nodes));
  prune_all book_ai.(key) inst.(ic_collateral_mint) margins work.
End handlers.
