(* ===== verification/OrderBook.v ===== *)
(** * The order book as a finite map

    What a book means: a finite map from intent ids to offers. The operations the
    processors run on a book ([place_intent], [cancel_on_book], [consume_pair],
    [prune_own]) keep the book whole on every path and refine the operations
    of that map; the traversals answer its best live offers. *)
From S2P Require Import Prelude Fixed IntentBook RbTree RbHeap RbCorrect RbRemove PoolLinks SeatTree IntentTree BookInvariant BookShape BookSteps Ledger Governance World MatchIx Intent Lifecycle.

(* ------------------------------------------------------------------ *)
(** ** The map of a book's offers *)

Record Offer := {
  of_owner : Pubkey;
  of_side : Z;
  of_flags : Z;
  of_price : Z;
  of_total : Z;
  of_left : Z;
  of_expiry : Z;
  of_seq : Z;
  of_reserved : Z;
  of_fee : Z;
}.

(** The trader at a seat. *)
Definition seat_owner (b : Book) (s : Z) : Pubkey :=
  match content b s with Some (Desk d) => d.(sn_trader) | _ => 0 end.

Definition offer_of (b : Book) (n : IntentNode) : Offer :=
  {| of_owner := seat_owner b n.(in_owner_seat); of_side := n.(in_side); of_flags := n.(in_flags);
     of_price := n.(in_price_fp); of_total := n.(in_contracts_total);
     of_left := n.(in_contracts_remaining); of_expiry := n.(in_expiration_slot);
     of_seq := n.(in_post_seq); of_reserved := n.(in_reserved_collateral);
     of_fee := n.(in_fee_buffer) |}.

Definition offers (b : Book) : gmap Z Offer :=
  list_to_map (omap (fun s => n ← as_intent s; Some (n.(in_id), offer_of b n)) b.(nodes)).

Lemma offers_spec b id f : whole b ->
  offers b !! id = Some f <->
  exists i o, content b i = Some (Order o) /\ o.(in_id) = id /\ offer_of b o = f.
Proof.
  intros (tl & ts & tt & fl & Hb). unfold offers.
  set (l := omap _ _).
  assert (Hin : forall k g, (k, g) ∈ l <->
    exists i o, content b i = Some (Order o) /\ o.(in_id) = k /\ offer_of b o = g).
  { intros k g. unfold l. rewrite list_elem_of_omap. split.
    - intros (s & Hs & Hk). apply list_elem_of_lookup in Hs as [j Hj].
      destruct s as [|n|]; cbn in Hk; try discriminate. injection Hk as <- <-.
      exists (Z.of_nat j), (order n). split_and!; [|done|done].
      unfold content, slot. by rewrite Nat2Z.id, Hj.
    - intros (i & o & Ho & <- & <-). apply content_order in Ho as (n & Hn%node_of_slot & <-).
      exists (RIntent n). split; [|done]. apply list_elem_of_lookup. by exists (Z.to_nat i). }
  rewrite <- Hin. split; [apply elem_of_list_to_map_2|].
  intros H. apply elem_of_list_to_map_1'; [|done]. intros g Hg. apply Hin in H, Hg.
  destruct H as (i & o & Ho & Hid & <-), Hg as (j & o' & Ho' & Hid' & <-).
  assert (i = j) as -> by (apply (shape_unique _ _ _ _ _ _ Hb i j o o'); congruence). congruence.
Qed.

Lemma offers_none b id : whole b ->
  offers b !! id = None <-> forall i o, content b i = Some (Order o) -> o.(in_id) <> id.
Proof.
  intros Hw. split.
  - intros Hn i o Ho E. assert (offers b !! id = Some (offer_of b o)) by (apply offers_spec; eauto).
    congruence.
  - intros Hn. apply eq_None_not_Some. intros [f (i & o & Ho & E & _)%offers_spec]; [|done].
    by apply (Hn i o).
Qed.

(** Seats stay with their traders. *)
Definition traders_kept (b b' : Book) : Prop :=
  forall i d, content b i = Some (Desk d) ->
    exists d', content b' i = Some (Desk d') /\ d'.(sn_trader) = d.(sn_trader).

Lemma traders_kept_refl b : traders_kept b b.
Proof. intros i d Hd. eauto. Qed.
Lemma traders_kept_trans b b1 b2 : traders_kept b b1 -> traders_kept b1 b2 -> traders_kept b b2.
Proof.
  intros H1 H2 i d Hd. destruct (H1 i d Hd) as (d1 & Hd1 & E1), (H2 i d1 Hd1) as (d2 & Hd2 & E2).
  exists d2. split; [done|congruence].
Qed.
Lemma traders_kept_content b b' : (forall i, content b' i = content b i) -> traders_kept b b'.
Proof. intros H i d Hd. exists d. by rewrite H. Qed.

Lemma offer_of_kept b b' i o : whole b -> traders_kept b b' -> content b i = Some (Order o) ->
  offer_of b' o = offer_of b o.
Proof.
  intros (tl & ts & tt & fl & Hb) Hk Ho. destruct (shape_owner _ _ _ _ _ _ Hb i o Ho) as [d Hd].
  destruct (Hk _ _ Hd) as (d' & Hd' & E). unfold offer_of, seat_owner. by rewrite Hd, Hd', E.
Qed.

Section offers_step.
Context (b b' : Book) (z : Z).
Context (Hw : whole b) (Hw' : whole b') (Hk : traders_kept b b').
Context (Hother : forall i o, i <> z -> content b' i = Some (Order o) <-> content b i = Some (Order o)).

Lemma offers_delete o :
  content b z = Some (Order o) -> (forall o', content b' z <> Some (Order o')) ->
  offers b' = delete o.(in_id) (offers b).
Proof.
  intros Ho Hno. destruct Hw as (tl & ts & tt & fl & Hb). apply map_eq. intros id. apply option_eq.
  intros f. rewrite lookup_delete_Some, !offers_spec by done. split.
  - intros (i & o1 & Ho1 & <- & <-). destruct (decide (i = z)) as [->|Hne]; [by apply Hno in Ho1|].
    apply (Hother i o1 Hne) in Ho1. split; [|exists i, o1; split_and!; try done].
    + intros E. apply Hne. by apply (shape_unique _ _ _ _ _ _ Hb i z o1 o).
    + symmetry. by apply (offer_of_kept b b' i).
  - intros [Hid (i & o1 & Ho1 & <- & <-)]. exists i, o1.
    assert (i <> z) by (intros ->; congruence). rewrite Hother by done.
    split_and!; [done|done|]. by apply (offer_of_kept b b' i).
Qed.

Lemma offers_insert o' :
  content b' z = Some (Order o') ->
  (forall o, content b z = Some (Order o) -> o.(in_id) = o'.(in_id)) ->
  offers b' = <[o'.(in_id) := offer_of b' o']> (offers b).
Proof.
  intros Ho' Hid'. destruct Hw' as (tl & ts & tt & fl & Hb'). apply map_eq. intros id. apply option_eq.
  intros f. rewrite lookup_insert_Some, !offers_spec by done. split.
  - intros (i & o1 & Ho1 & <- & <-). destruct (decide (i = z)) as [->|Hne].
    + rewrite Ho' in Ho1. injection Ho1 as <-. by left.
    + right. pose proof (proj1 (Hother i o1 Hne) Ho1) as Hb1. split.
      * intros E. apply Hne. by apply (shape_unique _ _ _ _ _ _ Hb' i z o1 o').
      * exists i, o1. split_and!; try done. symmetry. by apply (offer_of_kept b b' i).
  - intros [[<- <-]|[Hne (i & o1 & Ho1 & <- & <-)]]; [by exists z, o'|].
    exists i, o1. assert (i <> z) by (intros ->; by apply Hne; symmetry; apply Hid').
    rewrite Hother by done. split_and!; [done|done|]. by apply (offer_of_kept b b' i).
Qed.

Lemma offers_same :
  (forall o, content b' z = Some (Order o) <-> content b z = Some (Order o)) -> offers b' = offers b.
Proof.
  intros Hz. apply map_eq. intros id. apply option_eq. intros f. rewrite !offers_spec by done.
  assert (Hall : forall i o, content b' i = Some (Order o) <-> content b i = Some (Order o)).
  { intros i o. destruct (decide (i = z)) as [->|Hne]; [done|by apply Hother]. }
  split; intros (i & o & Ho & <- & <-); exists i, o; apply Hall in Ho as Ho'; split_and!; try done.
  - symmetry. by apply (offer_of_kept b b' i).
  - by apply (offer_of_kept b b' i).
Qed.
End offers_step.

Lemma offers_content b b' : whole b -> whole b' -> (forall i, content b' i = content b i) ->
  offers b' = offers b.
Proof.
  intros Hw Hw' Hc. apply (offers_same b b' 0); [done|done|by apply traders_kept_content|..];
    intros; by rewrite Hc.
Qed.

(* ------------------------------------------------------------------ *)
(** ** Running on a whole book

    [outcome m b Q]: from [b], [m] answers a value within [Q], or fails and leaves a whole
    book; it never panics and never runs out of fuel. *)

Definition outcome {A} (m : M Book A) (b : Book) (Q : A -> Book -> Prop) : Prop :=
  match m b with
  | (Ok a, b') => Q a b'
  | (Err _, b') => whole b'
  | _ => False
  end.

Section outcome_rules.
Context {A : Type}.

Lemma outcome_bind {B} (m : M Book A) (f : A -> M Book B) b Q :
  outcome m b (fun a b' => outcome (f a) b' Q) -> outcome (m ≫= f) b Q.
Proof. unfold outcome, mbind, M_bind. by destruct (m b) as [[] ?]. Qed.
Lemma outcome_ret (a : A) b (Q : A -> Book -> Prop) : Q a b -> outcome (mret a) b Q.
Proof. done. Qed.
Lemma outcome_gets (f : Book -> A) b (Q : A -> Book -> Prop) : Q (f b) b -> outcome (gets f) b Q.
Proof. done. Qed.
Lemma outcome_ok_or (o : option A) e b (Q : A -> Book -> Prop) :
  whole b -> (forall a, o = Some a -> Q a b) -> outcome (ok_or o e) b Q.
Proof. intros Hw HQ. destruct o; [by apply HQ|done]. Qed.
Lemma outcome_runs (m : M Book A) b (Q : A -> Book -> Prop) : runs m b Q -> outcome m b Q.
Proof. unfold runs, outcome. by destruct (m b) as [[] ?]. Qed.
Lemma outcome_mono (m : M Book A) b (Q Q' : A -> Book -> Prop) :
  outcome m b Q -> (forall a b', Q a b' -> Q' a b') -> outcome m b Q'.
Proof. unfold outcome. destruct (m b) as [[] ?]; auto. Qed.
Lemma outcome_run (m : M Book A) b a (Q : A -> Book -> Prop) : m b = (Ok a, b) -> Q a b -> outcome m b Q.
Proof. unfold outcome. by intros ->. Qed.
(** A reader of the book, or a check. *)
Lemma outcome_lift (r : Res A) b (Q : A -> Book -> Prop) :
  whole b -> (r <> Panic /\ r <> Diverge) -> (forall a, r = Ok a -> Q a b) -> outcome (lift r) b Q.
Proof. intros Hw [Hp Hd] HQ. unfold outcome, lift. destruct r; [by apply HQ|done..]. Qed.
End outcome_rules.

Lemma outcome_bail c e b (Q : unit -> Book -> Prop) :
  whole b -> (c = false -> Q tt b) -> outcome (bail_if c e) b Q.
Proof. intros Hw HQ. destruct c; [done|by apply HQ]. Qed.
Lemma outcome_when c (m : M Book unit) b (Q : unit -> Book -> Prop) :
  (c = true -> outcome m b Q) -> (c = false -> Q tt b) -> outcome (when c m) b Q.
Proof. intros Ht Hf. destruct c; [by apply Ht|by apply Hf]. Qed.

Lemma runs_seq {S A} (m1 m2 : M S unit) (k : M S A) s Q :
  runs (m1;; m2) s (fun _ s' => runs k s' Q) -> runs (m1;; m2;; k) s Q.
Proof.
  unfold runs, mbind, M_bind. destruct (m1 s) as [[[]| | |] s1]; try done.
  by destruct (m2 s1) as [[[]| | |] s2].
Qed.
Lemma runs_seq3 {S A} (m1 m2 m3 : M S unit) (k : M S A) s Q :
  runs (m1;; m2;; m3) s (fun _ s' => runs k s' Q) -> runs (m1;; m2;; m3;; k) s Q.
Proof.
  unfold runs, mbind, M_bind. destruct (m1 s) as [[[]| | |] s1]; try done.
  destruct (m2 s1) as [[[]| | |] s2]; try done. by destruct (m3 s2) as [[[]| | |] s3].
Qed.
Lemma outcome_seq {A} (m1 m2 : M Book unit) (k : M Book A) b Q :
  outcome (m1;; m2) b (fun _ b' => outcome k b' Q) -> outcome (m1;; m2;; k) b Q.
Proof.
  unfold outcome, mbind, M_bind. destruct (m1 b) as [[[]| | |] b1]; try done.
  by destruct (m2 b1) as [[[]| | |] b2].
Qed.
Lemma outcome_seq3 {A} (m1 m2 m3 : M Book unit) (k : M Book A) b Q :
  outcome (m1;; m2;; m3) b (fun _ b' => outcome k b' Q) -> outcome (m1;; m2;; m3;; k) b Q.
Proof.
  unfold outcome, mbind, M_bind. destruct (m1 b) as [[[]| | |] b1]; try done.
  destruct (m2 b1) as [[[]| | |] b2]; try done. by destruct (m3 b2) as [[[]| | |] b3].
Qed.

(* ------------------------------------------------------------------ *)
(** ** Steps of a whole book *)

Lemma whole_placed b i o : whole b -> content b i = Some (Order o) ->
  o.(in_side) = SIDE_LONG \/ o.(in_side) = SIDE_SHORT.
Proof.
  intros (tl & ts & tt & fl & Hb) Ho.
  destruct (shape_placed _ _ _ _ _ _ Hb i _ Ho) as [[? _]|[? _]]; [set_solver|auto..].
Qed.

(** A book that lost the order at [z] and nothing else. *)
Definition without (z : Z) (b b' : Book) : Prop :=
  content b' z = None /\ forall i, i <> z -> content b' i = content b i.

Lemma without_offers b b' z o : whole b -> whole b' -> content b z = Some (Order o) ->
  without z b b' -> traders_kept b b' /\ offers b' = delete o.(in_id) (offers b).
Proof.
  intros Hw Hw' Ho [Hz Hne].
  assert (Hk : traders_kept b b').
  { intros i d Hd. exists d. split; [|done]. rewrite Hne; [done|]. intros ->. congruence. }
  split; [done|]. apply (offers_delete b b' z Hw Hw' Hk); [|done|].
  - intros i o' Hi. by rewrite Hne.
  - intros o'. by rewrite Hz.
Qed.

(** An order leaves its tree and its slot. *)
Lemma take_out b z o : whole b -> content b z = Some (Order o) ->
  runs (IntentTree.remove o.(in_side) z;; free_node z) b (fun _ b' => whole b' /\ without z b b').
Proof.
  intros Hw Ho. pose proof (whole_placed b z o Hw Ho) as Hside.
  destruct Hw as (tl & ts & tt & fl & Hb). apply runs_bind.
  eapply runs_mono; [by apply (shape_remove [] b tl ts tt fl z o _ Hside Hb); [set_solver|..]|].
  intros [] b1 (t' & l1 & l2 & _ & _ & Hb1 & Hc1).
  eapply runs_mono; [apply (shape_free [] b1 _ _ _ _ z o Hb1); by rewrite Hc1|].
  intros [] b2 (fl' & Hb2 & Hz & Hne). split; [by do 4 eexists|].
  split; [done|]. intros i Hi. by rewrite Hne, Hc1.
Qed.

(** A seat updated in place, keeping its trader. *)
Lemma touch_desk b i d (f : SeatNode -> SeatNode) : whole b -> content b i = Some (Desk d) ->
  (forall n, SeatTree.node_links (f n) = SeatTree.node_links n /\ sn_trader (f n) = sn_trader n) ->
  runs (seat_mut i f) b (fun _ b' => whole b' /\ traders_kept b b' /\ offers b' = offers b /\
    b'.(header) = b.(header) /\
    (forall j o, content b' j = Some (Order o) <-> content b j = Some (Order o))).
Proof.
  intros Hw Hd Hf. apply content_desk in Hd as (n & Hn%seat_of_slot & _).
  destruct (Hf n) as [El Et]. pose proof Hw as (tl & ts & tt & fl & Hb).
  destruct (shape_touch_desk [] b tl ts tt fl Hb i n (f n) Hn El Et) as [Hb' Hc].
  unfold runs. rewrite (seat_mut_run _ _ _ _ Hn).
  assert (Hw' : whole (set_slot b i (RSeat (f n)))) by (by do 4 eexists).
  assert (Hci : content b i = Some (Desk (desk n))) by (unfold content; by rewrite Hn).
  assert (Hk : traders_kept b (set_slot b i (RSeat (f n)))).
  { intros j dj Hj. rewrite Hc. destruct (decide (j = i)) as [->|]; [|eauto].
    rewrite Hci in Hj. injection Hj as <-. by eexists. }
  assert (Hco : forall j o, content (set_slot b i (RSeat (f n))) j = Some (Order o) <->
    content b j = Some (Order o)).
  { intros j o. rewrite Hc. destruct (decide (j = i)) as [->|]; [by rewrite Hci|done]. }
  split; [done|]. split; [done|]. split; [|done].
  apply (offers_same b _ i Hw Hw' Hk); intros; apply Hco.
Qed.

(** An order updated in place: its fill and its reservations. *)
Lemma touch_order b i o n' : whole b -> content b i = Some (Order o) -> same_place o (order n') ->
  (exists n, slot b i = Some (RIntent n) /\ IntentTree.node_links n' = IntentTree.node_links n) ->
  runs (intent_mut i (fun _ => n')) b (fun _ b' => whole b' /\ traders_kept b b' /\
    content b' i = Some (Order (order n')) /\ (forall j, j <> i -> slot b' j = slot b j) /\
    offers b' = <[o.(in_id) := offer_of b n']> (offers b)).
Proof.
  intros Hw Ho (_ & Hs & Hp & Hq & Hid & Hown) (n & Hn & Hl).
  assert (Ho' : content b i = Some (Order (order n))) by (unfold content; by rewrite Hn).
  rewrite Ho in Ho'. injection Ho' as ->.
  assert (Hsame : same_place n n') by (by split_and!).
  pose proof Hw as (tl & ts & tt & fl & Hb).
  destruct (shape_touch_order [] b tl ts tt fl Hb i n n' Hn Hsame) as [Hb' Hc].
  unfold runs. rewrite (intent_mut_run _ _ _ _ Hn).
  assert (Hw' : whole (set_slot b i (RIntent n'))) by (by do 4 eexists).
  assert (Hk : traders_kept b (set_slot b i (RIntent n'))).
  { intros j dj Hj. rewrite Hc. destruct (decide (j = i)) as [->|]; [congruence|eauto]. }
  split; [done|]. split; [done|]. split; [by rewrite Hc, decide_True|].
  split.
  { intros j Hj. apply slot_set_other; [|done].
    pose proof (content_pos _ _ _ _ (shape_pool _ _ _ _ _ _ Hb) Ho). lia. }
  rewrite (offers_insert b _ i Hw Hw' Hk) with (o' := order n').
  - f_equal; [done|].
    destruct (shape_owner _ _ _ _ _ _ Hb i _ Ho) as [d Hd]. destruct (Hk _ _ Hd) as (d' & Hd' & E).
    cbn in Hown, Hd, Hd'. unfold offer_of, seat_owner. cbn. rewrite Hown. by rewrite Hd, Hd', E.
  - intros j oj Hj. by rewrite Hc, decide_False.
  - by rewrite Hc, decide_True.
  - intros o0. rewrite Ho. intros [= <-]. done.
Qed.

(* ------------------------------------------------------------------ *)
(** ** Placing an offer *)

Lemma trader_content b i x :
  trader_of b i = Some x <-> exists d, content b i = Some (Desk d) /\ d.(sn_trader) = x.
Proof.
  unfold trader_of, content, seat_of. destruct (slot b i) as [[]|]; cbn; naive_solver.
Qed.

Lemma write_seat_run b i n s : slot b i = Some s -> write_seat i n b = (Ok tt, set_slot b i (RSeat n)).
Proof. unfold write_seat. intros Hs. rewrite (bind_ok _ _ b b b) by done. by rewrite Hs. Qed.
Lemma write_intent_run b i n s : slot b i = Some s -> write_intent i n b = (Ok tt, set_slot b i (RIntent n)).
Proof. unfold write_intent. intros Hs. rewrite (bind_ok _ _ b b b) by done. by rewrite Hs. Qed.

(** The counters of the header. *)
Definition counters (b : Book) : Z * Z := (b.(header).(bh_next_intent_id), b.(header).(bh_next_seq)).

Lemma whole_counters b id seq : whole b -> b.(header).(bh_next_intent_id) <= id ->
  b.(header).(bh_next_seq) <= seq ->
  whole (with_header b (header_counters b.(header) id seq)).
Proof.
  intros (tl & ts & tt & fl & Hb) Hid Hseq. exists tl, ts, tt, fl.
  apply (shape_header _ b _ _ _ _ fl); try done.
  apply (pool_ok_ext b); try done. apply (shape_pool _ _ _ _ _ _ Hb).
Qed.

Lemma draw_id b : whole b ->
  outcome next_intent_id b (fun id b' => whole b' /\ (forall i, content b' i = content b i) /\
    id = b.(header).(bh_next_intent_id) /\ counters b' = (id + 1, b.(header).(bh_next_seq))).
Proof.
  intros Hw. unfold next_intent_id. apply outcome_bind, outcome_gets.
  apply outcome_bind, outcome_ok_or; [done|]. intros id' [-> _]%checked_some.
  split; [apply whole_counters; [done|lia|lia]|done].
Qed.
Lemma draw_seq b : whole b ->
  outcome next_seq b (fun s b' => whole b' /\ (forall i, content b' i = content b i) /\
    s = b.(header).(bh_next_seq) /\ counters b' = (b.(header).(bh_next_intent_id), s + 1)).
Proof.
  intros Hw. unfold next_seq. apply outcome_bind, outcome_gets.
  apply outcome_bind, outcome_ok_or; [done|]. intros s' [-> _]%checked_some.
  split; [apply whole_counters; [done|lia|lia]|done].
Qed.

Lemma find_or_create_seats b trader : whole b ->
  outcome (find_or_create trader) b (fun i b' => whole b' /\ traders_kept b b' /\
    offers b' = offers b /\ trader_of b' i = Some trader /\ counters b' = counters b).
Proof.
  intros Hw. pose proof Hw as (tl & ts & tt & fl & Hb).
  pose proof (shape_seats _ _ _ _ _ _ Hb) as Ht. unfold find_or_create.
  apply outcome_bind, outcome_runs. eapply runs_mono; [by apply find_ok|].
  intros i b1 (-> & [[-> Habsent]|[Hi Htr]]).
  - cbn [Z.eqb NULL_IDX negb]. apply outcome_bind. pose proof (shape_alloc [] b tl ts tt fl Hb) as Ha.
    unfold outcome at 1. destruct (alloc_node b) as [[i|e| |] b1]; try done.
    2: { by destruct Ha as [_ ->]. }
    destruct Ha as (fl1 & Hb1 & Hf & Hc1 & F1 & F2).
    assert (Hidle : content b i = None) by (rewrite <- Hc1; by eapply fresh_idle).
    destruct Hf as (Hpos & Hfl & next & Hs).
    set (n := {| sn_color := RB_RED; sn_left := NULL_IDX; sn_right := NULL_IDX;
                 sn_parent := NULL_IDX; sn_trader := trader;
                 sn_active_intent_count := 0; sn_flags := 0 |}).
    apply outcome_bind. unfold outcome at 1. rewrite (write_seat_run _ _ n _ Hs).
    assert (Hf : fresh b1 fl1 i) by (by split; [|split; [|exists next]]).
    pose proof (shape_write_desk [] b1 tl ts tt fl1 Hb1 i Hf n) as Hb2.
    assert (Hc2 : forall j, content (set_slot b1 i (RSeat n)) j =
      if decide (j = i) then Some (Desk (desk n)) else content b j).
    { intros j. rewrite (written_content b1 fl1 i Hf). by rewrite Hc1. }
    apply outcome_bind, outcome_runs. eapply runs_mono.
    { apply (shape_insert_desk [] _ tl ts tt fl1 i n Hb2); [set_solver|by eapply slot_set_eq|].
      intros j Hj Htr. apply (Habsent j Hj). apply trader_content in Htr as (d & Hd & Ed).
      rewrite Hc2 in Hd. destruct (decide (j = i)) as [->|]; [|apply trader_content; by exists d].
      destruct (seats_hold_desks b tt i Ht Hj) as [d' Hd']. congruence. }
    intros [] b3 (tt' & Hb3 & Hi & _ & Hc3 & F3 & F4). apply outcome_ret.
    assert (Hw3 : whole b3) by (by do 4 eexists).
    assert (Hk : traders_kept b b3).
    { intros j d Hd. exists d. rewrite Hc3, Hc2, decide_False; [done|]. intros ->. congruence. }
    split_and!; [done|done| | |].
    + apply (offers_same b b3 i Hw Hw3 Hk).
      * intros j o Hj. by rewrite Hc3, Hc2, decide_False.
      * intros o. rewrite Hc3, Hc2, decide_True, Hidle by done. done.
    + apply trader_content. exists (desk n). split; [|done]. by rewrite Hc3, Hc2, decide_True.
    + unfold counters. rewrite F3, F4. cbn. by rewrite F1, F2.
  - assert (i <> NULL_IDX).
    { destruct (seats_hold_desks b tt i Ht Hi) as [d Hd].
      pose proof (content_pos _ _ _ _ (shape_pool _ _ _ _ _ _ Hb) Hd). unfold NULL_IDX. lia. }
    rewrite (proj2 (Z.eqb_neq i NULL_IDX)) by done. cbn [negb]. apply outcome_ret.
    split_and!; try done. apply traders_kept_refl.
Qed.

(** A new order in a fresh slot, then in its tree. *)
Lemma settle_order {A} (k : M Book A) Q b n d side : whole b -> content b n.(in_owner_seat) = Some (Desk d) ->
  (side = SIDE_LONG \/ side = SIDE_SHORT) -> n.(in_side) = side ->
  n.(in_id) < b.(header).(bh_next_intent_id) -> n.(in_post_seq) < b.(header).(bh_next_seq) ->
  (forall j o, content b j = Some (Order o) -> o.(in_id) <> n.(in_id)) ->
  (forall b', whole b' -> traders_kept b b' -> offers b' = <[n.(in_id) := offer_of b n]> (offers b) ->
    outcome k b' Q) ->
  outcome (i ← alloc_node; write_intent i n;; IntentTree.insert side i;; k) b Q.
Proof.
  intros Hw Hd Hside Hn Hid Hseq Hnew HQ. pose proof Hw as (tl & ts & tt & fl & Hb).
  apply outcome_bind. pose proof (shape_alloc [] b tl ts tt fl Hb) as Ha.
  unfold outcome at 1. destruct (alloc_node b) as [[i|e| |] b1]; try done.
  2: { by destruct Ha as [_ ->]. }
  destruct Ha as (fl1 & Hb1 & Hf & Hc1 & F1 & F2).
  assert (Hidle : content b i = None) by (rewrite <- Hc1; by eapply fresh_idle).
  pose proof Hf as (Hpos & Hfl & next & Hs).
  apply outcome_bind. unfold outcome at 1. rewrite (write_intent_run _ _ n _ Hs).
  assert (Hb2 : book_shape [i] (set_slot b1 i (RIntent n)) tl ts tt fl1).
  { eapply (shape_write_order [] b1 tl ts tt fl1 Hb1 i Hf n d); [by rewrite Hc1|lia|lia|].
    intros j o. rewrite Hc1. apply Hnew. }
  assert (Hc2 : forall j, content (set_slot b1 i (RIntent n)) j =
    if decide (j = i) then Some (Order (order n)) else content b j).
  { intros j. rewrite (written_content b1 fl1 i Hf). by rewrite Hc1. }
  apply outcome_bind, outcome_runs. eapply runs_mono.
  { apply (shape_insert [] _ tl ts tt fl1 i n side Hside Hb2); [set_solver|by eapply slot_set_eq|done]. }
  intros [] b3 (t' & l1 & l2 & _ & _ & Hb3 & Hc3).
  assert (Hw3 : whole b3) by (by do 4 eexists).
  assert (Hk : traders_kept b b3).
  { intros j dj Hj. exists dj. rewrite Hc3, Hc2, decide_False; [done|]. intros ->. congruence. }
  apply (HQ b3 Hw3 Hk). rewrite (offers_insert b b3 i Hw Hw3 Hk) with (o' := order n).
  - cbn [in_id order IntentTree.set_links]. f_equal. destruct (Hk _ _ Hd) as (d' & Hd' & E).
    unfold offer_of, seat_owner. cbn. by rewrite Hd, Hd', E.
  - intros j o Hj. by rewrite Hc3, Hc2, decide_False.
  - by rewrite Hc3, Hc2, decide_True.
  - intros o. by rewrite Hidle.
Qed.

Lemma place_refines b owner side flags price contracts expiration reserve fee :
  whole b -> (side = SIDE_LONG \/ side = SIDE_SHORT) ->
  outcome (place_intent owner side flags price contracts expiration reserve fee) b (fun id b' =>
    whole b' /\ traders_kept b b' /\ id = b.(header).(bh_next_intent_id) /\
    offers b !! id = None /\
    offers b' = <[id := {| of_owner := owner; of_side := side; of_flags := flags; of_price := price;
      of_total := contracts; of_left := contracts; of_expiry := expiration;
      of_seq := b.(header).(bh_next_seq); of_reserved := reserve; of_fee := fee |}]> (offers b)).
Proof.
  intros Hw Hside. unfold place_intent. apply outcome_bind.
  eapply outcome_mono; [by apply find_or_create_seats|].
  intros s b1 (Hw1 & Hk1 & Ho1 & (d & Hd & Htr)%trader_content & Hcnt1).
  pose proof Hd as (n & Hn%seat_of_slot & En)%content_desk.
  apply outcome_bind. eapply outcome_run; [by apply seat_run|].
  apply outcome_bind, outcome_ok_or; [done|]. intros count _.
  apply outcome_bind, outcome_runs.
  eapply runs_mono; [by apply (touch_desk b1 s d)|]. intros [] b2 (Hw2 & Hk2 & Ho2 & Hh2 & _).
  apply outcome_bind. eapply outcome_mono; [by apply draw_id|].
  intros id b3 (Hw3 & Hc3 & Eid & Hcnt3).
  apply outcome_bind. eapply outcome_mono; [by apply draw_seq|].
  intros seq b4 (Hw4 & Hc4 & Eseq & Hcnt4).
  unfold counters in *. rewrite Hh2 in *. injection Hcnt1 as F1 F2. injection Hcnt3 as F3 F4.
  injection Hcnt4 as F5 F6.
  destruct (Hk2 _ _ Hd) as (d2 & Hd2 & Htr2).
  assert (Ho4 : offers b4 = offers b).
  { rewrite <- Ho1, <- Ho2, <- (offers_content b2 b3), <- (offers_content b3 b4) by done. done. }
  assert (Hnone : offers b !! id = None).
  { apply offers_none; [done|]. intros i o Ho. destruct Hw as (tl & ts & tt & fl & Hb).
    destruct (shape_fresh _ _ _ _ _ _ Hb i o Ho). lia. }
  assert (Hdesk : content b4 s = Some (Desk d2)) by (by rewrite Hc4, Hc3).
  assert (Hk4 : traders_kept b b4).
  { eapply traders_kept_trans; [exact Hk1|]. eapply traders_kept_trans; [exact Hk2|].
    apply traders_kept_content. intros i. by rewrite Hc4, Hc3. }
  eapply settle_order; [exact Hw4|exact Hdesk|exact Hside|done|cbn; lia|cbn; lia|..].
  - intros j o Hj. rewrite <- Ho4 in Hnone. by apply (proj1 (offers_none b4 id Hw4) Hnone j).
  - intros b5 Hw5 Hk5 Ho5. apply outcome_ret. split_and!; [done| |lia|done|].
    + by eapply traders_kept_trans.
    + rewrite Ho5, Ho4. cbn. f_equal. unfold offer_of, seat_owner. cbn. rewrite Hdesk. f_equal; congruence.
Qed.

(* ------------------------------------------------------------------ *)
(** ** Finding an offer by its id *)

Lemma find_in_slots_ok id j ns :
  match find_in_slots id j ns with
  | Ok (i, side) => exists k n, ns !! k = Some (RIntent n) /\ i = j + Z.of_nat k /\
      n.(in_id) = id /\ side = n.(in_side)
  | Err e => e = IntentNotFound /\ forall n, RIntent n ∈ ns -> n.(in_id) <> id
  | _ => False
  end.
Proof.
  revert j. induction ns as [|s ns IH]; intros j; cbn [find_in_slots]; [set_solver|].
  assert (Hskip : (forall n, s = RIntent n -> n.(in_id) <> id) ->
    match find_in_slots id (j + 1) ns with
    | Ok (i, side) => exists k n, (s :: ns) !! k = Some (RIntent n) /\ i = j + Z.of_nat k /\
        n.(in_id) = id /\ side = n.(in_side)
    | Err e => e = IntentNotFound /\ forall n, RIntent n ∈ s :: ns -> n.(in_id) <> id
    | _ => False
    end).
  { intros Hs. specialize (IH (j + 1)).
    destruct (find_in_slots id (j + 1) ns) as [[i side]|e| |]; try done.
    - destruct IH as (k & n & Hk & -> & Hid & Hside). exists (S k), n. split_and!; [done|lia|done|done].
    - destruct IH as [-> Hall]. split; [done|]. intros n [E|Hn]%elem_of_cons; [by apply Hs|by apply Hall]. }
  destruct s as [nx|n|n]; cbn [tag as_intent]; [by apply Hskip| |by apply Hskip].
  cbn [Z.eqb NODE_TAG_INTENT negb]. destruct (Z.eqb_spec n.(in_id) id) as [E|E].
  - exists O, n. split_and!; [done|lia|done|done].
  - apply Hskip. by intros m [= <-].
Qed.

Lemma find_by_id b id : whole b ->
  (exists i n, find_intent_by_id id b = (Ok (i, n.(in_side)), b) /\ slot b i = Some (RIntent n) /\
     n.(in_id) = id /\ offers b !! id = Some (offer_of b n)) \/
  (find_intent_by_id id b = (Err IntentNotFound, b) /\ offers b !! id = None).
Proof.
  intros Hw. pose proof (find_in_slots_ok id 0 b.(nodes)) as H. unfold find_intent_by_id.
  rewrite (bind_ok _ _ b b b) by done. unfold lift.
  destruct (find_in_slots id 0 (nodes b)) as [[i side]|e| |]; try done.
  - destruct H as (k & n & Hk & -> & Hid & ->). left. exists (0 + Z.of_nat k), n.
    assert (Hs : slot b (0 + Z.of_nat k) = Some (RIntent n)).
    { unfold slot. by replace (Z.to_nat (0 + Z.of_nat k)) with k by lia. }
    split_and!; try done. apply offers_spec; [done|]. exists (0 + Z.of_nat k), (order n).
    split_and!; [|done|done]. unfold content. by rewrite Hs.
  - destruct H as [-> Hall]. right. split; [done|]. apply offers_none; [done|].
    intros i o (n & Hn%node_of_slot & <-)%content_order. apply (Hall n).
    unfold slot in Hn. by eapply list_elem_of_lookup_2.
Qed.

Lemma order_seat b i n : whole b -> slot b i = Some (RIntent n) ->
  exists m d, seat n.(in_owner_seat) b = (Ok m, b) /\ content b n.(in_owner_seat) = Some (Desk d) /\
    m.(sn_trader) = seat_owner b n.(in_owner_seat).
Proof.
  intros (tl & ts & tt & fl & Hb) Hn.
  assert (Ho : content b i = Some (Order (order n))) by (unfold content; by rewrite Hn).
  destruct (shape_owner _ _ _ _ _ _ Hb i _ Ho) as [d Hd]. cbn in Hd.
  pose proof Hd as (m & Hm%seat_of_slot & Em)%content_desk. exists m, d.
  split; [by apply seat_run|]. split; [done|]. unfold seat_owner. rewrite Hd. by rewrite <- Em.
Qed.

(* ------------------------------------------------------------------ *)
(** ** Cancelling *)

Section cancel.
Context {R : Runtime}.

(** A check reads and may refuse. *)
Definition is_check (m : M Book unit) : Prop :=
  forall b, m b = (Ok tt, b) \/ exists e, m b = (Err e, b).

Lemma outcome_check m b (Q : unit -> Book -> Prop) :
  is_check m -> whole b -> (m b = (Ok tt, b) -> Q tt b) -> outcome m b Q.
Proof. intros Hm Hw HQ. destruct (Hm b) as [E|[e E]]; unfold outcome; rewrite E; auto. Qed.

Lemma outcome_assert_pda seeds k b (Q : Z -> Book -> Prop) : whole b ->
  (forall bump, find_program_address seeds = (k, bump) -> Q bump b) ->
  outcome (assert_pda seeds k) b Q.
Proof.
  intros Hw HQ. unfold assert_pda. destruct (find_program_address seeds) as [pda bump] eqn:E.
  apply outcome_bind, outcome_bail; [done|]. intros Hk%negb_false_iff%Z.eqb_eq. apply outcome_ret.
  apply HQ. congruence.
Qed.

(** The writes of a cancel: the order leaves its tree and slot, its owner's count drops. *)
Lemma cancel_writes b i n : whole b -> slot b i = Some (RIntent n) ->
  runs (IntentTree.remove n.(in_side) i;; free_node i;;
    seat_mut n.(in_owner_seat) (fewer_intents 1)) b
    (fun _ b' => whole b' /\ traders_kept b b' /\ offers b' = delete n.(in_id) (offers b) /\
       (forall j o, content b' j = Some (Order o) <-> j <> i /\ content b j = Some (Order o))).
Proof.
  intros Hw Hn. assert (Ho : content b i = Some (Order (order n))) by (unfold content; by rewrite Hn).
  destruct (order_seat b i n Hw Hn) as (m & d & _ & Hd & _).
  pose proof (take_out b i _ Hw Ho) as Ht. cbn [in_side order IntentTree.set_links] in Ht.
  apply runs_seq. eapply runs_mono; [exact Ht|]. intros [] b2 [Hw2 Hwo].
  destruct (without_offers b b2 i _ Hw Hw2 Ho Hwo) as [Hk2 Ho2]. destruct Hwo as [Hi Hne].
  destruct (Hk2 _ _ Hd) as (d2 & Hd2 & _).
  eapply runs_mono; [by apply (touch_desk b2 _ d2)|].
  intros [] b3 (Hw3 & Hk3 & Ho3 & _ & Hc3). split_and!; [done|by eapply traders_kept_trans|by rewrite Ho3|].
  intros j o. rewrite Hc3. destruct (decide (j = i)) as [->|Hj]; [rewrite Hi; naive_solver|].
  rewrite Hne by done. tauto.
Qed.

Lemma cancel_refines b id mint margin authorize :
  whole b -> (forall owner expired, is_check (authorize owner expired)) ->
  outcome (cancel_on_book id mint margin authorize) b (fun '(owner, bump, total) b' =>
    whole b' /\ offers b' = delete id (offers b) /\
    exists f, offers b !! id = Some f /\ owner = f.(of_owner) /\
      total = f.(of_reserved) + f.(of_fee) /\
      find_program_address [SEED_MARGIN; key_seed owner; key_seed mint] = (margin, bump) /\
      authorize owner (f.(of_expiry) <=? clock_slot) b = (Ok tt, b)).
Proof.
  intros Hw Hauth. unfold cancel_on_book. apply outcome_bind.
  destruct (find_by_id b id Hw) as [(i & n & E & Hn & Hid & Hf)|[E _]]; unfold outcome at 1; rewrite E; [|done].
  destruct (order_seat b i n Hw Hn) as (m & d & Hm & Hd & Hown).
  apply outcome_bind. eapply outcome_run; [by apply intent_run|].
  apply outcome_bind. eapply outcome_run; [exact Hm|]. rewrite Hown.
  apply outcome_bind, outcome_check; [apply Hauth|done|]. intros Hok.
  apply outcome_bind, outcome_assert_pda; [done|]. intros bump Hpda.
  apply outcome_seq3, outcome_runs.
  eapply runs_mono; [by apply cancel_writes|]. intros [] b' (Hw' & _ & Ho' & _).
  apply outcome_bind, outcome_ok_or; [done|]. intros total [-> _]%checked_some. apply outcome_ret.
  split; [done|]. split; [by rewrite Ho', Hid|]. exists (offer_of b n). split_and!; done.
Qed.

(** An offer whose canceller is authorised and whose reservations fit goes. *)
Lemma cancel_succeeds b id mint margin authorize f bump :
  whole b -> offers b !! id = Some f ->
  authorize f.(of_owner) (f.(of_expiry) <=? clock_slot) b = (Ok tt, b) ->
  find_program_address [SEED_MARGIN; key_seed f.(of_owner); key_seed mint] = (margin, bump) ->
  is_u64 (f.(of_reserved) + f.(of_fee)) ->
  runs (cancel_on_book id mint margin authorize) b (fun r b' =>
    r = (f.(of_owner), bump, f.(of_reserved) + f.(of_fee)) /\
    whole b' /\ offers b' = delete id (offers b)).
Proof.
  intros Hw Hf Hauth Hpda Hfit. unfold cancel_on_book.
  destruct (find_by_id b id Hw) as [(i & n & E & Hn & Hid & Hf')|[_ Hf']]; [|congruence].
  rewrite Hf in Hf'. injection Hf' as ->.
  destruct (order_seat b i n Hw Hn) as (m & d & Hm & Hd & Hown).
  apply runs_bind. unfold runs at 1. rewrite E.
  apply runs_bind. unfold runs at 1. rewrite (intent_run _ _ _ Hn).
  apply runs_bind. unfold runs at 1. rewrite Hm, Hown.
  apply runs_bind. unfold runs at 1. cbn [offer_of of_owner of_expiry of_reserved of_fee] in *. rewrite Hauth.
  apply runs_bind. unfold assert_pda. rewrite Hpda, Z.eqb_refl.
  apply runs_bind, runs_bail_if; [done|]. apply runs_ret.
  apply runs_seq3. eapply runs_mono; [by apply cancel_writes|]. intros [] b' (Hw' & _ & Ho' & _).
  apply runs_bind. rewrite (proj2 (checked_some U64_MAX _ _) (conj eq_refl Hfit)).
  apply runs_ret, runs_ret. split; [done|]. split; [done|]. by rewrite Ho', Hid.
Qed.
End cancel.

(* ------------------------------------------------------------------ *)
(** ** Pruning *)

(** What the offers [ids] hold together. *)
Definition held (m : gmap Z Offer) (ids : list Z) : Z :=
  foldr (fun id acc => match m !! id with Some f => f.(of_reserved) + f.(of_fee) | None => 0 end + acc)
    0 ids.

(** A list of slots to prune: distinct, each with an order of the named side. *)
Definition prunable (b : Book) (w : list (Z * Z)) (ids : list Z) : Prop :=
  NoDup (map snd w) /\
  Forall2 (fun e id => exists o, content b e.2 = Some (Order o) /\ o.(in_side) = e.1 /\ o.(in_id) = id)
    w ids.

Lemma prunable_ids b w ids : whole b -> prunable b w ids -> NoDup ids.
Proof.
  intros (tl & ts & tt & fl & Hb) [Hnd Hw]. induction Hw as [|[side i] id w ids (o & Ho & _ & <-) Hw IH];
    [constructor|].
  cbn in Hnd, Ho. apply NoDup_cons in Hnd as [Hi Hnd]. constructor; [|by apply IH].
  intros Hin. apply list_elem_of_lookup in Hin as [k Hk].
  destruct (Forall2_lookup_r _ _ _ _ _ Hw Hk) as ([s j] & Hj & o' & Ho' & _ & E). cbn in Ho'.
  assert (i = j) as -> by (by apply (shape_unique _ _ _ _ _ _ Hb i j o o')).
  apply Hi, list_elem_of_fmap. exists (s, j). split; [done|]. by eapply list_elem_of_lookup_2.
Qed.

Lemma prunable_tail b b' side i w id ids :
  prunable b ((side, i) :: w) (id :: ids) ->
  (forall j o, content b' j = Some (Order o) <-> j <> i /\ content b j = Some (Order o)) ->
  prunable b' w ids.
Proof.
  intros [Hnd Hw] Hc. cbn in Hnd. apply NoDup_cons in Hnd as [Hi Hnd]. split; [done|].
  inversion Hw as [|? ? ? ? _ Hw']; subst.
  apply Forall2_same_length_lookup in Hw' as [Hlen Hw'].
  apply Forall2_same_length_lookup. split; [done|]. intros k [s j] id' Hk Hid.
  destruct (Hw' k _ _ Hk Hid) as (o & Ho & Hs & E). exists o. split; [|done]. apply Hc.
  split; [|done]. cbn. intros ->. apply Hi, list_elem_of_fmap. exists (s, i).
  split; [done|]. by eapply list_elem_of_lookup_2.
Qed.

Lemma held_delete m id ids : id ∉ ids -> held (delete id m) ids = held m ids.
Proof.
  intros Hid. induction ids as [|id' ids IH]; [done|]. cbn. apply not_elem_of_cons in Hid as [Hne Hid].
  unfold held in IH. by rewrite IH, lookup_delete_ne.
Qed.

Lemma apply_prunes_refines work ids b refund : whole b ->
  prunable b (map fst work) ids ->
  Forall2 (fun e id => exists f, offers b !! id = Some f /\ e.2 = f.(of_reserved) + f.(of_fee)) work ids ->
  outcome (apply_prunes work refund) b (fun total b' => whole b' /\ traders_kept b b' /\
    offers b' = foldr delete (offers b) ids /\ total = refund + held (offers b) ids).
Proof.
  revert b ids refund. induction work as [|[[side i] amount] work IH]; intros b ids refund Hw Hp Ht.
  { inversion Ht; subst. unfold outcome. cbn. split_and!; try done; [apply traders_kept_refl|lia]. }
  pose proof (prunable_ids _ _ _ Hw Hp) as Hnd.
  inversion Ht as [|? id ? ids' (f & Hf & Hamount) Ht']; subst. cbn in Hamount. apply NoDup_cons in Hnd as [Hid Hnd].
  pose proof Hp as [_ Hp2]. inversion Hp2 as [|? ? ? ? (o & Ho & Hside & Eid) _]; subst. cbn in Ho, Hside.
  subst side. cbn [apply_prunes]. pose proof (take_out b i o Hw Ho) as Hto.
  apply outcome_seq, outcome_runs. eapply runs_mono; [exact Hto|]. intros [] b1 [Hw1 Hwo].
  destruct (without_offers b b1 i o Hw Hw1 Ho Hwo) as [Hk1 Ho1].
  apply outcome_bind, outcome_ok_or; [done|]. intros refund' [-> _]%checked_some.
  eapply outcome_mono; [apply (IH b1 ids' _); [done|..]|].
  - eapply prunable_tail; [exact Hp|]. destruct Hwo as [Hi Hne]. intros j o'.
    destruct (decide (j = i)) as [->|Hj]; [rewrite Hi; naive_solver|]. rewrite Hne by done. tauto.
  - apply Forall2_same_length_lookup in Ht' as [Hlen Ht']. apply Forall2_same_length_lookup.
    split; [done|]. intros k x y Hx Hy. destruct (Ht' k x y Hx Hy) as (g & Hg & Ex).
    exists g. split; [|done]. rewrite Ho1, lookup_delete_ne; [done|]. intros <-.
    apply Hid. by eapply list_elem_of_lookup_2.
  - intros total b2 (Hw2 & Hk2 & Ho2 & ->). split; [done|]. split; [by eapply traders_kept_trans|].
    rewrite Ho2, Ho1, held_delete by done. split; [|unfold held; cbn; rewrite Hf; lia].
    cbn [foldr]. clear -Hid. induction ids' as [|y ys IHy]; [done|]. cbn.
    apply not_elem_of_cons in Hid as [Hne Hid]. rewrite IHy by done. apply delete_delete.
Qed.

(** An entry of the scan: an expired, unfilled order of the seat at its slot. *)
Definition stale (seat_idx now j : Z) (ns : list RawNode) (e : Z * Z * Z) : Prop :=
  exists k n, ns !! k = Some (RIntent n) /\ e = (n.(in_side), j + Z.of_nat k,
      n.(in_reserved_collateral) + n.(in_fee_buffer)) /\
    n.(in_owner_seat) = seat_idx /\ n.(in_expiration_slot) <= now /\ n.(in_contracts_remaining) <> 0.
Definition scanned (seat_idx now : Z) (room : nat) (j : Z) (ns : list RawNode)
    (r : Res (list (Z * Z * Z))) : Prop :=
  match r with
  | Ok work => (length work <= room)%nat /\ StronglySorted (fun e e' => e.1.2 < e'.1.2) work /\
      Forall (stale seat_idx now j ns) work
  | Err _ => True
  | _ => False
  end.

Lemma stale_shift seat_idx now j s ns work :
  Forall (stale seat_idx now (j + 1) ns) work -> Forall (stale seat_idx now j (s :: ns)) work.
Proof.
  intros H. eapply Forall_impl; [exact H|]. intros e (k & n & Hk & -> & Hn).
  exists (S k), n. split; [done|]. split; [f_equal; f_equal; lia|done].
Qed.

Lemma collect_own_ok seat_idx now room j ns :
  scanned seat_idx now room j ns (collect_own_expired seat_idx now room j ns).
Proof.
  revert room j. induction ns as [|s ns IH]; intros room j; cbn [collect_own_expired].
  { split_and!; [cbn; lia|constructor|constructor]. }
  destruct room as [|room].
  { split_and!; [cbn; lia|constructor|constructor]. }
  assert (Hskip : scanned seat_idx now (S room) j (s :: ns)
    (collect_own_expired seat_idx now (S room) (j + 1) ns)).
  { specialize (IH (S room) (j + 1)). unfold scanned in *.
    destruct (collect_own_expired _ _ _ _ ns); try done.
    destruct IH as (H1 & H2 & H3). eauto using stale_shift. }
  destruct s as [nx|n|n]; cbn [as_intent]; [exact Hskip| |exact Hskip].
  destruct (_ || _) eqn:Ec; [exact Hskip|].
  apply orb_false_iff in Ec as [[Es%negb_false_iff%Z.eqb_eq Et%Z.ltb_ge]%orb_false_iff Er%Z.eqb_neq].
  destruct (opt_ok_or _ _) as [total|e| |] eqn:Eo; cbn; try done.
  2, 3: by (unfold opt_ok_or in Eo; destruct (checked _ _)).
  specialize (IH room (j + 1)). unfold scanned in IH.
  destruct (collect_own_expired _ _ _ _ ns) as [work| | |]; cbn; try done.
  destruct IH as (H1 & H2 & H3). split; [cbn; lia|]. split.
  - constructor; [done|]. eapply Forall_impl; [exact H3|]. intros e (k & m & _ & -> & _). cbn. lia.
  - constructor; [|by apply stale_shift]. exists O, n. unfold opt_ok_or in Eo.
    destruct (checked _ _) as [t|] eqn:Ek; [|done]. injection Eo as <-. apply checked_some in Ek as [-> _].
    split_and!; try done. f_equal. f_equal. lia.
Qed.

Lemma forall_choose {A B} (P : A -> Prop) (Q : A -> B -> Prop) l :
  Forall P l -> (forall x, P x -> exists y, Q x y) -> exists l', Forall2 Q l l'.
Proof.
  intros Hl HQ. induction Hl as [|x l Hx Hl [l' IH]]; [exists []; constructor|].
  destruct (HQ x Hx) as [y Hy]. exists (y :: l'). by constructor.
Qed.

(** What pruning may remove: a stale offer of the trader. *)
Definition prunes (b : Book) (owner : Pubkey) (now id : Z) : Prop :=
  exists f, offers b !! id = Some f /\ f.(of_owner) = owner /\ f.(of_expiry) <= now /\ f.(of_left) <> 0.

Lemma stale_prunable b seat_idx now work : whole b ->
  StronglySorted (fun e e' => e.1.2 < e'.1.2) work -> Forall (stale seat_idx now 0 b.(nodes)) work ->
  exists ids, prunable b (map fst work) ids /\
    Forall2 (fun e id => exists f, offers b !! id = Some f /\ e.2 = f.(of_reserved) + f.(of_fee)) work ids /\
    Forall (prunes b (seat_owner b seat_idx) now) ids.
Proof.
  intros Hw Hs Hwork.
  assert (Hnd : NoDup (map snd (map fst work))).
  { clear Hwork. induction Hs as [|e work Hs IH He]; cbn; constructor; [|done].
    rewrite Forall_forall in He. intros ((i & j) & Ei & ((x & y) & Ex & Hx)%list_elem_of_fmap)%list_elem_of_fmap.
    apply He in Hx. cbn in *. simplify_eq. cbn in *. simplify_eq. cbn in *. lia. }
  destruct (forall_choose (stale seat_idx now 0 b.(nodes)) (fun e id =>
      (exists o, content b e.1.2 = Some (Order o) /\ o.(in_side) = e.1.1 /\ o.(in_id) = id) /\
      (exists f, offers b !! id = Some f /\ e.2 = f.(of_reserved) + f.(of_fee)) /\
      prunes b (seat_owner b seat_idx) now id) work Hwork) as [ids Hids].
  { intros e (k & n & Hk & -> & Hseat & Hexp & Hrem).
    assert (Hn : content b (0 + Z.of_nat k) = Some (Order (order n))).
    { unfold content, slot. by replace (Z.to_nat (0 + Z.of_nat k)) with k by lia; rewrite Hk. }
    assert (Hf : offers b !! n.(in_id) = Some (offer_of b n)).
    { apply offers_spec; [done|]. by exists (0 + Z.of_nat k), (order n). }
    exists n.(in_id). split_and!; [by exists (order n)|by exists (offer_of b n)|].
    exists (offer_of b n). split_and!; try done. cbn. by rewrite Hseat. }
  exists ids. apply Forall2_same_length_lookup in Hids as [Hlen Hids]. split_and!.
  - split; [done|]. apply Forall2_fmap_l, Forall2_same_length_lookup. split; [done|].
    intros k e id He Hid. by destruct (Hids k e id He Hid).
  - apply Forall2_same_length_lookup. split; [done|]. intros k e id He Hid.
    by destruct (Hids k e id He Hid) as (_ & ? & _).
  - apply Forall_forall. intros id [k Hk]%list_elem_of_lookup.
    destruct (lookup_lt_is_Some_2 work k) as [e He]; [rewrite Hlen; by eapply lookup_lt_Some|].
    by destruct (Hids k e id He Hk) as (_ & _ & ?).
Qed.

Lemma prune_own_refines b owner now : whole b ->
  outcome (prune_own owner now) b (fun refund b' => whole b' /\ exists ids,
    (length ids <= MAX_PRUNES_PER_POST)%nat /\ NoDup ids /\ Forall (prunes b owner now) ids /\
    offers b' = foldr delete (offers b) ids /\ refund = held (offers b) ids).
Proof.
  intros Hw. pose proof Hw as (tl & ts & tt & fl & Hb). unfold prune_own.
  apply outcome_bind, outcome_runs. eapply runs_mono; [by apply find_ok, (shape_seats _ _ _ _ _ _ Hb)|].
  intros i b1 (-> & Hi). destruct (Z.eqb_spec i NULL_IDX) as [->|Hne]; cbn [negb].
  { apply outcome_ret. split; [done|]. exists []. split_and!; try done; [cbn; lia|constructor]. }
  destruct Hi as [[? _]|[_ Htr]]; [done|]. apply trader_content in Htr as (d & Hd & Eo).
  apply outcome_bind, outcome_gets. cbn [id].
  pose proof (collect_own_ok i now MAX_PRUNES_PER_POST 0 b.(nodes)) as Hc.
  apply outcome_bind, outcome_lift; [done|..].
  { unfold scanned in Hc. split; intros E; by rewrite E in Hc. }
  intros work E. rewrite E in Hc. destruct Hc as (Hlen & Hs & Hwork).
  destruct (stale_prunable b i now work Hw Hs Hwork) as (ids & Hp & Ht & Hids).
  assert (Hown : seat_owner b i = owner) by (unfold seat_owner; by rewrite Hd).
  rewrite Hown in Hids.
  apply outcome_bind. eapply outcome_mono; [by apply (apply_prunes_refines work ids)|].
  intros refund b1 (Hw1 & Hk1 & Ho1 & ->). rewrite Z.add_0_l.
  assert (Hlen' : (length ids <= MAX_PRUNES_PER_POST)%nat) by (by rewrite <- (Forall2_length _ _ _ Ht)).
  pose proof (prunable_ids b _ ids Hw Hp) as Hnd. destruct (Hk1 _ _ Hd) as (d1 & Hd1 & _).
  apply outcome_bind, outcome_when; intros _.
  - apply outcome_runs. eapply runs_mono; [by apply (touch_desk b1 i d1)|].
    intros [] b2 (Hw2 & _ & Ho2 & _). apply outcome_ret. split; [done|]. exists ids. by rewrite Ho2.
  - apply outcome_ret. split; [done|]. by exists ids.
Qed.

(* ------------------------------------------------------------------ *)
(** ** Filling one contract of each side *)

(** What a fill of one contract leaves of an offer: nothing when it was the last. *)
Definition fill_offer (f : Offer) (reserve release : Z) : Offer :=
  {| of_owner := f.(of_owner); of_side := f.(of_side); of_flags := f.(of_flags);
     of_price := f.(of_price); of_total := f.(of_total); of_left := f.(of_left) - 1;
     of_expiry := f.(of_expiry); of_seq := f.(of_seq); of_reserved := f.(of_reserved) - reserve;
     of_fee := f.(of_fee) - release |}.
Definition fill_map (id reserve release : Z) (m : gmap Z Offer) : gmap Z Offer :=
  match m !! id with
  | Some f => if f.(of_left) =? 1 then delete id m else <[id := fill_offer f reserve release]> m
  | None => m
  end.
(** The part of the fee buffer one contract releases. *)
Definition released (f : Offer) : Z :=
  if f.(of_left) =? 1 then f.(of_fee) else f.(of_fee) / f.(of_left).

Lemma fill_map_other id reserve release m id' : id' <> id ->
  fill_map id reserve release m !! id' = m !! id'.
Proof.
  intros Hne. unfold fill_map. destruct (m !! id); [|done]. destruct (_ =? _).
  - by rewrite lookup_delete_ne.
  - by rewrite lookup_insert_ne.
Qed.

Lemma fee_release_ok n b release b' : fee_release n b = (Ok release, b') ->
  b' = b /\ release = if n.(in_contracts_remaining) =? 1 then n.(in_fee_buffer)
                      else n.(in_fee_buffer) / n.(in_contracts_remaining).
Proof.
  unfold fee_release. destruct (Z.eqb_spec n.(in_contracts_remaining) 1); intros H; inv_ok; [by subst|].
  split; [done|]. match goal with H : release_fee_buffer_for_fill _ _ _ = _ |- _ => revert H end.
  unfold release_fee_buffer_for_fill. destruct (_ || _); [done|]. destruct (_ =? _) eqn:E1.
  { apply Z.eqb_eq in E1. done. }
  unfold opt_ok_or, u64_try_from. destruct (checked _ _) as [r|] eqn:Er; [|done]. intros [= <-].
  apply checked_some in Er as [-> _]. by rewrite Z.mul_1_r.
Qed.
Lemma fee_release_safe n b (Q : Z -> Book -> Prop) : whole b ->
  (forall r, r = (if n.(in_contracts_remaining) =? 1 then n.(in_fee_buffer)
                  else n.(in_fee_buffer) / n.(in_contracts_remaining)) -> Q r b) ->
  outcome (fee_release n) b Q.
Proof.
  intros Hw HQ. unfold outcome. destruct (fee_release n b) as [[r|e| |] b'] eqn:E.
  - apply fee_release_ok in E as [-> ->]. by apply HQ.
  - assert (b' = b) as ->; [|done]. unfold fee_release, lift in E. destruct (_ =? 1); [done|by injection E].
  - exfalso. revert E. unfold fee_release, lift, release_fee_buffer_for_fill, opt_ok_or.
    destruct (_ =? 1); [done|]. destruct (_ || _); [done|]. destruct (_ =? _); [done|]. by destruct (u64_try_from _).
  - exfalso. revert E. unfold fee_release, lift, release_fee_buffer_for_fill, opt_ok_or.
    destruct (_ =? 1); [done|]. destruct (_ || _); [done|]. destruct (_ =? _); [done|]. by destruct (u64_try_from _).
Qed.

(** A filled order leaves the book, another stays. *)
Lemma drop_filled b i n side : whole b -> content b i = Some (Order (order n)) -> n.(in_side) = side ->
  runs (drop_if_filled side i n) b (fun _ b' => whole b' /\ traders_kept b b' /\
    (forall j, j <> i -> content b' j = content b j) /\
    offers b' = if n.(in_contracts_remaining) =? 0 then delete n.(in_id) (offers b) else offers b).
Proof.
  intros Hw Ho Hs. unfold drop_if_filled. destruct (n.(in_contracts_remaining) =? 0); cbn [when].
  - pose proof (take_out b i _ Hw Ho) as Ht. cbn [in_side order IntentTree.set_links] in Ht.
    rewrite Hs in Ht. eapply runs_mono; [exact Ht|]. intros [] b' [Hw' Hwo].
    destruct (without_offers b b' i _ Hw Hw' Ho Hwo) as [Hk Hof]. split_and!; try done. apply Hwo.
  - apply runs_ret. split_and!; try done. apply traders_kept_refl.
Qed.

Lemma fill_insert_delete (m : gmap Z Offer) id f reserve release :
  m !! id = Some f ->
  (if f.(of_left) - 1 =? 0 then delete id (<[id := fill_offer f reserve release]> m)
   else <[id := fill_offer f reserve release]> m) = fill_map id reserve release m.
Proof.
  intros Hf. unfold fill_map. rewrite Hf.
  destruct (Z.eqb_spec (f.(of_left) - 1) 0), (Z.eqb_spec f.(of_left) 1); try lia; [|done].
  by rewrite delete_insert_eq.
Qed.

(** Filling two offers in turn: each is replaced, then dropped when nothing is left of it. *)
Definition filled_in (offs : gmap Z Offer) (id reserve r : Z) (f : Offer) : gmap Z Offer :=
  <[id := fill_offer f reserve r]> offs.
Definition dropped_if_empty (offs : gmap Z Offer) (id : Z) (f : Offer) : gmap Z Offer :=
  if f.(of_left) - 1 =? 0 then delete id offs else offs.
Lemma fill_both offs li si lf sf reserve rl rs : si <> li ->
  offs !! li = Some lf -> offs !! si = Some sf ->
  dropped_if_empty (dropped_if_empty (filled_in (filled_in offs li reserve rl lf) si reserve rs sf) li lf) si sf =
  fill_map si reserve rs (fill_map li reserve rl offs).
Proof.
  intros Hne Hl Hs. rewrite <- (fill_insert_delete (fill_map _ _ _ _) si sf reserve rs) by (by rewrite fill_map_other).
  rewrite <- (fill_insert_delete offs li lf reserve rl) by done. unfold dropped_if_empty, filled_in.
  destruct (of_left lf - 1 =? 0), (of_left sf - 1 =? 0); try done; by rewrite !delete_insert_ne by done.
Qed.

Lemma consume_refines b li si long short reserve :
  whole b -> slot b li = Some (RIntent long) -> slot b si = Some (RIntent short) ->
  long.(in_side) = SIDE_LONG -> short.(in_side) = SIDE_SHORT ->
  outcome (consume_pair li si long short reserve) b (fun '(rl, rs) b' =>
    whole b' /\ traders_kept b b' /\
    rl = released (offer_of b long) /\ rs = released (offer_of b short) /\
    reserve <= long.(in_reserved_collateral) /\ reserve <= short.(in_reserved_collateral) /\
    offers b' = fill_map short.(in_id) reserve rs (fill_map long.(in_id) reserve rl (offers b))).
Proof.
  intros Hw Hl Hs Hsl Hss. unfold consume_pair, less_reserved, less_fee.
  apply outcome_bind, outcome_ok_or; [done|]. intros lr [-> Hlr]%checked_some.
  apply outcome_bind, outcome_ok_or; [done|]. intros sr [-> Hsr]%checked_some.
  apply outcome_bind, fee_release_safe; [done|]. intros rl Erl.
  apply outcome_bind, fee_release_safe; [done|]. intros rs Ers.
  apply outcome_bind, outcome_ok_or; [done|]. intros lf [-> _]%checked_some.
  apply outcome_bind, outcome_ok_or; [done|]. intros sf [-> _]%checked_some.
  set (long' := set_fill long _ _ _). set (short' := set_fill short _ _ _).
  assert (Hne : si <> li) by (intros ->; rewrite Hl in Hs; injection Hs as E; rewrite <- E, Hsl in Hss; discriminate).
  assert (Hcl : content b li = Some (Order (order long))) by (unfold content; by rewrite Hl).
  assert (Hcs : content b si = Some (Order (order short))) by (unfold content; by rewrite Hs).
  assert (Hfl : offers b !! long.(in_id) = Some (offer_of b long)).
  { apply offers_spec; [done|]. by exists li, (order long). }
  assert (Hfs : offers b !! short.(in_id) = Some (offer_of b short)).
  { apply offers_spec; [done|]. by exists si, (order short). }
  assert (Hids : short.(in_id) <> long.(in_id)).
  { destruct Hw as (tl & ts & tt & fl & Hb). intros E. apply Hne.
    by apply (shape_unique _ _ _ _ _ _ Hb si li _ _ Hcs Hcl). }
  apply outcome_bind, outcome_runs. eapply runs_mono.
  { apply (touch_order b li (order long) long' Hw Hcl); [by split_and!|by exists long]. }
  intros [] b1 (Hw1 & Hk1 & Hc1 & Hsl1 & Ho1).
  assert (Hs1 : slot b1 si = Some (RIntent short)) by (by rewrite Hsl1).
  assert (Hcs1 : content b1 si = Some (Order (order short))) by (unfold content; by rewrite Hs1).
  apply outcome_bind, outcome_runs. eapply runs_mono.
  { apply (touch_order b1 si (order short) short' Hw1 Hcs1); [by split_and!|by exists short]. }
  intros [] b2 (Hw2 & Hk2 & Hc2 & Hsl2 & Ho2).
  assert (Hc2l : content b2 li = Some (Order (order long'))).
  { unfold content. by rewrite Hsl2. }
  apply outcome_bind, outcome_runs. eapply runs_mono; [by apply (drop_filled b2 li long')|].
  intros [] b3 (Hw3 & Hk3 & Hc3 & Ho3).
  apply outcome_bind, outcome_runs.
  eapply runs_mono; [apply (drop_filled b3 si short'); [done|by rewrite Hc3|done]|].
  intros [] b4 (Hw4 & Hk4 & _ & Ho4). apply outcome_ret.
  split; [done|]. split; [eauto using traders_kept_trans|]. split; [done|]. split; [done|].
  split; [mlia|]. split; [mlia|].
  assert (E1 : offer_of b long' = fill_offer (offer_of b long) reserve rl) by done.
  assert (E2 : offer_of b1 short' = fill_offer (offer_of b short) reserve rs).
  { pose proof (offer_of_kept b b1 si _ Hw Hk1 Hcs) as E. unfold offer_of, fill_offer in E |- *. cbn in E |- *.
    injection E as ->. done. }
  rewrite Ho4, Ho3, Ho2, Ho1. cbn [in_id order IntentTree.set_links]. rewrite E1, E2.
  exact (fill_both _ _ _ _ _ reserve rl rs Hids Hfl Hfs).
Qed.

(** A pair that can trade: live offers of opposite sides whose prices meet. *)
Definition crosses (now : Z) (long short : Offer) : Prop :=
  long.(of_side) = SIDE_LONG /\ short.(of_side) = SIDE_SHORT /\
  now < long.(of_expiry) /\ now < short.(of_expiry) /\
  long.(of_left) <> 0 /\ short.(of_left) <> 0 /\ short.(of_price) <= long.(of_price).

Lemma resolve_pair_ok b long_id short_id now (Q : Z * Z * IntentNode * IntentNode -> Book -> Prop) :
  whole b ->
  (forall li si long short, slot b li = Some (RIntent long) -> slot b si = Some (RIntent short) ->
     offers b !! long_id = Some (offer_of b long) -> offers b !! short_id = Some (offer_of b short) ->
     long.(in_id) = long_id -> short.(in_id) = short_id ->
     crosses now (offer_of b long) (offer_of b short) -> Q (li, si, long, short) b) ->
  outcome (resolve_pair long_id short_id now) b Q.
Proof.
  intros Hw HQ. unfold resolve_pair. apply outcome_bind.
  destruct (find_by_id b long_id Hw) as [(li & long & E & Hl & Hid & Hfl)|[E _]];
    unfold outcome at 1; rewrite E; [|done].
  apply outcome_bind.
  destruct (find_by_id b short_id Hw) as [(si & short & E' & Hs & Hid' & Hfs)|[E' _]];
    unfold outcome at 1; rewrite E'; [|done].
  apply outcome_bind, outcome_bail; [done|].
  intros [Hsl%negb_false_iff%Z.eqb_eq Hss%negb_false_iff%Z.eqb_eq]%orb_false_iff.
  apply outcome_bind. eapply outcome_run; [by apply intent_run|].
  apply outcome_bind. eapply outcome_run; [by apply intent_run|].
  apply outcome_bind, outcome_bail; [done|]. intros [Hel%Z.leb_gt Hes%Z.leb_gt]%orb_false_iff.
  apply outcome_bind, outcome_bail; [done|]. intros [Hrl%Z.eqb_neq Hrs%Z.eqb_neq]%orb_false_iff.
  apply outcome_bind, outcome_bail; [done|]. intros Hp%Z.ltb_ge.
  apply outcome_ret. by apply HQ.
Qed.

Lemma seat_of_trader b i d : content b i = Some (Desk d) ->
  exists m, seat i b = (Ok m, b) /\ m.(sn_trader) = d.(sn_trader).
Proof.
  intros (m & Hm%seat_of_slot & Em)%content_desk. exists m. split; [by apply seat_run|]. by rewrite <- Em.
Qed.

Section matching.
Context {R : Runtime}.

Lemma match_refines b instrument_key pmlc_key bucket long_id short_id : whole b ->
  outcome (match_on_book instrument_key pmlc_key bucket long_id short_id) b
    (fun '(r, pmlc_id, bump) b' => whole b' /\ exists lf sf,
      offers b !! long_id = Some lf /\ offers b !! short_id = Some sf /\ crosses clock_slot lf sf /\
      bucket <= lf.(of_reserved) /\ bucket <= sf.(of_reserved) /\
      find_program_address [SEED_PMLC; key_seed instrument_key; u64_seed pmlc_id] = (pmlc_key, bump) /\
      r = {| long_trader := lf.(of_owner); short_trader := sf.(of_owner);
             mr_entry_fp := price_midpoint lf.(of_price) sf.(of_price); n_contracts := 1;
             fee_buf_release_long := released lf; fee_buf_release_short := released sf;
             taker_is_long := sf.(of_seq) <? lf.(of_seq);
             long_reentry := negb (Z.land lf.(of_flags) INTENT_FLAG_REENTRY =? 0);
             short_reentry := negb (Z.land sf.(of_flags) INTENT_FLAG_REENTRY =? 0);
             long_price := lf.(of_price); short_price := sf.(of_price) |} /\
      offers b' = fill_map short_id bucket (released sf) (fill_map long_id bucket (released lf) (offers b))).
Proof.
  intros Hw. unfold match_on_book. apply outcome_bind, resolve_pair_ok; [done|].
  intros li si long short Hl Hs Hfl Hfs Hid Hid' Hx.
  apply outcome_bind. eapply outcome_mono; [apply consume_refines; try done; apply Hx|].
  intros [rl rs] b1 (Hw1 & Hk1 & -> & -> & Hrl & Hrs & Ho1).
  apply outcome_bind. eapply outcome_mono; [by apply draw_id|]. intros pmlc_id b2 (Hw2 & Hc2 & _ & _).
  destruct (find_program_address _) as [pda bump] eqn:Epda.
  apply outcome_bind, outcome_bail; [done|]. intros Hk%negb_false_iff%Z.eqb_eq.
  destruct (order_seat b li long Hw Hl) as (_ & dl & _ & Hdl & _).
  destruct (order_seat b si short Hw Hs) as (_ & ds & _ & Hds & _).
  destruct (Hk1 _ _ Hdl) as (dl1 & Hdl1 & El), (Hk1 _ _ Hds) as (ds1 & Hds1 & Es).
  rewrite <- Hc2 in Hdl1, Hds1.
  destruct (seat_of_trader b2 _ _ Hdl1) as (ml & Hml & Eml), (seat_of_trader b2 _ _ Hds1) as (ms & Hms & Ems).
  apply outcome_bind. eapply outcome_run; [exact Hml|].
  apply outcome_bind. eapply outcome_run; [exact Hms|]. apply outcome_ret.
  split; [done|]. exists (offer_of b long), (offer_of b short). split_and!; try done.
  - congruence.
  - unfold offer_of, seat_owner. cbn. rewrite Hdl, Hds. f_equal; congruence.
  - rewrite (offers_content b1 b2) by done. by rewrite Ho1, Hid, Hid'.
Qed.

Lemma substitute_refines b p substitutor bucket args : whole b ->
  outcome (substitute_on_book p substitutor bucket args) b (fun ctx b' => whole b' /\ exists lf sf,
    offers b !! args.(mp_long_intent_id) = Some lf /\ offers b !! args.(mp_short_intent_id) = Some sf /\
    crosses clock_slot lf sf /\ sf.(of_price) <= p.(entry_price_fp) <= lf.(of_price) /\
    ctx = {| substitutor_pmlc_side := if sf.(of_owner) =? substitutor then SIDE_LONG else SIDE_SHORT;
             new_pmlc_owner := if lf.(of_owner) =? substitutor then sf.(of_owner) else lf.(of_owner);
             per_contract_collateral := bucket; per_contract_fee_buf_long := released lf;
             per_contract_fee_buf_short := released sf;
             substitutor_is_long := lf.(of_owner) =? substitutor;
             match_midpoint := price_midpoint lf.(of_price) sf.(of_price) |} /\
    owner_of_side ctx.(substitutor_pmlc_side) p = substitutor /\
    (lf.(of_owner) = substitutor \/ sf.(of_owner) = substitutor) /\
    offers b' = fill_map args.(mp_short_intent_id) bucket (released sf)
      (fill_map args.(mp_long_intent_id) bucket (released lf) (offers b))).
Proof.
  intros Hw. unfold substitute_on_book. apply outcome_bind, resolve_pair_ok; [done|].
  intros li si long short Hl Hs Hfl Hfs Hid Hid' Hx.
  apply outcome_bind, outcome_bail; [done|]. intros [Hp1%Z.ltb_ge Hp2%Z.ltb_ge]%orb_false_iff.
  destruct (order_seat b li long Hw Hl) as (ml & dl & Hml & _ & El).
  destruct (order_seat b si short Hw Hs) as (ms & ds & Hms & _ & Es).
  apply outcome_bind. eapply outcome_run; [exact Hml|].
  apply outcome_bind. eapply outcome_run; [exact Hms|]. rewrite El, Es.
  apply outcome_bind, outcome_bail; [done|]. intros Hsub.
  apply outcome_bind, outcome_bail; [done|]. intros Hown%negb_false_iff%Z.eqb_eq.
  apply outcome_bind. eapply outcome_mono; [apply consume_refines; try done; apply Hx|].
  intros [rl rs] b1 (Hw1 & _ & -> & -> & _ & _ & Ho1). apply outcome_ret.
  split; [done|]. exists (offer_of b long), (offer_of b short). split_and!; try done.
  - cbn. destruct (Z.eqb_spec (seat_owner b long.(in_owner_seat)) substitutor); [by left|].
    destruct (Z.eqb_spec (seat_owner b short.(in_owner_seat)) substitutor); [by right|done].
  - by rewrite Ho1, Hid, Hid'.
Qed.
End matching.

(* ------------------------------------------------------------------ *)
(** ** Best-first traversal *)

(** Price first, then time. *)
Definition rank (side : Z) (f : Offer) : Z := if side =? SIDE_LONG then - f.(of_price) else f.(of_price).
Definition better (side : Z) (f g : Offer) : Prop :=
  rank side f < rank side g \/ (rank side f = rank side g /\ f.(of_seq) < g.(of_seq)).
Definition live (now : Z) (f : Offer) : Prop := now < f.(of_expiry) /\ 0 < f.(of_left).

(** A live offer of the side that no live offer of the side outranks. *)
Definition best (side now : Z) (m : gmap Z Offer) (f : Offer) : Prop :=
  f.(of_side) = side /\ live now f /\
  forall id g, m !! id = Some g -> g.(of_side) = side -> live now g -> ~ better side g f.

Lemma better_beats b side n m : better side (offer_of b n) (offer_of b m) -> beats side n m.
Proof. unfold better, beats, rank, price_rank. cbn. tauto. Qed.

(** A book of at most 2^31 slots, whose trees the stack of the traversal spans. *)
Definition spannable (b : Book) : Prop := Z.of_nat (length b.(nodes)) <= 2 ^ 31.

(** The orders of a side, as the tree lists them, are the offers of that side. *)
Lemma side_offers b side : whole b -> (side = SIDE_LONG \/ side = SIDE_SHORT) ->
  exists t, side_tree side b t /\
    (forall i n, i ∈ inorder t -> node_of b i = Some n ->
       offers b !! n.(in_id) = Some (offer_of b n) /\ n.(in_side) = side) /\
    (forall id f, offers b !! id = Some f -> f.(of_side) = side ->
       exists i n, i ∈ inorder t /\ node_of b i = Some n /\ n.(in_id) = id /\ f = offer_of b n).
Proof.
  intros Hw Hside. pose proof Hw as (tl & ts & tt & fl & Hb).
  destruct (tree_of_side [] b tl ts tt fl side Hside Hb) as [Ht Hiff].
  exists (tree_of side tl ts). split; [done|]. split.
  - intros i n Hi Hn. apply Hiff in Hi as (_ & o & Ho & Hs). pose proof (node_content b i n Hn) as Hc.
    rewrite Ho in Hc. injection Hc as ->. split; [|done]. apply offers_spec; [done|]. by exists i, (order n).
  - intros id f (i & o & Ho & <- & <-)%offers_spec Hs; [|done].
    pose proof Ho as (n & Hn & <-)%content_order. exists i, n. split_and!; try done.
    apply Hiff. split; [set_solver|]. eauto.
Qed.

Lemma is_live_spec b now n : is_live now n = true <-> live now (offer_of b n).
Proof.
  unfold is_live, live. cbn. rewrite ?andb_true_iff, ?negb_true_iff, ?Z.eqb_neq, ?Z.ltb_lt, ?Z.leb_gt. lia.
Qed.

Lemma first_live_best b side now : whole b -> spannable b -> (side = SIDE_LONG \/ side = SIDE_SHORT) ->
  runs (first_live side now) b (fun r b' => b' = b /\
    match r with
    | Some (_, n) => offers b !! n.(in_id) = Some (offer_of b n) /\ best side now (offers b) (offer_of b n)
    | None => forall id f, offers b !! id = Some f -> f.(of_side) = side -> ~ live now f
    end).
Proof.
  intros Hw Hlen Hside. destruct (side_offers b side Hw Hside) as (t & Ht & Hin & Hof).
  eapply runs_mono; [by apply (first_live_finds side now b t)|].
  intros [[i n]|] b' [-> H]; (split; [done|]).
  - destruct H as (Hi & Hn & Hl & Hbest). destruct (Hin i n Hi Hn) as [Hf Hs]. split; [done|].
    split; [done|]. split; [by apply (is_live_spec b)|].
    intros id g Hg Hgs Hgl Hbetter. destruct (Hof id g Hg Hgs) as (j & m & Hj & Hm & _ & ->).
    apply (Hbest j m Hj Hm); [by apply (is_live_spec b)|]. by eapply better_beats.
  - intros id f Hf Hs Hl. destruct (Hof id f Hf Hs) as (j & m & Hj & Hm & _ & ->).
    apply (is_live_spec b) in Hl. by rewrite (H j m Hj Hm) in Hl.
Qed.

Lemma scan_best b now : whole b -> spannable b ->
  runs (scan_for_first_valid_pair now) b (fun r b' => b' = b /\
    match r with
    | Some (long_id, short_id) => exists lf sf,
        offers b !! long_id = Some lf /\ offers b !! short_id = Some sf /\ crosses now lf sf /\
        best SIDE_LONG now (offers b) lf /\ best SIDE_SHORT now (offers b) sf
    | None => forall long_id short_id lf sf, offers b !! long_id = Some lf ->
        offers b !! short_id = Some sf -> 0 < lf.(of_left) -> 0 < sf.(of_left) -> ~ crosses now lf sf
    end).
Proof.
  intros Hw Hlen. unfold scan_for_first_valid_pair.
  apply runs_bind. eapply runs_mono; [apply (first_live_best b SIDE_LONG now Hw Hlen); by left|].
  intros rl b1 [-> Hl]. apply runs_bind.
  eapply runs_mono; [apply (first_live_best b SIDE_SHORT now Hw Hlen); by right|].
  intros rs b2 [-> Hs]. apply runs_ret. split; [done|].
  destruct rl as [[li long]|]; [|intros l s lf sf Hlf _ H2 _ (E & _ & H1 & _); by apply (Hl l lf Hlf E)].
  destruct rs as [[si short]|];
    [|intros l s lf sf _ Hsf _ H2 (_ & E & _ & H1 & _); by apply (Hs s sf Hsf E)].
  destruct Hl as (Hlf & Hlb), Hs as (Hsf & Hsb).
  destruct (Z.leb_spec short.(in_price_fp) long.(in_price_fp)) as [Hp|Hp].
  - exists (offer_of b long), (offer_of b short). split; [done|]. split; [done|]. split; [|done].
    destruct Hlb as (E1 & [H1 H1'] & _), Hsb as (E2 & [H2 H2'] & _). unfold crosses.
    cbn [offer_of of_left of_price] in *. split_and!; try done; lia.
  - intros l s lf sf Hlf' Hsf' H3 H4 (E1 & E2 & H1 & H2 & _ & _ & Hx).
    destruct Hlb as (_ & _ & Hlb), Hsb as (_ & _ & Hsb).
    assert (N1 := Hlb l lf Hlf' E1 (conj H1 H3)). assert (N2 := Hsb s sf Hsf' E2 (conj H2 H4)).
    unfold better, rank in N1, N2. cbn [Z.eqb SIDE_LONG SIDE_SHORT offer_of of_price] in N1, N2. lia.
Qed.

(** The inline match looks no further than the best live offer of the other side. *)
Lemma visit_first {A} (skip : IntentNode -> bool) (answer : IntentNode -> option A) l :
  visit (fun (_ : Z) node (found : option A) =>
    if skip node then (true, found) else (false, answer node)) l None =
  match list_find (fun e => skip (snd e) = false) l with
  | Some (_, (_, n)) => answer n
  | None => None
  end.
Proof.
  induction l as [|[i n] l IH]; [done|]. cbn [visit list_find].
  destruct (decide _) as [E|E]; cbn in E; [by rewrite E|].
  apply not_false_is_true in E. rewrite E. cbn [negb]. rewrite IH.
  by destruct (list_find _ l) as [[? []]|].
Qed.

Definition meets (opposite_side taker_price : Z) (f : Offer) : bool :=
  if opposite_side =? SIDE_SHORT then f.(of_price) <=? taker_price else taker_price <=? f.(of_price).
(** The offers the inline match considers: unfilled, not expired, not the taker's own intent. *)
Definition eligible (now skip_id id : Z) (f : Offer) : Prop :=
  f.(of_left) <> 0 /\ now < f.(of_expiry) /\ id <> skip_id.

Lemma find_overlap_best b side price now skip_id :
  whole b -> spannable b -> (side = SIDE_LONG \/ side = SIDE_SHORT) ->
  runs (find_overlap_on_side side price now skip_id) b (fun r b' => b' = b /\
    ((exists id f, offers b !! id = Some f /\ f.(of_side) = side /\ eligible now skip_id id f /\
        (forall id' g, offers b !! id' = Some g -> g.(of_side) = side -> eligible now skip_id id' g ->
           ~ better side g f) /\
        r = if meets side price f then Some id else None) \/
     (r = None /\ forall id f, offers b !! id = Some f -> f.(of_side) = side -> ~ eligible now skip_id id f))).
Proof.
  intros Hw Hlen Hside. destruct (side_offers b side Hw Hside) as (t & Ht & Hin & Hof).
  unfold find_overlap_on_side. eapply runs_mono; [by apply (for_each_best_first_visits side _ b t)|].
  intros r b' [-> ->]. split; [done|].
  set (skip := fun node : IntentNode => (node.(in_contracts_remaining) =? 0)
    || (node.(in_expiration_slot) <=? now) || (node.(in_id) =? skip_id)).
  set (answer := fun node : IntentNode =>
    if if side =? SIDE_SHORT then in_price_fp node <=? price else price <=? in_price_fp node
    then Some node.(in_id) else None).
  assert (Hskip : forall n, skip n = false <-> eligible now skip_id n.(in_id) (offer_of b n)).
  { intros n. unfold skip, eligible. cbn. rewrite !orb_false_iff, !Z.eqb_neq, Z.leb_gt. tauto. }
  match goal with |- context [visit ?v ?l None] =>
    assert (E : visit v l None = visit (fun (_ : Z) node (found : option Z) =>
      if skip node then (true, found) else (false, answer node)) l None) end.
  { generalize (entries b (inorder t)). intros l. generalize (@eq_refl _ (@None Z)).
    generalize (@None Z) at 1 3 4. intros acc Hacc. revert acc Hacc.
    induction l as [|[i n] l IH]; intros acc ->; [done|]. cbn [visit]. unfold skip at 1. 
    destruct (_ || _); cbn [negb]; [by apply IH|]. done. }
  rewrite E, (visit_first skip answer). destruct Ht as (_ & _ & _ & Hsort).
  destruct (list_find _ _) as [[k [i n]]|] eqn:Ef.
  - left. apply list_find_Some in Ef as (Hk & Hl & Hfirst). cbn in Hl.
    pose proof (list_elem_of_lookup_2 _ _ _ Hk) as [Hi Hn]%elem_entries.
    destruct (Hin i n Hi Hn) as [Hf Hs]. exists n.(in_id), (offer_of b n).
    split_and!; try done; [by apply Hskip|].
    intros id' g Hg Hgs Hge Hb. destruct (Hof id' g Hg Hgs) as (j & m & Hj & Hm & <- & ->).
    apply better_beats in Hb. apply Hskip in Hge.
    assert ((j, m) ∈ entries b (inorder t)) as [k' Hk']%list_elem_of_lookup
      by (by apply elem_entries).
    eapply sorted_entries; [exact Hsort|exact Hk| |exact Hk'|exact Hb].
    apply Nat.nlt_ge. intros Hlt. by apply (Hfirst k' (j, m) Hk' Hlt).
  - right. split; [done|]. apply list_find_None in Ef. intros id f Hf Hs He.
    destruct (Hof id f Hf Hs) as (j & m & Hj & Hm & <- & ->). rewrite Forall_forall in Ef.
    apply (Ef (j, m)); [by apply elem_entries|]. by apply Hskip.
Qed.

(* ------------------------------------------------------------------ *)
(** ** An empty book *)

Lemma init_whole len instrument cap bump bps b :
  1 <= cap <= U32_MAX -> init_intent_book len instrument cap bump bps = Ok b ->
  whole b /\ offers b = ∅.
Proof.
  intros Hcap Hb. pose proof (init_pool_ok _ _ _ _ _ _ Hcap Hb) as Hp.
  unfold init_intent_book in Hb. destruct (negb _); [done|]. injection Hb as <-.
  match goal with |- whole ?b /\ _ => set (b0 := b) in * end.
  assert (Hc : forall i, content b0 i = None).
  { intros i. unfold content, slot. cbn. destruct (replicate _ _ !! _) as [s|] eqn:E; [|done].
    by apply lookup_replicate in E as [-> _]. }
  assert (Hw : whole b0).
  { assert (Hrb : rbtree Leaf) by (exists O; constructor).
    exists Leaf, Leaf, Leaf, []. constructor; try (by intros ? ?%elem_of_nil).
    - done.
    - split_and!; [|done|set_solver|constructor].
      split_and!; [done|done|constructor|by rewrite intent_links_lookup].
    - split_and!; [|done|set_solver|constructor].
      split_and!; [done|done|constructor|by rewrite intent_links_lookup].
    - split_and!; [|done|set_solver|constructor].
      split_and!; [done|done|constructor|by rewrite seat_links_lookup].
    - intros i c. by rewrite Hc.
    - intros i o. by rewrite Hc.
    - intros i o. by rewrite Hc.
    - intros i j o o'. by rewrite Hc. }
  split; [done|]. apply map_eq. intros id. rewrite lookup_empty. apply offers_none; [done|].
  intros i o. by rewrite Hc.
Qed.
