(* ===== verification/Authority.v ===== *)
(** * Administration: [src/processor/admin.rs], [multisig.rs], [timelock.rs],
    [registries.rs], [session.rs] and the schedule handlers of [fees.rs]

    Who may change the configuration, and how: the single admin or a quorum of the
    multisig, the delay on the attestation signer, the registries, the fee schedule and
    the trading sessions of users. *)
From S2P Require Import Prelude Ledger Governance World.

Section handlers.
Context {R : Runtime}.

(* ------------------------------------------------------------------ *)
(** ** Authorisation *)

(** Is this the program's multisig account, at its canonical address? *)
Definition is_multisig_account (w : World) (ai : AccountInfo) : bool :=
  let a := acct w ai.(key) in
  (a.(acc_owner) =? program_id) && (ADMIN_MULTISIG_LEN <=? data_len a.(acc_data))
  && bool_decide (disc a.(acc_data) = Some 14)
  && (ai.(key) =? fst (find_program_address [SEED_ADMIN_MULTISIG])).

(** The scan over the instruction's accounts: the first multisig account decides, and
    without one the configured admin must have signed. *)
Fixpoint authorize_scan (cfg : ProgramConfig) (all ais : list AccountInfo) : M World unit :=
  match ais with
  | [] =>
      if existsb (fun ai => ai.(is_signer) && (ai.(key) =? cfg.(admin))) all then mret tt
      else fail InvalidAdminSigner
  | ai :: ais =>
      w ← gets id;
      if negb (is_multisig_account w ai) then authorize_scan cfg all ais
      else
        ms ← load AdminMultisig ai.(key);
        lift (check_threshold ms all)
  end.

Definition authorize_admin_or_multisig (cfg : ProgramConfig) (accounts : list AccountInfo)
    : M World unit :=
  authorize_scan cfg accounts accounts.

(** The block the administrative handlers share: load the configuration, authorise. *)
Definition authorize (config : Pubkey) (accounts : list AccountInfo) : M World unit :=
  cfg ← load ProgramConfig config; authorize_admin_or_multisig cfg accounts.

(** The stricter block: the configured admin itself. *)
Definition require_admin (config admin_key : Pubkey) : M World unit :=
  cfg ← load ProgramConfig config;
  bail_if (negb (cfg.(admin) =? admin_key)) InvalidAdminSigner.

(** [if ai.data_len() == 0 { create } else if ai.owner != program_id { return Err }] *)
Definition create_if_empty (payer new : Pubkey) (space : Z) (seeds : list (list Z)) (bump : Z)
    : M World unit :=
  d ← data_of new;
  if data_len d =? 0 then create_pda payer new space seeds bump
  else o ← owner_of new; bail_if (negb (o =? program_id)) InvalidAccountOwner.

(* ------------------------------------------------------------------ *)
(** ** Program configuration *)

Definition process_init_program_config (accounts : list AccountInfo)
    (attestation_signer default_max_staleness_secs : Z) : M World unit :=
  admin ← account accounts 0;
  config_ai ← account accounts 1;
  fee_treasury_authority ← account accounts 2;
  system_program ← account accounts 3;
  assert_signer admin;;
  assert_writable admin;;
  assert_writable config_ai;;
  bail_if (negb (system_program.(key) =? SYSTEM_PROGRAM_ID)) InvalidAccountData;;
  bump ← assert_pda [SEED_CONFIG] config_ai.(key);
  create_if_empty admin.(key) config_ai.(key) PROGRAM_CONFIG_LEN [SEED_CONFIG] bump;;
  init_account config_ai.(key)
    (config_init admin.(key) attestation_signer fee_treasury_authority.(key)
       default_max_staleness_secs bump).

Definition process_set_global_pause (accounts : list AccountInfo) (paused : bool)
    : M World unit :=
  _admin ← account accounts 0;
  config_ai ← account accounts 1;
  assert_writable config_ai;;
  assert_owned [config_ai];;
  authorize config_ai.(key) accounts;;
  with_mut config_ai.(key) (modify (set_global_pause (if paused then 1 else 0))).

(* ------------------------------------------------------------------ *)
(** ** Multisig *)

Definition process_init_admin_multisig (accounts : list AccountInfo) (threshold : Z)
    (signers : list Pubkey) : M World unit :=
  admin ← account accounts 0;
  config_ai ← account accounts 1;
  ms_ai ← account accounts 2;
  system_program ← account accounts 3;
  assert_signer admin;;
  assert_writable admin;;
  assert_writable ms_ai;;
  assert_owned [config_ai];;
  bail_if (negb (system_program.(key) =? SYSTEM_PROGRAM_ID)) InvalidAccountData;;
  require_admin config_ai.(key) admin.(key);;
  bump ← assert_pda [SEED_ADMIN_MULTISIG] ms_ai.(key);
  create_if_empty admin.(key) ms_ai.(key) ADMIN_MULTISIG_LEN [SEED_ADMIN_MULTISIG] bump;;
  lift (validate_signers signers threshold);;
  init_account ms_ai.(key) (multisig_init admin.(key) signers threshold bump).

Definition process_rotate_admin_multisig (accounts : list AccountInfo) (threshold : Z)
    (signers : list Pubkey) : M World unit :=
  config_ai ← account accounts 0;
  ms_ai ← account accounts 1;
  assert_writable ms_ai;;
  assert_owned [config_ai; ms_ai];;
  ms ← load AdminMultisig ms_ai.(key);
  lift (check_threshold ms accounts);;
  with_mut ms_ai.(key) (rotate signers threshold).

(* ------------------------------------------------------------------ *)
(** ** Timelock on the attestation signer *)

Definition process_propose_set_attestation_signer (accounts : list AccountInfo)
    (proposal_id : Z) (new_signer : Pubkey) : M World unit :=
  admin ← account accounts 0;
  program_config_ai ← account accounts 1;
  tl_ai ← account accounts 2;
  system_program ← account accounts 3;
  assert_signer admin;;
  assert_writable admin;;
  assert_writable tl_ai;;
  assert_owned [program_config_ai];;
  bail_if (negb (system_program.(key) =? SYSTEM_PROGRAM_ID)) InvalidAccountData;;
  authorize program_config_ai.(key) accounts;;
  bump ← assert_pda [SEED_TIMELOCK; u64_seed proposal_id] tl_ai.(key);
  d ← data_of tl_ai.(key);
  bail_if (negb (data_len d =? 0)) AlreadyInitialized;;
  create_pda admin.(key) tl_ai.(key) TIMELOCK_PROPOSAL_LEN [SEED_TIMELOCK; u64_seed proposal_id] bump;;
  executable_after ← ok_or (checked_i64 (clock_unix_timestamp + TIMELOCK_DELAY_SECS))
    ArithmeticOverflow;
  overwrite tl_ai.(key)
    {| tl_kind := TL_KIND_SET_ATTESTATION_SIGNER; tl_status := TL_STATUS_PENDING;
       tl_bump := bump; Governance.proposal_id := proposal_id; proposer := admin.(key);
       Governance.new_signer := new_signer; proposed_slot := clock_slot;
       proposed_unix_ts := clock_unix_timestamp;
       executable_after_unix_ts := executable_after |}.

Definition process_execute_set_attestation_signer (accounts : list AccountInfo)
    (proposal_id : Z) : M World unit :=
  admin ← account accounts 0;
  program_config_ai ← account accounts 1;
  tl_ai ← account accounts 2;
  assert_signer admin;;
  assert_writable program_config_ai;;
  assert_writable tl_ai;;
  assert_owned [program_config_ai; tl_ai];;
  assert_pda [SEED_TIMELOCK; u64_seed proposal_id] tl_ai.(key);;
  tl ← load TimelockProposal tl_ai.(key);
  bail_if (negb (tl.(tl_status) =? TL_STATUS_PENDING)) TimelockNotExecutable;;
  bail_if (negb (tl.(tl_kind) =? TL_KIND_SET_ATTESTATION_SIGNER)) TimelockNotExecutable;;
  bail_if (clock_unix_timestamp <? tl.(executable_after_unix_ts)) TimelockNotExecutable;;
  authorize program_config_ai.(key) accounts;;
  with_mut program_config_ai.(key) (modify (set_attestation_signer tl.(Governance.new_signer)));;
  with_mut tl_ai.(key) (modify (set_tl_status TL_STATUS_EXECUTED)).

Definition process_cancel_timelock (accounts : list AccountInfo) (proposal_id : Z)
    : M World unit :=
  admin ← account accounts 0;
  tl_ai ← account accounts 1;
  assert_signer admin;;
  assert_writable tl_ai;;
  assert_owned [tl_ai];;
  assert_pda [SEED_TIMELOCK; u64_seed proposal_id] tl_ai.(key);;
  tl ← load TimelockProposal tl_ai.(key);
  bail_if (negb (tl.(proposer) =? admin.(key))) InvalidAdminSigner;;
  bail_if (negb (tl.(tl_status) =? TL_STATUS_PENDING)) TimelockNotExecutable;;
  with_mut tl_ai.(key) (modify (set_tl_status TL_STATUS_CANCELLED)).

(* ------------------------------------------------------------------ *)
(** ** Registries *)

Definition DEFAULT_LEVERAGE_BPS : list Z := [20000; 50000; 100000; 200000; 400000].
Definition DEFAULT_COLLATERAL_BUCKETS : list Z := [100000000; 1000000000].

Definition process_init_bucket_registry (accounts : list AccountInfo)
    (leverages buckets : list Z) : M World unit :=
  admin ← account accounts 0;
  config_ai ← account accounts 1;
  registry_ai ← account accounts 2;
  system_program ← account accounts 3;
  assert_signer admin;;
  assert_writable admin;;
  assert_writable registry_ai;;
  assert_owned [config_ai];;
  bail_if (negb (system_program.(key) =? SYSTEM_PROGRAM_ID)) InvalidAccountData;;
  authorize config_ai.(key) accounts;;
  bump ← assert_pda [SEED_BUCKET_REGISTRY] registry_ai.(key);
  create_if_empty admin.(key) registry_ai.(key) BUCKET_REGISTRY_LEN [SEED_BUCKET_REGISTRY] bump;;
  let leverages := if (length leverages =? 0)%nat then DEFAULT_LEVERAGE_BPS else leverages in
  let buckets := if (length buckets =? 0)%nat then DEFAULT_COLLATERAL_BUCKETS else buckets in
  lift (validate_inputs leverages buckets);;
  init_account registry_ai.(key) (registry_init leverages buckets bump).

Definition process_set_bucket_registry (accounts : list AccountInfo)
    (leverages buckets : list Z) : M World unit :=
  config_ai ← account accounts 0;
  registry_ai ← account accounts 1;
  assert_writable registry_ai;;
  assert_owned [config_ai; registry_ai];;
  authorize config_ai.(key) accounts;;
  with_mut registry_ai.(key) (registry_set leverages buckets).

(** [spl_token::state::Mint::LEN] *)
Definition MINT_LEN : Z := 82.

(** The wUSD mint, created and initialised once. *)
Definition create_wusd_mint (admin mint authority : Pubkey) (mint_bump decimals : Z)
    : M World unit :=
  d ← data_of mint;
  when (data_len d =? 0)
    (invoke_signed (CreateAccount admin mint (minimum_balance MINT_LEN) MINT_LEN SPL_TOKEN_ID)
       [SEED_WUSD_MINT; [mint_bump]];;
     invoke_signed (InitializeMint2 mint authority (Some authority) decimals) []).

Definition process_init_stablecoin_registry (accounts : list AccountInfo) (wusd_decimals : Z)
    (initial_mints : list Pubkey) : M World unit :=
  admin ← account accounts 0;
  config_ai ← account accounts 1;
  registry_ai ← account accounts 2;
  wusd_mint_ai ← account accounts 3;
  wusd_authority_ai ← account accounts 4;
  token_program ← account accounts 5;
  system_program ← account accounts 6;
  _rent_sysvar ← account accounts 7;
  assert_signer admin;;
  assert_writable admin;;
  assert_writable registry_ai;;
  assert_writable wusd_mint_ai;;
  assert_owned [config_ai];;
  bail_if (negb (token_program.(key) =? SPL_TOKEN_ID)
           || negb (system_program.(key) =? SYSTEM_PROGRAM_ID)) InvalidAccountData;;
  authorize config_ai.(key) accounts;;
  reg_bump ← assert_pda [SEED_STABLECOIN_REGISTRY] registry_ai.(key);
  mint_bump ← assert_pda [SEED_WUSD_MINT] wusd_mint_ai.(key);
  _auth_bump ← assert_pda [SEED_WUSD_AUTHORITY] wusd_authority_ai.(key);
  create_if_empty admin.(key) registry_ai.(key) STABLECOIN_REGISTRY_LEN
    [SEED_STABLECOIN_REGISTRY] reg_bump;;
  create_wusd_mint admin.(key) wusd_mint_ai.(key) wusd_authority_ai.(key) mint_bump wusd_decimals;;
  lift (validate_mints initial_mints);;
  init_account registry_ai.(key)
    (stablecoins_init wusd_mint_ai.(key) wusd_decimals initial_mints reg_bump).

Definition process_add_stablecoin_mint (accounts : list AccountInfo) : M World unit :=
  config_ai ← account accounts 0;
  registry_ai ← account accounts 1;
  new_mint_ai ← account accounts 2;
  assert_writable registry_ai;;
  assert_owned [config_ai; registry_ai];;
  mint_owner ← owner_of new_mint_ai.(key);
  bail_if (negb (mint_owner =? SPL_TOKEN_ID)) InvalidMint;;
  authorize config_ai.(key) accounts;;
  d ← data_of new_mint_ai.(key);
  decimals ← match d with
             | DBytes bs => lift (unpack_mint_decimals bs)
             | _ => fail InvalidAccountData
             end;
  reg ← load StablecoinRegistry registry_ai.(key);
  bail_if (negb (decimals =? reg.(wusd_decimals))) StablecoinDecimalsMismatch;;
  with_mut registry_ai.(key) (add_mint new_mint_ai.(key)).

Definition process_remove_stablecoin_mint (accounts : list AccountInfo) : M World unit :=
  config_ai ← account accounts 0;
  registry_ai ← account accounts 1;
  mint_ai ← account accounts 2;
  assert_writable registry_ai;;
  assert_owned [config_ai; registry_ai];;
  authorize config_ai.(key) accounts;;
  with_mut registry_ai.(key) (remove_mint mint_ai.(key)).

(* ------------------------------------------------------------------ *)
(** ** Fee schedule *)

Definition process_init_fee_schedule (accounts : list AccountInfo) (tiers : list FeeTier)
    : M World unit :=
  admin ← account accounts 0;
  program_config_ai ← account accounts 1;
  fee_schedule_ai ← account accounts 2;
  system_program ← account accounts 3;
  assert_signer admin;;
  assert_writable admin;;
  assert_writable fee_schedule_ai;;
  assert_owned [program_config_ai];;
  bail_if (negb (system_program.(key) =? SYSTEM_PROGRAM_ID)) InvalidAccountData;;
  require_admin program_config_ai.(key) admin.(key);;
  lift (validate_tiers tiers);;
  bump ← assert_pda [SEED_FEE_SCHEDULE] fee_schedule_ai.(key);
  d ← data_of fee_schedule_ai.(key);
  bail_if (negb (data_len d =? 0)) AlreadyInitialized;;
  create_pda admin.(key) fee_schedule_ai.(key) FEE_SCHEDULE_LEN [SEED_FEE_SCHEDULE] bump;;
  init_account fee_schedule_ai.(key) (schedule_init tiers clock_slot bump).

(** The new maximum may not exceed the old one. *)
Definition set_schedule (new_tiers : list FeeTier) (now_slot : Z) : M FeeSchedule unit :=
  sched ← gets id;
  let new_max := compute_max_fee_bps new_tiers in
  bail_if (sched.(max_tier_fee_bps) <? new_max) FeeIncreaseBlocked;;
  put {| fs_bump := sched.(fs_bump); tiers := new_tiers; max_tier_fee_bps := new_max;
         last_updated_slot := now_slot |}.

Definition process_set_fee_schedule (accounts : list AccountInfo) (tiers : list FeeTier)
    : M World unit :=
  admin ← account accounts 0;
  program_config_ai ← account accounts 1;
  fee_schedule_ai ← account accounts 2;
  assert_signer admin;;
  assert_writable fee_schedule_ai;;
  assert_owned [program_config_ai; fee_schedule_ai];;
  require_admin program_config_ai.(key) admin.(key);;
  lift (validate_tiers tiers);;
  with_mut fee_schedule_ai.(key) (set_schedule tiers clock_slot).

(* ------------------------------------------------------------------ *)
(** ** Trading sessions *)

Record CreateSessionArgs := {
  cs_delegate : Pubkey;
  cs_expires_at_slot : Z;
  cs_per_intent_max : Z;
  cs_cumulative_cap : Z;
  cs_allowed_instruments : list Pubkey;
}.

(** A session that is revoked, expired or used up may be replaced. *)
Definition alloc_session (owner session : Pubkey) (bump : Z) : M World unit :=
  d ← data_of session;
  if data_len d =? 0 then create_pda owner session SESSION_LEN [SEED_SESSION; key_seed owner] bump
  else
    existing ← load Session session;
    bail_if (negb (existing.(se_owner) =? owner)) SessionOwnerMismatch;;
    bail_if (is_active existing clock_slot) AlreadyInitialized.

(** [Session::init] zeroes the account whatever it held: only its length is checked. *)
Definition write_session (session : Pubkey) (s : Session) : M World unit :=
  d ← data_of session;
  bail_if (negb (len_ok (T := Session) (data_len d))) AccountDataTooSmall;;
  modify (set_data session (inj s)).

Definition process_create_session (accounts : list AccountInfo) (args : CreateSessionArgs)
    : M World unit :=
  owner ← account accounts 0;
  program_config_ai ← account accounts 1;
  session_ai ← account accounts 2;
  system_program ← account accounts 3;
  assert_signer owner;;
  assert_writable owner;;
  assert_writable session_ai;;
  assert_owned [program_config_ai];;
  bail_if (negb (system_program.(key) =? SYSTEM_PROGRAM_ID)) InvalidAccountData;;
  cfg ← load ProgramConfig program_config_ai.(key);
  bail_if (negb (cfg.(global_pause) =? 0)) GlobalPaused;;
  bump ← assert_pda [SEED_SESSION; key_seed owner.(key)] session_ai.(key);
  bail_if (MAX_SESSION_INSTRUMENTS <? length args.(cs_allowed_instruments))%nat
    InvalidInstructionData;;
  lift (validate_session args.(cs_expires_at_slot) args.(cs_per_intent_max)
    args.(cs_cumulative_cap) args.(cs_allowed_instruments) clock_slot);;
  alloc_session owner.(key) session_ai.(key) bump;;
  write_session session_ai.(key)
    (session_init owner.(key) args.(cs_delegate) bump args.(cs_expires_at_slot)
       args.(cs_per_intent_max) args.(cs_cumulative_cap) args.(cs_allowed_instruments) clock_slot).

Definition process_revoke_session (accounts : list AccountInfo) : M World unit :=
  owner ← account accounts 0;
  session_ai ← account accounts 1;
  assert_signer owner;;
  assert_writable session_ai;;
  assert_owned [session_ai];;
  assert_pda [SEED_SESSION; key_seed owner.(key)] session_ai.(key);;
  with_mut session_ai.(key)
    (s ← gets id;
     bail_if (negb (s.(se_owner) =? owner.(key))) SessionOwnerMismatch;;
     revoke).
End handlers.
