(* ===== verification/Custody.v ===== *)
(** * Custody: [src/processor/margin.rs], [wusd.rs], [process_sweep_fees] of [fees.rs],
    and [instrument.rs]

    Collateral in and out of the vault, the wrapped stablecoin, the fees out, and the
    creation, pausing and growth of instruments. *)
From S2P Require Import Prelude IntentBook Ledger Governance World Authority.

Section handlers.
Context {R : Runtime}.

(** [token_program.key != &spl_token::ID] *)
Definition require_token_program (ai : AccountInfo) : M World unit :=
  bail_if (negb (ai.(key) =? SPL_TOKEN_ID)) InvalidAccountData.

(** The canonical vault of a mint: its address, its authority, its mint. *)
Definition validate_vault (vault authority mint : Pubkey) : M World unit :=
  bail_if (negb (vault =? get_associated_token_address authority mint)) InvalidVault;;
  token ← load_token vault;
  bail_if (negb (token.(ta_owner) =? authority)) InvalidTokenAccountOwner;;
  bail_if (negb (token.(ta_mint) =? mint)) InvalidMint.

(* ------------------------------------------------------------------ *)
(** ** Margin accounts *)

Definition process_create_margin_account (accounts : list AccountInfo) : M World unit :=
  owner ← account accounts 0;
  margin_ai ← account accounts 1;
  mint ← account accounts 2;
  system_program ← account accounts 3;
  assert_signer owner;;
  assert_writable owner;;
  assert_writable margin_ai;;
  bail_if (negb (system_program.(key) =? SYSTEM_PROGRAM_ID)) InvalidAccountData;;
  mint_owner ← owner_of mint.(key);
  bail_if (negb (mint_owner =? SPL_TOKEN_ID)) InvalidMint;;
  bump ← assert_pda [SEED_MARGIN; key_seed owner.(key); key_seed mint.(key)] margin_ai.(key);
  d ← data_of margin_ai.(key);
  bail_if (negb (data_len d =? 0)) AlreadyInitialized;;
  create_pda owner.(key) margin_ai.(key) MARGIN_ACCOUNT_LEN
    [SEED_MARGIN; key_seed owner.(key); key_seed mint.(key)] bump;;
  init_account margin_ai.(key) (margin_init owner.(key) mint.(key) bump).

Definition process_deposit (accounts : list AccountInfo) (amount : Z) : M World unit :=
  bail_if (amount =? 0) InvalidInstructionData;;
  owner ← account accounts 0;
  margin_ai ← account accounts 1;
  mint ← account accounts 2;
  user_ata ← account accounts 3;
  vault_ata ← account accounts 4;
  token_program ← account accounts 5;
  assert_signer owner;;
  assert_writable margin_ai;;
  assert_writable user_ata;;
  assert_writable vault_ata;;
  assert_owned [margin_ai];;
  require_token_program token_program;;
  bump ← assert_pda [SEED_MARGIN; key_seed owner.(key); key_seed mint.(key)] margin_ai.(key);
  m ← load MarginAccount margin_ai.(key);
  bail_if (negb (m.(ma_owner) =? owner.(key)) || negb (m.(ma_collateral_mint) =? mint.(key))
           || negb (m.(ma_bump) =? bump)) InvalidPda;;
  let '(vault_authority, _) := find_program_address [SEED_VAULT; key_seed mint.(key)] in
  validate_vault vault_ata.(key) vault_authority mint.(key);;
  invoke_signed (TokenTransfer user_ata.(key) vault_ata.(key) owner.(key) amount) [];;
  with_mut margin_ai.(key) (credit_free amount).

Definition process_withdraw (accounts : list AccountInfo) (amount : Z) : M World unit :=
  bail_if (amount =? 0) InvalidInstructionData;;
  owner ← account accounts 0;
  margin_ai ← account accounts 1;
  mint ← account accounts 2;
  user_ata ← account accounts 3;
  vault_ata ← account accounts 4;
  vault_authority ← account accounts 5;
  token_program ← account accounts 6;
  assert_signer owner;;
  assert_writable margin_ai;;
  assert_writable user_ata;;
  assert_writable vault_ata;;
  assert_owned [margin_ai];;
  require_token_program token_program;;
  margin_bump ← assert_pda [SEED_MARGIN; key_seed owner.(key); key_seed mint.(key)]
    margin_ai.(key);
  vault_auth_bump ← assert_pda [SEED_VAULT; key_seed mint.(key)] vault_authority.(key);
  validate_vault vault_ata.(key) vault_authority.(key) mint.(key);;
  with_mut margin_ai.(key)
    (check_margin owner.(key) mint.(key) margin_bump;; debit_free amount);;
  invoke_signed (TokenTransfer vault_ata.(key) user_ata.(key) vault_authority.(key) amount)
    [SEED_VAULT; key_seed mint.(key); [vault_auth_bump]].

(* ------------------------------------------------------------------ *)
(** ** Fees out *)

Definition check_treasury (mint : Pubkey) : M FeeTreasury unit :=
  t ← gets id; bail_if (negb (t.(ft_collateral_mint) =? mint)) InvalidPda.

Definition process_sweep_fees (accounts : list AccountInfo) (amount : Z) : M World unit :=
  bail_if (amount =? 0) InvalidInstructionData;;
  admin ← account accounts 0;
  program_config_ai ← account accounts 1;
  treasury_ai ← account accounts 2;
  vault_ata ← account accounts 3;
  dest_ata ← account accounts 4;
  mint ← account accounts 5;
  vault_authority_ai ← account accounts 6;
  token_program ← account accounts 7;
  assert_signer admin;;
  assert_writable treasury_ai;;
  assert_writable vault_ata;;
  assert_writable dest_ata;;
  assert_owned [program_config_ai; treasury_ai];;
  require_token_program token_program;;
  require_admin program_config_ai.(key) admin.(key);;
  vault_auth_bump ← assert_pda [SEED_VAULT; key_seed mint.(key)] vault_authority_ai.(key);
  assert_pda [SEED_TREASURY; key_seed mint.(key)] treasury_ai.(key);;
  acc ← load_token vault_ata.(key);
  bail_if (negb (acc.(ta_owner) =? vault_authority_ai.(key)) || negb (acc.(ta_mint) =? mint.(key)))
    InvalidTokenAccountOwner;;
  with_mut treasury_ai.(key) (check_treasury mint.(key);; sweep amount);;
  invoke_signed (TokenTransfer vault_ata.(key) dest_ata.(key) vault_authority_ai.(key) amount)
    [SEED_VAULT; key_seed mint.(key); [vault_auth_bump]].

(* ------------------------------------------------------------------ *)
(** ** Wrapped stablecoin *)

(** The registry's view of a mint: this wUSD mint, and the stablecoin still accepted. *)
Definition check_accepted (registry wusd stablecoin : Pubkey) : M World unit :=
  reg ← load StablecoinRegistry registry;
  bail_if (negb (reg.(wusd_mint) =? wusd)) InvalidMint;;
  bail_if (negb (is_accepted reg stablecoin)) StablecoinNotAccepted.

(** The reserve account of a stablecoin, answering its balance. *)
Definition check_reserve (reserve authority stablecoin : Pubkey) : M World Z :=
  token ← load_token reserve;
  bail_if (negb (token.(ta_owner) =? authority)) InvalidTokenAccountOwner;;
  bail_if (negb (token.(ta_mint) =? stablecoin)) InvalidMint;;
  mret token.(ta_amount).

Definition process_wrap_stablecoin (accounts : list AccountInfo) (amount : Z) : M World unit :=
  bail_if (amount =? 0) InvalidInstructionData;;
  user ← account accounts 0;
  registry_ai ← account accounts 1;
  source_mint ← account accounts 2;
  wusd_mint_ai ← account accounts 3;
  wusd_authority_ai ← account accounts 4;
  user_source_ata ← account accounts 5;
  reserve_ata ← account accounts 6;
  user_wusd_ata ← account accounts 7;
  token_program ← account accounts 8;
  assert_signer user;;
  assert_writable wusd_mint_ai;;
  assert_writable user_source_ata;;
  assert_writable reserve_ata;;
  assert_writable user_wusd_ata;;
  assert_owned [registry_ai];;
  require_token_program token_program;;
  assert_pda [SEED_WUSD_MINT] wusd_mint_ai.(key);;
  auth_bump ← assert_pda [SEED_WUSD_AUTHORITY] wusd_authority_ai.(key);
  check_accepted registry_ai.(key) wusd_mint_ai.(key) source_mint.(key);;
  check_reserve reserve_ata.(key) wusd_authority_ai.(key) source_mint.(key);;
  invoke_signed (TokenTransfer user_source_ata.(key) reserve_ata.(key) user.(key) amount) [];;
  invoke_signed
    (TokenMintTo wusd_mint_ai.(key) user_wusd_ata.(key) wusd_authority_ai.(key) amount)
    [SEED_WUSD_AUTHORITY; [auth_bump]].

Definition process_unwrap_stablecoin (accounts : list AccountInfo) (amount : Z) : M World unit :=
  bail_if (amount =? 0) InvalidInstructionData;;
  user ← account accounts 0;
  registry_ai ← account accounts 1;
  target_mint ← account accounts 2;
  wusd_mint_ai ← account accounts 3;
  wusd_authority_ai ← account accounts 4;
  user_wusd_ata ← account accounts 5;
  reserve_ata ← account accounts 6;
  user_target_ata ← account accounts 7;
  token_program ← account accounts 8;
  assert_signer user;;
  assert_writable wusd_mint_ai;;
  assert_writable user_wusd_ata;;
  assert_writable reserve_ata;;
  assert_writable user_target_ata;;
  assert_owned [registry_ai];;
  require_token_program token_program;;
  assert_pda [SEED_WUSD_MINT] wusd_mint_ai.(key);;
  auth_bump ← assert_pda [SEED_WUSD_AUTHORITY] wusd_authority_ai.(key);
  check_accepted registry_ai.(key) wusd_mint_ai.(key) target_mint.(key);;
  balance ← check_reserve reserve_ata.(key) wusd_authority_ai.(key) target_mint.(key);
  bail_if (balance <? amount) InsufficientStablecoinReserve;;
  invoke_signed (TokenBurn user_wusd_ata.(key) wusd_mint_ai.(key) user.(key) amount) [];;
  invoke_signed
    (TokenTransfer reserve_ata.(key) user_target_ata.(key) wusd_authority_ai.(key) amount)
    [SEED_WUSD_AUTHORITY; [auth_bump]].

(* ------------------------------------------------------------------ *)
(** ** Instruments *)

Record CreateInstrumentArgs := {
  ci_source : Z;
  ci_market_id : Z;
  ci_source_token_id_a : Z;
  ci_source_token_id_b : Z;
  ci_leverage_bps : Z;
  ci_collateral_bucket : Z;
  ci_twap_window_slots : Z;
  ci_tick_fp : Z;
  ci_liquidation_bps : Z;
  ci_liquidation_bounty_bps : Z;
  ci_max_staleness_secs : Z;
  ci_initial_book_capacity : Z;
  ci_reference_usd : Z;
}.

(** The optional trailing registry: honoured when it is the program's and looks like a
    registry, ignored otherwise. *)
Definition check_bucket_registry (trailing : option AccountInfo) (leverage bucket : Z)
    : M World unit :=
  match trailing with
  | None => mret tt
  | Some ai =>
      w ← gets id;
      if owned w ai && bool_decide (disc (acct w ai.(key)).(acc_data) = Some 15) then
        bail_if (negb (ai.(key) =? fst (find_program_address [SEED_BUCKET_REGISTRY]))) InvalidPda;;
        reg ← load BucketRegistry ai.(key);
        bail_if (negb (allows_leverage reg leverage)) BucketNotInRegistry;;
        bail_if (negb (allows_bucket reg bucket)) BucketNotInRegistry
      else mret tt
  end.

Definition instrument_seeds (args : CreateInstrumentArgs) : list (list Z) :=
  [SEED_INSTRUMENT; [args.(ci_source)]; key_seed args.(ci_market_id);
   u32_seed args.(ci_leverage_bps); u64_seed args.(ci_collateral_bucket);
   u64_seed args.(ci_twap_window_slots)].

Definition new_instrument (args : CreateInstrumentArgs) (mint book : Pubkey) (bump : Z)
    : InstrumentConfig :=
  {| ic_status := STATUS_ACTIVE; ic_bump := bump; ic_source := args.(ci_source);
     ic_market_id := args.(ci_market_id); source_token_id_a := args.(ci_source_token_id_a);
     source_token_id_b := args.(ci_source_token_id_b); ic_collateral_mint := mint;
     intent_book := book; leverage_bps := args.(ci_leverage_bps);
     collateral_bucket := args.(ci_collateral_bucket);
     twap_window_slots := args.(ci_twap_window_slots); tick_fp := args.(ci_tick_fp);
     liquidation_bps := args.(ci_liquidation_bps);
     liquidation_bounty_bps := args.(ci_liquidation_bounty_bps);
     max_staleness_secs := args.(ci_max_staleness_secs);
     reference_usd := args.(ci_reference_usd) |}.

(** [InstrumentConfig::init]: unlike the other structs, the validation follows the
    checks of the account itself. *)
Definition init_instrument (k : Pubkey) (c : InstrumentConfig) : M World unit :=
  d ← data_of k;
  bail_if (negb (len_ok (T := InstrumentConfig) (data_len d))) AccountDataTooSmall;;
  bail_if (negb (bool_decide (disc d = Some 0))) AlreadyInitialized;;
  lift (validate_instrument c);;
  modify (set_data k (inj c)).

Definition init_book (k : Pubkey) (instrument : Pubkey) (capacity bump : Z) : M World unit :=
  d ← data_of k;
  book ← lift (init_intent_book (data_len d) instrument capacity bump 0);
  modify (set_data k (inj book)).

(** The market's nonce account, shared by its instruments. *)
Definition ensure_market_nonce (payer nonce market : Z) : M World unit :=
  bump ← assert_pda [SEED_MARKET_NONCE; key_seed market] nonce;
  d ← data_of nonce;
  if data_len d =? 0 then
    create_pda payer nonce MARKET_NONCE_LEN [SEED_MARKET_NONCE; key_seed market] bump;;
    init_account nonce (nonce_init market bump)
  else o ← owner_of nonce; bail_if (negb (o =? program_id)) InvalidAccountOwner.

Definition process_create_instrument (accounts : list AccountInfo) (args : CreateInstrumentArgs)
    : M World unit :=
  admin ← account accounts 0;
  config_ai ← account accounts 1;
  instrument_ai ← account accounts 2;
  book_ai ← account accounts 3;
  mint ← account accounts 4;
  system_program ← account accounts 5;
  market_nonce_ai ← account accounts 6;
  assert_signer admin;;
  assert_writable admin;;
  assert_writable instrument_ai;;
  assert_writable book_ai;;
  assert_writable market_nonce_ai;;
  bail_if (negb (system_program.(key) =? SYSTEM_PROGRAM_ID)) InvalidAccountData;;
  mint_owner ← owner_of mint.(key);
  bail_if (negb (mint_owner =? SPL_TOKEN_ID)) InvalidMint;;
  assert_owned [config_ai];;
  require_admin config_ai.(key) admin.(key);;
  bail_if (args.(ci_initial_book_capacity) <? 16) InvalidInstructionData;;
  bail_if (args.(ci_twap_window_slots) =? 0) InvalidInstructionData;;
  bail_if ((args.(ci_collateral_bucket) =? 0) || (args.(ci_tick_fp) =? 0)) InvalidCollateralBucket;;
  check_bucket_registry (accounts !! 7%nat) args.(ci_leverage_bps) args.(ci_collateral_bucket);;
  instrument_bump ← assert_pda (instrument_seeds args) instrument_ai.(key);
  d ← data_of instrument_ai.(key);
  bail_if (negb (data_len d =? 0)) AlreadyInitialized;;
  create_pda admin.(key) instrument_ai.(key) INSTRUMENT_CONFIG_LEN (instrument_seeds args)
    instrument_bump;;
  book_bump ← assert_pda [SEED_BOOK; key_seed instrument_ai.(key)] book_ai.(key);
  d ← data_of book_ai.(key);
  bail_if (negb (data_len d =? 0)) AlreadyInitialized;;
  create_pda admin.(key) book_ai.(key) (intent_book_byte_size args.(ci_initial_book_capacity))
    [SEED_BOOK; key_seed instrument_ai.(key)] book_bump;;
  init_instrument instrument_ai.(key)
    (new_instrument args mint.(key) book_ai.(key) instrument_bump);;
  init_book book_ai.(key) instrument_ai.(key) args.(ci_initial_book_capacity) book_bump;;
  ensure_market_nonce admin.(key) market_nonce_ai.(key) args.(ci_market_id).

Definition process_set_instrument_status (accounts : list AccountInfo) (pause : bool)
    : M World unit :=
  admin ← account accounts 0;
  config_ai ← account accounts 1;
  instrument_ai ← account accounts 2;
  assert_signer admin;;
  assert_writable instrument_ai;;
  assert_owned [config_ai; instrument_ai];;
  require_admin config_ai.(key) admin.(key);;
  with_mut instrument_ai.(key)
    (modify (set_ic_status (if pause then STATUS_PAUSED else STATUS_ACTIVE))).

(* ------------------------------------------------------------------ *)
(** ** Growing a book *)

(** [MAX_PERMITTED_DATA_INCREASE] of one instruction, and the error past it. *)
Definition MAX_PERMITTED_DATA_INCREASE : Z := 10240.
Definition InvalidRealloc : ProgramError := RuntimeError 0.

(** [ai.realloc(new_len, true)] on a book: zeroed slots at the end. *)
Definition realloc_book (additional_nodes : Z) : M Book unit :=
  bail_if (MAX_PERMITTED_DATA_INCREASE <? additional_nodes * NODE_SIZE) InvalidRealloc;;
  modify (fun b => with_nodes b
    (b.(nodes) ++ replicate (Z.to_nat additional_nodes) (RFree 0))).

(** [for idx in old_capacity..capacity]: each slot becomes the head of the free list;
    an index past the pool panics. *)
Fixpoint push_free (n : nat) (idx : Z) : M Book unit :=
  match n with
  | O => mret tt
  | S n =>
      b ← gets id;
      let next := b.(header).(freelist_head) in
      _ ← or_panic (slot b idx);
      modify (fun b => set_slot b idx (RFree next));;
      modify (fun b => with_header b
        (header_alloc b.(header) idx b.(header).(node_count) b.(header).(capacity)));;
      push_free n (idx + 1)
  end.

Definition expand_book (additional_nodes : Z) : M Book unit :=
  b ← gets id;
  let old_capacity := b.(header).(capacity) in
  capacity ← ok_or (checked U32_MAX (old_capacity + additional_nodes)) ArithmeticOverflow;
  modify (fun b => with_header b
    (header_alloc b.(header) b.(header).(freelist_head) b.(header).(node_count) capacity));;
  push_free (Z.to_nat additional_nodes) old_capacity.

Definition process_expand_intent_book (accounts : list AccountInfo) (additional_nodes : Z)
    : M World unit :=
  bail_if (additional_nodes =? 0) InvalidInstructionData;;
  payer ← account accounts 0;
  program_config_ai ← account accounts 1;
  instrument_ai ← account accounts 2;
  book_ai ← account accounts 3;
  system_program ← account accounts 4;
  assert_signer payer;;
  assert_writable payer;;
  assert_writable book_ai;;
  assert_owned [program_config_ai; instrument_ai; book_ai];;
  bail_if (negb (system_program.(key) =? SYSTEM_PROGRAM_ID)) InvalidAccountData;;
  inst ← load InstrumentConfig instrument_ai.(key);
  bail_if (negb (inst.(intent_book) =? book_ai.(key))) InvalidPda;;
  w ← gets id;
  let book := acct w book_ai.(key) in
  new_len ← ok_or (checked U64_MAX (data_len book.(acc_data) + additional_nodes * NODE_SIZE))
    ArithmeticOverflow;
  let required_lamports := minimum_balance new_len in
  when (book.(acc_lamports) <? required_lamports)
    (invoke_signed (TransferLamports payer.(key) book_ai.(key)
       (required_lamports - book.(acc_lamports))) []);;
  with_mut book_ai.(key) (realloc_book additional_nodes;; expand_book additional_nodes).
End handlers.
