(* ===== verification/Dispatch.v ===== *)
(** * The instruction set and the dispatcher: [src/instruction.rs] and
    [src/processor/mod.rs]

    The wire tags of the instructions, and the dispatch of a decoded instruction to its
    handler. The Borsh decoding of the payloads is [borsh]'s and a parameter. *)
From S2P Require Import Prelude Ledger Governance Attestation World MatchIx Intent Settlement Lifecycle Authority Custody.

(** [enum InstructionTag] *)
Inductive InstructionTag :=
| TInitProgramConfig | TSetGlobalPause
| TCreateInstrument | TPauseInstrument | TResumeInstrument | TExpandIntentBook
| TCreateMarginAccount | TDeposit | TWithdraw
| TPostIntent | TCancelIntent | TMatchPair | TMatchBestAvailable | TPruneExpired
| TCreateSession | TRevokeSession | TPostIntentDelegated | TCancelIntentDelegated
| TLiquidate | TResolve | TCloseMutual | TClaimReentry | TNovate | TMatchSubstitute
| TMatchSubstituteWithSettle | TClosePmlc
| TInitFeeSchedule | TSetFeeSchedule | TSweepFees
| TProposeSetAttestationSigner | TExecuteSetAttestationSigner | TCancelTimelockProposal
| TInitAdminMultisig | TRotateAdminMultisig
| TInitBucketRegistry | TSetBucketRegistry
| TInitStablecoinRegistry | TAddStablecoinMint | TRemoveStablecoinMint
| TWrapStablecoin | TUnwrapStablecoin.

#[export] Instance InstructionTag_eq_dec : EqDecision InstructionTag.
Proof. solve_decision. Defined.

(** The [#[repr(u8)]] discriminants. *)
Definition tag_byte (t : InstructionTag) : Z :=
  match t with
  | TInitProgramConfig => 0 | TSetGlobalPause => 1
  | TCreateInstrument => 10 | TPauseInstrument => 11 | TResumeInstrument => 12
  | TExpandIntentBook => 13
  | TCreateMarginAccount => 20 | TDeposit => 21 | TWithdraw => 22
  | TPostIntent => 30 | TCancelIntent => 31 | TMatchPair => 32 | TMatchBestAvailable => 33
  | TPruneExpired => 34 | TCreateSession => 35 | TRevokeSession => 36
  | TPostIntentDelegated => 37 | TCancelIntentDelegated => 38
  | TLiquidate => 40 | TResolve => 41 | TCloseMutual => 42 | TClaimReentry => 43
  | TNovate => 44 | TMatchSubstitute => 45 | TMatchSubstituteWithSettle => 46
  | TClosePmlc => 47
  | TInitFeeSchedule => 50 | TSetFeeSchedule => 51 | TSweepFees => 52
  | TProposeSetAttestationSigner => 60 | TExecuteSetAttestationSigner => 61
  | TCancelTimelockProposal => 62
  | TInitAdminMultisig => 70 | TRotateAdminMultisig => 71
  | TInitBucketRegistry => 80 | TSetBucketRegistry => 81
  | TInitStablecoinRegistry => 90 | TAddStablecoinMint => 91 | TRemoveStablecoinMint => 92
  | TWrapStablecoin => 93 | TUnwrapStablecoin => 94
  end.

(** [impl TryFrom<u8> for InstructionTag] *)
Definition tag_try_from (v : Z) : Res InstructionTag :=
  match v with
  | 0 => Ok TInitProgramConfig | 1 => Ok TSetGlobalPause
  | 10 => Ok TCreateInstrument | 11 => Ok TPauseInstrument | 12 => Ok TResumeInstrument
  | 13 => Ok TExpandIntentBook
  | 20 => Ok TCreateMarginAccount | 21 => Ok TDeposit | 22 => Ok TWithdraw
  | 30 => Ok TPostIntent | 31 => Ok TCancelIntent | 32 => Ok TMatchPair
  | 33 => Ok TMatchBestAvailable | 34 => Ok TPruneExpired | 35 => Ok TCreateSession
  | 36 => Ok TRevokeSession | 37 => Ok TPostIntentDelegated | 38 => Ok TCancelIntentDelegated
  | 40 => Ok TLiquidate | 41 => Ok TResolve | 42 => Ok TCloseMutual | 43 => Ok TClaimReentry
  | 44 => Ok TNovate | 45 => Ok TMatchSubstitute | 46 => Ok TMatchSubstituteWithSettle
  | 47 => Ok TClosePmlc
  | 50 => Ok TInitFeeSchedule | 51 => Ok TSetFeeSchedule | 52 => Ok TSweepFees
  | 60 => Ok TProposeSetAttestationSigner | 61 => Ok TExecuteSetAttestationSigner
  | 62 => Ok TCancelTimelockProposal
  | 70 => Ok TInitAdminMultisig | 71 => Ok TRotateAdminMultisig
  | 80 => Ok TInitBucketRegistry | 81 => Ok TSetBucketRegistry
  | 90 => Ok TInitStablecoinRegistry | 91 => Ok TAddStablecoinMint
  | 92 => Ok TRemoveStablecoinMint | 93 => Ok TWrapStablecoin | 94 => Ok TUnwrapStablecoin
  | _ => Err UnsupportedInstruction
  end.

(** [borsh]'s [try_from_slice] for each argument struct: [None] for its errors. *)
Class Borsh := {
  de_init_program_config : list Z -> option (Z * Z);
  de_create_instrument : list Z -> option CreateInstrumentArgs;
  de_u64 : list Z -> option Z;
  de_u32 : list Z -> option Z;
  de_u8 : list Z -> option Z;
  de_post_intent : list Z -> option PostIntentArgs;
  de_match_pair : list Z -> option MatchPairArgs;
  de_attestation : list Z -> option AttestationArgs;
  de_claim_reentry : list Z -> option (Z * Z);
  de_create_session : list Z -> option CreateSessionArgs;
  de_tiers : list Z -> option (list FeeTier);
  de_propose : list Z -> option (Z * Pubkey);
  de_multisig : list Z -> option (Z * list Pubkey);
  de_buckets : list Z -> option (list Z * list Z);
  de_stablecoins : list Z -> option (Z * list Pubkey);
}.

Section dispatch.
Context {R : Runtime} {B : Borsh}.

(** [Args::try_from_slice(payload).map_err(|_| InvalidInstructionData)?] *)
Definition decode {A} (de : list Z -> option A) (payload : list Z) : M World A :=
  ok_or (de payload) InvalidInstructionData.

Definition run_instruction (tag : InstructionTag) (accounts : list AccountInfo)
    (payload : list Z) : M World unit :=
  match tag with
  | TInitProgramConfig =>
      '(signer, staleness) ← decode de_init_program_config payload;
      process_init_program_config accounts signer staleness
  | TSetGlobalPause =>
      match payload with
      | [b] => process_set_global_pause accounts (negb (b =? 0))
      | _ => fail InvalidInstructionData
      end
  | TCreateInstrument =>
      args ← decode de_create_instrument payload; process_create_instrument accounts args
  | TPauseInstrument => process_set_instrument_status accounts true
  | TResumeInstrument => process_set_instrument_status accounts false
  | TExpandIntentBook =>
      n ← decode de_u32 payload; process_expand_intent_book accounts n
  | TCreateMarginAccount => process_create_margin_account accounts
  | TDeposit => amount ← decode de_u64 payload; process_deposit accounts amount
  | TWithdraw => amount ← decode de_u64 payload; process_withdraw accounts amount
  | TPostIntent => args ← decode de_post_intent payload; process_post_intent accounts args
  | TCancelIntent => id ← decode de_u64 payload; process_cancel_intent accounts id
  | TMatchPair => args ← decode de_match_pair payload; process_match_pair accounts args
  | TMatchBestAvailable =>
      _ ← decode de_u8 payload; process_match_best_available accounts
  | TLiquidate => args ← decode de_attestation payload; process_liquidate accounts args
  | TResolve => args ← decode de_attestation payload; process_resolve accounts args
  | TClaimReentry =>
      '(side, expiration) ← decode de_claim_reentry payload;
      process_claim_reentry accounts side expiration
  | TCloseMutual => args ← decode de_attestation payload; process_close_mutual accounts args
  | TPruneExpired => process_prune_expired accounts
  | TCreateSession => args ← decode de_create_session payload; process_create_session accounts args
  | TRevokeSession => process_revoke_session accounts
  | TPostIntentDelegated =>
      args ← decode de_post_intent payload; process_post_intent_delegated accounts args
  | TCancelIntentDelegated =>
      id ← decode de_u64 payload; process_cancel_intent_delegated accounts id
  | TNovate => side ← decode de_u8 payload; process_novate accounts side
  | TMatchSubstitute =>
      args ← decode de_match_pair payload; process_match_substitute accounts args
  | TMatchSubstituteWithSettle =>
      args ← decode de_match_pair payload; process_match_substitute_with_settle accounts args
  | TClosePmlc => process_close_pmlc accounts
  | TInitFeeSchedule => ts ← decode de_tiers payload; process_init_fee_schedule accounts ts
  | TSetFeeSchedule => ts ← decode de_tiers payload; process_set_fee_schedule accounts ts
  | TSweepFees => amount ← decode de_u64 payload; process_sweep_fees accounts amount
  | TProposeSetAttestationSigner =>
      '(id, signer) ← decode de_propose payload;
      process_propose_set_attestation_signer accounts id signer
  | TExecuteSetAttestationSigner =>
      id ← decode de_u64 payload; process_execute_set_attestation_signer accounts id
  | TCancelTimelockProposal => id ← decode de_u64 payload; process_cancel_timelock accounts id
  | TInitAdminMultisig =>
      '(threshold, signers) ← decode de_multisig payload;
      process_init_admin_multisig accounts threshold signers
  | TRotateAdminMultisig =>
      '(threshold, signers) ← decode de_multisig payload;
      process_rotate_admin_multisig accounts threshold signers
  | TInitBucketRegistry =>
      '(leverages, buckets) ← decode de_buckets payload;
      process_init_bucket_registry accounts leverages buckets
  | TSetBucketRegistry =>
      '(leverages, buckets) ← decode de_buckets payload;
      process_set_bucket_registry accounts leverages buckets
  | TInitStablecoinRegistry =>
      '(decimals, mints) ← decode de_stablecoins payload;
      process_init_stablecoin_registry accounts decimals mints
  | TAddStablecoinMint => process_add_stablecoin_mint accounts
  | TRemoveStablecoinMint => process_remove_stablecoin_mint accounts
  | TWrapStablecoin => amount ← decode de_u64 payload; process_wrap_stablecoin accounts amount
  | TUnwrapStablecoin => amount ← decode de_u64 payload; process_unwrap_stablecoin accounts amount
  end.

Definition process (accounts : list AccountInfo) (data : list Z) : M World unit :=
  match data with
  | [] => fail InvalidInstructionData
  | tag_byte :: payload =>
      tag ← lift (tag_try_from tag_byte);
      run_instruction tag accounts payload
  end.

(** The runtime keeps the accounts of a successful instruction and restores them after
    anything else. *)
Definition transaction (accounts : list AccountInfo) (data : list Z) (w : World) : World :=
  match process accounts data w with
  | (Ok _, w') => w'
  | _ => w
  end.
End dispatch.

(** A decoder for the witnesses: fixed-width little-endian integers and 32-byte keys, as
    [borsh] lays them out; the payloads no witness needs are refused. *)
Definition fields (len : nat) (bs : list Z) : option (list Z) :=
  if (length bs =? len)%nat then Some bs else None.
Definition field (bs : list Z) (off n : nat) : Z := le_num (take n (drop off bs)).
Definition key_field (bs : list Z) (off : nat) : Pubkey := be_num (take 32 (drop off bs)).

Fixpoint tier_fields (n : nat) (bs : list Z) : list FeeTier :=
  match n with
  | O => []
  | S n => {| volume_threshold := field bs 0 8; fee_bps := field bs 8 2 |}
           :: tier_fields n (drop 10 bs)
  end.

Definition demo_borsh : Borsh := {|
  de_init_program_config bs := bs ← fields 40 bs; Some (key_field bs 0, field bs 32 8);
  de_create_instrument bs := None;
  de_u64 bs := bs ← fields 8 bs; Some (field bs 0 8);
  de_u32 bs := bs ← fields 4 bs; Some (field bs 0 4);
  de_u8 bs := bs ← fields 1 bs; Some (field bs 0 1);
  de_post_intent bs := bs ← fields 22 bs;
    Some {| pa_side := field bs 0 1; pa_price_fp := field bs 1 8; pa_contracts := field bs 9 2;
            pa_expiration_slot := field bs 11 8; pa_reentry_enabled := field bs 19 1;
            pa_try_match := field bs 20 1 |};
  de_match_pair bs := bs ← fields 18 bs;
    Some {| mp_long_intent_id := field bs 0 8; mp_short_intent_id := field bs 8 8;
            mp_max_contracts := field bs 16 2 |};
  de_attestation bs := bs ← fields 1 bs; Some {| attestation_ix_offset := field bs 0 1 |};
  de_claim_reentry bs := bs ← fields 9 bs; Some (field bs 0 1, field bs 1 8);
  de_create_session bs := None;
  de_tiers bs :=
    let n := Z.to_nat (field bs 0 4) in
    _ ← fields (4 + 10 * n) bs; Some (tier_fields n (drop 4 bs));
  de_propose bs := bs ← fields 40 bs; Some (field bs 0 8, key_field bs 8);
  de_multisig bs := None;
  de_buckets bs := None;
  de_stablecoins bs := None |}.

(* ------------------------------------------------------------------ *)
(** ** The wire format of the tag *)

Lemma tag_try_from_byte t : tag_try_from (tag_byte t) = Ok t.
Proof. by destruct t. Qed.

Lemma tag_try_from_ok v t : tag_try_from v = Ok t -> v = tag_byte t.
Proof. unfold tag_try_from. intros H. repeat case_match; simplify_eq; reflexivity. Qed.

Lemma tag_try_from_err v : (forall t, v <> tag_byte t) -> tag_try_from v = Err UnsupportedInstruction.
Proof.
  intros Hv. destruct (tag_try_from v) as [t|e| |] eqn:E.
  - apply tag_try_from_ok in E. by destruct (Hv t).
  - unfold tag_try_from in E. repeat case_match; simplify_eq; reflexivity.
  - unfold tag_try_from in E. repeat case_match; simplify_eq.
  - unfold tag_try_from in E. repeat case_match; simplify_eq.
Qed.

(** C34: an instruction is dispatched by its first byte: every tag is decoded from its own
    discriminant and from no other byte, so no two instructions share one; an empty
    instruction is InvalidInstructionData, an unassigned byte UnsupportedInstruction, and
    neither touches an account. *)
Theorem dispatch_by_tag `{R : Runtime} `{B : Borsh} accounts data w :
  (data = [] /\ process accounts data w = (Err InvalidInstructionData, w)) \/
  (exists b payload, data = b :: payload /\
     (forall t, b <> tag_byte t) /\ process accounts data w = (Err UnsupportedInstruction, w)) \/
  (exists t payload, data = tag_byte t :: payload /\
     (forall t', tag_byte t' = tag_byte t -> t' = t) /\
     process accounts data w = run_instruction t accounts payload w).
Proof.
  destruct data as [|b payload]; [by left|right].
  destruct (tag_try_from b) as [t|e| |] eqn:E.
  - right. pose proof (tag_try_from_ok _ _ E) as ->. exists t, payload. split_and!; [done| |].
    + intros t' Ht. pose proof (tag_try_from_byte t') as E'. rewrite Ht, E in E'. congruence.
    + cbn [process]. by rewrite E.
  - left. exists b, payload. assert (Hb : forall t, b <> tag_byte t).
    { intros t ->. by rewrite tag_try_from_byte in E. }
    split_and!; [done..|]. cbn [process]. by rewrite (tag_try_from_err _ Hb).
  - exfalso. unfold tag_try_from in E. repeat case_match; simplify_eq.
  - exfalso. unfold tag_try_from in E. repeat case_match; simplify_eq.
Qed.
