(* ===== verification/Bystanders.v ===== *)
(** * What the instructions that move no tokens leave alone

    Most instructions write only the program's own structs, and create accounts only for
    them. So a fact about anything else (a token account, a mint, a vault, an address that is
    not one of these) outlives them: an interface, [Bystander], states what such a fact has to
    satisfy, and every handler that calls no token program is proved against it once. *)
From S2P Require Import Prelude IntentBook Ledger Governance Attestation World Footprint MatchIx Intent Settlement Lifecycle Authority Custody Dispatch.

(** The same owner and data. *)
Definition alike (a a' : Account) : Prop := a'.(acc_owner) = a.(acc_owner) /\ a'.(acc_data) = a.(acc_data).
(** Raw bytes under the token program: all a token account or a mint can be. *)
Definition raw_token (a : Account) : Prop := a.(acc_owner) = SPL_TOKEN_ID /\ exists bs, a.(acc_data) = DBytes bs.

(** A fact [pre] that writes to the accounts [ok] cannot make false, as long as these hold no
    raw bytes of the token program; and no such account can be written by accident. *)
Class Bystander (ok : Pubkey -> Prop) (pre : World -> Prop) := {
  bystander_ok k w : pre w -> ~ raw_token (acct w k) -> ok k;
  bystander_write k w w' : ok k -> (forall j, j <> k -> alike (acct w j) (acct w' j)) ->
    ~ raw_token (acct w' k) -> pre w -> pre w';
  bystander_ext w w' : (forall j, alike (acct w j) (acct w' j)) -> pre w -> pre w';
}.

Definition passive (pre : World -> Prop) (w w' : World) : Prop := pre w -> pre w'.
#[export] Instance passive_preorder pre : PreOrder (passive pre).
Proof. split; unfold passive; [intros w|intros w1 w2 w3]; auto. Qed.

Lemma alike_refl a : alike a a.
Proof. by split. Qed.

Create HintDb bystanders discriminated.

Section bystanders.
Context {R : Runtime} {L : RuntimeLaws} (ok : Pubkey -> Prop) (pre : World -> Prop) {Y : Bystander ok pre}.

(** ** Writes *)

Lemma passive_same k a w : alike (acct w k) a -> passive pre w (<[k := a]> w).
Proof.
  intros Ha. unfold passive. apply bystander_ext. intros j. destruct (decide (k = j)) as [<-|].
  - by rewrite acct_insert_eq.
  - rewrite acct_insert_ne by done. apply alike_refl.
Qed.
Lemma passive_set k d w : ok k -> (forall bs, d <> DBytes bs) -> passive pre w (set_data k d w).
Proof.
  intros Hk Hd. unfold passive. apply (bystander_write k); [done| |].
  - intros j Hj. rewrite acct_set_ne by done. apply alike_refl.
  - rewrite acct_set_eq. intros [_ [bs Hb]]. by apply (Hd bs).
Qed.
Lemma struct_not_raw `{AccountType A} k (v : A) w :
  (forall bs, proj (T := A) (DBytes bs) = None) -> (acct w k).(acc_data) = inj v -> ~ raw_token (acct w k).
Proof. intros Hp Hd [_ [bs Hb]]. rewrite Hd in Hb. specialize (Hp bs). by rewrite <- Hb, proj_inj in Hp. Qed.
Lemma struct_not_bytes `{AccountType A} (v : A) :
  (forall bs, proj (T := A) (DBytes bs) = None) -> forall bs, inj v <> DBytes bs.
Proof. intros Hp bs Hb. specialize (Hp bs). by rewrite <- Hb, proj_inj in Hp. Qed.

Lemma passive_mut `{AccountType A} {B} k (m : M A B) :
  (forall bs, proj (T := A) (DBytes bs) = None) -> respects (passive pre) (with_mut k m).
Proof.
  intros Hp. apply respects_with_mut; [exact _|]. intros w v r v' Hd _ Hw.
  apply passive_set; [|by apply struct_not_bytes|done]. by eapply bystander_ok, struct_not_raw.
Qed.
Lemma passive_init `{AccountType A} k (v : A) : ok k -> (forall bs, proj (T := A) (DBytes bs) = None) ->
  respects (passive pre) (init_account k v).
Proof.
  intros Hk Hp. apply respects_init_account; [exact _|]. intros. by apply passive_set, struct_not_bytes.
Qed.
Lemma passive_overwrite `{AccountType A} k (v : A) : ok k -> (forall bs, proj (T := A) (DBytes bs) = None) ->
  respects (passive pre) (overwrite k v).
Proof.
  intros Hk Hp. unfold overwrite. world_tac. apply respects_modify. intros w.
  by apply passive_set, struct_not_bytes.
Qed.

(** ** Calls *)

Lemma program_not_raw a : a.(acc_owner) = program_id -> ~ raw_token a.
Proof. intros Ho [Ht _]. rewrite Ho in Ht. by destruct program_not_token. Qed.
Lemma system_not_raw a : a.(acc_owner) = SYSTEM_PROGRAM_ID -> ~ raw_token a.
Proof. intros Ho [Ht _]. by rewrite Ho in Ht. Qed.

Lemma passive_create_call from new lam space seeds w w' :
  invoke (CreateAccount from new lam space program_id) seeds w = Some w' -> passive pre w w'.
Proof.
  intros E Hw. pose proof (create_fresh _ _ _ _ _ _ _ _ E) as (Hs & _ & _ & Hn).
  apply (bystander_write new w); [by eapply bystander_ok, system_not_raw| |by apply program_not_raw|done].
  intros j Hj. by destruct (create_frame _ _ _ _ _ _ _ _ j E Hj).
Qed.
Lemma passive_create payer new space seeds bump : respects (passive pre) (create_pda payer new space seeds bump).
Proof. apply respects_invoke; [exact _|]. intros w w' E. by eapply passive_create_call. Qed.
Lemma passive_create_invoke from new lam space seeds :
  respects (passive pre) (invoke_signed (CreateAccount from new lam space program_id) seeds).
Proof. apply respects_invoke; [exact _|]. intros w w' E. by eapply passive_create_call. Qed.
Lemma passive_lamports from to lam seeds : respects (passive pre) (invoke_signed (TransferLamports from to lam) seeds).
Proof.
  apply respects_invoke; [exact _|]. intros w w' E. unfold passive. apply bystander_ext. intros j.
  by destruct (transfer_frame _ _ _ _ _ _ j E).
Qed.

(** ** Accounts the program made its own first *)

(** A step that succeeds on such accounts only. *)
Definition finds {A} (k : Pubkey) (m : M World A) : Prop :=
  forall w a w', pre w -> m w = (Ok a, w') -> ok k.

Lemma passive_after {A B} k (m : M World A) (f : A -> M World B) :
  finds k m -> respects (passive pre) m -> (ok k -> forall a, respects (passive pre) (f a)) ->
  respects (passive pre) (m ≫= f).
Proof.
  intros Hk Hm Hf w b w' E Hw. unfold mbind, M_bind in E. destruct (m w) as [[a|e| |] w1] eqn:E1.
  - eapply Hf; [by eapply Hk|exact E|]. by eapply Hm.
  - simplify_eq. by eapply Hm.
  - simplify_eq. by eapply Hm.
  - simplify_eq. by eapply Hm.
Qed.
Lemma finds_create payer new space seeds bump : finds new (create_pda payer new space seeds bump).
Proof.
  intros w u w' Hw E%invoke_signed_ok_inv. apply create_fresh in E as (Hs & _).
  by eapply bystander_ok, system_not_raw.
Qed.
Lemma finds_create_if_empty payer new space seeds bump : finds new (create_if_empty payer new space seeds bump).
Proof.
  intros w u w' Hw E. unfold create_if_empty in E. inv_world. case_match; [by eapply finds_create|].
  inv_world. by eapply bystander_ok, program_not_raw.
Qed.
Lemma finds_alloc owner session bump : finds session (alloc_session owner session bump).
Proof.
  intros w u w' Hw E. unfold alloc_session in E. inv_world. case_match; [by eapply finds_create|].
  inv_world. eapply bystander_ok; [exact Hw|]. by eapply (struct_not_raw (A := Session)).
Qed.
Lemma passive_create_if_empty payer new space seeds bump :
  respects (passive pre) (create_if_empty payer new space seeds bump).
Proof. unfold create_if_empty. world_tac. apply passive_create. Qed.
Lemma passive_alloc owner session bump : respects (passive pre) (alloc_session owner session bump).
Proof. unfold alloc_session. world_tac. apply passive_create. Qed.

Ltac pass_step :=
  lazymatch goal with
  | |- respects _ (create_pda _ ?k _ _ _ ≫= _) =>
      apply (passive_after k); [apply finds_create|apply passive_create|intros ? ?]
  | |- respects _ (create_if_empty _ ?k _ _ _ ≫= _) =>
      apply (passive_after k); [apply finds_create_if_empty|apply passive_create_if_empty|intros ? ?]
  | |- respects _ (alloc_session _ ?k _ ≫= _) =>
      apply (passive_after k); [apply finds_alloc|apply passive_alloc|intros ? ?]
  | |- respects _ (with_mut _ _) => apply passive_mut; intros ?; reflexivity
  | |- respects _ (init_account _ _) => apply passive_init; [assumption|intros ?; reflexivity]
  | |- respects _ (overwrite _ _) => apply passive_overwrite; [assumption|intros ?; reflexivity]
  | |- respects _ (modify (set_data _ _)) =>
      apply respects_modify; intros ?; apply passive_set; [assumption|intros ?; discriminate]
  | |- respects _ (create_pda _ _ _ _ _) => apply passive_create
  | |- respects _ (invoke_signed (CreateAccount _ _ _ _ _) _) => apply passive_create_invoke
  | |- respects _ (invoke_signed (TransferLamports _ _ _) _) => apply passive_lamports
  | _ => first [world_step|solve [eauto with nocore bystanders]]
  end.
Ltac pass_tac := repeat pass_step.

(** ** The handlers *)

Lemma passive_affordable n bucket bps free : respects (passive pre) (affordable n bucket bps free).
Proof. induction n; cbn [affordable]; pass_tac. Qed.
Lemma passive_find_margin trader m j margins : respects (passive pre) (find_margin trader m j margins).
Proof. induction margins in j |- *; cbn [find_margin]; pass_tac. Qed.
Hint Resolve passive_affordable passive_find_margin : bystanders.
Lemma passive_prune_all bk m margins work : respects (passive pre) (prune_all bk m margins work).
Proof. induction work as [|[[[]]]] in margins |- *; cbn [prune_all]; pass_tac. Qed.
Hint Resolve passive_prune_all : bystanders.
Lemma passive_authorize config accounts : respects (passive pre) (authorize config accounts).
Proof.
  unfold authorize, authorize_admin_or_multisig. pass_tac. clear H.
  generalize accounts at 2. intros ais. induction ais; cbn [authorize_scan]; pass_tac.
Qed.
Hint Resolve passive_authorize : bystanders.

(** The handlers that leave the vault alone. *)
Lemma passive_match_core ctx l s n : respects (passive pre) (match_pair_core ctx l s n).
Proof.
  unfold match_pair_core, settle_match, charge_taker, open_position, ensure_fee_treasury, ensure_user_volume. pass_tac.
Qed.
Hint Resolve passive_match_core : bystanders.
Lemma passive_match_pair accounts args : respects (passive pre) (process_match_pair accounts args).
Proof. unfold process_match_pair, unpack_accounts. pass_tac. Qed.
Lemma passive_match_best accounts : respects (passive pre) (process_match_best_available accounts).
Proof. unfold process_match_best_available, unpack_accounts. pass_tac. Qed.
Lemma passive_post_inner owner payer config instr book margin session accounts off args :
  respects (passive pre) (do_post_intent_inner owner payer config instr book margin session accounts off args).
Proof.
  unfold do_post_intent_inner, validate_post, try_inline_match. pass_tac.
Qed.
Lemma passive_post accounts args : respects (passive pre) (process_post_intent accounts args).
Proof. unfold process_post_intent. pass_tac. apply passive_post_inner. Qed.
Lemma passive_post_delegated accounts args :
  respects (passive pre) (process_post_intent_delegated accounts args).
Proof. unfold process_post_intent_delegated, authorize_session. pass_tac. apply passive_post_inner. Qed.
Lemma passive_cancel accounts id : respects (passive pre) (process_cancel_intent accounts id).
Proof. unfold process_cancel_intent. pass_tac. Qed.
Lemma passive_cancel_delegated accounts id : respects (passive pre) (process_cancel_intent_delegated accounts id).
Proof. unfold process_cancel_intent_delegated, authorize_session. pass_tac. Qed.
Lemma passive_claim accounts side expiration : respects (passive pre) (process_claim_reentry accounts side expiration).
Proof. unfold process_claim_reentry, repost, reentry_size, reservation. pass_tac. Qed.
Lemma passive_prune accounts : respects (passive pre) (process_prune_expired accounts).
Proof. unfold process_prune_expired. pass_tac. Qed.
Lemma passive_novate accounts side : respects (passive pre) (process_novate accounts side).
Proof. unfold process_novate. pass_tac. Qed.
Lemma passive_substitute accounts args b : respects (passive pre) (do_substitute accounts args b).
Proof. unfold do_substitute, settle_substitution. pass_tac. Qed.
Lemma passive_liquidate accounts args : respects (passive pre) (process_liquidate accounts args).
Proof.
  unfold process_liquidate, load_attestation_signer, verified_attestation, check_breach, load_live_pmlc,
    liquidation_payout. pass_tac.
Qed.
Lemma passive_resolve accounts args : respects (passive pre) (process_resolve accounts args).
Proof.
  unfold process_resolve, load_attestation_signer, verified_attestation, load_live_pmlc, pay_equities. pass_tac.
Qed.
Lemma passive_close_mutual accounts args : respects (passive pre) (process_close_mutual accounts args).
Proof.
  unfold process_close_mutual, load_attestation_signer, verified_attestation, load_live_pmlc, pay_equities. pass_tac.
Qed.
(** Closing a contract: it belongs to the program until it is the system's, without data. *)
Lemma passive_close_account recipient k : ok k -> yields (passive pre) (close_pmlc_account recipient k).
Proof.
  intros Hk w u w' E Hw. unfold close_pmlc_account in E. inv_world.
  match goal with |- pre (<[k := _]> (set_data k _ ?w2)) =>
    assert (Hw2 : pre w2) by (by apply passive_same, passive_same); revert Hw2; generalize w2 end.
  intros w2. apply (bystander_write k); [done| |].
  - intros j Hj. rewrite acct_insert_ne, acct_set_ne by done. apply alike_refl.
  - rewrite acct_insert_eq. by apply system_not_raw.
Qed.
Lemma passive_close_pmlc accounts : yields (passive pre) (process_close_pmlc accounts).
Proof.
  intros w u w' E Hw. unfold process_close_pmlc in E. inv_world. revert Hw E. intros Hw E.
  eapply passive_close_account; [|exact E|exact Hw]. eapply bystander_ok; [exact Hw|].
  by eapply (struct_not_raw (A := Pmlc)).
Qed.

(** Administration. *)
Lemma passive_require_admin config admin_key : respects (passive pre) (require_admin config admin_key).
Proof. unfold require_admin. pass_tac. Qed.
Hint Resolve passive_require_admin : bystanders.
Lemma passive_init_config accounts s st : respects (passive pre) (process_init_program_config accounts s st).
Proof. unfold process_init_program_config. pass_tac. Qed.
Lemma passive_set_pause accounts b : respects (passive pre) (process_set_global_pause accounts b).
Proof. unfold process_set_global_pause. pass_tac. Qed.
Lemma passive_init_multisig accounts t s : respects (passive pre) (process_init_admin_multisig accounts t s).
Proof. unfold process_init_admin_multisig. pass_tac. Qed.
Lemma passive_rotate accounts t s : respects (passive pre) (process_rotate_admin_multisig accounts t s).
Proof. unfold process_rotate_admin_multisig. pass_tac. Qed.
Lemma passive_propose accounts id s : respects (passive pre) (process_propose_set_attestation_signer accounts id s).
Proof. unfold process_propose_set_attestation_signer. pass_tac. Qed.
Lemma passive_execute accounts id : respects (passive pre) (process_execute_set_attestation_signer accounts id).
Proof. unfold process_execute_set_attestation_signer. pass_tac. Qed.
Lemma passive_cancel_timelock accounts id : respects (passive pre) (process_cancel_timelock accounts id).
Proof. unfold process_cancel_timelock. pass_tac. Qed.
Lemma passive_init_buckets accounts l b : respects (passive pre) (process_init_bucket_registry accounts l b).
Proof. unfold process_init_bucket_registry. pass_tac. Qed.
Lemma passive_set_buckets accounts l b : respects (passive pre) (process_set_bucket_registry accounts l b).
Proof. unfold process_set_bucket_registry. pass_tac. Qed.
Lemma passive_add_mint accounts : respects (passive pre) (process_add_stablecoin_mint accounts).
Proof. unfold process_add_stablecoin_mint. pass_tac. Qed.
Lemma passive_remove_mint accounts : respects (passive pre) (process_remove_stablecoin_mint accounts).
Proof. unfold process_remove_stablecoin_mint. pass_tac. Qed.
Lemma passive_init_schedule accounts t : respects (passive pre) (process_init_fee_schedule accounts t).
Proof. unfold process_init_fee_schedule. pass_tac. Qed.
Lemma passive_set_schedule accounts t : respects (passive pre) (process_set_fee_schedule accounts t).
Proof. unfold process_set_fee_schedule. pass_tac. Qed.
Lemma passive_set_status accounts p : respects (passive pre) (process_set_instrument_status accounts p).
Proof. unfold process_set_instrument_status. pass_tac. Qed.
Lemma passive_create_session accounts args : respects (passive pre) (process_create_session accounts args).
Proof. unfold process_create_session, write_session. pass_tac. Qed.
Lemma passive_revoke accounts : respects (passive pre) (process_revoke_session accounts).
Proof. unfold process_revoke_session. pass_tac. Qed.
Lemma passive_expand accounts n : respects (passive pre) (process_expand_intent_book accounts n).
Proof. unfold process_expand_intent_book. pass_tac. Qed.
Lemma passive_create_instrument accounts args : respects (passive pre) (process_create_instrument accounts args).
Proof.
  unfold process_create_instrument, check_bucket_registry, init_instrument, init_book,
    ensure_market_nonce. pass_tac.
Qed.
Lemma passive_create_margin accounts : respects (passive pre) (process_create_margin_account accounts).
Proof. unfold process_create_margin_account. pass_tac. Qed.

(** ** Every instruction *)

Context {B : Borsh}.

#[local] Hint Resolve passive_match_pair passive_match_best passive_post passive_post_delegated passive_cancel
  passive_cancel_delegated passive_claim passive_prune
  passive_novate passive_substitute passive_liquidate passive_resolve passive_close_mutual
  passive_init_config passive_set_pause passive_init_multisig passive_rotate passive_propose passive_execute
  passive_cancel_timelock passive_init_buckets passive_set_buckets passive_add_mint
  passive_remove_mint passive_init_schedule passive_set_schedule passive_set_status passive_create_session
  passive_revoke passive_expand passive_create_instrument passive_create_margin : bystanders.

Lemma passive_decode {A} (de : list Z -> option A) payload : respects (passive pre) (decode de payload).
Proof. unfold decode. world_tac. Qed.
#[local] Hint Resolve passive_decode : bystanders.

(** The instructions that call the token program. *)
Definition calls_tokens (t : InstructionTag) : bool :=
  match t with
  | TDeposit | TWithdraw | TSweepFees | TInitStablecoinRegistry | TWrapStablecoin | TUnwrapStablecoin => true
  | _ => false
  end.

(** The others disturb no bystander. *)
Lemma instruction_passive t accounts payload : calls_tokens t = false ->
  yields (passive pre) (run_instruction t accounts payload).
Proof.
  intros Ht. destruct t; try discriminate Ht; cbn [run_instruction];
    unfold process_match_substitute, process_match_substitute_with_settle;
    try (apply passive_close_pmlc); apply yields_respects; pass_tac.
Qed.
End bystanders.
