(* ===== verification/DemoWorld.v ===== *)
(** * A concrete world

    One instrument with its book, two traders with margin, two live contracts, a fee
    schedule, a session and a timelock proposal, at the addresses [Demo.demo] derives: the
    inputs of the witnesses. *)
From S2P Require Import Prelude Fixed IntentBook SeatTree IntentTree Ledger Governance Attestation World Demo MatchIx Intent Dispatch.

Definition pda (seeds : list (list Z)) : Pubkey := fst (find_program_address (Runtime := demo 0 0 []) seeds).

Definition PID : Pubkey := 77.
Definition ADMIN : Pubkey := 1001.
Definition ALICE : Pubkey := 1011.
Definition BOB : Pubkey := 1012.
Definition CAROL : Pubkey := 1013.
Definition USD : Pubkey := 1005.
Definition MARKET : Z := 4242.
Definition ATTESTOR : Pubkey := 900.

Definition CONFIG : Pubkey := Eval vm_compute in pda [SEED_CONFIG].
Definition INSTRUMENT : Pubkey := 2000.
Definition BOOK : Pubkey := 2001.
Definition NONCE : Pubkey := Eval vm_compute in pda [SEED_MARKET_NONCE; key_seed MARKET].
Definition SCHEDULE : Pubkey := Eval vm_compute in pda [SEED_FEE_SCHEDULE].
Definition TREASURY : Pubkey := Eval vm_compute in pda [SEED_TREASURY; key_seed USD].
Definition MARGIN (owner : Pubkey) : Pubkey := pda [SEED_MARGIN; key_seed owner; key_seed USD].
Definition VOLUME (owner : Pubkey) : Pubkey := pda [SEED_USER_VOLUME; key_seed owner; key_seed USD].
Definition PMLC (id : Z) : Pubkey := pda [SEED_PMLC; key_seed INSTRUMENT; u64_seed id].
Definition SESSION (owner : Pubkey) : Pubkey := pda [SEED_SESSION; key_seed owner].
Definition TIMELOCK (id : Z) : Pubkey := pda [SEED_TIMELOCK; u64_seed id].
Definition VAULT_AUTHORITY : Pubkey := Eval vm_compute in pda [SEED_VAULT; key_seed USD].
Definition VAULT : Pubkey := Eval vm_compute in VAULT_AUTHORITY + 2 * USD.
Definition ALICE_ATA : Pubkey := 3011.

Definition demo_config : ProgramConfig := config_init ADMIN ATTESTOR ADMIN 60 255.

(** Two-to-one leverage on a bucket of a million atoms. *)
Definition demo_instrument : InstrumentConfig :=
  {| ic_status := STATUS_ACTIVE; ic_bump := 255; ic_source := POLYMARKET;
     ic_market_id := MARKET; source_token_id_a := 1; source_token_id_b := 2;
     ic_collateral_mint := USD; intent_book := BOOK; leverage_bps := 20000;
     collateral_bucket := 1000000; twap_window_slots := 10; tick_fp := 10 ^ 15;
     liquidation_bps := 500; liquidation_bounty_bps := 100; max_staleness_secs := 60;
     reference_usd := 0 |}.

(** A contract of Alice (long) and Bob (short) entered at one half. *)
Definition demo_pmlc (id : Z) : Pmlc := Eval vm_compute in
  {| pm_status := PMLC_STATUS_LIVE; close_reason := CLOSE_REASON_NONE; pm_flags := 1;
     pm_bump := 255; pm_id := 0; instrument := INSTRUMENT; pm_collateral_mint := USD;
     pm_market_id := MARKET; long_owner := ALICE; short_owner := BOB;
     collateral_per_side := 1000000; pm_leverage_bps := 20000; entry_price_fp := PRICE_ONE / 2;
     Governance.notional_atoms := 2000000; size_fp_lo := 4000000; size_fp_hi := 0;
     opened_slot := 90; last_mark_slot := 90; long_reentry_price_fp := PRICE_ONE / 2;
     short_reentry_price_fp := PRICE_ONE / 2 |}.

Definition demo_margin (owner : Pubkey) (free reserved locked : Z) : MarginAccount :=
  set_buckets (margin_init owner USD 255) free reserved locked.

Definition demo_tiers : list FeeTier :=
  [{| volume_threshold := 0; fee_bps := 30 |}; {| volume_threshold := 5000000; fee_bps := 10 |}].

Definition program_account (d : AccountData) : Account :=
  {| acc_owner := PID; acc_lamports := 10 ^ 7; acc_data := d |}.
Definition token_account (owner amount : Z) : Account :=
  {| acc_owner := SPL_TOKEN_ID; acc_lamports := 10 ^ 7; acc_data := demo_token_data owner USD amount |}.

(** The book after Alice bids 0.6 and Bob asks 0.4. *)
Definition demo_posts : M Book unit :=
  place_intent ALICE SIDE_LONG 0 (6 * 10 ^ 17) 2 1000 2000000 0;;
  place_intent BOB SIDE_SHORT 0 (4 * 10 ^ 17) 1 1000 1000000 0;; mret tt.
Definition demo_book : Book := Eval vm_compute in
  match init_intent_book (intent_book_byte_size 16) INSTRUMENT 16 255 0 with
  | Ok b => snd (demo_posts b)
  | _ => {| header := {| bh_bump := 0; bh_instrument := 0; long_tree_root := 0;
              short_tree_root := 0; seat_tree_root := 0; freelist_head := 0; node_count := 0;
              capacity := 0; bh_next_intent_id := 0; bh_next_seq := 0; cached_max_fee_bps := 0 |};
            nodes := [] |}
  end.

Definition demo_session : Session := session_init ALICE CAROL 255 5000 3000000 9000000 [] 50.
Definition demo_proposal : TimelockProposal :=
  {| tl_kind := TL_KIND_SET_ATTESTATION_SIGNER; tl_status := TL_STATUS_PENDING; tl_bump := 255;
     proposal_id := 7; proposer := ADMIN; new_signer := 901; proposed_slot := 10;
     proposed_unix_ts := 1700000000; executable_after_unix_ts := 1700086400 |}.

Definition demo_world : World :=
  list_to_map
    [(CONFIG, program_account (DConfig demo_config));
     (INSTRUMENT, program_account (DInstrument demo_instrument));
     (BOOK, program_account (DBook demo_book));
     (NONCE, program_account (DNonce (nonce_init MARKET 255)));
     (SCHEDULE, program_account (DFeeSchedule (schedule_init demo_tiers 1 255)));
     (TREASURY, program_account (DTreasury (treasury_init USD 255)));
     (MARGIN ALICE, program_account (DMargin (demo_margin ALICE 5000000 2000000 2000000)));
     (MARGIN BOB, program_account (DMargin (demo_margin BOB 5000000 1000000 2000000)));
     (MARGIN CAROL, program_account (DMargin (demo_margin CAROL 5000000 0 0)));
     (PMLC 101, program_account (DPmlc (demo_pmlc 101)));
     (PMLC 102, program_account (DPmlc (demo_pmlc 102)));
     (SESSION ALICE, program_account (DSession demo_session));
     (TIMELOCK 7, program_account (DTimelock demo_proposal));
     (VAULT, token_account VAULT_AUTHORITY 50000000);
     (ALICE_ATA, token_account ALICE 3000000);
     (USD, {| acc_owner := SPL_TOKEN_ID; acc_lamports := 1; acc_data := DBytes (replicate 82 0) |})].

(** An account as an instruction passes it. *)
Definition signer (k : Pubkey) : AccountInfo := {| key := k; is_signer := true; is_writable := true |}.
Definition writable (k : Pubkey) : AccountInfo := {| key := k; is_signer := false; is_writable := true |}.
Definition readonly (k : Pubkey) : AccountInfo := {| key := k; is_signer := false; is_writable := false |}.

(** The precompile instruction that carries an attestation by the attestor. *)
Definition attest (bytes : list Z) : Instruction :=
  {| ix_program_id := ED25519_PROGRAM_ID;
     ix_data := build_ed25519_ix_data ATTESTOR (replicate 64 9) bytes |}.
Definition resolution (outcome nonce ts : Z) : Instruction :=
  attest (build_attestation ATT_TYPE_RESOLUTION MARKET ts nonce (le_bytes 2 outcome)).

(** A property of the accounts a world lists. *)
Lemma world_forall (P : Pubkey -> Account -> Prop) l :
  (forall k, P k no_account) -> Forall (fun ka => P ka.1 ka.2) l ->
  forall k, P k (acct (list_to_map l) k).
Proof.
  intros Hn Hl k. unfold acct. destruct (list_to_map l !! k) as [a|] eqn:E; [|apply Hn].
  apply elem_of_list_to_map_2 in E. rewrite Forall_forall in Hl. by apply (Hl (k, a)).
Qed.

(** A transaction of the demo program at slot 100. *)
Definition demo_tx (now : Z) (ixs : list Instruction) (accounts : list AccountInfo)
    (t : InstructionTag) (payload : list Z) (w : World) : World :=
  transaction (R := demo 100 now ixs) (B := demo_borsh) accounts (tag_byte t :: payload) w.

(** A breach of a contract, as the attestor signs it. *)
Definition breach (pmlc mark nonce ts : Z) : Instruction :=
  attest (build_attestation ATT_TYPE_HISTORICAL_LIQUIDATION MARKET ts nonce
            (liquidation_payload pmlc mark ts)).

(** Carol liquidates Alice's contract at three quarters: Alice wins all. *)
Definition demo_liquidate (w : World) : World :=
  demo_tx 1700100000 [breach (PMLC 101) (75 * 10 ^ 16) 1 1700099990]
    [signer CAROL; readonly CONFIG; readonly SYSVAR_INSTRUCTIONS_ID; readonly INSTRUMENT;
     writable (PMLC 101); writable NONCE; writable (MARGIN ALICE); writable (MARGIN BOB);
     writable (MARGIN CAROL)] TLiquidate [0] w.

(** Carol bids 0.6 for one contract, against Bob's ask, asking for an inline match. *)
Definition carol_bids (w : World) : World :=
  demo_tx 1700100000 []
    [signer CAROL; readonly CONFIG; readonly INSTRUMENT; writable BOOK; writable (MARGIN CAROL);
     writable (MARGIN BOB); writable (PMLC 4); readonly SYSTEM_PROGRAM_ID; readonly SCHEDULE;
     writable (VOLUME CAROL); writable (VOLUME BOB); writable TREASURY] TPostIntent
    ([SIDE_LONG] ++ le_bytes 8 (6 * 10 ^ 17) ++ le_bytes 2 1 ++ le_bytes 8 500 ++ [0; 1; 0]) w.
