(* ===== verification/Fills.v ===== *)
(** * All the fills of an intent

    One intent of several contracts is consumed one contract at a time, by as many matches.
    [fills] runs the node's arithmetic of [match_pair_core] ([less_reserved], [fee_release],
    [less_fee]) for each contract in turn. *)
From S2P Require Import Prelude Fixed IntentBook Ledger Governance World MatchIx Demo DemoWorld.

(** One contract of one side of [consume_pair]: what it releases, and the node after it. *)
Definition fill_once (n : IntentNode) (reserve : Z) : M Book (Z * IntentNode) :=
  reserved ← less_reserved n reserve;
  release ← fee_release n;
  fee ← less_fee n release;
  mret (release, set_fill n (n.(in_contracts_remaining) - 1) reserved fee).
Fixpoint fills (k : nat) (n : IntentNode) (reserve : Z) : M Book (list Z * IntentNode) :=
  match k with
  | O => mret ([], n)
  | S k =>
      '(release, n) ← fill_once n reserve;
      '(rest, n) ← fills k n reserve;
      mret (release :: rest, n)
  end.
Definition sum_of (l : list Z) : Z := foldr Z.add 0 l.

Lemma release_some fee left : 0 <= fee <= U64_MAX -> 1 < left ->
  release_fee_buffer_for_fill fee left 1 = Ok (fee / left).
Proof.
  intros Hf Hl. unfold release_fee_buffer_for_fill.
  destruct (Z.eqb_spec 1 0), (Z.eqb_spec left 0), (Z.ltb_spec left 1), (Z.eqb_spec 1 left); try lia.
  cbn. rewrite Z.mul_1_r. unfold opt_ok_or, u64_try_from.
  assert (E : checked U64_MAX (fee / left) = Some (fee / left)); [|by rewrite E].
  apply checked_some. split; [done|]. split; [apply Z.div_pos; lia|].
  etrans; [apply (Z.div_le_mono _ (U64_MAX * left))|]; [lia|nia|]. by rewrite Z.div_mul by lia.
Qed.

(** A release: all of the last contract's buffer, else the floor of its share. *)
Lemma fill_once_run n reserve b :
  0 <= reserve <= n.(in_reserved_collateral) -> n.(in_reserved_collateral) <= U64_MAX ->
  0 <= n.(in_fee_buffer) <= U64_MAX -> 1 <= n.(in_contracts_remaining) ->
  let r := n.(in_fee_buffer) / n.(in_contracts_remaining) in
  fill_once n reserve b =
    (Ok (r, set_fill n (n.(in_contracts_remaining) - 1) (n.(in_reserved_collateral) - reserve)
              (n.(in_fee_buffer) - r)), b).
Proof.
  intros Hr Hm Hf Hl r.
  assert (Hdiv : 0 <= r <= n.(in_fee_buffer)).
  { split; [apply Z.div_pos; lia|]. apply Z.div_le_upper_bound; nia. }
  assert (E1 : less_reserved n reserve b = (Ok (n.(in_reserved_collateral) - reserve), b)).
  { unfold less_reserved, ok_or. rewrite (proj2 (checked_some _ _ (in_reserved_collateral n - reserve))) by lia.
    done. }
  assert (E2 : fee_release n b = (Ok r, b)).
  { unfold fee_release. destruct (Z.eqb_spec n.(in_contracts_remaining) 1) as [E|E].
    - unfold r. by rewrite E, Z.div_1_r.
    - unfold lift. rewrite release_some by lia. done. }
  assert (E3 : less_fee n r b = (Ok (n.(in_fee_buffer) - r), b)).
  { unfold less_fee, ok_or. by rewrite (proj2 (checked_some _ _ (in_fee_buffer n - r))) by lia. }
  unfold fill_once. rewrite (bind_ok _ _ _ _ _ E1), (bind_ok _ _ _ _ _ E2), (bind_ok _ _ _ _ _ E3). done.
Qed.

(** The shares left stay between the same two neighbouring numbers. *)
Lemma share_next lo fee left : 1 < left -> lo * left <= fee <= (lo + 1) * left ->
  lo <= fee / left <= lo + 1 /\ lo * (left - 1) <= fee - fee / left <= (lo + 1) * (left - 1).
Proof.
  intros Hl Hf. assert (Hq : lo <= fee / left <= lo + 1).
  { split; [apply Z.div_le_lower_bound; lia|]. apply Z.div_le_upper_bound; lia. }
  split; [done|]. pose proof (Z.div_mod fee left ltac:(lia)). pose proof (Z.mod_pos_bound fee left ltac:(lia)).
  assert (fee / left = lo \/ fee / left = lo + 1) as [E|E] by lia; rewrite E in *; nia.
Qed.

Lemma fills_run k : forall n reserve lo b,
  (1 <= k)%nat -> n.(in_contracts_remaining) = Z.of_nat k -> 0 <= reserve ->
  n.(in_reserved_collateral) = Z.of_nat k * reserve -> n.(in_reserved_collateral) <= U64_MAX ->
  0 <= n.(in_fee_buffer) <= U64_MAX -> lo * Z.of_nat k <= n.(in_fee_buffer) <= (lo + 1) * Z.of_nat k ->
  exists l n', fills k n reserve b = (Ok (l, n'), b) /\ length l = k /\ sum_of l = n.(in_fee_buffer) /\
    Forall (fun r => lo <= r <= lo + 1) l /\
    n'.(in_contracts_remaining) = 0 /\ n'.(in_reserved_collateral) = 0 /\ n'.(in_fee_buffer) = 0.
Proof.
  induction k as [|k IH]; [lia|]. intros n reserve lo b _ Hn Hres Hr Hmax Hf Hlo.
  pose proof (fill_once_run n reserve b ltac:(nia) Hmax Hf ltac:(lia)) as E1. cbv zeta in E1.
  cbn [fills]. rewrite (bind_ok _ _ _ _ _ E1). rewrite Hn in *.
  destruct k as [|k].
  - rewrite Z.div_1_r in *. do 2 eexists. split; [reflexivity|]. cbn. split_and!; try lia; try done.
    constructor; [lia|constructor].
  - destruct (share_next lo n.(in_fee_buffer) (Z.of_nat (S (S k))) ltac:(lia) Hlo) as [Hq Hrest].
    assert (Hq2 : 0 <= n.(in_fee_buffer) / Z.of_nat (S (S k)) <= n.(in_fee_buffer)).
    { split; [apply Z.div_pos|apply Z.div_le_upper_bound]; nia. }
    remember (n.(in_fee_buffer) / Z.of_nat (S (S k))) as q eqn:Eq.
    specialize (IH (set_fill n (Z.of_nat (S (S k)) - 1) (n.(in_reserved_collateral) - reserve)
      (n.(in_fee_buffer) - q)) reserve lo b). cbn [set_fill in_contracts_remaining in_reserved_collateral in_fee_buffer] in IH.
    destruct IH as (l & n' & E & Hl & Ht & Hall & H1 & H2 & H3); [lia..|].
    rewrite (bind_ok _ _ _ _ _ E). do 2 eexists. split; [reflexivity|].
    split_and!; try done; [cbn; lia|cbn; unfold sum_of in Ht; lia|by constructor].
Qed.

(** C30: over all the fills of an intent, one contract at a time, nothing fails: the reservation
    is used up exactly, the fee buffer is given back in full, and every fill gives back the
    same share of it, to within one atom. *)
Theorem fills_release_everything k n reserve b :
  (1 <= k)%nat -> n.(in_contracts_remaining) = Z.of_nat k -> 0 <= reserve ->
  n.(in_reserved_collateral) = Z.of_nat k * reserve -> n.(in_reserved_collateral) <= U64_MAX ->
  0 <= n.(in_fee_buffer) <= U64_MAX ->
  let share := n.(in_fee_buffer) / Z.of_nat k in
  exists l n', fills k n reserve b = (Ok (l, n'), b) /\ length l = k /\ sum_of l = n.(in_fee_buffer) /\
    Forall (fun r => share <= r <= share + 1) l /\
    n'.(in_contracts_remaining) = 0 /\ n'.(in_reserved_collateral) = 0 /\ n'.(in_fee_buffer) = 0.
Proof.
  intros Hk Hn Hres Hr Hmax Hf share. apply fills_run; try done. unfold share.
  pose proof (Z.div_mod n.(in_fee_buffer) (Z.of_nat k) ltac:(lia)).
  pose proof (Z.mod_pos_bound n.(in_fee_buffer) (Z.of_nat k) ltac:(lia)). nia.
Qed.

(** Three contracts of a million atoms, with a fee buffer of eleven. *)
Definition three_contracts : IntentNode :=
  {| in_side := SIDE_LONG; in_color := 0; in_flags := 0; in_left := NULL_IDX; in_right := NULL_IDX;
     in_parent := NULL_IDX; in_price_fp := 6 * 10 ^ 17; in_id := 9; in_owner_seat := 0;
     in_contracts_total := 3; in_contracts_remaining := 3; in_expiration_slot := 500; in_post_seq := 9;
     in_reserved_collateral := 3000000; in_fee_buffer := 11 |}.
Lemma fills_release_everything_witness :
  fst (fills 3 three_contracts 1000000 demo_book) =
    Ok ([3; 4; 4], set_fill three_contracts 0 0 0) /\
  exists l n', fills 3 three_contracts 1000000 demo_book = (Ok (l, n'), demo_book) /\
    length l = 3%nat /\ sum_of l = 11.
Proof.
  split; [vm_compute; reflexivity|].
  destruct (fills_release_everything 3 three_contracts 1000000 demo_book) as (l & n' & E & H1 & H2 & _);
    try (cbn; lia); try done; try (unfold_bounds; cbn; lia).
  exists l, n'. exact (conj E (conj H1 H2)).
Defined.
