(* ===== verification/Market.v ===== *)
(** * What a trader may rely on: the properties of the order book

    The operations the processors run on a book refine operations on a finite map of
    offers; the trees serve price-time priority; an expired offer can always be withdrawn. *)
From S2P Require Import Prelude Fixed IntentBook RbTree RbHeap RbCorrect RbRemove PoolLinks SeatTree IntentTree BookInvariant BookShape BookSteps Ledger Governance World MatchIx Intent Lifecycle OrderBook Custody Dispatch Demo DemoWorld.

Section market.
Context {R : Runtime}.

(** The operations on a book, as the handlers call them. *)
Inductive BookOp :=
| OpPost (owner : Pubkey) (side flags price contracts expiration reserve fee : Z)
| OpPrune (owner : Pubkey)
| OpCancel (id : Z) (mint margin : Pubkey) (authorize : Pubkey -> bool -> M Book unit)
| OpMatch (instrument pmlc : Pubkey) (bucket long_id short_id : Z)
| OpSubstitute (p : Pmlc) (substitutor : Pubkey) (bucket : Z) (args : MatchPairArgs).

Definition run_op (op : BookOp) : M Book unit :=
  match op with
  | OpPost owner side flags price contracts expiration reserve fee =>
      place_intent owner side flags price contracts expiration reserve fee;; mret tt
  | OpPrune owner => prune_own owner clock_slot;; mret tt
  | OpCancel id mint margin authorize => cancel_on_book id mint margin authorize;; mret tt
  | OpMatch instrument pmlc bucket long_id short_id =>
      match_on_book instrument pmlc bucket long_id short_id;; mret tt
  | OpSubstitute p substitutor bucket args => substitute_on_book p substitutor bucket args;; mret tt
  end.

(** What the handlers check before they call: the side, and that authorising reads only. *)
Definition valid_op (op : BookOp) : Prop :=
  match op with
  | OpPost _ side _ _ _ _ _ _ => side = SIDE_LONG \/ side = SIDE_SHORT
  | OpCancel _ _ _ authorize => forall owner expired, is_check (authorize owner expired)
  | _ => True
  end.

(** One contract of a crossing pair is filled on both sides. *)
Definition filled_pair (now bucket long_id short_id : Z) (m m' : gmap Z Offer) : Prop :=
  exists lf sf, m !! long_id = Some lf /\ m !! short_id = Some sf /\ crosses now lf sf /\
    m' = fill_map short_id bucket (released sf) (fill_map long_id bucket (released lf) m).

(** The same operations on the map of offers. *)
Definition spec_op (op : BookOp) (m m' : gmap Z Offer) : Prop :=
  match op with
  | OpPost owner side flags price contracts expiration reserve fee =>
      exists id seq, m !! id = None /\
        m' = <[id := {| of_owner := owner; of_side := side; of_flags := flags; of_price := price;
                        of_total := contracts; of_left := contracts; of_expiry := expiration;
                        of_seq := seq; of_reserved := reserve; of_fee := fee |}]> m
  | OpPrune owner => exists ids, (length ids <= MAX_PRUNES_PER_POST)%nat /\ NoDup ids /\
      Forall (fun id => exists f, m !! id = Some f /\ f.(of_owner) = owner /\
        f.(of_expiry) <= clock_slot /\ f.(of_left) <> 0) ids /\ m' = foldr delete m ids
  | OpCancel id _ _ _ => is_Some (m !! id) /\ m' = delete id m
  | OpMatch _ _ bucket long_id short_id => filled_pair clock_slot bucket long_id short_id m m'
  | OpSubstitute _ _ bucket args =>
      filled_pair clock_slot bucket args.(mp_long_intent_id) args.(mp_short_intent_id) m m'
  end.

Lemma run_op_refines op b : whole b -> valid_op op ->
  outcome (run_op op) b (fun _ b' => whole b' /\ spec_op op (offers b) (offers b')).
Proof.
  intros Hw Hv. destruct op; cbn [run_op]; apply outcome_bind.
  - eapply outcome_mono; [by apply place_refines|]. intros id' b' (Hw' & _ & _ & Hn & E).
    apply outcome_ret. split; [done|]. by exists id', (bh_next_seq (header b)).
  - eapply outcome_mono; [by apply prune_own_refines|]. intros refund b' (Hw' & ids & Hl & Hnd & Hp & E & _).
    apply outcome_ret. split; [done|]. by exists ids.
  - eapply outcome_mono; [by apply cancel_refines|].
    intros [[owner bump] total] b' (Hw' & E & f & Hf & _). apply outcome_ret. split; [done|].
    by split; [exists f|].
  - eapply outcome_mono; [by apply match_refines|].
    intros [[r pid] bump] b' (Hw' & lf & sf & Hl & Hs & Hx & _ & _ & _ & _ & E). apply outcome_ret.
    split; [done|]. by exists lf, sf.
  - eapply outcome_mono; [by apply substitute_refines|].
    intros ctx b' (Hw' & lf & sf & Hl & Hs & Hx & _ & _ & _ & _ & E). apply outcome_ret.
    split; [done|]. by exists lf, sf.
Qed.

(** A book after a run of operations, whatever their outcomes. *)
Definition after_ops (b : Book) (ops : list BookOp) : Book := foldl (fun b op => snd (run_op op b)) b ops.

Lemma outcome_whole {A} (m : M Book A) b (Q : A -> Book -> Prop) :
  outcome m b Q -> (forall a b', Q a b' -> whole b') -> whole (snd (m b)).
Proof. unfold outcome. intros H HQ. destruct (m b) as [[] b']; cbn; try done. by eapply HQ. Qed.

Lemma after_ops_whole b ops : whole b -> Forall valid_op ops -> whole (after_ops b ops).
Proof.
  intros Hw Hv. revert b Hw. induction Hv as [|op ops Hop Hv IH]; intros b Hw; [done|].
  cbn. apply IH. eapply outcome_whole; [by apply run_op_refines|]. by intros ? b' [? _].
Qed.

(** C8: whatever sequence of posts, prunes, cancellations, matches and substitutions a new
    book has been through, failed ones included, the next one never panics and never runs
    out of fuel; when it succeeds it does to the finite map of offers exactly what the
    operation means: a post adds one offer under a fresh id, pruning removes at most four
    of the trader's expired offers, a cancellation removes one, a match or a substitution
    takes one contract, its reservation and its share of the fee buffer from a live crossing
    pair. *)
Theorem book_refines_offers len instrument cap bump bps b0 ops op :
  1 <= cap <= U32_MAX -> init_intent_book len instrument cap bump bps = Ok b0 ->
  Forall valid_op ops -> valid_op op ->
  let b := after_ops b0 ops in
  match run_op op b with
  | (Ok _, b') => spec_op op (offers b) (offers b')
  | (Err _, _) => True
  | (Panic, _) | (Diverge, _) => False
  end.
Proof.
  intros Hcap Hb0 Hops Hop b. destruct (init_whole _ _ _ _ _ _ Hcap Hb0) as [Hw0 _].
  pose proof (run_op_refines op b (after_ops_whole b0 ops Hw0 Hops) Hop) as H.
  unfold outcome in H. destruct (run_op op b) as [[]]; try done. apply H.
Qed.
End market.

(* ------------------------------------------------------------------ *)
(** ** A concrete book *)

Definition new_book (cap : Z) : Book :=
  match init_intent_book (intent_book_byte_size cap) INSTRUMENT cap 255 0 with
  | Ok b => b
  | _ => demo_book
  end.
Definition empty_book : Book := Eval vm_compute in new_book 16.
Definition two_posts : list BookOp :=
  [OpPost ALICE SIDE_LONG 0 (6 * 10 ^ 17) 2 1000 2000000 0;
   OpPost BOB SIDE_SHORT 0 (4 * 10 ^ 17) 1 1000 1000000 0].

Lemma two_posts_valid : Forall valid_op two_posts.
Proof. constructor; [by left|]. constructor; [by right|constructor]. Qed.

Lemma book_refines_offers_witness :
  let b := after_ops (R := demo 100 0 []) empty_book two_posts in
  let op := OpMatch INSTRUMENT (PMLC 3) 1000000 1 2 in
  is_ok (fst (run_op (R := demo 100 0 []) op b)) = true /\
  match run_op (R := demo 100 0 []) op b with
  | (Ok _, b') => spec_op (R := demo 100 0 []) op (offers b) (offers b')
  | (Err _, _) => True
  | (Panic, _) | (Diverge, _) => False
  end.
Proof.
  intros b op. split; [by vm_compute|].
  apply (book_refines_offers (R := demo 100 0 []) (intent_book_byte_size 16) INSTRUMENT 16 255 0).
  - done.
  - by vm_compute.
  - exact two_posts_valid.
  - done.
Defined.

Lemma demo_book_whole : whole demo_book.
Proof.
  assert (demo_book = after_ops (R := demo 100 0 []) empty_book two_posts) as -> by (by vm_compute).
  apply after_ops_whole; [|exact two_posts_valid].
  by apply (init_whole (intent_book_byte_size 16) INSTRUMENT 16 255 0).
Qed.

(* ------------------------------------------------------------------ *)
(** ** Price-time priority *)

(** The ids of a side in the order [for_each_best_first] visits them. *)
Definition queue (side : Z) : M Book (list Z) :=
  for_each_best_first side (fun (_ : Z) node acc => (true, acc ++ [node.(in_id)])) [].

Lemma visit_collects l acc :
  visit (fun (_ : Z) node (acc : list Z) => (true, acc ++ [node.(in_id)])) l acc =
  acc ++ map (fun e => (snd e).(in_id)) l.
Proof.
  revert acc. induction l as [|[i n] l IH]; intros acc; cbn; [by rewrite app_nil_r|].
  rewrite IH. by rewrite <- app_assoc.
Qed.

Lemma ids_nodup b l : whole b -> NoDup l -> NoDup (map (fun e => (snd e).(in_id)) (entries b l)).
Proof.
  intros (tl & ts & tt & fl & Hb) Hnd. induction Hnd as [|i l Hi Hnd IH]; [constructor|].
  unfold entries. cbn [omap list_omap]. destruct (node_of b i) as [n|] eqn:En; cbn; [|done].
  constructor; [|done]. intros ((j & m) & Em & [Hj Hm]%elem_entries)%list_elem_of_fmap. cbn in Em.
  assert (i = j) as ->; [|done].
  apply (shape_unique _ _ _ _ _ _ Hb i j (order n) (order m)); [by apply node_content..|done].
Qed.

Lemma ids_ranked b side l : StronglySorted (no_later side b) l ->
  (forall i n, i ∈ l -> node_of b i = Some n -> offers b !! n.(in_id) = Some (offer_of b n)) ->
  StronglySorted (fun id id' => forall f g, offers b !! id = Some f -> offers b !! id' = Some g ->
    ~ better side g f) (map (fun e => (snd e).(in_id)) (entries b l)).
Proof.
  intros Hs Hin. induction Hs as [|i l Hl IH Hi]; [constructor|]. unfold entries. cbn [omap list_omap].
  destruct (node_of b i) as [n|] eqn:En; cbn; [|apply IH; intros j m Hj; apply Hin; by right].
  constructor; [apply IH; intros j m Hj; apply Hin; by right|].
  apply Forall_forall. intros id' ((j & m) & -> & [Hj Hm]%elem_entries)%list_elem_of_fmap f g. cbn.
  rewrite (Hin i n) by (done || by left). rewrite (Hin j m) by (done || by right).
  intros [= <-] [= <-] Hb'%better_beats. rewrite Forall_forall in Hi.
  destruct (Hi j Hj) as (x & y & Hx & Hy & Hxy). congruence.
Qed.

(** C19: the traversal of a side always finishes within its 64-deep stack, on any whole
    book of at most 2^31 slots, and visits exactly the offers of that side, each once, in
    price-time priority: no offer is visited after one it outranks by price, or by an
    earlier sequence number at the same price. *)
Theorem traversal_is_price_time b side :
  whole b -> spannable b -> (side = SIDE_LONG \/ side = SIDE_SHORT) ->
  exists l, queue side b = (Ok l, b) /\ NoDup l /\
    (forall id, id ∈ l <-> exists f, offers b !! id = Some f /\ f.(of_side) = side) /\
    StronglySorted (fun id id' => forall f g, offers b !! id = Some f -> offers b !! id' = Some g ->
      ~ better side g f) l.
Proof.
  intros Hw Hlen Hside. destruct (side_offers b side Hw Hside) as (t & Ht & Hin & Hof).
  pose proof (for_each_best_first_visits side (fun (_ : Z) node acc => (true, acc ++ [in_id node])) b t []
    Hside Ht Hlen) as Hrun.
  apply runs_ok in Hrun as (l & b' & E & -> & El). rewrite visit_collects in El. cbn in El.
  pose proof Hw as (tl & ts & tt & fl & Hb). destruct Ht as ((_ & _ & Hnd & _) & _ & _ & Hsort).
  rewrite app_nil_r in Hnd. exists l. split; [exact E|]. subst l. split_and!.
  - by apply ids_nodup.
  - intros id. rewrite list_elem_of_fmap. split.
    + intros ((j & m) & -> & [Hj Hm]%elem_entries). destruct (Hin j m Hj Hm). cbn. eauto.
    + intros (f & Hf & Hs). destruct (Hof id f Hf Hs) as (j & m & Hj & Hm & <- & _).
      exists (j, m). split; [done|]. by apply elem_entries.
  - apply (ids_ranked b side); [done|]. intros i n Hi Hn. by destruct (Hin i n Hi Hn).
Qed.

Lemma traversal_is_price_time_witness :
  exists l, queue SIDE_LONG demo_book = (Ok l, demo_book) /\ NoDup l /\
    (forall id, id ∈ l <-> exists f, offers demo_book !! id = Some f /\ f.(of_side) = SIDE_LONG) /\
    StronglySorted (fun id id' => forall f g, offers demo_book !! id = Some f ->
      offers demo_book !! id' = Some g -> ~ better SIDE_LONG g f) l.
Proof.
  apply (traversal_is_price_time demo_book SIDE_LONG); [apply demo_book_whole|by vm_compute|by left].
Defined.

(** C18: [scan_for_first_valid_pair] always answers, reads only, and is complete: it names
    the best live bid and the best live ask exactly when some live bid meets some live ask;
    when it answers none, no two live offers of the book cross. *)
Theorem best_pair_is_found b now :
  whole b -> spannable b ->
  exists r, scan_for_first_valid_pair now b = (Ok r, b) /\
    match r with
    | Some (long_id, short_id) => exists lf sf,
        offers b !! long_id = Some lf /\ offers b !! short_id = Some sf /\ crosses now lf sf /\
        best SIDE_LONG now (offers b) lf /\ best SIDE_SHORT now (offers b) sf
    | None => forall long_id short_id lf sf, offers b !! long_id = Some lf ->
        offers b !! short_id = Some sf -> 0 < lf.(of_left) -> 0 < sf.(of_left) -> ~ crosses now lf sf
    end.
Proof.
  intros Hw Hlen. pose proof (scan_best b now Hw Hlen) as H.
  apply runs_ok in H as (r & b' & E & -> & Hr). by exists r.
Qed.

Lemma best_pair_is_found_witness :
  exists r, scan_for_first_valid_pair 100 demo_book = (Ok r, demo_book) /\
    match r with
    | Some (long_id, short_id) => exists lf sf,
        offers demo_book !! long_id = Some lf /\ offers demo_book !! short_id = Some sf /\
        crosses 100 lf sf /\
        best SIDE_LONG 100 (offers demo_book) lf /\ best SIDE_SHORT 100 (offers demo_book) sf
    | None => forall long_id short_id lf sf, offers demo_book !! long_id = Some lf ->
        offers demo_book !! short_id = Some sf -> 0 < lf.(of_left) -> 0 < sf.(of_left) ->
        ~ crosses 100 lf sf
    end.
Proof. apply (best_pair_is_found demo_book 100); [apply demo_book_whole|by vm_compute]. Defined.

(** C20: the inline match of a post finds the best eligible offer of the other side (unfilled,
    not expired, not the new intent itself) that meets the taker's price; when it finds none,
    no eligible offer of the side meets that price. *)
Theorem inline_match_takes_best b side price now skip_id :
  whole b -> spannable b -> (side = SIDE_LONG \/ side = SIDE_SHORT) ->
  exists r, find_overlap_on_side side price now skip_id b = (Ok r, b) /\
    match r with
    | Some id => exists f, offers b !! id = Some f /\ f.(of_side) = side /\
        eligible now skip_id id f /\ meets side price f = true /\
        (forall id' g, offers b !! id' = Some g -> g.(of_side) = side -> eligible now skip_id id' g ->
           ~ better side g f)
    | None => forall id f, offers b !! id = Some f -> f.(of_side) = side ->
        eligible now skip_id id f -> meets side price f = false
    end.
Proof.
  intros Hw Hlen Hside. pose proof (find_overlap_best b side price now skip_id Hw Hlen Hside) as H.
  apply runs_ok in H as (r & b' & E & -> & [(id & f & Hf & Hs & He & Hbest & ->)|[-> Hnone]]);
    eexists; (split; [exact E|]).
  - destruct (meets side price f) eqn:Em; [by exists f|].
    intros id' g Hg Hgs Hge. apply not_true_is_false. intros Emg. specialize (Hbest id' g Hg Hgs Hge).
    revert Em Emg Hbest. unfold meets, better, rank.
    destruct Hside as [-> | ->]; cbn [Z.eqb SIDE_LONG SIDE_SHORT Pos.eqb];
      rewrite Z.leb_gt, Z.leb_le; lia.
  - intros id f Hf Hs He. by destruct (Hnone id f Hf Hs).
Qed.

Lemma inline_match_takes_best_witness :
  exists r, find_overlap_on_side SIDE_SHORT (5 * 10 ^ 17) 100 3 demo_book = (Ok r, demo_book) /\
    match r with
    | Some id => exists f, offers demo_book !! id = Some f /\ f.(of_side) = SIDE_SHORT /\
        eligible 100 3 id f /\ meets SIDE_SHORT (5 * 10 ^ 17) f = true /\
        (forall id' g, offers demo_book !! id' = Some g -> g.(of_side) = SIDE_SHORT ->
           eligible 100 3 id' g -> ~ better SIDE_SHORT g f)
    | None => forall id f, offers demo_book !! id = Some f -> f.(of_side) = SIDE_SHORT ->
        eligible 100 3 id f -> meets SIDE_SHORT (5 * 10 ^ 17) f = false
    end.
Proof.
  apply (inline_match_takes_best demo_book SIDE_SHORT); [apply demo_book_whole|by vm_compute|by right].
Defined.

(* ------------------------------------------------------------------ *)
(** ** Withdrawing an offer *)

(** The authorisation of [process_cancel_intent]: the owner, or anyone once expired. *)
Definition owner_or_expired (caller : Pubkey) (original_owner : Pubkey) (is_expired : bool) : M Book unit :=
  bail_if (negb (caller =? original_owner) && negb is_expired) MissingSigner.

Lemma bail_is_check c e : is_check (bail_if c e).
Proof. intros b. destruct c; [right; by eexists|by left]. Qed.

(** An offer is cancelled exactly when it exists, its caller owns it or it has expired,
    and the margin account passed is its owner's; the cancellation then always succeeds,
    names the owner and the full reservation, fee buffer included, as the amount to
    release, and removes that offer and no other. *)
Theorem cancel_is_always_possible {R : Runtime} b id mint margin caller :
  whole b -> (forall k f, offers b !! k = Some f -> is_u64 (f.(of_reserved) + f.(of_fee))) ->
  let m := cancel_on_book id mint margin (owner_or_expired caller) in
  (is_ok (fst (m b)) = true <-> exists f, offers b !! id = Some f /\
     (caller = f.(of_owner) \/ f.(of_expiry) <= clock_slot) /\
     fst (find_program_address [SEED_MARGIN; key_seed f.(of_owner); key_seed mint]) = margin) /\
  (forall owner bump total b', m b = (Ok (owner, bump, total), b') ->
     offers b' = delete id (offers b) /\
     exists f, offers b !! id = Some f /\ owner = f.(of_owner) /\ total = f.(of_reserved) + f.(of_fee)).
Proof.
  intros Hw Hfit m.
  pose proof (cancel_refines b id mint margin (owner_or_expired caller) Hw
    (fun o e => bail_is_check _ _)) as Hc. change (outcome m b (fun '(owner, bump, total) b' =>
    whole b' /\ offers b' = delete id (offers b) /\ exists f, offers b !! id = Some f /\
      owner = f.(of_owner) /\ total = f.(of_reserved) + f.(of_fee) /\
      find_program_address [SEED_MARGIN; key_seed owner; key_seed mint] = (margin, bump) /\
      owner_or_expired caller owner (f.(of_expiry) <=? clock_slot) b = (Ok tt, b))) in Hc.
  unfold outcome in Hc. split.
  - split.
    + destruct (m b) as [[[[owner bump] total]|e| |] b']; try done. intros _.
      destruct Hc as (_ & _ & f & Hf & -> & _ & Hpda & Hok). exists f. split; [done|]. rewrite Hpda.
      split; [|done]. apply bail_if_ok_inv in Hok as [Hok _].
      destruct (Z.eqb_spec caller f.(of_owner)); [by left|]. right. cbn in Hok.
      by apply negb_false_iff, Z.leb_le in Hok.
    + intros (f & Hf & Hok & Hpda).
      destruct (find_program_address [SEED_MARGIN; key_seed f.(of_owner); key_seed mint]) as [pda bump] eqn:Ep.
      cbn in Hpda. subst pda.
      assert (Hrun : runs m b (fun _ _ => True)).
      { eapply runs_mono; [eapply (cancel_succeeds b id mint margin (owner_or_expired caller) f bump); eauto|done].
        unfold owner_or_expired, bail_if. destruct Hok as [->|Hexp]; [by rewrite Z.eqb_refl|].
        apply Z.leb_le in Hexp. rewrite Hexp. by destruct (_ =? _). }
      unfold runs in Hrun. by destruct (m b) as [[]].
  - intros owner bump total b' E. rewrite E in Hc. destruct Hc as (_ & Ho & f & Hf & -> & -> & _).
    split; [done|]. by exists f.
Qed.

Lemma demo_offers_fit k f : offers demo_book !! k = Some f -> is_u64 (f.(of_reserved) + f.(of_fee)).
Proof.
  intros Hf. apply (proj1 (in_u_spec U64_MAX _)). revert k f Hf.
  assert (H : map_Forall (fun _ f => in_u U64_MAX (f.(of_reserved) + f.(of_fee)) = true) (offers demo_book)).
  { refine (bool_decide_unpack _ _). by vm_compute. }
  exact H.
Qed.

Lemma cancel_is_always_possible_witness :
  let m := cancel_on_book (R := demo 2000 0 []) 1 USD (MARGIN ALICE)
    (owner_or_expired CAROL) in
  (is_ok (fst (m demo_book)) = true <-> exists f, offers demo_book !! 1 = Some f /\
     (CAROL = f.(of_owner) \/ f.(of_expiry) <= 2000) /\
     fst (find_program_address (Runtime := demo 2000 0 [])
       [SEED_MARGIN; key_seed f.(of_owner); key_seed USD]) = MARGIN ALICE) /\
  (forall owner bump total b', m demo_book = (Ok (owner, bump, total), b') ->
     offers b' = delete 1 (offers demo_book) /\
     exists f, offers demo_book !! 1 = Some f /\ owner = f.(of_owner) /\ total = f.(of_reserved) + f.(of_fee)).
Proof.
  apply (cancel_is_always_possible (R := demo 2000 0 []) demo_book 1 USD (MARGIN ALICE) CAROL);
    [apply demo_book_whole|exact demo_offers_fit].
Defined.
