(* ===== verification/Expansion.v ===== *)
(** * Growing a book

    [expand_book] puts the new slots on the free list and leaves them above the watermark, so
    the allocator hands each of them out twice: the one operation that breaks a book which is
    otherwise always whole. *)
From S2P Require Import Prelude Fixed IntentBook RbTree RbHeap PoolLinks IntentTree SeatTree BookInvariant BookShape Ledger Governance World MatchIx Intent OrderBook Custody Demo DemoWorld Market.

(** Slots taken one after the other, as [place_intent] takes one: allocated, then written. *)
Fixpoint take_slots (ns : list IntentNode) : M Book (list Z) :=
  match ns with
  | [] => mret []
  | n :: ns => i ← alloc_node; write_intent i n;; l ← take_slots ns; mret (i :: l)
  end.

(** The free list from [head], wherever its slots lie. *)
Fixpoint free_from (b : Book) (head : Z) (l : list Z) : Prop :=
  match l with
  | [] => head = NULL_IDX
  | i :: l => head = i /\ 0 < i /\ exists next, slot b i = Some (RFree next) /\ free_from b next l
  end.

Lemma free_from_chain b head l : free_chain b head l -> free_from b head l.
Proof.
  revert head. induction l as [|i l IH]; intros head; cbn; [done|].
  intros (-> & Hi & next & Hs & Hc). split_and!; [done|lia|eauto].
Qed.
Lemma free_from_ext b b' head l :
  (forall i, i ∈ l -> slot b' i = slot b i) -> free_from b head l -> free_from b' head l.
Proof.
  revert head. induction l as [|i l IH]; intros head Hs; cbn; [done|].
  intros (-> & Hi & next & Hn & Hc). split_and!; [done..|]. exists next.
  split; [rewrite Hs; [done|by left]|]. apply IH; [|done]. intros j Hj. apply Hs. by right.
Qed.
Lemma free_from_pos b head l i : free_from b head l -> i ∈ l -> 0 < i.
Proof.
  revert head. induction l as [|j l IH]; intros head; cbn; [by intros _ ?%elem_of_nil|].
  intros (-> & Hi & next & _ & Hc) [->|Hin]%elem_of_cons; eauto.
Qed.

(** ** Taking slots *)

(** What [take_slots] wrote: the last node given a slot is the one it holds. *)
Definition holds_nodes (l : list Z) (ns : list IntentNode) (b : Book) : Prop :=
  forall j i n, l !! j = Some i -> ns !! j = Some n -> slot b i = Some (RIntent n).
(** The sizes and the counters of the pool. *)
Definition same_pool (b b' : Book) : Prop :=
  length b'.(nodes) = length b.(nodes) /\ b'.(header).(capacity) = b.(header).(capacity).

Lemma take_app ns1 ns2 b l1 b1 : take_slots ns1 b = (Ok l1, b1) ->
  forall l2 b2, take_slots ns2 b1 = (Ok l2, b2) -> take_slots (ns1 ++ ns2) b = (Ok (l1 ++ l2), b2).
Proof.
  revert b l1. induction ns1 as [|n ns1 IH]; intros b l1 E1 l2 b2 E2; cbn [take_slots app] in *.
  - injection E1 as <- <-. done.
  - apply bind_ok_inv in E1 as (i & b3 & Ea & E1). apply bind_ok_inv in E1 as ([] & b4 & Ew & E1).
    apply bind_ok_inv in E1 as (l & b5 & Et & E1). injection E1 as <- <-.
    rewrite (bind_ok _ _ _ _ _ Ea), (bind_ok _ _ _ _ _ Ew), (bind_ok _ _ _ _ _ (IH _ _ Et _ _ E2)). done.
Qed.

(** The next slot, from the free list or from above the watermark. *)
Lemma alloc_free b i l : free_from b b.(header).(freelist_head) (i :: l) ->
  exists b', alloc_node b = (Ok i, b') /\ b'.(nodes) = b.(nodes) /\ same_pool b b' /\
    b'.(header).(node_count) = b.(header).(node_count) /\ 0 < i /\ is_Some (slot b i) /\
    free_from b b'.(header).(freelist_head) l.
Proof.
  cbn [free_from]. intros (Hh & Hi & next & Hs & Hc). unfold alloc_node.
  rewrite (bind_ok _ _ b b.(header) b) by done. rewrite Hh, (proj2 (Z.eqb_neq i NULL_IDX)) by (unfold NULL_IDX; lia).
  cbn [negb]. rewrite (bind_ok _ _ b b b) by done. rewrite Hs. cbn -[slot]. eexists. by split_and!.
Qed.
Lemma alloc_watermark b : b.(header).(freelist_head) = NULL_IDX ->
  0 < b.(header).(node_count) < b.(header).(capacity) -> b.(header).(capacity) <= U32_MAX ->
  b.(header).(capacity) = Z.of_nat (length b.(nodes)) ->
  exists b', alloc_node b = (Ok b.(header).(node_count), b') /\ b'.(nodes) = b.(nodes) /\ same_pool b b' /\
    b'.(header).(node_count) = b.(header).(node_count) + 1 /\ is_Some (slot b b.(header).(node_count)) /\
    b'.(header).(freelist_head) = NULL_IDX.
Proof.
  intros Hh Hn Hmax Hcap. unfold alloc_node. rewrite (bind_ok _ _ b b.(header) b) by done. rewrite Hh.
  cbn [Z.eqb NULL_IDX negb]. rewrite (proj2 (Z.leb_gt _ _)) by lia. cbn. unfold ok_or.
  rewrite (proj2 (checked_some _ _ _)) by (split; [reflexivity|mlia]). cbn.
  eexists. split_and!; try done. apply lookup_lt_is_Some_2. lia.
Qed.
Lemma write_there b i n : is_Some (slot b i) -> write_intent i n b = (Ok tt, set_slot b i (RIntent n)).
Proof. intros [s Hs]. unfold write_intent. rewrite (bind_ok _ _ b b b) by done. by rewrite Hs. Qed.

(** A slot that is taken: its content, and the rest of the pool. *)
Lemma take_one ns b i b1 n : alloc_node b = (Ok i, b1) -> b1.(nodes) = b.(nodes) -> is_Some (slot b i) ->
  take_slots (n :: ns) b = (l ← take_slots ns; mret (i :: l)) (set_slot b1 i (RIntent n)).
Proof.
  intros Ea Hn Hs. cbn [take_slots]. rewrite (bind_ok _ _ _ _ _ Ea).
  assert (Hs1 : is_Some (slot b1 i)) by (unfold slot in *; by rewrite Hn).
  by rewrite (bind_ok _ _ _ _ _ (write_there b1 i n Hs1)).
Qed.

(** The whole free list is handed out in order, and the nodes written to it stay. *)
Lemma take_free l ns b : free_from b b.(header).(freelist_head) l -> NoDup l -> length ns = length l ->
  exists b', take_slots ns b = (Ok l, b') /\ b'.(header).(freelist_head) = NULL_IDX /\ same_pool b b' /\
    b'.(header).(node_count) = b.(header).(node_count) /\ holds_nodes l ns b' /\
    forall j, 0 <= j -> j ∉ l -> slot b' j = slot b j.
Proof.
  revert ns b. induction l as [|i l IH]; intros ns b Hf Hnd Hlen; destruct ns as [|n ns]; try done.
  { exists b. split_and!; try done. }
  apply NoDup_cons in Hnd as [Hi Hnd]. destruct (alloc_free b i l Hf) as (b1 & Ea & Hn & [Hp1 Hp2] & Hnc & Hpos & Hs & Hf1).
  rewrite (take_one ns b i b1 n Ea Hn Hs). set (b2 := set_slot b1 i (RIntent n)).
  assert (Hs1 : forall j, 0 <= j -> j <> i -> slot b2 j = slot b j)
    by (intros j Hj Hne; unfold b2; rewrite slot_set_ne by lia; unfold slot; by rewrite Hn).
  destruct (IH ns b2) as (b3 & Et & Hh & [Hp3 Hp4] & Hnc3 & Hw & Hrest); [|done|by injection Hlen|].
  { apply (free_from_ext b); [|exact Hf1]. intros j Hj. apply Hs1; [|by intros ->].
    pose proof (free_from_pos _ _ _ _ Hf1 Hj). lia. }
  exists b3. rewrite (bind_ok _ _ _ _ _ Et). split; [done|]. split; [done|].
  split; [split; [rewrite Hp3; cbn; rewrite length_insert; congruence|rewrite Hp4; exact Hp2]|].
  split; [rewrite Hnc3; exact Hnc|]. split.
  - intros [|j] i' n' Hl' Hn'; cbn in Hl', Hn'; [|by eapply Hw]. injection Hl' as <-. injection Hn' as <-.
    rewrite Hrest by (done || lia). unfold b2. destruct Hs as [s Hs]. eapply slot_set_eq.
    unfold slot in *. rewrite Hn. exact Hs.
  - intros j Hj [Hne Hl]%not_elem_of_cons. rewrite Hrest by done. by apply Hs1.
Qed.

(** Then come the slots above the watermark. *)
Lemma take_watermark k ns b : b.(header).(freelist_head) = NULL_IDX -> 0 < b.(header).(node_count) ->
  b.(header).(capacity) <= U32_MAX -> b.(header).(capacity) = Z.of_nat (length b.(nodes)) ->
  b.(header).(node_count) + Z.of_nat k = b.(header).(capacity) -> length ns = k ->
  exists b', take_slots ns b = (Ok (seqZ b.(header).(node_count) (Z.of_nat k)), b') /\
    holds_nodes (seqZ b.(header).(node_count) (Z.of_nat k)) ns b' /\
    forall j, 0 <= j < b.(header).(node_count) -> slot b' j = slot b j.
Proof.
  revert ns b. induction k as [|k IH]; intros ns b Hh Hn Hmax Hcap Hk Hlen; destruct ns as [|n ns]; try done.
  { exists b. split_and!; try done. }
  destruct (alloc_watermark b) as (b1 & Ea & Hn1 & [Hp1 Hp2] & Hnc & Hs & Hh1); [done|lia|done|done|].
  rewrite (take_one ns b _ b1 n Ea Hn1 Hs). set (i := b.(header).(node_count)) in *.
  set (b2 := set_slot b1 i (RIntent n)).
  assert (Hs2 : slot b2 i = Some (RIntent n)).
  { destruct Hs as [s Hs]. eapply slot_set_eq. unfold slot in *. rewrite Hn1. exact Hs. }
  change (header b1) with (header b2) in Hnc, Hh1, Hp2.
  destruct (IH ns b2) as (b3 & Et & Hw & Hrest); [done|lia|congruence| |lia|by injection Hlen|].
  { rewrite Hp2, Hcap. unfold b2. cbn. by rewrite length_insert, Hp1. }
  rewrite Hnc in Et, Hw, Hrest. exists b3. rewrite (bind_ok _ _ _ _ _ Et). rewrite (seqZ_cons i (Z.of_nat (S k))) by lia.
  replace (Z.pred (Z.of_nat (S k))) with (Z.of_nat k) by lia. rewrite <- Z.add_1_r.
  split; [done|]. split.
  - intros [|j] i' n' Hl' Hn'; cbn in Hl', Hn'; [|by eapply Hw]. injection Hl' as <-. injection Hn' as <-.
    by rewrite Hrest by lia.
  - intros j Hj. rewrite Hrest by lia. unfold b2. rewrite slot_set_ne by lia. unfold slot. by rewrite Hn1.
Qed.

(** ** Growing *)

(** The new slots are pushed one after the other: the last one comes out first. *)
Lemma push_free_chain n idx b l : 0 < idx -> idx + Z.of_nat n <= Z.of_nat (length b.(nodes)) ->
  free_from b b.(header).(freelist_head) l -> (forall i, i ∈ l -> i < idx) ->
  exists b', push_free n idx b = (Ok tt, b') /\ same_pool b b' /\
    b'.(header).(node_count) = b.(header).(node_count) /\
    free_from b' b'.(header).(freelist_head) (rev (seqZ idx (Z.of_nat n)) ++ l).
Proof.
  revert idx b l. induction n as [|n IH]; intros idx b l Hi Hlen Hf Hl; cbn [push_free].
  { exists b. by split_and!. }
  rewrite (bind_ok _ _ b b b) by done.
  destruct (lookup_lt_is_Some_2 b.(nodes) (Z.to_nat idx)) as [s Hs]; [lia|].
  assert (Hsl : slot b idx = Some s) by exact Hs. unfold id. rewrite Hsl.
  set (b1 := with_header (set_slot b idx (RFree b.(header).(freelist_head)))
    (header_alloc b.(header) idx b.(header).(node_count) b.(header).(capacity))).
  destruct (IH (idx + 1) b1 (idx :: l)) as (b' & E & [Hp1 Hp2] & Hn & Hf').
  - lia.
  - unfold b1. cbn. rewrite length_insert. lia.
  - cbn [free_from]. split; [done|]. split; [done|]. exists b.(header).(freelist_head).
    split; [by eapply (slot_set_eq b)|]. apply (free_from_ext b); [|exact Hf]. intros j Hj.
    pose proof (free_from_pos _ _ _ _ Hf Hj). specialize (Hl j Hj). apply (slot_set_ne b); lia.
  - intros j [->|Hj]%elem_of_cons; [lia|]. specialize (Hl j Hj). lia.
  - exists b'. split; [exact E|]. split; [split; [rewrite Hp1; unfold b1; cbn; by rewrite length_insert|done]|].
    split; [done|]. rewrite (seqZ_cons idx (Z.of_nat (S n))) by lia. cbn [rev]. rewrite <- app_assoc.
    replace (Z.pred (Z.of_nat (S n))) with (Z.of_nat n) by lia. by rewrite <- Z.add_1_r.
Qed.

Lemma grown b k fl : pool_ok b fl -> 0 <= k -> k * NODE_SIZE <= MAX_PERMITTED_DATA_INCREASE ->
  b.(header).(capacity) + k <= U32_MAX ->
  exists b', (realloc_book k;; expand_book k) b = (Ok tt, b') /\
    length b'.(nodes) = (length b.(nodes) + Z.to_nat k)%nat /\
    b'.(header).(capacity) = b.(header).(capacity) + k /\
    b'.(header).(node_count) = b.(header).(node_count) /\
    free_from b' b'.(header).(freelist_head) (rev (seqZ b.(header).(capacity) k) ++ fl).
Proof.
  intros [Hc Hnd Hn Hcap Hmax Hu] Hk Hbytes Hfit. unfold realloc_book, expand_book.
  assert (Hbelow : forall i, i ∈ fl -> 0 < i < b.(header).(node_count))
    by (intros i Hi; by destruct (free_chain_free _ _ _ i Hc Hi)).
  rewrite (proj2 (Z.ltb_ge _ _)) by lia. cbn [bail_if].
  set (b1 := with_header (with_nodes b (b.(nodes) ++ replicate (Z.to_nat k) (RFree 0)))
    (header_alloc b.(header) b.(header).(freelist_head) b.(header).(node_count) (b.(header).(capacity) + k))).
  destruct (push_free_chain (Z.to_nat k) b.(header).(capacity) b1 fl) as (b' & E & [Hp1 Hp2] & Hnc & Hf).
  - lia.
  - unfold b1. cbn. rewrite length_app, length_replicate. lia.
  - apply free_from_chain in Hc. apply (free_from_ext b); [|exact Hc]. intros i Hi. unfold slot, b1. cbn.
    apply lookup_app_l. specialize (Hbelow i Hi). lia.
  - intros i Hi. specialize (Hbelow i Hi). lia.
  - exists b'. split; [|split; [rewrite Hp1; unfold b1; cbn; by rewrite length_app, length_replicate|
      split; [exact Hp2|split; [exact Hnc|by rewrite Z2Nat.id in Hf by done]]]].
    unfold mbind, M_bind, modify, gets, ok_or. cbn -[push_free].
    rewrite (proj2 (checked_some _ _ _)) by (split; [reflexivity|mlia]). exact E.
Qed.

Lemma rev_is_reverse {A} (l : list A) : rev l = reverse l.
Proof. apply rev_alt. Qed.

(** C40: [ExpandIntentBook] makes the allocator hand every new slot out twice. Whatever whole book
    of capacity C and watermark m is grown by k slots, the slots taken next are first the new
    ones and the old free list, and then, nothing having been freed, all those from the
    watermark to the new capacity, the new ones among them: each new slot, which holds the
    intent first written to it, is given to a second one, which replaces the first. *)
Theorem expansion_hands_out_twice b k :
  whole b -> 0 < k -> k * 96 <= 10240 -> b.(header).(capacity) + k <= U32_MAX ->
  let C := b.(header).(capacity) in
  let m := b.(header).(node_count) in
  exists b' fl, (realloc_book k;; expand_book k) b = (Ok tt, b') /\
    free_chain b b.(header).(freelist_head) fl /\
    forall first second,
      Z.of_nat (length first) = k + Z.of_nat (length fl) -> Z.of_nat (length second) = C + k - m ->
      exists b1 b2,
        take_slots first b' = (Ok (rev (seqZ C k) ++ fl), b1) /\
        take_slots second b1 = (Ok (seqZ m (C + k - m)), b2) /\
        forall i, C <= i < C + k -> exists n1 n2,
          first !! Z.to_nat (C + k - 1 - i) = Some n1 /\ slot b1 i = Some (RIntent n1) /\
          second !! Z.to_nat (i - m) = Some n2 /\ slot b2 i = Some (RIntent n2).
Proof.
  intros (tl & ts & tt & fl & Hb) Hk Hbytes Hfit C m. pose proof (shape_pool _ _ _ _ _ _ Hb) as Hp.
  destruct (grown b k fl Hp ltac:(lia) Hbytes Hfit) as (b' & E & Hlen & Hcap & Hnc & Hf).
  destruct Hp as [Hc Hnd Hn Hcap0 Hmax Hu].
  exists b', fl. split; [exact E|]. split; [exact Hc|]. intros first second H1 H2.
  assert (Hbelow : forall i, i ∈ fl -> 0 < i < m) by (intros i Hi; by destruct (free_chain_free _ _ _ i Hc Hi)).
  destruct (take_free (rev (seqZ C k) ++ fl) first b' Hf) as (b1 & E1 & Hh1 & [Hl1 Hc1] & Hn1 & Hw1 & _).
  { rewrite rev_is_reverse. apply NoDup_app. split; [rewrite reverse_Permutation; apply NoDup_seqZ|]. split; [|done].
    intros i Hi Hi'. apply elem_of_reverse, elem_of_seqZ in Hi. specialize (Hbelow i Hi'). lia. }
  { rewrite length_app, length_rev, length_seqZ. lia. }
  destruct (take_watermark (Z.to_nat (C + k - m)) second b1) as (b2 & E2 & Hw2 & _); [done|lia|lia|lia|lia|lia|].
  rewrite Hn1, Hnc, Z2Nat.id in E2, Hw2 by lia. exists b1, b2. split; [done|]. split; [done|]. intros i Hi.
  destruct (lookup_lt_is_Some_2 first (Z.to_nat (C + k - 1 - i))) as [n1 Hn1']; [lia|].
  destruct (lookup_lt_is_Some_2 second (Z.to_nat (i - m))) as [n2 Hn2']; [lia|].
  exists n1, n2. split; [done|]. split; [|split; [done|]].
  - apply (Hw1 (Z.to_nat (C + k - 1 - i))); [|done]. rewrite lookup_app_l by (rewrite length_rev, length_seqZ; lia).
    rewrite rev_is_reverse, reverse_lookup_Some, length_seqZ. split; [|lia]. apply lookup_seqZ. lia.
  - apply (Hw2 (Z.to_nat (i - m))); [|done]. apply lookup_seqZ. lia.
Qed.

(* ------------------------------------------------------------------ *)
(** ** On a concrete book *)

(** One contract offered at 0.6. *)
Definition offer_one (side : Z) (owner : Pubkey) : M Book Z :=
  place_intent owner side 0 (6 * 10 ^ 17) 1 1000 1000000 0.
(** A book of three slots, full with Alice's bid. *)
Definition full_book : Book := Eval vm_compute in snd (offer_one SIDE_LONG ALICE (new_book 3)).
(** It is expanded by two slots, then Bob bids. *)
Definition expanded_book : Book :=
  snd ((realloc_book 2;; expand_book 2;; offer_one SIDE_LONG BOB) full_book).

Lemma full_book_whole : whole full_book.
Proof.
  destruct (init_whole (intent_book_byte_size 3) INSTRUMENT 3 255 0 (new_book 3)) as [Hw _]; [done|done|].
  pose proof (after_ops_whole (R := demo 100 0 []) (new_book 3)
    [OpPost ALICE SIDE_LONG 0 (6 * 10 ^ 17) 1 1000 1000000 0] Hw) as H.
  replace full_book with (after_ops (R := demo 100 0 []) (new_book 3)
    [OpPost ALICE SIDE_LONG 0 (6 * 10 ^ 17) 1 1000 1000000 0]) by (by vm_compute).
  apply H. constructor; [by left|constructor].
Qed.

(** What this does to the traders' offers. From a whole book, full with Alice's bid, an expansion and Bob's
    bid succeed; then Alice's next post succeeds and writes over Bob's resting bid, which
    nobody filled or cancelled and which can no longer be cancelled; had she posted on
    Bob's side, her order would have become its own child and the walk down the tree visits
    more nodes than the book has slots. *)
Theorem expansion_loses_offers :
  whole full_book /\
  fst ((realloc_book 2;; expand_book 2) full_book) = Ok tt /\
  (exists f, offers expanded_book !! 2 = Some f /\ f.(of_owner) = BOB /\ f.(of_left) = 1) /\
  (exists b', offer_one SIDE_SHORT ALICE expanded_book = (Ok 3, b') /\ offers b' !! 2 = None /\
     fst (cancel_on_book (R := demo 100 0 []) 2 USD (MARGIN BOB) (owner_or_expired BOB) b') =
       Err IntentNotFound) /\
  fst (offer_one SIDE_LONG ALICE expanded_book) = Diverge.
Proof.
  split; [exact full_book_whole|]. split; [by vm_compute|].
  split; [eexists; split; [by vm_compute|done]|].
  split; [|by vm_compute]. exists (snd (offer_one SIDE_SHORT ALICE expanded_book)).
  split; [by vm_compute|]. split; by vm_compute.
Qed.

(** Four intents by number. *)
Definition numbered (id : Z) : IntentNode :=
  {| in_side := SIDE_LONG; in_color := 0; in_flags := 0; in_left := 0; in_right := 0; in_parent := 0;
     in_price_fp := 6 * 10 ^ 17; in_id := id; in_owner_seat := 1; in_contracts_total := 1;
     in_contracts_remaining := 1; in_expiration_slot := 1000; in_post_seq := id;
     in_reserved_collateral := 1000000; in_fee_buffer := 0 |}.

(** The full book of three slots, grown by two: slot 4 goes to the first intent taken, then to
    the fourth. *)
Lemma expansion_hands_out_twice_witness :
  exists b' b1 b2, (realloc_book 2;; expand_book 2) full_book = (Ok tt, b') /\
    take_slots [numbered 11; numbered 12] b' = (Ok [4; 3], b1) /\
    take_slots [numbered 13; numbered 14] b1 = (Ok [3; 4], b2) /\
    slot b1 4 = Some (RIntent (numbered 11)) /\ slot b2 4 = Some (RIntent (numbered 14)).
Proof.
  destruct (expansion_hands_out_twice full_book 2) as (b' & fl & E & Hc & Htake);
    [exact full_book_whole|lia|lia|vm_compute; discriminate|].
  assert (fl = []) as ->.
  { destruct fl as [|i fl]; [reflexivity|]. destruct Hc as (Hh & Hi & _). vm_compute in Hh. subst i.
    destruct Hi as [Hi _]. discriminate Hi. }
  destruct (Htake [numbered 11; numbered 12] [numbered 13; numbered 14]) as (b1 & b2 & E1 & E2 & Hs);
    [reflexivity|reflexivity|].
  destruct (Hs 4) as (n1 & n2 & H1 & S1 & H2 & S2); [vm_compute; split; [discriminate|reflexivity]|].
  vm_compute in H1. injection H1 as <-. vm_compute in H2. injection H2 as <-.
  exists b', b1, b2. split; [exact E|]. split; [exact E1|]. split; [exact E2|]. split; [exact S1|exact S2].
Defined.
