(* ===== verification/BookHistory.v ===== *)
(** * Books over whole histories

    Every instruction but [ExpandIntentBook] keeps every book of the world whole, so the
    guarantees of [OrderBook] and [Market] hold for the books a history of transactions
    reaches. *)
From S2P Require Import Prelude Fixed IntentBook RbHeap RbCorrect PoolLinks SeatTree IntentTree BookInvariant BookShape BookSteps Ledger Governance Attestation World Demo Footprint MatchIx Intent Settlement Lifecycle OrderBook Authority Custody Dispatch DemoWorld Market.

Definition book_ok (d : AccountData) : Prop := match d with DBook b => whole b | _ => True end.
Definition all_whole (w : World) : Prop := forall k, book_ok (acct w k).(acc_data).
Definition books_kept (w w' : World) : Prop := all_whole w -> all_whole w'.

#[export] Instance books_kept_preorder : PreOrder books_kept.
Proof. split; unfold books_kept; [intros ? ?|intros ? ? ? ? ? ?]; auto. Qed.

(** A computation on a book that keeps it whole on every path. *)
Definition preserves {A} (m : M Book A) : Prop := forall b, whole b -> whole (snd (m b)).

Section operations.
Context {R : Runtime}.

Lemma preserves_place owner side flags price n e r f : side = SIDE_LONG \/ side = SIDE_SHORT ->
  preserves (place_intent owner side flags price n e r f).
Proof.
  intros Hs b Hw. eapply outcome_whole; [by apply place_refines|]. by intros a b' (? & _).
Qed.
Lemma preserves_prune_own owner now : preserves (prune_own owner now).
Proof. intros b Hw. eapply outcome_whole; [by apply prune_own_refines|]. by intros a b' (? & _). Qed.
Lemma preserves_cancel id mint margin authorize :
  (forall owner expired, is_check (authorize owner expired)) ->
  preserves (cancel_on_book id mint margin authorize).
Proof.
  intros Ha b Hw. eapply outcome_whole; [by apply cancel_refines|]. by intros [[? ?] ?] b' (? & _).
Qed.
Lemma preserves_match i p c l s : preserves (match_on_book i p c l s).
Proof.
  intros b Hw. eapply outcome_whole; [by apply match_refines|]. by intros [[? ?] ?] b' (? & _).
Qed.
Lemma preserves_substitute p s c args : preserves (substitute_on_book p s c args).
Proof. intros b Hw. eapply outcome_whole; [by apply substitute_refines|]. by intros a b' (? & _). Qed.

(** The traversals only read. *)
Lemma reads_intent i : respects eq (intent i).
Proof. unfold intent. respects_tac. Qed.
Lemma reads_push_left fuel cur st : respects eq (push_left fuel cur st).
Proof.
  revert cur st. induction fuel as [|fuel IH]; intros cur st; cbn [push_left]; respects_tac; try apply IH.
  unfold get_left. respects_tac; apply reads_intent.
Qed.
Lemma reads_visit {A} (v : Z -> IntentNode -> A -> bool * A) fuel cur st acc :
  respects eq (visit_loop v fuel cur st acc).
Proof.
  revert cur st acc. induction fuel as [|fuel IH]; intros cur st acc; cbn [visit_loop]; respects_tac;
    first [apply reads_push_left | apply reads_intent | apply IH | idtac].
Qed.
Lemma reads_for_each {A} side (v : Z -> IntentNode -> A -> bool * A) acc :
  respects eq (for_each_best_first side v acc).
Proof.
  unfold for_each_best_first, tree_root. respects_tac. apply reads_visit.
Qed.
Lemma preserves_reads {A} (m : M Book A) : respects eq m -> preserves m.
Proof. intros Hm b Hw. destruct (m b) as [r b'] eqn:E. by apply Hm in E as <-. Qed.
Lemma preserves_overlap side p now id : preserves (find_overlap_on_side side p now id).
Proof. apply preserves_reads, reads_for_each. Qed.
Lemma preserves_scan now : preserves (scan_for_first_valid_pair now).
Proof.
  apply preserves_reads. unfold scan_for_first_valid_pair, first_live. respects_tac; apply reads_for_each.
Qed.
End operations.

Create HintDb books discriminated.
#[export] Hint Constants Opaque : books.
#[export] Hint Resolve preserves_prune_own preserves_match preserves_substitute
  preserves_overlap preserves_scan : books.

(* ------------------------------------------------------------------ *)
(** ** Writes to the world *)

Section world.
Context {R : Runtime} {L : RuntimeLaws}.

Lemma kept_set k d w : (all_whole w -> book_ok d) -> books_kept w (set_data k d w).
Proof.
  intros Hd Hw k'. destruct (decide (k = k')) as [<-|].
  - rewrite acct_set_eq. by apply Hd.
  - by rewrite acct_set_ne.
Qed.
Lemma kept_mut_other `{AccountType T} {A} k (m : M T A) :
  (forall v, book_ok (inj v)) -> respects books_kept (with_mut k m).
Proof. intros Hv. apply respects_with_mut; [exact _|]. intros. apply kept_set. intros _. apply Hv. Qed.
Lemma kept_mut_book {A} k (m : M Book A) : preserves m -> respects books_kept (with_mut k m).
Proof.
  intros Hm. apply respects_with_mut; [exact _|]. intros w b r b' Hd E. apply kept_set. intros Hw.
  specialize (Hw k). rewrite Hd in Hw. specialize (Hm b Hw). by rewrite E in Hm.
Qed.
Lemma kept_init `{AccountType T} k (v : T) : book_ok (inj v) -> respects books_kept (init_account k v).
Proof. intros Hv. apply respects_init_account; [exact _|]. intros. by apply kept_set. Qed.
Lemma kept_overwrite `{AccountType T} k (v : T) : book_ok (inj v) -> respects books_kept (overwrite k v).
Proof.
  intros Hv. unfold overwrite. world_tac. apply respects_modify. intros w. by apply kept_set.
Qed.
Lemma kept_invoke c seeds : respects books_kept (invoke_signed c seeds).
Proof.
  apply respects_invoke; [exact _|]. intros w w' E Hw k. specialize (Hw k).
  destruct (match c with CreateAccount _ _ _ _ _ | TransferLamports _ _ _ => false | _ => true end) eqn:Ec.
  - destruct (token_frame c seeds w w' k) as (Ho & Hd & Hb); [by destruct c|done|].
    destruct (decide ((acct w k).(acc_owner) = SPL_TOKEN_ID)) as [Ht|Ht].
    + destruct (Hb Ht) as [->|[bs ->]]; done.
    + by rewrite (Hd Ht).
  - destruct c as [from new lam space owner|from to lam| | | |]; try done.
    + destruct (decide (k = new)) as [->|Hk].
      * apply create_fresh in E as (_ & _ & -> & _). done.
      * destruct (create_frame _ _ _ _ _ _ _ _ k E Hk) as [-> _]. done.
    + destruct (transfer_frame _ _ _ _ _ _ k E) as [-> _]. done.
Qed.
Lemma kept_init_book k i c b : 1 <= c <= U32_MAX -> respects books_kept (init_book k i c b).
Proof.
  intros Hc. unfold init_book. world_tac. inv_ok. apply respects_modify. intros w. apply kept_set.
  intros _. by eapply init_whole.
Qed.
Lemma kept_insert k (g : World -> Account) :
  (forall w, (g w).(acc_data) = (acct w k).(acc_data) \/ exists bs, (g w).(acc_data) = DBytes bs) ->
  respects books_kept (modify (fun w => <[k := g w]> w)).
Proof.
  intros Hg. apply respects_modify. intros w Hw k'. destruct (decide (k = k')) as [<-|].
  - rewrite acct_insert_eq. destruct (Hg w) as [->|[bs ->]]; [apply Hw|done].
  - by rewrite acct_insert_ne.
Qed.
End world.

(** One step of a handler along [books_kept]. *)
Ltac book_step :=
  first
  [ world_step
  | lazymatch goal with
    | |- respects books_kept (with_mut _ _) =>
        first [apply kept_mut_other; solve [intros ?; exact I] | apply kept_mut_book; auto with books]
    | |- respects books_kept (create_pda _ _ _ _ _) => apply kept_invoke
    | |- respects books_kept (invoke_signed _ _) => apply kept_invoke
    | |- respects books_kept (init_account _ _) => apply kept_init; exact I
    | |- respects books_kept (overwrite _ _) => apply kept_overwrite; exact I
    end ].
Ltac book_tac := repeat book_step.

(* ------------------------------------------------------------------ *)
(** ** The handlers *)

Section handlers.
Context {R : Runtime} {L : RuntimeLaws}.

Lemma kept_ensure_fee_treasury p t m : respects books_kept (ensure_fee_treasury p t m).
Proof. unfold ensure_fee_treasury. book_tac. Qed.
Lemma kept_ensure_user_volume p v o m now : respects books_kept (ensure_user_volume p v o m now).
Proof. unfold ensure_user_volume. book_tac. Qed.
Lemma kept_match_pair_core ctx l s n : respects books_kept (match_pair_core ctx l s n).
Proof.
  unfold match_pair_core, settle_match, charge_taker, open_position.
  book_tac; first [apply kept_ensure_fee_treasury | apply kept_ensure_user_volume].
Qed.
Lemma kept_unpack_accounts accounts : respects books_kept (unpack_accounts accounts).
Proof. unfold unpack_accounts. book_tac. Qed.
Lemma kept_match_pair accounts args : respects books_kept (process_match_pair accounts args).
Proof.
  unfold process_match_pair. book_tac; first [apply kept_unpack_accounts | apply kept_match_pair_core].
Qed.
Lemma kept_match_best accounts : respects books_kept (process_match_best_available accounts).
Proof.
  unfold process_match_best_available.
  book_tac; first [apply kept_unpack_accounts | apply kept_match_pair_core].
Qed.

(** Posting: the side was checked before anything was written. *)
Lemma sides_ok x : negb (x =? SIDE_LONG) && negb (x =? SIDE_SHORT) = false -> x = SIDE_LONG \/ x = SIDE_SHORT.
Proof.
  intros H. apply andb_false_iff in H as [H%negb_false_iff%Z.eqb_eq|H%negb_false_iff%Z.eqb_eq]; auto.
Qed.
Lemma validate_post_side o c i b m args w r w' : validate_post o c i b m args w = (Ok r, w') ->
  args.(pa_side) = SIDE_LONG \/ args.(pa_side) = SIDE_SHORT.
Proof. unfold validate_post. intros H. inv_world. by apply sides_ok. Qed.
Lemma kept_validate_post o c i b m args : respects books_kept (validate_post o c i b m args).
Proof. unfold validate_post. book_tac. Qed.
Lemma kept_inline_match p i b m full off args id :
  respects books_kept (try_inline_match p i b m full off args id).
Proof. unfold try_inline_match. book_tac; apply kept_match_pair_core. Qed.
Lemma kept_post o p c i b m s full off args :
  respects books_kept (do_post_intent_inner o p c i b m s full off args).
Proof.
  unfold do_post_intent_inner. apply respects_bind; [exact _|apply kept_validate_post|].
  intros [[[inst bump] reserve] fee] w w' H%validate_post_side.
  book_tac; first [by apply preserves_place | apply kept_inline_match].
Qed.
Lemma kept_authorize_session d i s : respects books_kept (authorize_session d i s).
Proof. unfold authorize_session. book_tac. Qed.
Lemma kept_post_intent accounts args : respects books_kept (process_post_intent accounts args).
Proof. unfold process_post_intent. book_tac. apply kept_post. Qed.
Lemma kept_post_delegated accounts args : respects books_kept (process_post_intent_delegated accounts args).
Proof.
  unfold process_post_intent_delegated. book_tac; first [apply kept_post | apply kept_authorize_session].
Qed.
Lemma kept_cancel accounts id : respects books_kept (process_cancel_intent accounts id).
Proof.
  unfold process_cancel_intent. book_tac. apply preserves_cancel. intros. apply bail_is_check.
Qed.
Lemma kept_cancel_delegated accounts id : respects books_kept (process_cancel_intent_delegated accounts id).
Proof.
  unfold process_cancel_intent_delegated. book_tac; [apply kept_authorize_session|].
  apply preserves_cancel. intros. apply bail_is_check.
Qed.

(** Custody and contracts. *)
Lemma kept_validate_vault v a m : respects books_kept (validate_vault v a m).
Proof. unfold validate_vault. book_tac. Qed.
Lemma kept_create_margin accounts : respects books_kept (process_create_margin_account accounts).
Proof. unfold process_create_margin_account. book_tac. Qed.
Lemma kept_deposit accounts n : respects books_kept (process_deposit accounts n).
Proof. unfold process_deposit, require_token_program. book_tac. apply kept_validate_vault. Qed.
Lemma kept_withdraw accounts n : respects books_kept (process_withdraw accounts n).
Proof. unfold process_withdraw, require_token_program. book_tac. apply kept_validate_vault. Qed.
Lemma kept_sweep accounts n : respects books_kept (process_sweep_fees accounts n).
Proof. unfold process_sweep_fees, require_token_program, require_admin. book_tac. Qed.
Lemma kept_wrap accounts n : respects books_kept (process_wrap_stablecoin accounts n).
Proof. unfold process_wrap_stablecoin, require_token_program, check_accepted, check_reserve. book_tac. Qed.
Lemma kept_unwrap accounts n : respects books_kept (process_unwrap_stablecoin accounts n).
Proof. unfold process_unwrap_stablecoin, require_token_program, check_accepted, check_reserve. book_tac. Qed.

Lemma kept_load_attestation_signer c : respects books_kept (load_attestation_signer c).
Proof. unfold load_attestation_signer. book_tac. Qed.
Lemma kept_verified s k off : respects books_kept (verified_attestation s k off).
Proof. unfold verified_attestation. book_tac. Qed.
Lemma kept_load_live k i mk m : respects books_kept (load_live_pmlc k i mk m).
Proof. unfold load_live_pmlc. book_tac. Qed.
Lemma kept_check_breach att p : respects books_kept (check_breach att p).
Proof. unfold check_breach. book_tac. Qed.
Ltac settle_tac := book_tac;
  first [apply kept_load_attestation_signer | apply kept_verified | apply kept_load_live | apply kept_check_breach | idtac].
Lemma kept_liquidate accounts args : respects books_kept (process_liquidate accounts args).
Proof. unfold process_liquidate, liquidation_payout. settle_tac. Qed.
Lemma kept_resolve accounts args : respects books_kept (process_resolve accounts args).
Proof. unfold process_resolve, pay_equities. settle_tac. Qed.
Lemma kept_close_mutual accounts args : respects books_kept (process_close_mutual accounts args).
Proof. unfold process_close_mutual, pay_equities. settle_tac. Qed.
Lemma kept_novate accounts side : respects books_kept (process_novate accounts side).
Proof. unfold process_novate. book_tac. Qed.
Lemma kept_substitute accounts args b : respects books_kept (do_substitute accounts args b).
Proof. unfold do_substitute, settle_substitution. book_tac. Qed.
Lemma kept_close accounts : respects books_kept (process_close_pmlc accounts).
Proof.
  unfold process_close_pmlc, close_pmlc_account.
  book_tac; apply kept_insert; intros w; first [by left | right; by eexists].
Qed.

(** Re-entry: the side was checked. *)
Lemma kept_affordable n b m f : respects books_kept (affordable n b m f).
Proof. induction n as [|n IH]; cbn [affordable]; book_tac; done. Qed.
Lemma kept_reentry_size f b k : respects books_kept (reentry_size f b k).
Proof. unfold reentry_size, reservation. book_tac; apply kept_affordable. Qed.
Lemma kept_claim accounts side e : respects books_kept (process_claim_reentry accounts side e).
Proof.
  unfold process_claim_reentry, repost. do 14 (apply respects_bind; [exact _|book_tac|intros ? ? ? ?]).
  assert (Hs : side = SIDE_LONG \/ side = SIDE_SHORT).
  { match goal with H : bail_if (negb (side =? _) && _) _ _ = _ |- _ =>
      apply bail_if_ok_inv in H as [H _]; by apply sides_ok end. }
  book_tac; first [apply kept_reentry_size | by apply preserves_place].
Qed.

(* ------------------------------------------------------------------ *)
(** ** Pruning the whole book *)

(** The slots a list of pruning work names, with their sides. *)
Definition work_slots (work : list (Z * Z * Pubkey * Z)) : list (Z * Z) := map (fun e => e.1.1) work.

(** An entry of the work: an order at its slot, its trader and what it holds. *)
Definition work_item (b : Book) (j : Z) (ns : list RawNode) (e : Z * Z * Pubkey * Z) : Prop :=
  exists k n owner, ns !! k = Some (RIntent n) /\ fst (seat n.(in_owner_seat) b) = Ok owner /\
    e = (n.(in_side), j + Z.of_nat k, owner.(sn_trader), n.(in_reserved_collateral) + n.(in_fee_buffer)).

Lemma collect_expired_ok b now room j ns work :
  collect_expired b now room j ns = Ok work ->
  StronglySorted (fun e e' => e.1.1.2 < e'.1.1.2) work /\ Forall (work_item b j ns) work.
Proof.
  revert room j work. induction ns as [|s ns IH]; intros room j work; cbn [collect_expired].
  { intros [= <-]. split; constructor. }
  assert (Hshift : forall work, Forall (work_item b (j + 1) ns) work -> Forall (work_item b j (s :: ns)) work).
  { intros w H. eapply Forall_impl; [exact H|]. intros e (k & n & o & Hk & Ho & ->). exists (S k), n, o.
    split_and!; [done|done|]. by replace (j + Z.of_nat (S k)) with (j + 1 + Z.of_nat k) by lia. }
  destruct (as_intent s) as [node|] eqn:Es.
  2: { intros [H1 H2]%IH. auto. }
  destruct room as [|room]; [intros [= <-]; split; constructor|].
  destruct (_ || _); [intros [H1 H2]%IH; auto|].
  intros (owner & Ho & H)%res_bind_ok_inv. apply res_bind_ok_inv in H as (total & Ht & H).
  apply res_bind_ok_inv in H as (rest & [H1 H2]%IH & [= <-]). split.
  - constructor; [done|]. eapply Forall_impl; [exact H2|]. intros e (k & n & o & _ & _ & ->). cbn. lia.
  - constructor; [|by apply Hshift]. exists O, node, owner. destruct s; cbn in Es; try done. injection Es as ->.
    unfold opt_ok_or in Ht. destruct (checked _ _) as [y|] eqn:Ey; [|done]. injection Ht as <-.
    apply checked_some in Ey as [-> _]. split_and!; [done|done|]. by rewrite Z.add_0_r.
Qed.

(** The work against the map of offers: each entry is an offer, of this trader, that holds this. *)
Definition workable (b : Book) (work : list (Z * Z * Pubkey * Z)) (ids : list Z) : Prop :=
  prunable b (work_slots work) ids /\
  Forall2 (fun e id => exists f, offers b !! id = Some f /\ f.(of_owner) = e.1.2 /\
    e.2 = f.(of_reserved) + f.(of_fee)) work ids.

Lemma collected_workable b now room work : whole b ->
  collect_expired b now room 0 b.(nodes) = Ok work -> exists ids, workable b work ids.
Proof.
  intros Hw [Hs Hwork]%collect_expired_ok.
  assert (Hnd : NoDup (map snd (work_slots work))).
  { unfold work_slots. rewrite map_map. clear Hwork.
    induction Hs as [|e work Hs IH He]; cbn; constructor; [|done].
    intros (x & Ex & Hx)%list_elem_of_fmap. rewrite Forall_forall in He. apply He in Hx. lia. }
  destruct (forall_choose _ (fun e id => exists n,
      slot b e.1.1.2 = Some (RIntent n) /\ n.(in_side) = e.1.1.1 /\ n.(in_id) = id /\
      seat_owner b n.(in_owner_seat) = e.1.2 /\
      e.2 = n.(in_reserved_collateral) + n.(in_fee_buffer)) work Hwork)
    as [ids Hids].
  { intros e (k & n & owner & Hk & Ho & ->). exists n.(in_id), n. cbn [fst snd].
    assert (Hn : slot b (0 + Z.of_nat k) = Some (RIntent n)).
    { unfold slot. by replace (Z.to_nat (0 + Z.of_nat k)) with k by lia. }
    split_and!; try done. destruct (order_seat b _ n Hw Hn) as (m & d & Hm & _ & <-).
    rewrite Hm in Ho. by injection Ho as ->. }
  exists ids. split; [split; [done|]|].
  - unfold work_slots. apply Forall2_fmap_l. eapply Forall2_impl; [exact Hids|].
    intros e id (n & Hn & Hside & Hid & _). exists (order n). split_and!; [|done..].
    unfold content. by rewrite Hn.
  - eapply Forall2_impl; [exact Hids|]. intros e id (n & Hn & _ & Hid & Ho & Ht).
    exists (offer_of b n). split; [|done]. apply offers_spec; [done|].
    exists e.1.1.2, (order n). split_and!; try done. unfold content. by rewrite Hn.
Qed.

Definition prune_ready (k : Pubkey) (work : list (Z * Z * Pubkey * Z)) (w : World) : Prop :=
  all_whole w /\ forall b, holds k (DBook b) w -> exists ids, prunable b (work_slots work) ids.

Lemma drop_expired_ok b side i w id ids : whole b -> prunable b ((side, i) :: w) (id :: ids) ->
  runs (drop_expired side i) b (fun _ b' =>
    whole b' /\ offers b' = delete id (offers b) /\ prunable b' w ids).
Proof.
  intros Hw Hp. pose proof Hp as [_ Hp2].
  inversion Hp2 as [|? ? ? ? (o & Ho & Hside & Eid) Hp2']; subst. cbn in Ho, Hside.
  apply content_order in Ho as (n & Hn%node_of_slot & <-). cbn in Hside. subst side.
  unfold drop_expired. apply runs_bind. unfold runs at 1. rewrite (intent_run _ _ _ Hn).
  eapply runs_mono; [by apply cancel_writes|]. intros [] b' (Hw' & _ & Hoff & Hc).
  split_and!; [done|done|]. by eapply prunable_tail.
Qed.
Lemma prunable_split b e w ids : prunable b (e :: w) ids -> exists id ids', ids = id :: ids'.
Proof. intros [_ H]. inversion H; subst. eauto. Qed.

(** Chaining steps that use facts about the state. *)
Lemma guarded_chain {S A B} (P P' : S -> Prop) (W : S -> S -> Prop) `{!PreOrder W} (m : M S A) (f : A -> M S B) :
  guarded P W m -> (forall a s s', P s -> m s = (Ok a, s') -> P' s') ->
  (forall a, guarded P' W (f a)) -> guarded P W (m ≫= f).
Proof.
  intros Hm Hp Hf s r s' Hs E. unfold mbind, M_bind in E. destruct (m s) as [[a|e| |] s1] eqn:E1.
  - etrans; [by eapply Hm|]. eapply Hf; [|exact E]. by eapply Hp.
  - simplify_eq. by eapply Hm.
  - simplify_eq. by eapply Hm.
  - simplify_eq. by eapply Hm.
Qed.

Lemma reads_find_margin (W : World -> World -> Prop) `{!PreOrder W} t m j ms : respects W (find_margin t m j ms).
Proof. revert j. induction ms as [|a ms IH]; intros j; cbn [find_margin]; world_tac; apply IH. Qed.

Lemma kept_prune_all k m ms work : guarded (prune_ready k work) books_kept (prune_all k m ms work).
Proof.
  revert ms. induction work as [|[[[side i] t] n] work IH]; intros ms; cbn [prune_all].
  { apply guarded_respects, respects_ret; exact _. }
  assert (Hread : forall {A} (x : M World A), respects eq x -> forall a s s',
    prune_ready k ((side, i, t, n) :: work) s -> x s = (Ok a, s') -> prune_ready k ((side, i, t, n) :: work) s').
  { intros A x Hx a s s' Hp E. by apply Hx in E as <-. }
  apply (guarded_chain _ (prune_ready k ((side, i, t, n) :: work))); [exact _|..].
  { apply guarded_respects, reads_find_margin; exact _. }
  { apply Hread, reads_find_margin; exact _. }
  intros found. apply (guarded_chain _ (prune_ready k ((side, i, t, n) :: work))); [exact _|..].
  { apply guarded_respects, respects_ok_or; exact _. }
  { apply Hread, respects_ok_or; exact _. }
  intros [j m_ai]. apply (guarded_chain _ (prune_ready k ((side, i, t, n) :: work))); [exact _|..].
  { apply guarded_respects, kept_mut_other. intros ?; exact I. }
  { intros [] s s' [Hw Hp] E. split; [by eapply kept_mut_other in E; [apply E|intros ?; exact I]|].
    intros b Hb. apply with_mut_ok_inv in E as (v & v' & Hv & _ & ->). apply Hp. unfold holds in *.
    destruct (decide (m_ai.(key) = k)) as [<-|Hne]; [by rewrite acct_set_eq in Hb|].
    by rewrite acct_set_ne in Hb. }
  intros _. apply (guarded_chain _ (prune_ready k work)); [exact _|..].
  - intros w r w' [Hw Hp] E. revert w r w' Hw Hp E.
    assert (Hm : forall w b r b', holds k (DBook b) w -> all_whole w ->
      (forall b, holds k (DBook b) w -> exists ids, prunable b (work_slots ((side, i, t, n) :: work)) ids) ->
      drop_expired side i b = (r, b') -> whole b').
    { intros w b r b' Hb Hw Hp E. destruct (Hp b Hb) as [ids Hids]. pose proof (Hw k) as Hk.
      unfold holds in Hb. rewrite Hb in Hk. destruct (prunable_split _ _ _ _ Hids) as (id & ids' & ->).
      pose proof (drop_expired_ok b side i _ id ids' Hk Hids) as Hrun.
      unfold runs in Hrun. rewrite E in Hrun. destruct r; [apply Hrun|done..]. }
    intros w r w' Hw Hp E Hall. unfold with_mut in E.
    destruct (load Book k w) as [[b|e| |] w1] eqn:El; apply load_state in El as Ew; subst w1.
    2-4: (unfold mbind, M_bind in E; rewrite El in E; injection E as <- <-; done).
    rewrite (bind_ok _ _ w b w) in E by done. apply load_ok_inv in El as [_ Hb].
    destruct (drop_expired side i b) as [r' b'] eqn:Ed. injection E as <- <-.
    apply (kept_set k (DBook b') w); [|done]. intros _. by eapply (Hm w b r' b').
  - intros [] w w' [Hw Hp] E. apply with_mut_ok_inv in E as (b & b' & Hb & Ed & ->).
    destruct (Hp b Hb) as [ids Hids]. pose proof (Hw k) as Hk. rewrite Hb in Hk.
    destruct (prunable_split _ _ _ _ Hids) as (id & ids' & ->).
    pose proof (drop_expired_ok b side i _ id ids' Hk Hids) as Hrun. unfold runs in Hrun. rewrite Ed in Hrun.
    destruct Hrun as (Hw' & _ & Hids'). split.
    + apply (kept_set k (DBook b') w); [|done]. done.
    + intros b2 Hb2. unfold holds in Hb2. rewrite acct_set_eq in Hb2. injection Hb2 as <-. eauto.
  - intros _. apply IH.
Qed.

Lemma kept_prune accounts : respects books_kept (process_prune_expired accounts).
Proof.
  unfold process_prune_expired. do 8 (apply respects_bind; [exact _|book_tac|intros ? ? ? ?]).
  apply respects_load_bind; [exact _|]. intros b w r w' Hb E Hw.
  unfold mbind, M_bind, lift in E. destruct (collect_expired _ _ _ _ _) as [work|e| |] eqn:Ec.
  2-4: by simplify_eq.
  refine (kept_prune_all _ _ _ _ w r w' _ E Hw). split; [done|]. intros b' Hb'.
  unfold holds in *. rewrite Hb in Hb'. injection Hb' as ->. pose proof (Hw a1.(key)) as Hk.
  rewrite Hb in Hk. destruct (collected_workable _ _ _ _ Hk Ec) as (ids & Hids & _). by exists ids.
Qed.
End handlers.

(* ------------------------------------------------------------------ *)
(** ** Administration *)

Section administration.
Context {R : Runtime} {L : RuntimeLaws}.

Lemma kept_authorize c accounts : respects books_kept (authorize c accounts).
Proof.
  unfold authorize, authorize_admin_or_multisig. world_tac.
  generalize accounts at 2 as ais. induction ais as [|ai ais IH]; cbn [authorize_scan]; world_tac; done.
Qed.
Lemma kept_require_admin c a : respects books_kept (require_admin c a).
Proof. unfold require_admin. world_tac. Qed.
Lemma kept_create_if_empty p n sp seeds b : respects books_kept (create_if_empty p n sp seeds b).
Proof. unfold create_if_empty. book_tac. Qed.

Ltac admin_books := repeat first
  [ book_step | apply kept_authorize | apply kept_require_admin | apply kept_create_if_empty ].

Lemma kept_init_config accounts s st : respects books_kept (process_init_program_config accounts s st).
Proof. unfold process_init_program_config. admin_books. Qed.
Lemma kept_set_pause accounts b : respects books_kept (process_set_global_pause accounts b).
Proof. unfold process_set_global_pause. admin_books. Qed.
Lemma kept_init_multisig accounts t l : respects books_kept (process_init_admin_multisig accounts t l).
Proof. unfold process_init_admin_multisig. admin_books. Qed.
Lemma kept_rotate accounts t l : respects books_kept (process_rotate_admin_multisig accounts t l).
Proof. unfold process_rotate_admin_multisig. admin_books. Qed.
Lemma kept_propose accounts id s : respects books_kept (process_propose_set_attestation_signer accounts id s).
Proof. unfold process_propose_set_attestation_signer. admin_books. Qed.
Lemma kept_execute accounts id : respects books_kept (process_execute_set_attestation_signer accounts id).
Proof. unfold process_execute_set_attestation_signer. admin_books. Qed.
Lemma kept_cancel_timelock accounts id : respects books_kept (process_cancel_timelock accounts id).
Proof. unfold process_cancel_timelock. admin_books. Qed.
Lemma kept_init_buckets accounts l b : respects books_kept (process_init_bucket_registry accounts l b).
Proof. unfold process_init_bucket_registry. admin_books. Qed.
Lemma kept_set_buckets accounts l b : respects books_kept (process_set_bucket_registry accounts l b).
Proof. unfold process_set_bucket_registry. admin_books. Qed.
Lemma kept_init_stables accounts d l : respects books_kept (process_init_stablecoin_registry accounts d l).
Proof. unfold process_init_stablecoin_registry, create_wusd_mint. admin_books. Qed.
Lemma kept_add_mint accounts : respects books_kept (process_add_stablecoin_mint accounts).
Proof. unfold process_add_stablecoin_mint. admin_books. Qed.
Lemma kept_remove_mint accounts : respects books_kept (process_remove_stablecoin_mint accounts).
Proof. unfold process_remove_stablecoin_mint. admin_books. Qed.
Lemma kept_init_schedule accounts t : respects books_kept (process_init_fee_schedule accounts t).
Proof. unfold process_init_fee_schedule. admin_books. Qed.
Lemma kept_set_schedule accounts t : respects books_kept (process_set_fee_schedule accounts t).
Proof. unfold process_set_fee_schedule. admin_books. Qed.
Lemma kept_set_status accounts p : respects books_kept (process_set_instrument_status accounts p).
Proof. unfold process_set_instrument_status. admin_books. Qed.
Lemma kept_create_session accounts args : respects books_kept (process_create_session accounts args).
Proof.
  unfold process_create_session, alloc_session, write_session. admin_books.
  all: apply respects_modify; intros w; by apply kept_set.
Qed.
Lemma kept_revoke accounts : respects books_kept (process_revoke_session accounts).
Proof. unfold process_revoke_session. admin_books. Qed.

Lemma kept_init_instrument k c : respects books_kept (init_instrument k c).
Proof. unfold init_instrument. admin_books. apply respects_modify. intros w. by apply kept_set. Qed.
Lemma kept_create_instrument accounts args : args.(ci_initial_book_capacity) <= U32_MAX ->
  respects books_kept (process_create_instrument accounts args).
Proof.
  intros Hc. unfold process_create_instrument. do 18 (apply respects_bind; [exact _|admin_books|intros ? ? ? ?]).
  assert (16 <= args.(ci_initial_book_capacity)).
  { match goal with H : bail_if (args.(ci_initial_book_capacity) <? 16) _ _ = _ |- _ =>
      by apply bail_if_ok_inv in H as [H%Z.ltb_ge _] end. }
  unfold check_bucket_registry, ensure_market_nonce.
  admin_books; first [apply kept_init_instrument | apply kept_init_book; lia].
Qed.
End administration.

(* ------------------------------------------------------------------ *)
(** ** Histories *)

(** [borsh] decodes a [u32] and a [u64] within their widths. *)
Class BorshWidths `{B : Borsh} := {
  capacity_width bs args : de_create_instrument bs = Some args ->
    args.(ci_initial_book_capacity) <= U32_MAX;
  bucket_width bs args : de_create_instrument bs = Some args -> 0 <= args.(ci_collateral_bucket);
}.
#[export] Instance demo_widths : BorshWidths (B := demo_borsh).
Proof. split; intros bs args H; discriminate H. Qed.

#[export] Hint Resolve kept_init_config kept_set_pause kept_set_status kept_create_margin kept_deposit
  kept_withdraw kept_post_intent kept_cancel kept_match_pair kept_match_best kept_prune
  kept_create_session kept_revoke kept_post_delegated kept_cancel_delegated kept_liquidate
  kept_resolve kept_close_mutual kept_claim kept_novate kept_substitute kept_init_schedule
  kept_set_schedule kept_sweep kept_propose kept_execute kept_cancel_timelock kept_init_multisig
  kept_rotate kept_init_buckets kept_set_buckets kept_init_stables kept_add_mint kept_remove_mint
  kept_wrap kept_unwrap kept_close : books.

Lemma run_instruction_keeps `{R : Runtime} `{L : !RuntimeLaws} `{B : Borsh} `{!BorshWidths} t accounts payload :
  t <> TExpandIntentBook -> respects books_kept (run_instruction t accounts payload).
Proof.
  intros Ht. destruct t; try done; cbn [run_instruction]; unfold decode, process_match_substitute,
    process_match_substitute_with_settle; try solve [book_tac; auto with books].
  apply respects_bind; [exact _|book_tac|]. intros args w w1 Hargs. inv_ok.
  eapply kept_create_instrument, capacity_width. eassumption.
Qed.

(** A transaction of any instruction but [ExpandIntentBook]. *)
Definition trading_step (pid : Pubkey) (w w' : World) : Prop :=
  exists (R : Runtime) (_ : RuntimeLaws) (B : Borsh) (_ : BorshWidths) accounts data,
    program_id = pid /\ (forall payload, data <> tag_byte TExpandIntentBook :: payload) /\
    w' = transaction accounts data w.

Lemma trading_step_keeps pid w w' : trading_step pid w w' -> books_kept w w'.
Proof.
  intros (R & L & B & W & accounts & data & _ & Hd & ->). unfold transaction.
  destruct (process accounts data w) as [[u|e| |] w1] eqn:E; try done.
  unfold process in E. destruct data as [|b payload]; [done|].
  apply bind_ok_inv in E as (t & w0 & Ht & E). apply lift_ok_inv in Ht as [Ht%tag_try_from_ok ->].
  eapply run_instruction_keeps; [|exact E]. intros ->. subst b. by apply (Hd payload).
Qed.

(** C17: in every world reached from one whose books are whole by any history of transactions
    other than [ExpandIntentBook], whatever accounts, data, clocks and attestations they
    carry, every book is whole: its price trees, seat tree and free list are well-formed and
    disjoint, every intent has a unique id, a seat and a place in its side's tree. So the
    next operation on any book neither panics nor loops, and does to the map of offers what
    it means. *)
Theorem books_stay_whole pid w w' :
  rtc (trading_step pid) w w' -> all_whole w ->
  all_whole w' /\
  forall (R : Runtime) k b op, holds k (DBook b) w' -> valid_op op ->
    match run_op op b with
    | (Ok _, b') => whole b' /\ spec_op op (offers b) (offers b')
    | (Err _, b') => whole b'
    | (Panic, _) | (Diverge, _) => False
    end.
Proof.
  intros Hh Hw. assert (Hw' : all_whole w').
  { clear -Hh Hw. induction Hh as [|w w1 w2 Hs Hh IH]; [done|]. by apply IH, (trading_step_keeps pid w). }
  split; [done|]. intros R k b op Hb Hop. specialize (Hw' k). unfold holds in Hb. rewrite Hb in Hw'.
  pose proof (run_op_refines op b Hw' Hop) as H. unfold outcome in H.
  destruct (run_op op b) as [[] b']; done.
Qed.

Lemma demo_world_whole : all_whole demo_world.
Proof.
  intros k. revert k. apply (world_forall (fun _ a => book_ok a.(acc_data))); [done|].
  repeat (apply Forall_cons; split; [try exact I; exact demo_book_whole|]). apply Forall_nil. exact I.
Qed.

Lemma books_stay_whole_witness :
  all_whole (carol_bids demo_world) /\
  forall (R : Runtime) k b op, holds k (DBook b) (carol_bids demo_world) -> valid_op op ->
    match run_op op b with
    | (Ok _, b') => whole b' /\ spec_op op (offers b) (offers b')
    | (Err _, b') => whole b'
    | (Panic, _) | (Diverge, _) => False
    end.
Proof.
  apply (books_stay_whole PID demo_world); [|exact demo_world_whole].
  apply rtc_once. exists (demo 100 1700100000 []), (demo_laws 100 1700100000 []), demo_borsh, demo_widths.
  eexists _, _. split; [reflexivity|]. split; [|reflexivity]. intros payload E. discriminate E.
Defined.
