(* ===== verification/Conservation.v ===== *)
(** * Every instruction balances its books

    What each instruction adds to what the program owes: the settlement of a contract, the
    hand-over of a side, the fee of a match and the life of an intent only move value
    between the accounts of the program; a deposit adds its amount, a withdrawal and a
    sweep take theirs. *)
From S2P Require Import Prelude Fixed IntentBook Ledger Governance Attestation World Footprint Solvency MatchIx Intent Settlement Lifecycle Authority Custody Dispatch Demo DemoWorld.

Section conservation.
Context {R : Runtime} {L : RuntimeLaws}.

(* ------------------------------------------------------------------ *)
(** ** Instructions that only move value within one account *)

Lemma shifts_check_margin o m b : shifts (check_margin o m b) 0 0 0.
Proof. apply shifts_guard. Qed.
Lemma shifts_check_owner o m : shifts (check_owner_mint o m) 0 0 0.
Proof. apply shifts_guard. Qed.
Lemma shifts_pnl f : shifts (modify (fun m => set_realized_pnl (f m) m)) 0 0 0.
Proof. by apply shifts_modify. Qed.
Hint Resolve shifts_check_margin shifts_check_owner shifts_pnl : shifts.

Lemma shifts_reserve o m b refund total :
  shifts (reserve_margin o m b refund total)
    ((if 0 <? refund then refund else 0) - total) (total - (if 0 <? refund then refund else 0)) 0.
Proof. unfold reserve_margin. destruct (0 <? refund); shifts_tac. Qed.
Lemma shifts_release o m b total : shifts (release_margin o m b total) total (- total) 0.
Proof. unfold release_margin. shifts_tac. Qed.
Hint Resolve shifts_reserve shifts_release : shifts.

Lemma yields_post_inner mint owner payer config instr book margin session accounts off args :
  args.(pa_try_match) = 0 ->
  yields (books mint 0)
    (do_post_intent_inner owner payer config instr book margin session accounts off args).
Proof.
  intros Ht. unfold do_post_intent_inner, validate_post. rewrite Ht. cbn [Z.eqb negb when]. yields_tac.
Qed.

Lemma yields_post mint accounts args :
  args.(pa_try_match) = 0 -> yields (books mint 0) (process_post_intent accounts args).
Proof. intros. unfold process_post_intent. yields_tac. by apply yields_post_inner. Qed.
Lemma yields_post_delegated mint accounts args :
  args.(pa_try_match) = 0 -> yields (books mint 0) (process_post_intent_delegated accounts args).
Proof.
  intros. unfold process_post_intent_delegated, authorize_session. yields_tac.
  by apply yields_post_inner.
Qed.
Lemma yields_cancel mint accounts id : yields (books mint 0) (process_cancel_intent accounts id).
Proof. unfold process_cancel_intent. yields_tac. Qed.
Lemma yields_cancel_delegated mint accounts id :
  yields (books mint 0) (process_cancel_intent_delegated accounts id).
Proof. unfold process_cancel_intent_delegated, authorize_session. yields_tac. Qed.

Lemma yields_affordable mint n bucket bps free :
  yields (books mint 0) (affordable n bucket bps free).
Proof. induction n; cbn [affordable]; yields_tac. Qed.
Hint Resolve yields_affordable : yields.
Lemma yields_claim mint accounts side expiration :
  yields (books mint 0) (process_claim_reentry accounts side expiration).
Proof. unfold process_claim_reentry, repost, reentry_size, reservation. yields_tac. Qed.

Lemma yields_find_margin mint trader m j margins :
  yields (books mint 0) (find_margin trader m j margins).
Proof. induction margins in j |- *; cbn [find_margin]; yields_tac. Qed.
Hint Resolve yields_find_margin : yields.
Lemma yields_prune_all mint bk m margins work :
  yields (books mint 0) (prune_all bk m margins work).
Proof. induction work as [|[[[]]]] in margins |- *; cbn [prune_all]; yields_tac. Qed.
Hint Resolve yields_prune_all : yields.
Lemma yields_prune mint accounts : yields (books mint 0) (process_prune_expired accounts).
Proof. unfold process_prune_expired. yields_tac. Qed.

(* ------------------------------------------------------------------ *)
(** ** Instructions that move no value *)

Lemma yields_create_if_empty mint payer new space seeds bump :
  yields (books mint 0) (create_if_empty payer new space seeds bump).
Proof. unfold create_if_empty. yields_tac. Qed.
Lemma yields_require_admin mint config admin_key :
  yields (books mint 0) (require_admin config admin_key).
Proof. unfold require_admin. yields_tac. Qed.
Lemma yields_authorize mint config accounts : yields (books mint 0) (authorize config accounts).
Proof.
  unfold authorize, authorize_admin_or_multisig. yields_tac. clear H.
  generalize accounts at 2. intros ais.
  induction ais; cbn [authorize_scan]; yields_tac.
Qed.
Hint Resolve yields_create_if_empty yields_require_admin yields_authorize : yields.

Lemma yields_novate mint accounts side : yields (books mint 0) (process_novate accounts side).
Proof. unfold process_novate. yields_tac. Qed.
Lemma yields_init_config mint accounts s st :
  yields (books mint 0) (process_init_program_config accounts s st).
Proof. unfold process_init_program_config. yields_tac. Qed.
Lemma yields_set_pause mint accounts b : yields (books mint 0) (process_set_global_pause accounts b).
Proof. unfold process_set_global_pause. yields_tac. Qed.
Lemma yields_init_multisig mint accounts t s :
  yields (books mint 0) (process_init_admin_multisig accounts t s).
Proof. unfold process_init_admin_multisig. yields_tac. Qed.
Lemma yields_rotate mint accounts t s :
  yields (books mint 0) (process_rotate_admin_multisig accounts t s).
Proof. unfold process_rotate_admin_multisig. yields_tac. Qed.
Lemma yields_propose mint accounts id s :
  yields (books mint 0) (process_propose_set_attestation_signer accounts id s).
Proof.
  unfold process_propose_set_attestation_signer.
  repeat lazymatch goal with
  | |- yields _ (create_pda _ _ _ _ _ ≫= _) => apply yields_create_then
  | _ => yields_step
  end.
  intros w u w' Hm E. inv_world.
  match goal with H : overwrite _ _ _ = _ |- _ => apply overwrite_ok_inv in H; subst end.
  by apply books_set_moneyless.
Qed.
Lemma yields_execute mint accounts id :
  yields (books mint 0) (process_execute_set_attestation_signer accounts id).
Proof. unfold process_execute_set_attestation_signer. yields_tac. Qed.
Lemma yields_cancel_timelock mint accounts id :
  yields (books mint 0) (process_cancel_timelock accounts id).
Proof. unfold process_cancel_timelock. yields_tac. Qed.
Lemma yields_init_buckets mint accounts l b :
  yields (books mint 0) (process_init_bucket_registry accounts l b).
Proof. unfold process_init_bucket_registry. yields_tac. Qed.
Lemma yields_set_buckets mint accounts l b :
  yields (books mint 0) (process_set_bucket_registry accounts l b).
Proof. unfold process_set_bucket_registry. yields_tac. Qed.
Lemma yields_init_stables mint accounts d m :
  yields (books mint 0) (process_init_stablecoin_registry accounts d m).
Proof. unfold process_init_stablecoin_registry, create_wusd_mint. yields_tac. Qed.
Lemma yields_add_mint mint accounts : yields (books mint 0) (process_add_stablecoin_mint accounts).
Proof. unfold process_add_stablecoin_mint. yields_tac. Qed.
Lemma yields_remove_mint mint accounts :
  yields (books mint 0) (process_remove_stablecoin_mint accounts).
Proof. unfold process_remove_stablecoin_mint. yields_tac. Qed.
Lemma yields_init_schedule mint accounts ts :
  yields (books mint 0) (process_init_fee_schedule accounts ts).
Proof. unfold process_init_fee_schedule. yields_tac. Qed.
Lemma yields_set_schedule mint accounts ts :
  yields (books mint 0) (process_set_fee_schedule accounts ts).
Proof. unfold process_set_fee_schedule. yields_tac. Qed.
Lemma yields_revoke mint accounts : yields (books mint 0) (process_revoke_session accounts).
Proof. unfold process_revoke_session. yields_tac. Qed.
Lemma yields_status mint accounts p :
  yields (books mint 0) (process_set_instrument_status accounts p).
Proof. unfold process_set_instrument_status. yields_tac. Qed.
Lemma yields_expand mint accounts n : yields (books mint 0) (process_expand_intent_book accounts n).
Proof. unfold process_expand_intent_book. yields_tac. Qed.
Lemma yields_create_margin mint accounts :
  yields (books mint 0) (process_create_margin_account accounts).
Proof.
  unfold process_create_margin_account. yields_tac.
  apply yields_init. cbn. by case_match.
Qed.
Lemma yields_wrap mint accounts n : yields (books mint 0) (process_wrap_stablecoin accounts n).
Proof. unfold process_wrap_stablecoin, check_accepted, check_reserve, require_token_program. yields_tac. Qed.
Lemma yields_unwrap mint accounts n : yields (books mint 0) (process_unwrap_stablecoin accounts n).
Proof. unfold process_unwrap_stablecoin, check_accepted, check_reserve, require_token_program. yields_tac. Qed.

Lemma yields_init_instrument mint k c : yields (books mint 0) (init_instrument k c).
Proof.
  intros w u w' E. unfold init_instrument in E. inv_world. apply books_set_moneyless; [|done].
  match goal with H : bool_decide _ = true |- _ => apply bool_decide_eq_true in H end.
  by destruct (acc_data (acct w k)).
Qed.
Lemma yields_ensure_nonce mint payer nonce market :
  yields (books mint 0) (ensure_market_nonce payer nonce market).
Proof. unfold ensure_market_nonce. yields_tac. Qed.
Lemma yields_check_registry mint t l b : yields (books mint 0) (check_bucket_registry t l b).
Proof. unfold check_bucket_registry. yields_tac. Qed.
Hint Resolve yields_init_instrument yields_ensure_nonce yields_check_registry : yields.

Lemma yields_create_instrument mint accounts args :
  yields (books mint 0) (process_create_instrument accounts args).
Proof.
  unfold process_create_instrument.
  repeat lazymatch goal with
  | |- yields _ (create_pda _ _ (intent_book_byte_size _) _ _ ≫= _) => apply yields_create_then
  | _ => yields_step
  end.
  intros w u w' Hm E. apply bind_ok_inv in E as (u1 & w1 & E1 & E).
  apply bind_ok_inv in E as (u2 & w2 & E2 & E).
  etrans; [by eapply yields_init_instrument|].
  etrans; [|by eapply yields_ensure_nonce]. clear E.
  assert (Hm1 : moneyless (acct w1 (key a2)).(acc_data)).
  { unfold init_instrument in E1. inv_world. destruct (decide (key a1 = key a2)) as [->|].
    - by rewrite acct_set_eq.
    - by rewrite acct_set_ne. }
  unfold init_book in E2. inv_world. by apply books_set_moneyless.
Qed.

Lemma alloc_session_books mint owner k bump w u w' :
  alloc_session owner k bump w = (Ok u, w') ->
  books mint 0 w w' /\ moneyless (acct w' k).(acc_data).
Proof.
  unfold alloc_session. intros E. inv_world. case_match.
  - split; [by eapply yields_create_pda|].
    apply invoke_signed_ok_inv, create_fresh in E as (_ & _ & -> & _). done.
  - inv_world. split; [done|]. by match goal with H : _ = inj _ |- _ => rewrite H end.
Qed.
Lemma yields_create_session mint accounts args :
  yields (books mint 0) (process_create_session accounts args).
Proof.
  intros w u w' E. unfold process_create_session in E. inv_world.
  match goal with
  | Ha : alloc_session _ _ _ _ = _, Hw : write_session _ _ _ = _ |- _ =>
      apply (alloc_session_books mint) in Ha as [Ha Hm]; unfold write_session in Hw
  end.
  inv_world. etrans; [done|]. by apply books_set_moneyless.
Qed.

Lemma yields_close_account mint recipient k :
  forall w u w', moneyless (acct w k).(acc_data) ->
    close_pmlc_account recipient k w = (Ok u, w') -> books mint 0 w w'.
Proof.
  intros w u w' Hm E. unfold close_pmlc_account in E. inv_world.
  etrans; [|apply books_insert; [right; by rewrite acct_set_eq|done]].
  etrans; [|apply books_set_moneyless; [|done]].
  - etrans; [|by apply books_insert; [left|]]. by apply books_insert; [left|].
  - destruct (decide (recipient = k)) as [->|];
      [rewrite acct_insert_eq|rewrite acct_insert_ne by done]; cbn; by rewrite acct_insert_eq.
Qed.

Lemma yields_close_pmlc mint accounts : yields (books mint 0) (process_close_pmlc accounts).
Proof.
  intros w u w' E. unfold process_close_pmlc in E. inv_world.
  eapply yields_close_account; [|done].
  by match goal with H : _ = inj _ |- _ => rewrite H end.
Qed.

(* ------------------------------------------------------------------ *)
(** ** Value in and out of the vault *)

(** Successful steps as entries in the books. *)
Ltac into_books mint := repeat match goal with
  | H : invoke _ _ _ = Some _ |- _ => apply (books_invoke mint) in H
  | H : with_mut _ _ _ = (Ok _, _) |- _ =>
      first [ apply (yields_nonce mint) in H | apply (yields_pmlc mint) in H
            | apply (yields_book mint) in H | apply (yields_volume mint) in H ]
  end.

(** The purses seen before an entry are purses after it. *)
Ltac carry H :=
  repeat match type of H with books _ _ ?w _ =>
    match goal with Hp : purse _ _ w |- _ => apply (proj1 H) in Hp end
  end.
Ltac carry_all :=
  repeat match goal with
  | Hp : purse _ _ ?w, H : books _ _ ?w _ |- _ => apply (proj1 H) in Hp
  end.
(** The write [H] to the purse [Hp] that moves the buckets as [Hs] says. *)
Ltac enter mint H Hp Hs :=
  apply (books_purse mint _ _ _ _ _ _ _ _ _ Hp Hs) in H; carry H.
Ltac balance :=
  eapply books_eq; [repeat first [eassumption | eapply books_trans; [eassumption|]]|].

Lemma books_deposit mint accounts amount w u w' :
  process_deposit accounts amount w = (Ok u, w') ->
  exists ai, accounts !! 2%nat = Some ai /\
    books mint (if ai.(key) =? mint then amount else 0) w w'.
Proof.
  intros E. unfold process_deposit, require_token_program, validate_vault in E. inv_world. owned_facts.
  eexists. split; [done|]. into_books mint.
  match goal with
  | Ho : acc_owner _ = program_id, Hd : _ = inj _, Hm : ma_collateral_mint _ = _ |- _ =>
      pose proof (purse_margin _ _ _ _ Ho Hd Hm) as Hp
  end.
  match goal with H : books _ _ _ _ |- _ => apply H in Hp as Hp'; eapply books_eq;
    [eapply books_trans; [exact H|by eapply books_purse; [exact Hp'|apply shifts_credit_free|]]|] end.
  case_match; lia.
Qed.

Lemma debits_withdraw o m b n : shifts (check_margin o m b;; debit_free n) (- n) 0 0.
Proof. shifts_tac. Qed.
(** A check inside the write tells whose account it is. *)
Lemma checked_margin k o m b (f : unit -> M MarginAccount unit) w u w' :
  with_mut k (check_margin o m b ≫= f) w = (Ok u, w') ->
  (acct w k).(acc_owner) = program_id -> purse k m w.
Proof.
  intros (a & a' & Hd & E & _)%with_mut_ok_inv Ho. unfold check_margin in E. inv_world.
  by eapply purse_margin.
Qed.
Lemma checked_owner k o m (f : unit -> M MarginAccount unit) w u w' :
  with_mut k (check_owner_mint o m ≫= f) w = (Ok u, w') ->
  (acct w k).(acc_owner) = program_id -> purse k m w.
Proof.
  intros (a & a' & Hd & E & _)%with_mut_ok_inv Ho. unfold check_owner_mint in E. inv_world.
  by eapply purse_margin.
Qed.

Lemma books_withdraw mint accounts amount w u w' :
  process_withdraw accounts amount w = (Ok u, w') ->
  exists ai, accounts !! 2%nat = Some ai /\
    books mint (if ai.(key) =? mint then - amount else 0) w w'.
Proof.
  intros E. unfold process_withdraw, require_token_program, validate_vault in E. inv_world. owned_facts.
  eexists. split; [done|]. into_books mint.
  match goal with H : with_mut _ _ _ = _ |- _ =>
    pose proof (checked_margin _ _ _ _ _ _ _ _ H ltac:(done)) as Hp;
    apply (books_purse mint _ _ _ _ _ _ _ _ _ Hp (debits_withdraw _ _ _ _)) in H end.
  eapply books_eq; [by eapply books_trans|]. case_match; lia.
Qed.

Lemma books_sweep mint accounts amount w u w' :
  process_sweep_fees accounts amount w = (Ok u, w') ->
  exists ai, accounts !! 5%nat = Some ai /\
    books mint (if ai.(key) =? mint then - amount else 0) w w'.
Proof.
  intros E. unfold process_sweep_fees, require_token_program, require_admin in E. inv_world. owned_facts.
  eexists. split; [done|]. into_books mint.
  match goal with H : with_mut _ _ _ = _ |- _ => rename H into Hs end.
  assert (Ha : forall m n, accrues (check_treasury m;; sweep n) (- n)).
  { intros m n t v t' H'. unfold check_treasury, sweep in H'. inv_world. checked_facts. cbn. lia. }
  assert (Hp : purse (key x5) (key x11) w).
  { pose proof Hs as (t & t' & Hd & Et & _)%with_mut_ok_inv. unfold check_treasury in Et.
    inv_world. split; [done|]. right. by exists t. }
  apply (books_treasury mint _ _ _ _ _ _ _ Hp (Ha _ _)) in Hs.
  eapply books_eq; [by eapply books_trans|]. case_match; lia.
Qed.

(* ------------------------------------------------------------------ *)
(** ** Settlement *)

Lemma shifts_sub_pnl x : shifts (sub_pnl x) 0 0 0.
Proof. apply shifts_pnl. Qed.
Lemma shifts_add_pnl x : shifts (add_pnl x) 0 0 0.
Proof. apply shifts_pnl. Qed.
Lemma shifts_record (o : option Z) : shifts (d ← or_panic o; add_pnl d) 0 0 0.
Proof.
  intros a u a' (d & a1 & E & H)%bind_ok_inv.
  apply or_panic_ok_inv in E as [_ ->]. apply (shifts_add_pnl _ _ _ _ H).
Qed.
Hint Resolve shifts_record : shifts.
Lemma shifts_settle_equity c e : shifts (settle_equity c e) e 0 (- c).
Proof. unfold settle_equity. shifts_tac. Qed.
(** The two equities share the pot exactly. *)
Lemma equities_share c pnl el es :
  0 <= c -> 2 * c <= U64_MAX -> equities c pnl = (el, es) -> el + es = 2 * c.
Proof.
  intros Hc H2. unfold equities, bounded_equity. intros [= <- <-]. rewrite as_u_small.
  - unfold_bounds. lia.
  - unfold_bounds. lia.
Qed.

Lemma books_pay_equities mint m0 long short c el es w u w' :
  purse long m0 w -> purse short m0 w -> el + es = 2 * c ->
  pay_equities long short c el es w = (Ok u, w') -> books mint 0 w w'.
Proof.
  intros Hl Hs Hsum E. unfold pay_equities in E. inv_world.
  match goal with H1 : with_mut long _ _ = _, H2 : with_mut short _ _ = _ |- _ =>
    apply (books_purse mint _ _ _ _ _ _ _ _ _ Hl (shifts_settle_equity _ _)) in H1;
    apply (books_purse mint _ _ _ _ _ _ _ _ _ (proj1 H1 _ _ Hs) (shifts_settle_equity _ _)) in H2
  end.
  eapply books_eq; [by eapply books_trans|]. case_match; lia.
Qed.

Lemma books_payout mint m0 long short c bounty b w u w' :
  purse long m0 w -> purse short m0 w -> 0 <= bounty <= 2 * c -> 2 * c <= U64_MAX ->
  liquidation_payout long short c bounty b w = (Ok u, w') ->
  books mint (if m0 =? mint then - bounty else 0) w w'.
Proof.
  intros Hl Hs Hb Hc E. unfold liquidation_payout in E.
  replace (sat_u64 (sat_u64 (c * 2) - bounty)) with (2 * c - bounty) in E by (unfold_bounds; lia).
  assert (Hw : purse (if b then long else short) m0 w) by (by destruct b).
  assert (Hk : purse (if b then short else long) m0 w) by (by destruct b).
  inv_world.
  enter mint H2 Hl (shifts_debit_locked c). enter mint H3 Hs (shifts_debit_locked c).
  enter mint H4 Hw (shifts_credit_free (2 * c - bounty)). enter mint H5 Hk (shifts_sub_pnl (as_i 64 c)).
  enter mint E Hw (shifts_add_pnl (as_i 64 (sat_u64 (c - bounty)))).
  balance. destruct (m0 =? mint); lia.
Qed.

Lemma contract_live p u : require_live p = Ok u -> p.(pm_status) = PMLC_STATUS_LIVE.
Proof. unfold require_live. by destruct (Z.eqb_spec p.(pm_status) PMLC_STATUS_LIVE). Qed.

(** What a settlement relies on: the contract's pot fits a [u64]. *)
Definition pot_fits (p : Pmlc) : Prop :=
  0 <= p.(collateral_per_side) /\ 2 * p.(collateral_per_side) <= U64_MAX.

Lemma load_live_ok_inv k i m mint w p w' :
  load_live_pmlc k i m mint w = (Ok p, w') ->
  w' = w /\ holds k (DPmlc p) w /\ p.(pm_status) = PMLC_STATUS_LIVE.
Proof.
  unfold load_live_pmlc. intros E. inv_world.
  match goal with H : require_live _ = _ |- _ => by apply contract_live in H end.
Qed.

Lemma bps_of_at_most c bps : 0 <= c -> 2 * c <= U64_MAX -> 0 <= bps <= 20000 ->
  0 <= bps_of c bps <= 2 * c.
Proof.
  intros Hc H2 Hb. unfold bps_of, BPS_DENOM.
  assert (0 <= c * bps / 10000 <= 2 * c).
  { split; [apply Z.div_pos; nia|]. apply Z.div_le_upper_bound; nia. }
  rewrite as_u_small; [done|]. revert H2. unfold_bounds. lia.
Qed.

(** The accounts a settlement finds: live contracts whose pot fits, and instruments that pay the
    liquidator at most the pot. *)
Definition sane (w : World) : Prop :=
  (forall k p, (acct w k).(acc_owner) = program_id -> holds k (DPmlc p) w ->
     p.(pm_status) = PMLC_STATUS_LIVE -> pot_fits p) /\
  (forall k i, (acct w k).(acc_owner) = program_id -> holds k (DInstrument i) w ->
     0 <= i.(liquidation_bounty_bps) <= 20000).

(** A write to a struct of another type leaves what is read after it. *)
Lemma with_mut_back `{AccountType T} {A} k (m : M T A) w x w' k' d :
  with_mut k m w = (Ok x, w') -> holds k' d w' -> proj (T := T) d = None -> holds k' d w.
Proof.
  intros (v & v' & _ & _ & ->)%with_mut_ok_inv Hh Hp. unfold holds in *.
  destruct (decide (k = k')) as [<-|Hne]; [|by rewrite acct_set_ne in Hh].
  rewrite acct_set_eq in Hh. cbn in Hh. subst d. by rewrite proj_inj in Hp.
Qed.

(** What the three settlements share: a nonce is consumed, the contract and the two margin
    accounts are read, and then the contract is settled between them. *)
Section settlement.
Context (mint m0 : Pubkey) (w w1 : World) (nonce_key pmlc long short instr : Pubkey) (p : Pmlc)
  (a b : MarginAccount) (market : Z) (u u' : unit) (mn : M MarketNonceAccount unit).
Hypothesis Hsane : sane w.
Hypothesis Hnonce : with_mut nonce_key mn w = (Ok u, w1).
Hypothesis Hload : load_live_pmlc pmlc instr market m0 w1 = (Ok p, w1).
Hypothesis Hpmlc : (acct w pmlc).(acc_owner) = program_id.
Hypothesis Hlong : (acct w long).(acc_owner) = program_id.
Hypothesis Hshort : (acct w short).(acc_owner) = program_id.
Hypothesis Ha : (acct w1 long).(acc_data) = DMargin a.
Hypothesis Hb : (acct w1 short).(acc_data) = DMargin b.
Hypothesis Hma : a.(ma_collateral_mint) = m0.
Hypothesis Hmb : b.(ma_collateral_mint) = m0.

Lemma settled_pot : pot_fits p.
Proof.
  apply load_live_ok_inv in Hload as (_ & Hp & Hl). destruct Hsane as [Hs _].
  eapply Hs; [exact Hpmlc| |exact Hl]. by apply (with_mut_back (T := MarketNonceAccount) _ _ _ _ _ _ _ Hnonce Hp).
Qed.
Lemma settled_purses : purse long m0 w1 /\ purse short m0 w1.
Proof.
  split; eapply purse_margin; try done; by rewrite (with_mut_owner _ _ _ _ _ _ Hnonce).
Qed.

Lemma books_equal_settlement pnl el es mp w2 w3 :
  equities p.(collateral_per_side) pnl = (el, es) ->
  pay_equities long short p.(collateral_per_side) el es w1 = (Ok u, w2) ->
  with_mut (T := Pmlc) pmlc mp w2 = (Ok u', w3) -> books mint 0 w w3.
Proof.
  intros He Hpay Hf. destruct settled_pot as [Hc H2], settled_purses as [Hl Hs].
  etrans; [by eapply yields_nonce|]. etrans; [|by eapply yields_pmlc].
  eapply books_pay_equities; [exact Hl|exact Hs| |exact Hpay]. by eapply equities_share.
Qed.

Lemma books_liquidation keeper bps long_wins mp u2 w2 w3 w4 :
  purse keeper m0 w -> 0 <= bps <= 20000 ->
  liquidation_payout long short p.(collateral_per_side) (bps_of p.(collateral_per_side) bps)
    long_wins w1 = (Ok u, w2) ->
  with_mut (T := Pmlc) pmlc mp w2 = (Ok u', w3) ->
  when (0 <? bps_of p.(collateral_per_side) bps)
    (with_mut keeper (credit_free (bps_of p.(collateral_per_side) bps))) w3 = (Ok u2, w4) ->
  books mint 0 w w4.
Proof.
  intros Hk Hbps Hpay Hf Hw. destruct settled_pot as [Hc H2], settled_purses as [Hl Hs].
  pose proof (bps_of_at_most _ _ Hc H2 Hbps) as Hb'.
  pose proof (yields_nonce mint _ _ _ _ _ Hnonce) as B1. carry B1.
  apply (books_payout mint m0) in Hpay as B2; try done. carry B2.
  apply (yields_pmlc mint) in Hf as B3. carry B3.
  destruct (Z.ltb_spec 0 (bps_of p.(collateral_per_side) bps)) as [Hpos|Hzero].
  - enter mint Hw Hk (shifts_credit_free (bps_of p.(collateral_per_side) bps)).
    balance. destruct (m0 =? mint); lia.
  - injection Hw as _ <-. balance. destruct (m0 =? mint); lia.
Qed.
End settlement.

Ltac settled :=
  match goal with
  | Hl : load_live_pmlc _ _ _ _ _ = _, Hp : pay_equities ?long ?short _ _ _ _ = _ |- _ =>
      pose proof (proj1 (load_live_ok_inv _ _ _ _ _ _ _ Hl)); subst;
      eapply (books_equal_settlement _ _ _ _ _ _ long short); [..|exact Hp|]
  end.

Lemma books_resolve mint accounts args w u w' :
  sane w -> process_resolve accounts args w = (Ok u, w') -> books mint 0 w w'.
Proof.
  intros Hs E. unfold process_resolve, load_attestation_signer, verified_attestation in E.
  inv_world. owned_facts.
  by settled.
Qed.
Lemma books_close_mutual mint accounts args w u w' :
  sane w -> process_close_mutual accounts args w = (Ok u, w') -> books mint 0 w w'.
Proof.
  intros Hs E. unfold process_close_mutual, load_attestation_signer, verified_attestation in E.
  inv_world. owned_facts.
  by settled.
Qed.

Lemma books_liquidate mint accounts args w u w' :
  sane w -> process_liquidate accounts args w = (Ok u, w') -> books mint 0 w w'.
Proof.
  intros Hs E. unfold process_liquidate, load_attestation_signer, verified_attestation, check_breach in E.
  inv_world. owned_facts.
  match goal with
  | Hl : load_live_pmlc _ _ _ _ _ = _, Hp : liquidation_payout ?long ?short _ _ _ _ = _,
    Hi : acc_data (acct w _) = inj (T := InstrumentConfig) _,
    Hk : acc_data (acct w ?k) = DMargin _ |- _ =>
      pose proof (proj1 (load_live_ok_inv _ _ _ _ _ _ _ Hl)); subst;
      eapply (books_liquidation _ _ _ _ _ _ long short); [..|exact Hp| |]
  end; try done.
  - by eapply purse_margin.
  - match goal with Hi : acc_data (acct w ?k) = inj (T := InstrumentConfig) ?i |- _ =>
      by apply (proj2 Hs k i) end.
Qed.

(* ------------------------------------------------------------------ *)
(** ** Substitution *)

(** What the premium adds to the substitutor, and takes from the counterparty. *)
Definition premium (delta : Z) : Z :=
  if 0 <? delta then as_u 64 delta else if delta <? 0 then - as_u 64 (- delta) else 0.

Lemma shifts_premium_gain delta :
  shifts (if 0 <? delta then
            credit_free (as_u 64 delta);;
            modify (fun m => set_realized_pnl (sat_i64 (m.(realized_pnl) + as_i 64 delta)) m)
          else if delta <? 0 then
            debit_free (as_u 64 (- delta));;
            modify (fun m =>
              set_realized_pnl (sat_i64 (m.(realized_pnl) - as_i 64 (as_u 64 (- delta)))) m)
          else mret tt) (premium delta) 0 0.
Proof.
  unfold premium. destruct (0 <? delta); [shifts_tac|]. destruct (delta <? 0); shifts_tac.
Qed.
Lemma shifts_premium_cost delta :
  shifts (if 0 <? delta then debit_free (as_u 64 delta)
          else if delta <? 0 then credit_free (as_u 64 (- delta))
          else mret tt) (- premium delta) 0 0.
Proof.
  unfold premium. destruct (0 <? delta); [shifts_tac|]. destruct (delta <? 0); shifts_tac.
Qed.
Hint Resolve shifts_premium_gain shifts_premium_cost : shifts.

Lemma shifts_substitutor s m ctx delta :
  exists df dr dl, shifts (substitutor_side s m ctx delta) df dr dl /\ df + dr + dl = premium delta.
Proof.
  do 3 eexists. split.
  - unfold substitutor_side. eauto 10 with shifts.
  - destruct (0 <? _); lia.
Qed.
Lemma shifts_counterparty m ctx delta :
  exists df dr dl, shifts (counterparty_side m ctx delta) df dr dl /\ df + dr + dl = - premium delta.
Proof.
  do 3 eexists. split.
  - unfold counterparty_side. eauto 10 with shifts.
  - destruct (0 <? _); lia.
Qed.

Lemma books_sides mint k1 k2 s m0 ctx delta w w1 w2 u1 u2 :
  (acct w k1).(acc_owner) = program_id -> (acct w k2).(acc_owner) = program_id ->
  with_mut k1 (substitutor_side s m0 ctx delta) w = (Ok u1, w1) ->
  with_mut k2 (counterparty_side m0 ctx delta) w1 = (Ok u2, w2) -> books mint 0 w w2.
Proof.
  intros Ho1 Ho2 E1 E2. rewrite <- (with_mut_owner _ _ _ _ _ k2 E1) in Ho2.
  pose proof (checked_owner _ _ _ _ _ _ _ E1 Ho1) as H1.
  pose proof (checked_owner _ _ _ _ _ _ _ E2 Ho2) as H2.
  destruct (shifts_substitutor s m0 ctx delta) as (df & dr & dl & Hs & Hsum).
  destruct (shifts_counterparty m0 ctx delta) as (df' & dr' & dl' & Hc & Hsum').
  enter mint E1 H1 Hs. enter mint E2 H2 Hc. balance. destruct (m0 =? mint); lia.
Qed.
Lemma books_substitute mint accounts args b w u w' :
  do_substitute accounts args b w = (Ok u, w') -> books mint 0 w w'.
Proof.
  intros E. unfold do_substitute, settle_substitution in E. inv_world. owned_facts.
  match goal with
  | Hb : with_mut (T := Book) _ _ w = _, H1 : with_mut _ (substitutor_side _ _ _ _) _ = _,
    H2 : with_mut _ (counterparty_side _ _ _) _ = _, Hf : with_mut (T := Pmlc) _ _ _ = _ |- _ =>
      etrans; [eapply yields_book; exact Hb|]; etrans; [|eapply yields_pmlc; exact Hf];
      eapply books_sides; [..|exact H1|exact H2]; by rewrite (with_mut_owner _ _ _ _ _ _ Hb)
  end.
Qed.

(* ------------------------------------------------------------------ *)
(** ** Matching *)

Lemma init_account_ok_inv `{AccountType T} k (v : T) w u w' :
  init_account k v w = (Ok u, w') -> w' = set_data k (inj v) w.
Proof. unfold init_account. intros E. by inv_world. Qed.

Lemma books_ensure_treasury mint payer k m0 w u w' :
  ensure_fee_treasury payer k m0 w = (Ok u, w') -> books mint 0 w w' /\ purse k m0 w'.
Proof.
  intros E. unfold ensure_fee_treasury in E. inv_world. case_match; inv_world.
  - split; [done|]. split; [done|]. right. by eexists.
  - match goal with
    | Hc : create_pda _ _ _ _ _ _ = (Ok _, ?w1), Hi : init_account _ _ ?w1 = _ |- _ =>
        rename Hc into Ec, Hi into Ei
    end.
    split.
    + etrans; [by eapply yields_create_pda|]. eapply (yields_init (T := FeeTreasury)); [|exact Ei].
      cbn. by case_match.
    + apply invoke_signed_ok_inv, create_fresh in Ec as (_ & _ & _ & Ho).
      apply init_account_ok_inv in Ei as ->. split; [by rewrite owner_set|].
      right. eexists. split; [by unfold holds; rewrite acct_set_eq|done].
Qed.
Lemma yields_ensure_volume mint payer k owner m0 now :
  yields (books mint 0) (ensure_user_volume payer k owner m0 now).
Proof. unfold ensure_user_volume. yields_tac. Qed.

(** The fee the taker owes is what the treasury books. *)
Lemma books_charge mint ctx fc r m0 c w fee w' :
  charge_taker ctx fc r m0 c w = (Ok fee, w') ->
  0 <= fee /\ books mint (if m0 =? mint then fee else 0) w w'.
Proof.
  intros E. unfold charge_taker in E. inv_world.
  match goal with He : ensure_fee_treasury _ _ _ _ = _ |- _ =>
    apply (books_ensure_treasury mint) in He as [B1 Hp] end.
  repeat match goal with He : ensure_user_volume _ _ _ _ _ _ = _ |- _ =>
    apply (yields_ensure_volume mint) in He end.
  repeat match goal with He : with_mut (T := UserVolume) _ _ _ = _ |- _ =>
    apply (yields_volume mint) in He end.
  carry_all. set (fee := as_u 64 _) in *.
  assert (Hfee : 0 <= fee) by (apply Z.mod_pos_bound; lia). split; [done|].
  match goal with He : when _ _ _ = _ |- _ => rename He into Hf end.
  destruct (Z.ltb_spec 0 fee) as [Hpos|Hzero].
  - apply (books_treasury mint _ _ _ _ _ _ _ Hp (accrues_accrue fee)) in Hf.
    balance. destruct (m0 =? mint); lia.
  - injection Hf as <-. balance. destruct (m0 =? mint); lia.
Qed.

Lemma shifts_settle_margin c buf fee b :
  exists df dr dl, shifts (settle_margin c buf fee b) df dr dl /\
    df + dr + dl = - (if b && (0 <? fee) then fee else 0).
Proof.
  do 3 eexists. split.
  - unfold settle_margin. eauto 10 with shifts.
  - destruct (0 <? buf), (b && (0 <? fee)); lia.
Qed.

Lemma books_open mint ctx r inst id bump fee w u w' :
  purse ctx.(long_margin_ai).(key) inst.(ic_collateral_mint) w ->
  purse ctx.(short_margin_ai).(key) inst.(ic_collateral_mint) w -> 0 <= fee ->
  open_position ctx r inst id bump fee w = (Ok u, w') ->
  books mint (if inst.(ic_collateral_mint) =? mint then - fee else 0) w w'.
Proof.
  intros Hl Hs Hfee E. unfold open_position in E. inv_world.
  match goal with
  | H1 : with_mut (key (long_margin_ai ctx)) (settle_margin ?c ?b ?f ?t) _ = _,
    H2 : with_mut (key (short_margin_ai ctx)) (settle_margin _ ?b' _ ?t') _ = _,
    Hc : create_pda _ _ _ _ _ ?w2 = (Ok _, ?w3), Ho : overwrite _ _ ?w3 = _ |- _ =>
      destruct (shifts_settle_margin c b f t) as (df & dr & dl & S1 & Hsum);
      destruct (shifts_settle_margin c b' f t') as (df' & dr' & dl' & S2 & Hsum');
      enter mint H1 Hl S1; enter mint H2 Hs S2;
      apply overwrite_ok_inv in Ho as ->;
      apply (yields_create_pda mint) in Hc as B3;
      apply invoke_signed_ok_inv, create_fresh in Hc as (_ & _ & Hd & _)
  end.
  match goal with B : books mint 0 _ ?w3 |- books _ _ _ (set_data ?k ?d ?w3) =>
    pose proof (books_set_moneyless mint k d w3 ltac:(by rewrite Hd) I) as B4 end.
  balance. destruct (_ =? mint), (taker_is_long r); cbn in *; destruct (Z.ltb_spec 0 fee); lia.
Qed.

Lemma books_match_core mint ctx long short n w u w' :
  (acct w ctx.(long_margin_ai).(key)).(acc_owner) = program_id ->
  (acct w ctx.(short_margin_ai).(key)).(acc_owner) = program_id ->
  match_pair_core ctx long short n w = (Ok u, w') -> books mint 0 w w'.
Proof.
  intros Ho1 Ho2 E. unfold match_pair_core, settle_match in E. inv_world.
  match goal with Hb : with_mut (T := Book) _ _ w = _ |- _ =>
    rewrite <- (with_mut_owner _ _ _ _ _ (key (long_margin_ai ctx)) Hb) in Ho1;
    rewrite <- (with_mut_owner _ _ _ _ _ (key (short_margin_ai ctx)) Hb) in Ho2;
    apply (yields_book mint) in Hb as B1 end.
  match goal with
  | H1 : acc_data (acct _ (key (long_margin_ai ctx))) = DMargin _, M1 : ma_collateral_mint _ = _,
    H2 : acc_data (acct _ (key (short_margin_ai ctx))) = DMargin _, M2 : ma_collateral_mint _ = _ |- _ =>
      pose proof (purse_margin _ _ _ _ Ho1 H1 M1) as Hp1;
      pose proof (purse_margin _ _ _ _ Ho2 H2 M2) as Hp2
  end.
  match goal with Hc : charge_taker _ _ _ _ _ _ = _ |- _ =>
    apply (books_charge mint) in Hc as [Hfee B2]; carry B2 end.
  apply (books_open mint) in E; [|done..]. balance. destruct (_ =? mint); lia.
Qed.
Lemma unpack_margins accounts w ctx w' :
  unpack_accounts accounts w = (Ok ctx, w') -> w' = w /\
  (acct w ctx.(long_margin_ai).(key)).(acc_owner) = program_id /\
  (acct w ctx.(short_margin_ai).(key)).(acc_owner) = program_id.
Proof.
  intros E. unfold unpack_accounts in E. inv_world. owned_facts. done.
Qed.
Lemma books_match_pair mint accounts args w u w' :
  process_match_pair accounts args w = (Ok u, w') -> books mint 0 w w'.
Proof.
  intros E. unfold process_match_pair in E. apply bind_ok_inv in E as (ctx & w1 & Hu & E).
  apply unpack_margins in Hu as (-> & Hl & Hs). by eapply books_match_core.
Qed.
Lemma books_match_best mint accounts w u w' :
  process_match_best_available accounts w = (Ok u, w') -> books mint 0 w w'.
Proof.
  intros E. unfold process_match_best_available in E. apply bind_ok_inv in E as (ctx & w1 & Hu & E).
  apply unpack_margins in Hu as (-> & Hl & Hs). inv_world.
  match goal with Hb : with_mut _ _ w = _ |- _ =>
    rewrite <- (with_mut_owner _ _ _ _ _ (key (long_margin_ai ctx)) Hb) in Hl;
    rewrite <- (with_mut_owner _ _ _ _ _ (key (short_margin_ai ctx)) Hb) in Hs;
    etrans; [eapply yields_book; exact Hb|by eapply books_match_core] end.
Qed.

(* ------------------------------------------------------------------ *)
(** ** Every instruction *)

Context {B : Borsh}.

(** What an instruction adds to the liabilities in a mint: the amount of a deposit, minus
    the amount of a withdrawal or a sweep, of that mint. *)
Definition flow (mint : Pubkey) (accounts : list AccountInfo) (data : list Z) : Z :=
  let amount (i : nat) (payload : list Z) :=
    match accounts !! i, de_u64 payload with
    | Some ai, Some n => if ai.(key) =? mint then n else 0
    | _, _ => 0
    end in
  match data with
  | [] => 0
  | b :: payload =>
      match tag_try_from b with
      | Ok TDeposit => amount 2%nat payload
      | Ok TWithdraw => - amount 2%nat payload
      | Ok TSweepFees => - amount 5%nat payload
      | _ => 0
      end
  end.

(** A post that asks for an inline match. *)
Definition inline_match (data : list Z) : bool :=
  match data with
  | [] => false
  | b :: payload =>
      match tag_try_from b, de_post_intent payload with
      | Ok TPostIntent, Some args | Ok TPostIntentDelegated, Some args =>
          negb (args.(pa_try_match) =? 0)
      | _, _ => false
      end
  end.

Lemma decode_ok_inv {A} (de : list Z -> option A) payload w a w' :
  decode de payload w = (Ok a, w') -> de payload = Some a /\ w' = w.
Proof. apply ok_or_ok_inv. Qed.

Hint Resolve yields_cancel yields_cancel_delegated yields_claim yields_prune yields_novate
  yields_init_config yields_set_pause yields_init_multisig yields_rotate yields_propose
  yields_execute yields_cancel_timelock yields_init_buckets yields_set_buckets yields_init_stables
  yields_add_mint yields_remove_mint yields_init_schedule yields_set_schedule yields_revoke
  yields_status yields_expand yields_create_margin yields_wrap yields_unwrap
  yields_create_instrument yields_create_session yields_close_pmlc : yields.
Lemma instruction_books mint t accounts payload w w' :
  sane w -> inline_match (tag_byte t :: payload) = false ->
  run_instruction t accounts payload w = (Ok tt, w') ->
  books mint (flow mint accounts (tag_byte t :: payload)) w w'.
Proof.
  intros Hs Hi E. unfold flow, inline_match in *. rewrite tag_try_from_byte in *.
  destruct t; cbn [run_instruction] in E;
    repeat match goal with
    | H : decode _ _ _ = (Ok _, _) |- _ => apply decode_ok_inv in H as [? ->]
    | H : (_ ≫= _) _ = (Ok _, _) |- _ => apply bind_ok_inv in H as (? & ? & ? & ?)
    | H : (let '(_, _) := ?p in _) _ = _ |- _ => destruct p
    end;
    lazymatch goal with
    | H : process_match_pair _ _ _ = _ |- _ => by eapply books_match_pair
    | H : process_match_best_available _ _ = _ |- _ => by eapply books_match_best
    | H : process_resolve _ _ _ = _ |- _ => by eapply books_resolve
    | H : process_close_mutual _ _ _ = _ |- _ => by eapply books_close_mutual
    | H : process_liquidate _ _ _ = _ |- _ => by eapply books_liquidate
    | H : process_match_substitute _ _ _ = _ |- _ => by eapply books_substitute
    | H : process_match_substitute_with_settle _ _ _ = _ |- _ => by eapply books_substitute
    | H : process_deposit _ _ _ = _, Hd : de_u64 _ = _ |- _ =>
        apply (books_deposit mint) in H as (? & -> & H); by rewrite Hd
    | H : process_withdraw _ _ _ = _, Hd : de_u64 _ = _ |- _ =>
        apply (books_withdraw mint) in H as (? & -> & H); rewrite Hd; by case_match
    | H : process_sweep_fees _ _ _ = _, Hd : de_u64 _ = _ |- _ =>
        apply (books_sweep mint) in H as (? & -> & H); rewrite Hd; by case_match
    | H : process_post_intent _ _ _ = _, Hd : de_post_intent _ = _ |- _ =>
        rewrite Hd in Hi; apply negb_false_iff, Z.eqb_eq in Hi; by eapply yields_post
    | H : process_post_intent_delegated _ _ _ = _, Hd : de_post_intent _ = _ |- _ =>
        rewrite Hd in Hi; apply negb_false_iff, Z.eqb_eq in Hi; by eapply yields_post_delegated
    | H : (match ?p with _ => _ end) _ = _ |- _ =>
        destruct p as [|? [|? ?]]; try done; by eapply yields_set_pause
    | H : ?m ?w = (Ok _, w') |- _ =>
        assert (Hy : yields (books mint 0) m) by eauto with nocore yields; exact (Hy _ _ _ H)
    end.
Qed.
End conservation.

(** C2: the program creates and destroys no value. In a sane world (every live contract's pot fits
    a [u64], every liquidation bounty is at most the pot), whatever instruction is sent, what
    the program owes in a mint (the free, reserved and locked balances of its margin accounts
    and the fees accrued in its treasury) changes by exactly the amount of a deposit of that
    mint, minus the amount of a withdrawal or a sweep of it, and by nothing otherwise:
    matches, fees, settlements, liquidations with their bounty, substitutions with their
    premium, novations and prunings only move value between the accounts. The one
    exception is a post with an inline match. *)
Theorem value_is_conserved `{R : Runtime} `{L : RuntimeLaws} `{B : Borsh} mint accounts data w w' :
  sane w -> inline_match data = false -> process accounts data w = (Ok tt, w') ->
  liabilities mint w' = liabilities mint w + flow mint accounts data.
Proof.
  intros Hs Hi E. unfold process in E. destruct data as [|b payload]; [done|].
  apply bind_ok_inv in E as (t & w0 & Ht & E). apply lift_ok_inv in Ht as [Ht ->].
  apply tag_try_from_ok in Ht as ->. by eapply instruction_books.
Qed.

(* ------------------------------------------------------------------ *)
(** ** On the demo world *)

Lemma demo_sane : sane (R := demo 100 1700100000 []) demo_world.
Proof.
  assert (H : forall k, match (acct demo_world k).(acc_data) with
    | DPmlc p => pot_fits p
    | DInstrument i => 0 <= i.(liquidation_bounty_bps) <= 20000
    | _ => True
    end).
  { apply (world_forall (fun _ a => match a.(acc_data) with
      | DPmlc p => pot_fits p
      | DInstrument i => 0 <= i.(liquidation_bounty_bps) <= 20000
      | _ => True end)); [done|].
    repeat (apply Forall_cons; split); try done. }
  split; intros k v _ Hv; [intros _|]; specialize (H k); unfold holds in Hv; by rewrite Hv in H.
Qed.

Definition demo_withdraw : list AccountInfo :=
  [signer ALICE; writable (MARGIN ALICE); readonly USD; writable ALICE_ATA; writable VAULT;
   readonly VAULT_AUTHORITY; readonly SPL_TOKEN_ID].

Lemma value_is_conserved_witness :
  let data := tag_byte TWithdraw :: le_bytes 8 700000 in
  let w' := demo_tx 1700100000 [] demo_withdraw TWithdraw (le_bytes 8 700000) demo_world in
  liabilities (R := demo 100 1700100000 []) USD w' =
  liabilities (R := demo 100 1700100000 []) USD demo_world - 700000.
Proof.
  intros data w'.
  rewrite (value_is_conserved (R := demo 100 1700100000 []) (L := demo_laws 100 1700100000 [])
    (B := demo_borsh) USD demo_withdraw data demo_world w').
  - reflexivity.
  - exact demo_sane.
  - reflexivity.
  - vm_compute. reflexivity.
Defined.

(* ------------------------------------------------------------------ *)
(** ** Where it fails *)

Definition demo_owed (w : World) : Z := liabilities (R := demo 100 1700100000 []) USD w.

(** An instrument that pays the liquidator three times one side's collateral. *)
Definition generous (i : InstrumentConfig) : InstrumentConfig :=
  {| ic_status := i.(ic_status); ic_bump := i.(ic_bump); ic_source := i.(ic_source);
     ic_market_id := i.(ic_market_id); source_token_id_a := i.(source_token_id_a);
     source_token_id_b := i.(source_token_id_b); ic_collateral_mint := i.(ic_collateral_mint);
     intent_book := i.(intent_book); leverage_bps := i.(leverage_bps);
     collateral_bucket := i.(collateral_bucket); twap_window_slots := i.(twap_window_slots);
     tick_fp := i.(tick_fp); liquidation_bps := i.(liquidation_bps);
     liquidation_bounty_bps := 30000; max_staleness_secs := i.(max_staleness_secs);
     reference_usd := i.(reference_usd) |}.

(** The bound on the bounty is needed. Creating an instrument accepts any bounty, and a
    liquidation with a bounty above the pot credits the liquidator what no one paid: the
    program owes one side's collateral more than before. *)
Theorem excess_bounty_mints_value :
  let w := set_data INSTRUMENT (DInstrument (generous demo_instrument)) demo_world in
  validate_instrument (generous demo_instrument) = Ok tt /\
  demo_owed (demo_liquidate demo_world) = demo_owed demo_world /\
  demo_owed (demo_liquidate w) = demo_owed w + 1000000.
Proof. vm_compute. split_and!; reflexivity. Qed.

(** A failed inline match is not undone. When the poster cannot pay the taker's fee the
    match fails after the fee is booked and the collateral locked; the error is swallowed,
    the post succeeds, and the fee is owed to the treasury though no one paid it, while the
    poster's collateral stays locked, no contract exists and the matched ask is gone from
    the book. *)
Theorem swallowed_match_leaks :
  let w := set_data (MARGIN CAROL) (DMargin (demo_margin CAROL 1000000 0 0)) demo_world in
  let w' := carol_bids w in
  demo_owed (carol_bids demo_world) = demo_owed demo_world /\
  demo_owed w' = demo_owed w + 3000 /\
  holds (MARGIN CAROL) (DMargin (demo_margin CAROL 0 0 1000000)) w' /\
  acct w' (PMLC 4) = no_account /\
  (exists b, holds BOOK (DBook b) w' /\ b.(header).(short_tree_root) = NULL_IDX).
Proof.
  intros w w'. split_and!; [vm_compute; reflexivity..|].
  eexists. split; [vm_compute; reflexivity|reflexivity].
Qed.
