(* ===== verification/Balances.v ===== *)
(** * What a handler does to each margin account

    [moved l w w']: between [w] and [w'] the margin accounts of the program moved by
    exactly the entries of the list [l] (account, change of the free, reserved and locked
    balance), and every margin account [l] does not name kept its three balances. *)
From S2P Require Import Prelude IntentBook Ledger Governance World Footprint MatchIx Intent Settlement Lifecycle.

Record Shift := shift { d_free : Z; d_reserved : Z; d_locked : Z }.
Definition add_shift (a b : Shift) : Shift :=
  shift (a.(d_free) + b.(d_free)) (a.(d_reserved) + b.(d_reserved)) (a.(d_locked) + b.(d_locked)).

(** The sum of the entries of one account. *)
Definition at_account (k : Pubkey) (l : list (Pubkey * Shift)) : Shift :=
  foldr (fun e acc => if e.1 =? k then add_shift e.2 acc else acc) (shift 0 0 0) l.

Lemma add_shift_assoc a b c : add_shift (add_shift a b) c = add_shift a (add_shift b c).
Proof. unfold add_shift. cbn. f_equal; lia. Qed.
Lemma add_shift_0 a : add_shift (shift 0 0 0) a = a.
Proof. destruct a. reflexivity. Qed.
Lemma at_account_cons k e l :
  at_account k (e :: l) = if e.1 =? k then add_shift e.2 (at_account k l) else at_account k l.
Proof. done. Qed.
Lemma at_account_app k l1 l2 : at_account k (l1 ++ l2) = add_shift (at_account k l1) (at_account k l2).
Proof.
  induction l1 as [|e l1 IH]; [symmetry; apply add_shift_0|].
  rewrite <- app_comm_cons, !at_account_cons, IH. case_match; [by rewrite add_shift_assoc|done].
Qed.

(** The margin account [k] moved by [s]. *)
Definition margin_moved (m m' : MarginAccount) (s : Shift) : Prop :=
  m'.(ma_owner) = m.(ma_owner) /\ m'.(ma_collateral_mint) = m.(ma_collateral_mint) /\
  m'.(ma_bump) = m.(ma_bump) /\
  m'.(free_collateral) = m.(free_collateral) + s.(d_free) /\
  m'.(reserved_collateral) = m.(reserved_collateral) + s.(d_reserved) /\
  m'.(locked_collateral) = m.(locked_collateral) + s.(d_locked).

Section moved.
Context {R : Runtime}.

Definition margin_at (k : Pubkey) (m : MarginAccount) (w : World) : Prop :=
  holds k (DMargin m) w /\ (acct w k).(acc_owner) = program_id.

Definition moved (l : list (Pubkey * Shift)) (w w' : World) : Prop :=
  forall k m, margin_at k m w -> exists m', margin_at k m' w' /\ margin_moved m m' (at_account k l).

Lemma moved_refl w : moved [] w w.
Proof. intros k m Hm. exists m. split; [done|]. split_and!; cbn; try done; lia. Qed.
Lemma moved_trans l1 l2 w1 w2 w3 : moved l1 w1 w2 -> moved l2 w2 w3 -> moved (l1 ++ l2) w1 w3.
Proof.
  intros H1 H2 k m Hm. destruct (H1 k m Hm) as (m1 & Hm1 & E1 & E2 & E3 & E4 & E5 & E6).
  destruct (H2 k m1 Hm1) as (m2 & Hm2 & F1 & F2 & F3 & F4 & F5 & F6).
  exists m2. split; [done|]. rewrite at_account_app. unfold add_shift.
  split_and!; cbn; try congruence; lia.
Qed.
Lemma moved_eq l l' w w' : moved l w w' -> (forall k, at_account k l = at_account k l') -> moved l' w w'.
Proof. intros H E k m Hm. rewrite <- E. by apply H. Qed.

#[export] Instance moved_preorder : PreOrder (moved []).
Proof. split; [exact moved_refl|]. intros w1 w2 w3. exact (moved_trans [] [] w1 w2 w3). Qed.

(** A bucket operation moves its own account. *)
Lemma moved_mut k op df dr dl w u w' :
  shifts op df dr dl -> with_mut k op w = (Ok u, w') -> moved [(k, shift df dr dl)] w w'.
Proof.
  intros Hs (m & m' & Hd & E & ->)%with_mut_ok_inv k' m0 [Hm Ho].
  apply Hs in E as (_ & E1 & E2 & E3 & E4 & E5 & E6). unfold margin_at, holds, at_account in *. cbn.
  rewrite owner_set. destruct (Z.eqb_spec k k') as [<-|Hne].
  - rewrite Hd in Hm. injection Hm as ->. exists m'. rewrite acct_set_eq. split; [done|].
    split_and!; cbn; try done; lia.
  - exists m0. rewrite acct_set_ne by done. split; [done|]. split_and!; cbn; try done; lia.
Qed.

(** Writes to anything else move nothing. *)
Lemma moved_set_other k d w : (forall m, (acct w k).(acc_data) <> DMargin m) -> moved [] w (set_data k d w).
Proof.
  intros Hn k' m [Hm Ho]. exists m. unfold margin_at, holds in *. rewrite owner_set.
  assert (k <> k') by (intros ->; by apply (Hn m)). rewrite acct_set_ne by done.
  split; [done|]. split_and!; cbn; try done; lia.
Qed.
Lemma moved_mut_other `{AccountType T} {A} k (m : M T A) :
  (forall (v : T) a, inj v <> DMargin a) -> respects (moved []) (with_mut k m).
Proof.
  intros Hn. apply respects_with_mut; [exact _|]. intros w v r v' Hd _. apply moved_set_other.
  rewrite Hd. apply Hn.
Qed.
Lemma moved_init `{AccountType T} k (v : T) : respects (moved []) (init_account k v).
Proof. apply respects_init_account; [exact _|]. intros w bs Hd. apply moved_set_other. by rewrite Hd. Qed.

Context {L : RuntimeLaws}.

Lemma moved_frame w w' :
  (forall k, (acct w k).(acc_owner) = program_id -> data_len (acct w k).(acc_data) <> 0 ->
     (acct w' k).(acc_owner) = program_id /\ (acct w' k).(acc_data) = (acct w k).(acc_data)) ->
  moved [] w w'.
Proof.
  intros H k m [Hm Ho]. unfold holds in Hm. destruct (H k Ho) as [Ho' Hd]; [by rewrite Hm|].
  exists m. split; [split; [by unfold holds; rewrite Hd|done]|]. split_and!; cbn; try done; lia.
Qed.
Lemma moved_invoke c seeds : respects (moved []) (invoke_signed c seeds).
Proof.
  apply respects_invoke; [exact _|]. intros w w' E. apply moved_frame. intros k Ho Hl.
  destruct c as [from to lam space owner|from to lam|s d a n|mi ac au n|ac mi au n|mi au fr de];
    [| |pose proof (fun H => token_frame _ _ _ _ k H E) as Ht; destruct (Ht I) as (-> & Hd & _)..].
  - destruct (decide (k = to)) as [->|Hk].
    + apply create_fresh in E as (_ & Hz & _). done.
    + destruct (create_frame _ _ _ _ _ _ _ _ k E Hk) as [-> ->]. done.
  - destruct (transfer_frame _ _ _ _ _ _ k E) as [-> ->]. done.
  - split; [done|]. apply Hd. rewrite Ho. apply program_not_token.
  - split; [done|]. apply Hd. rewrite Ho. apply program_not_token.
  - split; [done|]. apply Hd. rewrite Ho. apply program_not_token.
  - split; [done|]. apply Hd. rewrite Ho. apply program_not_token.
Qed.
Lemma moved_invoked c seeds w w' : invoke c seeds w = Some w' -> moved [] w w'.
Proof. intros E. eapply (moved_invoke c seeds w (Ok tt)). unfold invoke_signed. by rewrite E. Qed.
End moved.

(* ------------------------------------------------------------------ *)
(** ** Reading the changes off a run

    [follow] walks the writes of a successful run, in order, and collects what they move. *)

Ltac other_write := let H := fresh in intros ? ? H; discriminate H.

Ltac follow_step :=
  lazymatch goal with
  | |- moved _ ?w ?w => apply moved_refl
  | H : moved _ ?w ?w1 |- moved _ ?w _ => eapply moved_trans; [exact H|clear H]
  | H : with_mut (T := MarginAccount) _ _ ?w = (Ok _, _) |- moved _ ?w _ =>
      eapply moved_trans; [eapply moved_mut; [|exact H]; solve [eauto with shifts]|clear H]
  | H : with_mut _ _ ?w = (Ok _, _) |- moved _ ?w _ =>
      eapply (moved_trans []); [refine (moved_mut_other _ _ _ _ _ _ H); other_write|clear H]
  | H : invoke _ _ ?w = Some _ |- moved _ ?w _ =>
      eapply (moved_trans []); [eapply moved_invoked; exact H|clear H]
  | H : init_account _ _ ?w = (Ok _, _) |- moved _ ?w _ =>
      eapply (moved_trans []); [eapply moved_init; exact H|clear H]
  end.
Ltac follow := repeat follow_step.

(** The same balances, whatever the order of the entries. *)
Ltac same_shifts :=
  intros ?; unfold at_account; cbn [foldr fst snd app];
  repeat match goal with |- context [?a =? ?b] => destruct (Z.eqb_spec a b) end; subst;
  unfold add_shift; cbn [d_free d_reserved d_locked]; try (f_equal; lia).

(** What a successful run of a handler read and checked, from an explicit list of accounts. *)
Ltac handler_run :=
  inv_world; owned_facts;
  repeat match goal with
  | H : (_ :: _) !! _ = Some _ |- _ => cbn [lookup list_lookup] in H; injection H as <-
  end.
