(* ===== verification/Effects.v ===== *)
(** * What each money-moving instruction pays, and to whom

    For a successful run of each settlement, the exact change of every margin account's free,
    reserved and locked balance ([moved]), and what became of the contract. *)
From S2P Require Import Prelude Fixed IntentBook Ledger Governance Attestation World Footprint Solvency MatchIx Intent Settlement Lifecycle Authority Custody Dispatch Demo DemoWorld Conservation Balances.

#[export] Hint Resolve shifts_check_margin shifts_check_owner shifts_sub_pnl shifts_add_pnl
  shifts_settle_equity shifts_reserve shifts_release : shifts.

Section effects.
Context {R : Runtime} {L : RuntimeLaws}.

(** The margin account at [k] is [owner]'s. *)
Definition margin_of (k owner mint : Pubkey) (w : World) : Prop :=
  exists m, margin_at k m w /\ m.(ma_owner) = owner /\ m.(ma_collateral_mint) = mint.

(** What a settlement reads after the nonce's write was there before it. *)
Lemma margin_before_nonce {A} k (m : M MarketNonceAccount A) x w w' k' (a : MarginAccount) :
  with_mut k m w = (Ok x, w') -> (acct w' k').(acc_data) = DMargin a ->
  (acct w k').(acc_owner) = program_id -> margin_of k' a.(ma_owner) a.(ma_collateral_mint) w.
Proof.
  intros E Hh Ho. exists a. split; [|done]. split; [|done].
  by apply (with_mut_back (T := MarketNonceAccount) _ _ _ _ _ _ _ E Hh).
Qed.
Lemma contract_before_nonce {A} k (m : M MarketNonceAccount A) x w w' k' p :
  with_mut k m w = (Ok x, w') -> holds k' (DPmlc p) w' -> holds k' (DPmlc p) w.
Proof. intros E Hh. by apply (with_mut_back (T := MarketNonceAccount) _ _ _ _ _ _ _ E Hh). Qed.

(** A write to a struct of another type keeps what was there. *)
Lemma with_mut_kept `{AccountType T} {A} k (m : M T A) w x w' k' d :
  with_mut k m w = (Ok x, w') -> holds k' d w -> proj (T := T) d = None -> holds k' d w'.
Proof.
  intros (v & v' & Hd & _ & ->)%with_mut_ok_inv Hh Hp. unfold holds in *.
  destruct (decide (k = k')) as [<-|Hne]; [|by rewrite acct_set_ne].
  rewrite Hd in Hh. subst d. by rewrite proj_inj in Hp.
Qed.

(** A live contract of this instrument, market and mint is read, and nothing written. *)
Lemma live_contract_inv k i m mint w p w' :
  load_live_pmlc k i m mint w = (Ok p, w') ->
  w' = w /\ holds k (DPmlc p) w /\ p.(pm_status) = PMLC_STATUS_LIVE /\
  p.(Governance.instrument) = i /\ p.(pm_market_id) = m /\ p.(pm_collateral_mint) = mint.
Proof.
  unfold load_live_pmlc. intros E. inv_world.
  match goal with H : require_live ?q = _ |- _ =>
    unfold require_live in H; by destruct (Z.eqb_spec q.(pm_status) PMLC_STATUS_LIVE) end.
Qed.

(** The number of a contract's fields, as wide as they are stored, and a pot that fits one. *)
Definition contract_fits (p : Pmlc) : Prop :=
  0 <= p.(collateral_per_side) /\ 2 * p.(collateral_per_side) <= U64_MAX /\
  is_u64 p.(size_fp_lo) /\ is_u64 p.(size_fp_hi).

(** What a contract was opened with. *)
Definition same_terms (p p' : Pmlc) : Prop :=
  p'.(pm_bump) = p.(pm_bump) /\ p'.(pm_id) = p.(pm_id) /\
  p'.(Governance.instrument) = p.(Governance.instrument) /\
  p'.(pm_collateral_mint) = p.(pm_collateral_mint) /\ p'.(pm_market_id) = p.(pm_market_id) /\
  p'.(collateral_per_side) = p.(collateral_per_side) /\ p'.(pm_leverage_bps) = p.(pm_leverage_bps) /\
  p'.(entry_price_fp) = p.(entry_price_fp) /\
  p'.(Governance.notional_atoms) = p.(Governance.notional_atoms) /\
  p'.(size_fp_lo) = p.(size_fp_lo) /\ p'.(size_fp_hi) = p.(size_fp_hi) /\
  p'.(opened_slot) = p.(opened_slot) /\
  p'.(long_reentry_price_fp) = p.(long_reentry_price_fp) /\
  p'.(short_reentry_price_fp) = p.(short_reentry_price_fp).

(** The live contract [p] at [k] ends with this status, for this reason; its terms, flags and
    owners stay. *)
Definition contract_ends (k : Pubkey) (p : Pmlc) (status reason : Z) (w w' : World) : Prop :=
  holds k (DPmlc p) w /\ p.(pm_status) = PMLC_STATUS_LIVE /\
  exists p', holds k (DPmlc p') w' /\ p'.(pm_status) = status /\ p'.(close_reason) = reason /\
    p'.(last_mark_slot) = clock_slot /\ p'.(pm_flags) = p.(pm_flags) /\
    p'.(long_owner) = p.(long_owner) /\ p'.(short_owner) = p.(short_owner) /\ same_terms p p'.

Lemma finish_ends k p status reason w0 w u w' :
  with_mut k (finish_pmlc status reason) w = (Ok u, w') -> holds k (DPmlc p) w0 ->
  p.(pm_status) = PMLC_STATUS_LIVE -> holds k (DPmlc p) w -> contract_ends k p status reason w0 w'.
Proof.
  intros (v & v' & Hd & [= _ <-] & ->)%with_mut_ok_inv H0 Hl Hh. unfold holds in Hh.
  rewrite Hh in Hd. injection Hd as ->. split_and!; [done|done|]. eexists. unfold holds. rewrite acct_set_eq.
  by split_and!.
Qed.
Lemma ends_later k p status reason w w1 w2 : contract_ends k p status reason w w1 ->
  (forall p', holds k (DPmlc p') w1 -> holds k (DPmlc p') w2) -> contract_ends k p status reason w w2.
Proof. intros (H & Hl & p' & Hp & Hr) Hk. split_and!; [done..|]. exists p'. eauto. Qed.

(** The position: its signed profit at a mark is [size * (mark - entry)], and the long's
    equity is its collateral and the profit, within the pot. *)
Definition position (p : Pmlc) : Z := as_i 128 (p.(size_fp_hi) * 2 ^ 64 + p.(size_fp_lo)).
Definition profit (p : Pmlc) (mark : Z) : Z :=
  Z.quot ((mark - p.(entry_price_fp)) * position p) (10 ^ 18).
Definition long_equity (c gain : Z) : Z := Z.max 0 (Z.min (2 * c) (c + gain)).

Lemma size_words p : contract_fits p -> size_fp p = p.(size_fp_hi) * 2 ^ 64 + p.(size_fp_lo).
Proof. intros (_ & _ & Hlo & _). unfold size_fp. apply shifted_words; mlia. Qed.
Lemma profit_exact p mark pnl : contract_fits p ->
  pnl_long_atoms p.(entry_price_fp) mark (size_fp p) = Ok pnl ->
  pnl = profit p mark /\ I128_MIN <= pnl <= I128_MAX.
Proof.
  intros Hp E. rewrite (size_words p Hp) in E. unfold pnl_long_atoms in E.
  destruct (checked_i128 _) as [v|] eqn:Ev; [|done]. cbn in E. injection E as <-.
  apply checked_i128_some in Ev as [-> Hv]. split; [done|].
  pose proof (quot_error ((mark - p.(entry_price_fp)) * position p) (10 ^ 18) ltac:(lia)) as Hq.
  fold (position p) in Hv. fold (profit p mark) in Hq. change (_ ÷ PRICE_ONE) with (profit p mark).
  revert Hv Hq. unfold_bounds. lia.
Qed.
(** The unpaused program's attestor signed [att], in the instruction at this offset. *)
Definition attested (config : Pubkey) (sysvar : AccountInfo) (offset : Z) (att : Attestation)
    (w : World) : Prop :=
  exists cfg bytes, holds config (DConfig cfg) w /\ cfg.(global_pause) = 0 /\
    verify_via_ed25519_sysvar (load_instruction_at_checked offset sysvar)
      cfg.(attestation_signer) = Ok bytes /\ parse bytes = Ok att.

(** The number and the identifier an attestation carries at a byte offset. *)
Definition number (att : Attestation) (off n : nat) : Z := le_num (take n (drop off att.(att_bytes))).
Definition identifier (att : Attestation) (off : nat) : Z :=
  be_num (take 32 (drop off att.(att_bytes))).

(** It is of this kind (byte 4), names this market (bytes 8-39), was made (bytes 40-47) no later
    than now and no earlier than [staleness] seconds ago, and its nonce (bytes 48-55) is above
    the last one this market accepted. *)
Definition fresh_attestation (config nonce_key : Pubkey) (sysvar : AccountInfo)
    (offset kind market staleness : Z) (att : Attestation) (w : World) : Prop :=
  attested config sysvar offset att w /\ byte_at att.(att_bytes) 4 = kind /\
  identifier att 8 = market /\ number att 40 8 <= now_unix <= number att 40 8 + staleness /\
  exists n, holds nonce_key (DNonce n) w /\ n.(last_accepted_cre_nonce) < number att 48 8.

(** The write of the nonce, when it succeeds, found the attestation fresh. *)
Definition accepting {A} (att : Attestation) (market staleness : Z) (m : M MarketNonceAccount A)
    : Prop :=
  forall n x n', m n = (Ok x, n') ->
    validate_freshness_and_nonce att market n.(last_accepted_cre_nonce) now_unix staleness = Ok tt.

Lemma accepting_bind {A B} att market st (m : M MarketNonceAccount A) (f : A -> M MarketNonceAccount B) :
  accepting att market st m -> accepting att market st (m ≫= f).
Proof. intros Hm n x n' (a & n1 & E & _)%bind_ok_inv. by eapply Hm. Qed.
Lemma accepting_nonce att market st : accepting att market st (accept_nonce att market now_unix st).
Proof. intros n x n' E. unfold accept_nonce in E. inv_world. done. Qed.
Lemma mutual_accepting att market st : accepting att market st
  (n ← gets id;
   lift (validate_freshness_and_nonce att market n.(last_accepted_cre_nonce) now_unix st);;
   modify (fun n => set_nonce n n.(is_resolved) (nonce att) n.(last_accepted_twap_fp)
     n.(last_accepted_ts) n.(Governance.final_outcome_bps));;
   price ← lift (price_fp att);
   set_mark price;;
   modify (fun n => set_nonce n n.(is_resolved) n.(last_accepted_cre_nonce)
     n.(last_accepted_twap_fp) now_unix n.(Governance.final_outcome_bps))).
Proof. intros n x n' E. inv_world. done. Qed.

Lemma accepted_fresh {A} config k sysvar offset kind market st att (m : M MarketNonceAccount A) x w w' :
  accepting att market st m -> with_mut k m w = (Ok x, w') ->
  attested config sysvar offset att w -> attestation_type att = kind ->
  fresh_attestation config k sysvar offset kind market st att w.
Proof.
  intros Hm (n & n' & Hd & E%Hm & _)%with_mut_ok_inv Ha Hk. split; [done|]. split; [done|].
  unfold validate_freshness_and_nonce in E.
  destruct (Z.eqb_spec (market_id att) market); [|done].
  destruct (Z.ltb_spec now_unix (timestamp att)); [done|].
  destruct (Z.ltb_spec st (now_unix - timestamp att)); [done|].
  destruct (Z.leb_spec (nonce att) n.(last_accepted_cre_nonce)); [done|].
  split; [done|]. fold (array_ref att.(att_bytes) 40 8). change (number att 40 8) with (timestamp att).
  split; [lia|]. exists n. split; [exact Hd|]. change (number att 48 8) with (nonce att). lia.
Qed.

(** A typed accessor's answer. *)
Lemma typed_ok {A} a t (v x : A) :
  (require_type a t;; Ok v) = Ok x -> attestation_type a = t /\ x = v.
Proof.
  unfold require_type. destruct (Z.eqb_spec (attestation_type a) t); [|done]. cbn. by intros [= <-].
Qed.

Lemma breach_fields a k mark ts :
  breach_pmlc_pubkey a = Ok k -> breach_mark_fp a = Ok mark -> breach_unix_ts a = Ok ts ->
  k = identifier a 56 /\ mark = number a 88 8 /\ ts = as_i 64 (number a 96 8).
Proof. intros [_ ->]%typed_ok [_ ->]%typed_ok [_ ->]%typed_ok. done. Qed.

(** A signed time that is not negative is the unsigned one. *)
Lemma time_unsigned x : 0 <= as_i 64 x -> as_u 64 (as_i 64 x) = as_i 64 x.
Proof.
  intros H. apply as_u_small. split; [done|]. unfold as_i.
  pose proof (Z.mod_pos_bound x (2 ^ 64) ltac:(lia)). case_match; lia.
Qed.

(** The contract's two margin accounts, by owner. *)
Definition sides_of (p : Pmlc) (long short mint : Pubkey) (w : World) : Prop :=
  margin_of long p.(long_owner) mint w /\ margin_of short p.(short_owner) mint w /\ long <> short.

(** ** Liquidation *)

Lemma payout_moves long short c bounty (b : bool) w u w' :
  0 <= c -> 2 * c <= U64_MAX -> 0 <= bounty ->
  liquidation_payout long short c bounty b w = (Ok u, w') ->
  long <> short /\
  moved [(long, shift 0 0 (- c)); (short, shift 0 0 (- c));
         (if b then long else short, shift (Z.max 0 (2 * c - bounty)) 0 0)] w w'.
Proof.
  intros H0 Hc Hb E. unfold liquidation_payout in E.
  replace (sat_u64 (sat_u64 (c * 2) - bounty)) with (Z.max 0 (2 * c - bounty)) in E by (unfold_bounds; lia).
  inv_world. split; [done|]. eapply moved_eq; [follow|]. destruct b; same_shifts.
Qed.
Lemma when_pays k n w u w' :
  when (0 <? n) (with_mut k (credit_free n)) w = (Ok u, w') -> 0 <= n ->
  moved [(k, shift n 0 0)] w w'.
Proof.
  intros E Hn. destruct (Z.ltb_spec 0 n).
  - by eapply moved_mut; [apply shifts_credit_free|exact E].
  - injection E as _ <-. assert (n = 0) as -> by lia. eapply moved_eq; [apply moved_refl|same_shifts].
Qed.

Lemma when_keeps b k (m : M MarginAccount unit) w u w' k' p :
  when b (with_mut k m) w = (Ok u, w') -> holds k' (DPmlc p) w -> holds k' (DPmlc p) w'.
Proof.
  destruct b; [|by intros [= _ <-]]. intros E Hh. by eapply (with_mut_kept _ _ _ _ _ _ _ E Hh).
Qed.
Lemma payout_keeps long short c bounty b w u w' k p :
  liquidation_payout long short c bounty b w = (Ok u, w') -> holds k (DPmlc p) w ->
  holds k (DPmlc p) w'.
Proof.
  intros E Hh. unfold liquidation_payout in E. inv_world.
  repeat match goal with
  | H : with_mut _ _ ?w0 = _, Hp : holds k _ ?w0 |- _ =>
      apply (with_mut_kept _ _ _ _ _ _ _ H) in Hp; [clear H|done]
  end. done.
Qed.

(** The contract a settlement found: the market's nonce is written first, then the contract
    and the two margin accounts are read. *)
Lemma settle_facts {A} nonce_key (mn : M MarketNonceAccount A) x w w1 w2 pmlc i market mint p long short :
  with_mut nonce_key mn w = (Ok x, w1) -> load_live_pmlc pmlc i market mint w1 = (Ok p, w2) ->
  (acct w long).(acc_owner) = program_id -> (acct w short).(acc_owner) = program_id ->
  (exists a, (acct w2 long).(acc_data) = DMargin a /\ a.(ma_owner) = p.(long_owner) /\
     a.(ma_collateral_mint) = mint) ->
  (exists b, (acct w2 short).(acc_data) = DMargin b /\ b.(ma_owner) = p.(short_owner) /\
     b.(ma_collateral_mint) = mint) ->
  w2 = w1 /\ holds pmlc (DPmlc p) w /\ holds pmlc (DPmlc p) w1 /\ p.(pm_status) = PMLC_STATUS_LIVE /\
  p.(Governance.instrument) = i /\ moved [] w w1 /\
  margin_of long p.(long_owner) mint w /\ margin_of short p.(short_owner) mint w.
Proof.
  intros Hn (-> & Hc & Hlive & Hi & _)%live_contract_inv Ho1 Ho2 (a & Ha & Ha1 & Ha2) (b & Hb & Hb1 & Hb2).
  split_and!; try done.
  - by eapply contract_before_nonce.
  - refine (moved_mut_other _ _ _ _ _ _ Hn). other_write.
  - rewrite <- Ha1, <- Ha2. by eapply margin_before_nonce.
  - rewrite <- Hb1, <- Hb2. by eapply margin_before_nonce.
Qed.

(** The equities the code computes are the two sides' shares of the pot. *)
Lemma equities_shares c pnl el es : 0 <= c -> 2 * c <= U64_MAX -> I128_MIN <= pnl <= I128_MAX ->
  equities c pnl = (el, es) ->
  el = long_equity c pnl /\ es = 2 * c - long_equity c pnl /\ 0 <= long_equity c pnl <= 2 * c.
Proof.
  intros H0 H1 Hp. unfold equities. rewrite bounded_equity_clamp by done.
  fold (long_equity c pnl). assert (0 <= long_equity c pnl <= 2 * c) by (unfold long_equity; lia).
  intros [= <- <-]. split; [done|]. split; [|done]. unfold_bounds. lia.
Qed.
Lemma contract_shares p mark pnl el es : contract_fits p ->
  pnl_long_atoms p.(entry_price_fp) mark (size_fp p) = Ok pnl ->
  equities p.(collateral_per_side) pnl = (el, es) ->
  el = long_equity p.(collateral_per_side) (profit p mark) /\
  es = 2 * p.(collateral_per_side) - long_equity p.(collateral_per_side) (profit p mark) /\
  0 <= long_equity p.(collateral_per_side) (profit p mark) <= 2 * p.(collateral_per_side).
Proof.
  intros Hf Hp He. destruct (profit_exact p mark pnl Hf Hp) as [-> Hr]. destruct Hf as (H0 & H1 & _).
  by apply equities_shares.
Qed.

(** The contract and the instrument a settlement read are the ones that were there, and its
    attestation was fresh. *)
Ltac settlement_facts pmlc long short Hp Hf Hi :=
  match goal with
  | Hn : with_mut (T := MarketNonceAccount) _ _ ?w = _, Hl : load_live_pmlc _ _ _ _ _ = (Ok ?q, _),
    Hj : acc_data (acct ?w ?ik) = inj (T := InstrumentConfig) ?inst' |- _ =>
      pose proof Hl as Hl'; apply live_contract_inv in Hl' as (_ & _ & _ & _ & Hmk & _);
      destruct (settle_facts _ _ _ _ _ _ _ _ _ _ _ long.(key) short.(key) Hn Hl)
        as (-> & Hc0 & Hc & Hlive & Hii & Hm0 & Hml & Hms); [first [done | by eauto | eexists; split_and!; [eassumption|congruence|congruence]]..|];
      let Eq := fresh in pose proof (eq_trans (eq_sym Hp) Hc0) as Eq; injection Eq as <-;
      pose proof (eq_trans (eq_sym Hi) Hj) as Eq; injection Eq as <-
  end.

(** C11: for a contract whose pot fits a u64: a liquidation that succeeds ends the live contract, of this instrument, on a fresh
    attestation by the program's attestor of a breach of this very contract, not in the future,
    at a mark where the smaller of the two sides' equities is at or below the liquidation
    threshold. Both sides' collateral is unlocked. The side with the larger equity (the short at
    a tie) is credited what the bounty leaves of the pot (nothing where the bounty exceeds it),
    the liquidator's own margin account the bounty, and no other margin account moves. *)
Theorem liquidation_pays keeper cfg sysvar inst_ai pmlc nonce_ai long short keeper_margin rest args
    p inst w w' :
  holds pmlc.(key) (DPmlc p) w -> contract_fits p -> holds inst_ai.(key) (DInstrument inst) w ->
  process_liquidate (keeper :: cfg :: sysvar :: inst_ai :: pmlc :: nonce_ai :: long :: short
                       :: keeper_margin :: rest) args w = (Ok tt, w') ->
  exists att,
    let c := p.(collateral_per_side) in
    let eq_long := long_equity c (profit p (number att 88 8)) in
    let eq_short := 2 * c - eq_long in
    let bounty := (c * inst.(liquidation_bounty_bps) / 10000) mod 2 ^ 64 in
    contract_ends pmlc.(key) p PMLC_STATUS_LIQUIDATED CLOSE_REASON_LIQUIDATED w w' /\
    p.(Governance.instrument) = inst_ai.(key) /\ p.(pm_market_id) = inst.(ic_market_id) /\
    fresh_attestation cfg.(key) nonce_ai.(key) sysvar args.(attestation_ix_offset) 3
      inst.(ic_market_id) inst.(max_staleness_secs) att w /\
    identifier att 56 = pmlc.(key) /\ 0 <= as_i 64 (number att 96 8) <= now_unix /\
    Z.min eq_long eq_short <= (c * inst.(liquidation_bps) / 10000) mod 2 ^ 64 /\
    sides_of p long.(key) short.(key) inst.(ic_collateral_mint) w /\
    margin_of keeper_margin.(key) keeper.(key) inst.(ic_collateral_mint) w /\
    moved [(long.(key), shift 0 0 (- c)); (short.(key), shift 0 0 (- c));
           (if eq_short <? eq_long then long.(key) else short.(key),
            shift (Z.max 0 (2 * c - bounty)) 0 0);
           (keeper_margin.(key), shift bounty 0 0)] w w'.
Proof.
  intros Hp Hf Hi E. unfold process_liquidate, load_attestation_signer, verified_attestation, check_breach in E.
  handler_run. settlement_facts pmlc long short Hp Hf Hi.
  match goal with
  | Hpay : liquidation_payout _ _ _ _ _ _ = _, Hfin : with_mut _ (finish_pmlc _ _) _ = _,
    H1 : breach_pmlc_pubkey ?a = _, H2 : breach_mark_fp _ = _, H3 : breach_unix_ts _ = _,
    H4 : pnl_long_atoms _ _ _ = _, H5 : equities _ _ = _, Hn : with_mut (T := MarketNonceAccount) _ _ _ = _ |- _ =>
      exists a; destruct (breach_fields _ _ _ _ H1 H2 H3) as (Hk & -> & ->);
      destruct (contract_shares _ _ _ _ _ Hf H4 H5) as (-> & -> & Hs);
      pose proof (payout_keeps _ _ _ _ _ _ _ _ _ _ Hpay Hc) as Hc';
      pose proof (finish_ends _ _ _ _ w _ _ _ Hfin Hc0 Hlive Hc') as Hend;
      destruct Hf as (Hc1 & Hc2 & _);
      pose proof (payout_moves _ _ _ _ _ _ _ _ Hc1 Hc2 (proj1 (Z.mod_pos_bound _ (2 ^ 64) eq_refl)) Hpay) as [Hne Hpm];
      pose proof (accepted_fresh cfg.(key) _ sysvar args.(attestation_ix_offset) 3 _ _ a _ _ _ _
        (accepting_bind _ _ _ _ _ (accepting_nonce _ _ _)) Hn) as Hfresh
  end.
  rewrite time_unsigned in * by done.
  cbv zeta. split_and!; try done.
  - by eapply ends_later; [|intros; eapply when_keeps].
  - apply Hfresh; [|done]. do 2 eexists. by split_and!.
  - congruence.
  - match goal with H : acc_data (acct w keeper_margin.(key)) = DMargin ?m |- _ => by exists m end.
  - apply when_pays in E; [|apply Z.mod_pos_bound; lia]. eapply moved_eq; [follow|done].
Qed.

(** ** Resolution and mutual close *)

Lemma pay_equities_moves long short c el es w u w' :
  pay_equities long short c el es w = (Ok u, w') ->
  long <> short /\ moved [(long, shift el 0 (- c)); (short, shift es 0 (- c))] w w'.
Proof.
  intros E. unfold pay_equities in E. inv_world. split; [done|]. eapply moved_eq; [follow|done].
Qed.
Lemma pay_equities_keeps long short c el es w u w' k p :
  pay_equities long short c el es w = (Ok u, w') -> holds k (DPmlc p) w -> holds k (DPmlc p) w'.
Proof.
  intros E Hh. unfold pay_equities in E. inv_world.
  repeat match goal with
  | H : with_mut _ _ ?w0 = _, Hp : holds k _ ?w0 |- _ =>
      apply (with_mut_kept _ _ _ _ _ _ _ H) in Hp; [clear H|done]
  end. done.
Qed.

Lemma equities_nonneg c pnl el es : equities c pnl = (el, es) -> 0 <= el /\ 0 <= es.
Proof.
  unfold equities, bounded_equity. intros [= <- <-]. split; [apply Z.mod_pos_bound; lia|].
  unfold_bounds. lia.
Qed.

(** The pot of the two sides is split: this much to the long, the rest to the short. *)
Definition pot_split (c eq_long : Z) (long short : Pubkey) (w w' : World) : Prop :=
  0 <= eq_long <= 2 * c /\
  moved [(long, shift eq_long 0 (- c)); (short, shift (2 * c - eq_long) 0 (- c))] w w'.

Lemma split_settles pmlc p long short el w w1 w2 w3 st reason :
  holds pmlc (DPmlc p) w -> p.(pm_status) = PMLC_STATUS_LIVE -> holds pmlc (DPmlc p) w1 ->
  moved [] w w1 -> 0 <= el <= 2 * p.(collateral_per_side) ->
  pay_equities long short p.(collateral_per_side) el (2 * p.(collateral_per_side) - el) w1 = (Ok tt, w2) ->
  with_mut pmlc (finish_pmlc st reason) w2 = (Ok tt, w3) ->
  contract_ends pmlc p st reason w w3 /\ long <> short /\
  pot_split p.(collateral_per_side) el long short w w3.
Proof.
  intros Hc0 Hl Hc Hm He Hp Hf.
  pose proof (pay_equities_keeps _ _ _ _ _ _ _ _ _ _ Hp Hc) as Hc'.
  pose proof (finish_ends _ _ _ _ w _ _ _ Hf Hc0 Hl Hc') as Hend.
  apply pay_equities_moves in Hp as [Hne Hpay]. split; [done|]. split; [done|].
  split; [done|]. eapply moved_eq; [follow|done].
Qed.

(** What a resolution's long gets: nothing, everything, or its equity at one half. *)
Lemma resolution_shares p outcome final pnl el es : contract_fits p ->
  final_mark outcome = Ok final -> resolution_pnl outcome p final = Ok pnl ->
  equities p.(collateral_per_side) pnl = (el, es) ->
  let c := p.(collateral_per_side) in
  (outcome = 0 /\ el = 0 \/ outcome = 10000 /\ el = 2 * c \/
   outcome = 5000 /\ el = long_equity c (profit p (10 ^ 18 / 2))) /\
  es = 2 * c - el /\ 0 <= el <= 2 * c.
Proof.
  intros Hf Hm Hr He. pose proof Hf as (H0 & H1 & _). unfold final_mark, resolution_pnl in *.
  destruct (Z.eqb_spec outcome 0) as [->|].
  { injection Hr as <-. apply equities_shares in He as (-> & -> & He); [|unfold_bounds; lia..].
    split; [left; split; [done|]|done]. unfold long_equity. unfold_bounds. lia. }
  destruct (Z.eqb_spec outcome 5000) as [->|].
  { cbn [Z.eqb Pos.eqb] in Hr. injection Hm as <-.
    destruct (contract_shares p _ _ _ _ Hf Hr He) as (-> & -> & Hs). split; [by right; right|done]. }
  destruct (Z.eqb_spec outcome 10000) as [->|]; [|done].
  injection Hr as <-. apply equities_shares in He as (-> & -> & He); [|unfold_bounds; lia..].
  split; [right; left; split; [done|]|done]. unfold long_equity. unfold_bounds. lia.
Qed.

(** C12: for a contract whose pot fits a u64: a resolution that succeeds ends the live contract, of this instrument, on a fresh
    resolution by the program's attestor, whose outcome is 0, 5000 or 10000 basis points. Both
    sides' collateral is unlocked and the pot is split between the margin accounts of the two
    owners: at 0 the short gets all of it, at 10000 the long, and at 5000 the long gets its
    collateral and its profit at a price of one half, within the pot, and the short the rest.
    No other margin account moves. *)
Theorem resolution_pays caller cfg sysvar inst_ai pmlc nonce_ai long short rest args p inst w w' :
  holds pmlc.(key) (DPmlc p) w -> contract_fits p -> holds inst_ai.(key) (DInstrument inst) w ->
  process_resolve (caller :: cfg :: sysvar :: inst_ai :: pmlc :: nonce_ai :: long :: short :: rest)
    args w = (Ok tt, w') ->
  exists att eq_long,
    let c := p.(collateral_per_side) in
    let outcome := number att 56 2 in
    contract_ends pmlc.(key) p PMLC_STATUS_RESOLVED CLOSE_REASON_RESOLVED w w' /\
    p.(Governance.instrument) = inst_ai.(key) /\ p.(pm_market_id) = inst.(ic_market_id) /\
    fresh_attestation cfg.(key) nonce_ai.(key) sysvar args.(attestation_ix_offset) 2
      inst.(ic_market_id) inst.(max_staleness_secs) att w /\
    (outcome = 0 /\ eq_long = 0 \/ outcome = 10000 /\ eq_long = 2 * c \/
     outcome = 5000 /\ eq_long = long_equity c (profit p (10 ^ 18 / 2))) /\
    sides_of p long.(key) short.(key) inst.(ic_collateral_mint) w /\
    pot_split c eq_long long.(key) short.(key) w w'.
Proof.
  intros Hp Hf Hi E. unfold process_resolve, load_attestation_signer, verified_attestation in E.
  handler_run. settlement_facts pmlc long short Hp Hf Hi.
  match goal with
  | Hpay : pay_equities _ _ _ _ _ _ = _, Hfin : with_mut _ (finish_pmlc _ _) _ = _,
    H1 : att_final_outcome_bps ?a = _, H2 : final_mark _ = _, H3 : resolution_pnl _ _ _ = _,
    H4 : equities _ _ = (?el, _), Hn : with_mut (T := MarketNonceAccount) _ _ _ = _ |- _ =>
      exists a, el; apply typed_ok in H1 as [Hty ->];
      destruct (resolution_shares _ _ _ _ _ _ Hf H2 H3 H4) as (Ho & -> & Hs);
      destruct (split_settles _ _ _ _ _ _ _ _ _ _ _ Hc0 Hlive Hc Hm0 Hs Hpay Hfin) as (Hend & Hne & Hsplit);
      pose proof (accepted_fresh cfg.(key) _ sysvar args.(attestation_ix_offset) 2 _ _ a _ _ _ _
        (accepting_bind _ _ _ _ _ (accepting_nonce _ _ _)) Hn) as Hfresh
  end.
  cbv zeta. split; [done|]. split; [done|]. split; [done|].
  split; [apply Hfresh; [do 2 eexists; by split_and!|done]|]. by split_and!.
Qed.

(** C29: for a contract whose pot fits a u64: a mutual close that succeeds was signed by both owners of the live contract, of this
    instrument, and ends it at the price of a fresh price attestation by the program's attestor,
    averaged over the instrument's own window. Both sides' collateral is unlocked and the pot is
    split: the long gets its collateral and its profit at that price, within the pot, the short
    the rest; no other margin account moves. *)
Theorem mutual_close_pays long_owner_ai short_owner_ai cfg sysvar inst_ai pmlc nonce_ai long short rest args
    p inst w w' :
  holds pmlc.(key) (DPmlc p) w -> contract_fits p -> holds inst_ai.(key) (DInstrument inst) w ->
  process_close_mutual (long_owner_ai :: short_owner_ai :: cfg :: sysvar :: inst_ai :: pmlc
                          :: nonce_ai :: long :: short :: rest) args w = (Ok tt, w') ->
  exists att,
    let c := p.(collateral_per_side) in
    contract_ends pmlc.(key) p PMLC_STATUS_CLOSED CLOSE_REASON_MUTUAL w w' /\
    p.(Governance.instrument) = inst_ai.(key) /\ p.(pm_market_id) = inst.(ic_market_id) /\
    (long_owner_ai.(is_signer) = true /\ long_owner_ai.(key) = p.(long_owner)) /\
    (short_owner_ai.(is_signer) = true /\ short_owner_ai.(key) = p.(short_owner)) /\
    fresh_attestation cfg.(key) nonce_ai.(key) sysvar args.(attestation_ix_offset) 1
      inst.(ic_market_id) inst.(max_staleness_secs) att w /\
    number att 64 8 = inst.(twap_window_slots) /\
    sides_of p long.(key) short.(key) inst.(ic_collateral_mint) w /\
    pot_split c (long_equity c (profit p (number att 56 8))) long.(key) short.(key) w w'.
Proof.
  intros Hp Hf Hi E. unfold process_close_mutual, load_attestation_signer, verified_attestation in E.
  handler_run. settlement_facts pmlc long short Hp Hf Hi.
  match goal with
  | Hpay : pay_equities _ _ _ _ _ _ = _, Hfin : with_mut _ (finish_pmlc _ _) _ = _,
    H1 : price_fp ?a = _, H2 : att_twap_window_slots _ = _, H3 : pnl_long_atoms _ _ _ = _,
    H4 : equities _ _ = _, Hn : with_mut (T := MarketNonceAccount) _ _ _ = _ |- _ =>
      exists a; apply typed_ok in H1 as [Hty ->]; apply typed_ok in H2 as [_ ->];
      destruct (contract_shares _ _ _ _ _ Hf H3 H4) as (-> & -> & Hs);
      destruct (split_settles _ _ _ _ _ _ _ _ _ _ _ Hc0 Hlive Hc Hm0 Hs Hpay Hfin) as (Hend & Hne & Hsplit);
      pose proof (accepted_fresh cfg.(key) _ sysvar args.(attestation_ix_offset) 1 _ _ a _ _ _ _
        (mutual_accepting _ _ _) Hn) as Hfresh
  end.
  cbv zeta. split; [done|]. split; [done|]. split; [done|]. split; [done|]. split; [done|].
  split; [apply Hfresh; [do 2 eexists; by split_and!|done]|]. by split_and!.
Qed.
End effects.

(* ------------------------------------------------------------------ *)
(** ** On the demo world *)

Lemma ran {A B} (r : A * B) a : fst r = a -> r = (a, snd r).
Proof. by intros <-; destruct r. Qed.

Lemma demo_contract_fits id : contract_fits (demo_pmlc id).
Proof. by split_and!. Qed.

(** The attestation a demo run verified. *)
Ltac known_attestation H :=
  let cfg := fresh in let bytes := fresh in let Hc := fresh in let Hv := fresh in let Hp := fresh in
  destruct H as ((cfg & bytes & Hc & _ & Hv & Hp) & _);
  unfold holds in Hc; vm_compute in Hc; injection Hc as <-;
  vm_compute in Hv; injection Hv as <-; vm_compute in Hp; injection Hp as <-.

(** Carol liquidates at three quarters: Alice's long wins the pot but for the bounty, one
    hundredth of a side's collateral. *)
Lemma liquidation_pays_witness :
  let R := demo 100 1700100000 [breach (PMLC 101) (75 * 10 ^ 16) 1 1700099990] in
  let run := process_liquidate (R := R)
    [signer CAROL; readonly CONFIG; readonly SYSVAR_INSTRUCTIONS_ID; readonly INSTRUMENT;
     writable (PMLC 101); writable NONCE; writable (MARGIN ALICE); writable (MARGIN BOB);
     writable (MARGIN CAROL)] {| attestation_ix_offset := 0 |} demo_world in
  fst run = Ok tt /\
  contract_ends (R := R) (PMLC 101) (demo_pmlc 101) PMLC_STATUS_LIQUIDATED CLOSE_REASON_LIQUIDATED
    demo_world (snd run) /\
  moved (R := R) [(MARGIN ALICE, shift 0 0 (-1000000)); (MARGIN BOB, shift 0 0 (-1000000));
     (MARGIN ALICE, shift 1990000 0 0); (MARGIN CAROL, shift 10000 0 0)] demo_world (snd run).
Proof.
  intros R run. assert (E : fst run = Ok tt) by (vm_compute; reflexivity). split; [exact E|].
  pose proof (ran run _ E) as Er. unfold run in Er at 1.
  apply (liquidation_pays (R := R)) with (p := demo_pmlc 101) (inst := demo_instrument) in Er;
    [|vm_compute; reflexivity|apply demo_contract_fits|vm_compute; reflexivity].
  destruct Er as (att & H & _ & _ & Hatt & _ & _ & _ & _ & _ & Hm). split; [exact H|].
  known_attestation Hatt. exact Hm.
Defined.

(** The outcome 10000: Alice's long wins everything. *)
Lemma resolution_pays_witness :
  let R := demo 100 1700100000 [resolution 10000 1 1700099990] in
  let run := process_resolve (R := R)
    [signer CAROL; readonly CONFIG; readonly SYSVAR_INSTRUCTIONS_ID; readonly INSTRUMENT;
     writable (PMLC 101); writable NONCE; writable (MARGIN ALICE); writable (MARGIN BOB)]
    {| attestation_ix_offset := 0 |} demo_world in
  fst run = Ok tt /\
  contract_ends (R := R) (PMLC 101) (demo_pmlc 101) PMLC_STATUS_RESOLVED CLOSE_REASON_RESOLVED
    demo_world (snd run) /\
  pot_split (R := R) 1000000 2000000 (MARGIN ALICE) (MARGIN BOB) demo_world (snd run).
Proof.
  intros R run. assert (E : fst run = Ok tt) by (vm_compute; reflexivity). split; [exact E|].
  pose proof (ran run _ E) as Er. unfold run in Er at 1.
  apply (resolution_pays (R := R)) with (p := demo_pmlc 101) (inst := demo_instrument) in Er;
    [|vm_compute; reflexivity|apply demo_contract_fits|vm_compute; reflexivity].
  destruct Er as (att & el & H & _ & _ & Hatt & Ho & _ & Hm). split; [exact H|].
  known_attestation Hatt.
  destruct Ho as [[Ho _]|[[_ ->]|[Ho _]]]; [vm_compute in Ho; discriminate Ho|exact Hm|
    vm_compute in Ho; discriminate Ho].
Defined.

(** Closed at six tenths: a gain of 400000 atoms for Alice's long. *)
Lemma mutual_close_pays_witness :
  let R := demo 100 1700100000
    [attest (build_attestation ATT_TYPE_PRICE_TWAP MARKET 1700099990 1
               (le_bytes 8 (6 * 10 ^ 17) ++ le_bytes 8 10))] in
  let run := process_close_mutual (R := R)
    [signer ALICE; signer BOB; readonly CONFIG; readonly SYSVAR_INSTRUCTIONS_ID; readonly INSTRUMENT;
     writable (PMLC 101); writable NONCE; writable (MARGIN ALICE); writable (MARGIN BOB)]
    {| attestation_ix_offset := 0 |} demo_world in
  fst run = Ok tt /\
  contract_ends (R := R) (PMLC 101) (demo_pmlc 101) PMLC_STATUS_CLOSED CLOSE_REASON_MUTUAL
    demo_world (snd run) /\
  pot_split (R := R) 1000000 1400000 (MARGIN ALICE) (MARGIN BOB) demo_world (snd run).
Proof.
  intros R run. assert (E : fst run = Ok tt) by (vm_compute; reflexivity). split; [exact E|].
  pose proof (ran run _ E) as Er. unfold run in Er at 1.
  apply (mutual_close_pays (R := R)) with (p := demo_pmlc 101) (inst := demo_instrument) in Er;
    [|vm_compute; reflexivity|apply demo_contract_fits|vm_compute; reflexivity].
  destruct Er as (att & H & _ & _ & _ & _ & Hatt & _ & _ & Hm). split; [exact H|].
  known_attestation Hatt. exact Hm.
Defined.
