(* ===== verification/Fees.v ===== *)
(** * What a match charges

    The fee of a match, read off a successful run of [charge_taker] and [open_position]: the
    tier of the taker's own volume, both traders' volumes counted, the treasury credited; and
    the contract that is written. The volume window is Ledger's [rolled]. *)
From S2P Require Import Prelude Fixed IntentBook Ledger Governance Attestation World Footprint Solvency MatchIx Intent Settlement Lifecycle OrderBook Balances Effects.

(** A count that succeeds rolled the window first; the volume a fee is computed from is the
    larger of the two rolled counters. *)
Lemma counted_exact c now v u v' : add_volume c now v = (Ok u, v') ->
  v' = set_epoch (rolled v now) ((rolled v now).(volume_current_atoms) + c)
         (rolled v now).(volume_prev_atoms) (rolled v now).(epoch_start_slot) /\
  effective_30d_volume v now =
    Z.max (rolled v now).(volume_current_atoms) (rolled v now).(volume_prev_atoms).
Proof.
  intros E. unfold add_volume in E. apply bind_ok_inv in E as ([] & v1 & Er & E).
  assert (v1 = rolled v now) as ->; [|unfold effective_30d_volume; rewrite Er; inv_world; checked_facts; done].
  clear E. unfold maybe_roll_epoch in Er. unfold rolled, epochs_elapsed. inv_world. unfold id in *.
  destruct (Z.ltb_spec now v.(epoch_start_slot)).
  { inv_world. cbn. by rewrite Z.add_0_r, set_epoch_same. }
  set (len := Z.max _ 1) in *. assert (0 < len) by lia.
  destruct (Z.ltb_spec (now - v.(epoch_start_slot)) len).
  { inv_world. rewrite Z.div_small by lia. cbn. by rewrite Z.add_0_r, set_epoch_same. }
  assert (1 <= (now - v.(epoch_start_slot)) / len) by (apply Z.div_le_lower_bound; lia).
  set (n := (now - epoch_start_slot v) / len) in *. destruct (Z.eqb_spec n 0); [lia|].
  destruct (Z.eqb_spec n 1); inv_world; checked_facts; done.
Qed.

Section fees.
Context {R : Runtime} {L : RuntimeLaws}.

(** The volume account at [k], as a match finds it: this trader's and mint's, or not there
    yet, and then nothing is counted. *)
Definition volume_of (k owner mint : Pubkey) (v : UserVolume) (w : World) : Prop :=
  v.(uv_owner) = owner /\ v.(uv_collateral_mint) = mint /\
  (holds k (DVolume v) w \/
   data_len (acct w k).(acc_data) = 0 /\ v.(volume_current_atoms) = 0 /\ v.(volume_prev_atoms) = 0 /\
   v.(epoch_start_slot) = clock_slot).
(** The treasury at [k], in the same way. *)
Definition treasury_of (k mint : Pubkey) (t : FeeTreasury) (w : World) : Prop :=
  t.(ft_collateral_mint) = mint /\
  (holds k (DTreasury t) w \/
   data_len (acct w k).(acc_data) = 0 /\ t.(accrued_atoms) = 0 /\ t.(total_swept_atoms) = 0).

(** The account counts [c] more than [v], its window rolled to this slot. *)
Definition counts (k : Pubkey) (v : UserVolume) (c : Z) (w : World) : Prop :=
  exists v', holds k (DVolume v') w /\ v'.(uv_owner) = v.(uv_owner) /\
    v'.(uv_collateral_mint) = v.(uv_collateral_mint) /\
    v'.(volume_current_atoms) = (rolled v clock_slot).(volume_current_atoms) + c /\
    v'.(volume_prev_atoms) = (rolled v clock_slot).(volume_prev_atoms) /\
    v'.(epoch_start_slot) = (rolled v clock_slot).(epoch_start_slot).
Definition accrued (k : Pubkey) (t : FeeTreasury) (fee : Z) (w : World) : Prop :=
  exists t', holds k (DTreasury t') w /\ t'.(ft_collateral_mint) = t.(ft_collateral_mint) /\
    t'.(accrued_atoms) = t.(accrued_atoms) + fee /\
    t'.(total_swept_atoms) = t.(total_swept_atoms).

(** The fee of [c] atoms of collateral between the two traders. *)
Definition charged (taker maker mint taker_vol maker_vol treasury sched : Pubkey) (c fee : Z)
    (w w' : World) : Prop :=
  exists s tv mv t, holds sched (DFeeSchedule s) w /\
    volume_of taker_vol taker mint tv w /\ volume_of maker_vol maker mint mv w /\
    treasury_of treasury mint t w /\
    fee = (c * fee_for_volume s (Z.max (rolled tv clock_slot).(volume_current_atoms)
                                       (rolled tv clock_slot).(volume_prev_atoms)) / 10000) mod 2 ^ 64 /\
    (taker_vol <> maker_vol -> counts taker_vol tv c w' /\ counts maker_vol mv c w') /\
    accrued treasury t fee w'.

(** ** The accounts that are created on the way *)

(** Nothing changed but accounts that held no data, which are fresh volumes or treasuries now. *)
Definition initialised (w w' : World) : Prop := forall k,
  (acct w' k).(acc_data) = (acct w k).(acc_data) \/
  data_len (acct w k).(acc_data) = 0 /\
  ((exists o m b, holds k (DVolume (volume_init o m clock_slot b)) w') \/
   (exists m b, holds k (DTreasury (treasury_init m b)) w')).

Lemma initialised_refl w : initialised w w.
Proof. intros k. by left. Qed.
Lemma initialised_trans w1 w2 w3 : initialised w1 w2 -> initialised w2 w3 -> initialised w1 w3.
Proof.
  intros H1 H2 k. destruct (H2 k) as [E|(Hl & H)].
  - destruct (H1 k) as [E1|(Hl & H)]; [left; congruence|right]. split; [done|].
    unfold holds in *. by rewrite E.
  - destruct (H1 k) as [E1|(Hl1 & H')]; [right; rewrite <- E1; done|].
    unfold holds in H'. destruct H' as [(o & m & b & E)|(m & b & E)]; by rewrite E in Hl.
Qed.

Lemma created p n space seeds bump `{AccountType T} (v : T) w u w1 u' w2 :
  create_pda p n space seeds bump w = (Ok u, w1) -> init_account n v w1 = (Ok u', w2) ->
  data_len (acct w n).(acc_data) = 0 /\ holds n (inj v) w2 /\
  forall k, k <> n -> (acct w2 k).(acc_data) = (acct w k).(acc_data).
Proof.
  intros Hc Hi. apply invoke_signed_ok_inv in Hc. pose proof (create_fresh _ _ _ _ _ _ _ _ Hc) as (_ & Hz & _).
  assert (w2 = set_data n (inj v) w1) as ->.
  { unfold init_account, data_of in Hi. inv_world. done. }
  split; [done|]. split; [unfold holds; by rewrite acct_set_eq|].
  intros k Hk. rewrite acct_set_ne by done. by destruct (create_frame _ _ _ _ _ _ _ _ k Hc Hk).
Qed.

Lemma ensure_treasury_ok p k mint w u w' : ensure_fee_treasury p k mint w = (Ok u, w') ->
  initialised w w' /\ exists t, holds k (DTreasury t) w' /\ t.(ft_collateral_mint) = mint.
Proof.
  intros E. unfold ensure_fee_treasury in E. inv_world. case_match; inv_world.
  - split; [apply initialised_refl|]. eexists. split; [eassumption|done].
  - match goal with Hc : create_pda _ _ _ _ _ _ = _ |- _ =>
      destruct (created _ _ _ _ _ _ _ _ _ _ _ Hc E) as (Hz & Hk & Ho) end.
    split; [|by eexists]. intros k'. destruct (decide (k' = k)) as [->|]; [right|left; by apply Ho].
    split; [done|]. right. by do 2 eexists.
Qed.
Lemma ensure_volume_ok p k owner mint w u w' :
  ensure_user_volume p k owner mint clock_slot w = (Ok u, w') ->
  initialised w w' /\ exists v, holds k (DVolume v) w' /\ v.(uv_owner) = owner /\ v.(uv_collateral_mint) = mint.
Proof.
  intros E. unfold ensure_user_volume in E. inv_world. case_match; inv_world.
  - split; [apply initialised_refl|]. eexists. split; [eassumption|done].
  - match goal with Hc : create_pda _ _ _ _ _ _ = _ |- _ =>
      destruct (created _ _ _ _ _ _ _ _ _ _ _ Hc E) as (Hz & Hk & Ho) end.
    split; [|by eexists]. intros k'. destruct (decide (k' = k)) as [->|]; [right|left; by apply Ho].
    split; [done|]. left. by do 3 eexists.
Qed.

(** Read back before the creations. *)
Lemma volume_back w w' k v : initialised w w' -> holds k (DVolume v) w' ->
  volume_of k v.(uv_owner) v.(uv_collateral_mint) v w.
Proof.
  intros Hi Hv. split; [done|]. split; [done|]. unfold holds in *. destruct (Hi k) as [E|(Hz & H)].
  - left. congruence.
  - right. split; [done|]. destruct H as [(o & m & b & E)|(m & b & E)]; unfold holds in E; rewrite Hv in E; [|done].
    by injection E as ->.
Qed.
Lemma treasury_back w w' k t : initialised w w' -> holds k (DTreasury t) w' ->
  treasury_of k t.(ft_collateral_mint) t w.
Proof.
  intros Hi Hv. split; [done|]. unfold holds in *. destruct (Hi k) as [E|(Hz & H)].
  - left. congruence.
  - right. split; [done|]. destruct H as [(o & m & b & E)|(m & b & E)]; unfold holds in E; rewrite Hv in E; [done|].
    by injection E as ->.
Qed.
Lemma schedule_back w w' k s : initialised w w' -> holds k (DFeeSchedule s) w' -> holds k (DFeeSchedule s) w.
Proof.
  intros Hi Hv. unfold holds in *. destruct (Hi k) as [E|(Hz & [(o & m & b & E)|(m & b & E)])]; [congruence|..];
    unfold holds in E; by rewrite Hv in E.
Qed.
Lemma initialised_keeps w w' k d : initialised w w' -> data_len d <> 0 -> holds k d w -> holds k d w'.
Proof. intros Hi Hd Hh. unfold holds in *. destruct (Hi k) as [E|[Hz _]]; [congruence|]. by rewrite Hh in Hz. Qed.

(** ** The charge *)

Lemma with_mut_else `{AccountType T} {A} k (m : M T A) w x w' k' d :
  with_mut k m w = (Ok x, w') -> k <> k' -> holds k' d w -> holds k' d w'.
Proof. intros (v & v' & _ & _ & ->)%with_mut_ok_inv Hk Hh. unfold holds. by rewrite acct_set_ne. Qed.
Lemma counts_mut k v c w u w' :
  with_mut k (add_volume c clock_slot) w = (Ok u, w') -> holds k (DVolume v) w -> counts k v c w'.
Proof.
  intros (v1 & v2 & Hd & E%counted_exact & ->)%with_mut_ok_inv Hh. unfold holds in Hh.
  rewrite Hh in Hd. injection Hd as <-. destruct E as [-> _]. eexists.
  split; [unfold holds; by rewrite acct_set_eq|by split_and!].
Qed.
Lemma counts_later k v c w w' : counts k v c w ->
  (forall v', holds k (DVolume v') w -> holds k (DVolume v') w') -> counts k v c w'.
Proof. intros (v' & Hv & Hr) Hk. exists v'. auto. Qed.
Lemma accrued_later k t n w w' : accrued k t n w ->
  (forall t', holds k (DTreasury t') w -> holds k (DTreasury t') w') -> accrued k t n w'.
Proof. intros (t' & Ht & Hr) Hk. exists t'. auto. Qed.

(** The treasury's step. *)
Lemma accrue_ok k t n w u w' : 0 <= n ->
  when (0 <? n) (with_mut k (accrue n)) w = (Ok u, w') -> holds k (DTreasury t) w ->
  accrued k t n w' /\ forall k' v, holds k' (DVolume v) w -> holds k' (DVolume v) w'.
Proof.
  intros Hn E Ht. destruct (Z.ltb_spec 0 n).
  - split; [|intros k' v Hv; by apply (with_mut_kept _ _ _ _ _ _ _ E Hv)].
    apply with_mut_ok_inv in E as (t1 & t2 & Hd & E & ->). unfold holds in Ht. rewrite Ht in Hd.
    injection Hd as <-. unfold accrue in E. inv_world. checked_facts. eexists.
    split; [unfold holds; by rewrite acct_set_eq|by split_and!].
  - injection E as _ <-. split; [|done]. exists t. split_and!; try done. lia.
Qed.

Lemma charge_pays ctx fc r mint c w fee w' : charge_taker ctx fc r mint c w = (Ok fee, w') ->
  charged (if r.(taker_is_long) then r.(long_trader) else r.(short_trader))
    (if r.(taker_is_long) then r.(short_trader) else r.(long_trader)) mint
    fc.(taker_volume_ai).(key) fc.(maker_volume_ai).(key) fc.(fee_treasury_ai).(key)
    fc.(fee_schedule_ai).(key) c fee w w'.
Proof.
  intros E. unfold charge_taker in E. inv_world.
  match goal with
  | Ha : ensure_fee_treasury _ _ _ w = _, Hb : with_mut fc.(taker_volume_ai).(key) _ ?w3 = (_, ?w4),
    Hc : with_mut fc.(maker_volume_ai).(key) _ ?w4 = _, Hd : when _ _ _ = _,
    He : ensure_user_volume _ fc.(taker_volume_ai).(key) _ _ _ _ = (_, ?w2),
    Hf : ensure_user_volume _ fc.(maker_volume_ai).(key) _ _ _ ?w2 = _,
    Hs : acc_data (acct ?w3 _) = inj (T := FeeSchedule) ?s,
    Hv : acc_data (acct ?w3 _) = inj (T := UserVolume) ?v |- _ =>
      rename Hb into E1, Hc into E2, Hd into E3, s into sched, v into tv, Hs into Hsched, Hv into Htv3;
      apply ensure_treasury_ok in Ha as (I1 & t & Ht & <-);
      apply ensure_volume_ok in He as (I2 & tv0 & Htv & Eo & Em);
      apply ensure_volume_ok in Hf as (I3 & mv & Hmv & Eo' & Em')
  end.
  pose proof (initialised_trans _ _ _ I2 I3) as I23. pose proof (initialised_trans _ _ _ I1 I23) as I.
  pose proof (initialised_keeps _ _ _ (DTreasury t) I23 ltac:(done) Ht) as Ht3.
  pose proof (initialised_keeps _ _ _ (DVolume tv0) I3 ltac:(done) Htv) as Htv0.
  assert (tv0 = tv) as -> by (unfold holds in Htv0; rewrite Htv3 in Htv0; by injection Htv0).
  clear Htv Htv0 Ht I1 I2 I3 I23.
  assert (Heff : effective_30d_volume tv clock_slot =
    Z.max (rolled tv clock_slot).(volume_current_atoms) (rolled tv clock_slot).(volume_prev_atoms)).
  { apply with_mut_ok_inv in E1 as (v1 & v1' & Hd1 & [_ C1]%counted_exact & _).
    rewrite Htv3 in Hd1. by injection Hd1 as <-. }
  pose proof (with_mut_kept _ _ _ _ _ _ _ E1 Ht3 eq_refl) as Ht4.
  pose proof (with_mut_kept _ _ _ _ _ _ _ E2 Ht4 eq_refl) as Ht5.
  destruct (accrue_ok _ _ _ _ _ _ (proj1 (Z.mod_pos_bound _ (2 ^ 64) eq_refl)) E3 Ht5) as [Hacc Hkeep].
  exists sched, tv, mv, t. split; [by eapply schedule_back|].
  split; [rewrite <- Eo, <- Em; by eapply volume_back|].
  split; [rewrite <- Eo', <- Em'; by eapply volume_back|].
  split; [by eapply treasury_back|]. split; [by rewrite <- Heff|]. split; [|done]. intros Hne.
  pose proof (with_mut_else _ _ _ _ _ _ _ E1 Hne Hmv) as Hmv4.
  split; (eapply counts_later; [|apply Hkeep]).
  - eapply counts_later; [by eapply counts_mut|]. intros v' Hv'.
    by apply (with_mut_else _ _ _ _ _ _ _ E2 (not_eq_sym Hne)).
  - by eapply counts_mut.
Qed.

(** ** The contract *)

(** The step after the fee writes two margin accounts and the new contract. *)
Lemma open_keeps ctx r inst id bump fee w u w' k d :
  open_position ctx r inst id bump fee w = (Ok u, w') -> data_len d <> 0 ->
  proj (T := MarginAccount) d = None -> holds k d w -> holds k d w'.
Proof.
  intros E Hd Hp Hk. unfold open_position in E. inv_world.
  match goal with
  | H1 : with_mut _ _ w = _, H2 : with_mut _ _ ?w1 = (_, ?w2), Hc : create_pda _ _ _ _ _ ?w2 = _ |- _ =>
      apply (with_mut_kept _ _ _ _ _ _ _ H1) in Hk; [|done];
      apply (with_mut_kept _ _ _ _ _ _ _ H2) in Hk; [|done];
      apply invoke_signed_ok_inv in Hc; pose proof (create_fresh _ _ _ _ _ _ _ _ Hc) as (_ & Hz & _)
  end.
  apply overwrite_ok_inv in E as ->. unfold holds in *.
  assert (Hne : k <> ctx.(pmlc_ai).(key)) by (intros ->; by rewrite Hk in Hz).
  rewrite acct_set_ne by done. match goal with Hc : invoke _ _ _ = _ |- _ =>
    by destruct (create_frame _ _ _ _ _ _ _ _ k Hc Hne) as [-> _] end.
Qed.
Lemma charged_nonneg taker maker mint tv mv t s c fee w w' :
  charged taker maker mint tv mv t s c fee w w' -> 0 <= fee.
Proof. intros (? & ? & ? & ? & _ & _ & _ & _ & -> & _). apply Z.mod_pos_bound. lia. Qed.
Lemma charged_later taker maker mint tv mv t s c fee w w1 w2 :
  charged taker maker mint tv mv t s c fee w w1 ->
  (forall k d, data_len d <> 0 -> proj (T := MarginAccount) d = None -> holds k d w1 -> holds k d w2) ->
  charged taker maker mint tv mv t s c fee w w2.
Proof.
  intros (sd & v1 & v2 & tr & Hs & H1 & H2 & Ht & Hf & Hc & Ha) Hk. exists sd, v1, v2, tr.
  split_and!; try done.
  - intros Hne. destruct (Hc Hne). split; (eapply counts_later; [done|]); intros; by apply Hk.
  - eapply accrued_later; [done|]. intros. by apply Hk.
Qed.

(** The contract a match writes: live, between the owners of the two offers, on the instrument's
    terms, at the floor of the average of the two limits, with its size in two words, and each
    offer's limit and wish to re-enter recorded. *)
Definition new_contract (inst_ai : Pubkey) (inst : InstrumentConfig) (lf sf : Offer) (p : Pmlc) : Prop :=
  let entry := (lf.(of_price) + sf.(of_price)) / 2 in
  p.(pm_status) = PMLC_STATUS_LIVE /\ p.(Governance.instrument) = inst_ai /\
  p.(pm_market_id) = inst.(ic_market_id) /\ p.(pm_collateral_mint) = inst.(ic_collateral_mint) /\
  p.(long_owner) = lf.(of_owner) /\ p.(short_owner) = sf.(of_owner) /\
  p.(collateral_per_side) = inst.(collateral_bucket) /\ p.(pm_leverage_bps) = inst.(leverage_bps) /\
  p.(entry_price_fp) = entry /\ entry <> 0 /\
  p.(size_fp_hi) * 2 ^ 64 + p.(size_fp_lo) =
    (inst.(collateral_bucket) * inst.(leverage_bps) / 10000 * 10 ^ 18 / entry) mod 2 ^ 128 /\
  p.(opened_slot) = clock_slot /\
  p.(long_reentry_price_fp) = lf.(of_price) /\ p.(short_reentry_price_fp) = sf.(of_price) /\
  p.(pm_flags) = (if Z.odd lf.(of_flags) then 1 else 0) + (if Z.odd sf.(of_flags) then 2 else 0).

Lemma flag_word a b :
  (if negb (Z.land b 1 =? 0) then Z.lor (if negb (Z.land a 1 =? 0) then Z.lor 0 1 else 0) 2
   else if negb (Z.land a 1 =? 0) then Z.lor 0 1 else 0) =
  (if Z.odd a then 1 else 0) + (if Z.odd b then 2 else 0).
Proof.
  rewrite !land_1, !Zmod_odd. by destruct (Z.odd a), (Z.odd b).
Qed.
Lemma size_two_words size : as_u 64 (Z.shiftr size 64) * 2 ^ 64 + as_u 64 size = size mod 2 ^ 128.
Proof.
  unfold as_u. rewrite Z.shiftr_div_pow2 by lia. change (2 ^ 128) with (2 ^ 64 * 2 ^ 64).
  rewrite Z.rem_mul_r by lia. lia.
Qed.
Lemma new_contract_written lf sf r inst_ai inst id bump notional size :
  r.(long_trader) = lf.(of_owner) -> r.(short_trader) = sf.(of_owner) ->
  r.(mr_entry_fp) = price_midpoint lf.(of_price) sf.(of_price) ->
  r.(long_reentry) = negb (Z.land lf.(of_flags) INTENT_FLAG_REENTRY =? 0) ->
  r.(short_reentry) = negb (Z.land sf.(of_flags) INTENT_FLAG_REENTRY =? 0) ->
  r.(long_price) = lf.(of_price) -> r.(short_price) = sf.(of_price) ->
  Fixed.notional_atoms inst.(collateral_bucket) inst.(leverage_bps) = Ok notional ->
  position_size_fp notional r.(mr_entry_fp) = Ok size ->
  new_contract inst_ai inst lf sf (new_pmlc r inst_ai inst id bump notional size).
Proof.
  intros Hl Hs He Hrl Hrs Hpl Hps Hn Hz. rewrite price_midpoint_exact in He.
  assert (Hne : r.(mr_entry_fp) <> 0)
    by (intros H0; unfold position_size_fp in Hz; by rewrite H0 in Hz).
  apply notional_atoms_ok in Hn as [_ ->]. apply position_size_fp_ok in Hz as [_ ->]; [|done].
  unfold new_contract. rewrite <- He. cbn [new_pmlc pm_status Governance.instrument pm_market_id pm_collateral_mint
    long_owner short_owner collateral_per_side pm_leverage_bps entry_price_fp size_fp_hi size_fp_lo opened_slot
    long_reentry_price_fp short_reentry_price_fp pm_flags].
  split_and!; try done.
  - apply size_two_words.
  - unfold reentry_flags. rewrite Hrl, Hrs. apply flag_word.
Qed.
End fees.
