(* ===== verification/Trades.v ===== *)
(** * What a trader's instruction does to the book and to the margins

    Posting, cancelling, matching, substituting, novating, depositing and withdrawing: for a
    successful run, the exact change of the map of offers together with the exact change of every
    margin account. *)
From S2P Require Import Prelude Fixed IntentBook Ledger Governance Attestation World Footprint Solvency MatchIx Intent Settlement Lifecycle BookInvariant BookShape OrderBook Authority Custody Dispatch Demo DemoWorld Market BookHistory Conservation Balances Effects Fees.

Section trades.
Context {R : Runtime} {L : RuntimeLaws}.

(** A book operation that succeeded, by what it means. *)
Lemma book_run {A} k (m : M Book A) b Q w a w' :
  holds k (DBook b) w -> outcome m b Q -> with_mut k m w = (Ok a, w') ->
  exists b', Q a b' /\ holds k (DBook b') w' /\ moved [] w w'.
Proof.
  intros Hb HQ E. assert (Hm : moved [] w w').
  { refine (moved_mut_other _ _ _ _ _ _ E). other_write. }
  apply with_mut_ok_inv in E as (b0 & b' & Hb0 & E & ->). unfold holds in Hb.
  rewrite Hb in Hb0. injection Hb0 as <-. exists b'. unfold outcome in HQ. rewrite E in HQ.
  split_and!; [done| |done]. unfold holds. by rewrite acct_set_eq.
Qed.

(** The write of a margin account tells whose it is. *)
Lemma margin_checked k o m bump (f : unit -> M MarginAccount unit) w u w' :
  with_mut k (check_margin o m bump ≫= f) w = (Ok u, w') -> (acct w k).(acc_owner) = program_id ->
  margin_of k o m w.
Proof.
  intros (a & a' & Hd & E & _)%with_mut_ok_inv Ho. unfold check_margin in E. inv_world.
  by eexists.
Qed.
Lemma margin_checked_owner k o m (f : unit -> M MarginAccount unit) w u w' :
  with_mut k (check_owner_mint o m ≫= f) w = (Ok u, w') -> (acct w k).(acc_owner) = program_id ->
  margin_of k o m w.
Proof.
  intros (a & a' & Hd & E & _)%with_mut_ok_inv Ho. unfold check_owner_mint in E. inv_world.
  by eexists.
Qed.

(** It was whose it is before any other write, and before a bucket write. *)
Lemma margin_of_back `{AccountType T} {A} k (m : M T A) x w w' k' o mint :
  with_mut k m w = (Ok x, w') -> (forall a, proj (T := T) (DMargin a) = None) ->
  (acct w k').(acc_owner) = program_id -> margin_of k' o mint w' -> margin_of k' o mint w.
Proof.
  intros E Hp Ho (a & [Ha _] & Hao). exists a. split; [|done]. split; [|done].
  by apply (with_mut_back _ _ _ _ _ _ _ E Ha).
Qed.
Lemma margin_of_shift k op df dr dl u w w' k' o mint :
  with_mut k op w = (Ok u, w') -> shifts op df dr dl ->
  margin_of k' o mint w' -> margin_of k' o mint w.
Proof.
  intros (a & a' & Hd & E & ->)%with_mut_ok_inv Hs (v & [Hv Ho] & E1 & E2).
  apply Hs in E as (_ & F1 & F2 & _). unfold margin_of, margin_at, holds in *.
  rewrite owner_set in Ho. destruct (decide (k = k')) as [<-|Hne].
  - rewrite acct_set_eq in Hv. injection Hv as <-. exists a. split_and!; [done..|congruence|congruence].
  - rewrite acct_set_ne in Hv by done. by exists v.
Qed.

(** ** Cancelling *)

(** C15: a cancellation that succeeds takes exactly one offer off the instrument's book: its
    owner signed, or it has expired. The whole reservation of the offer, fee buffer included,
    goes back from the reserved to the free balance of the offer's owner, and no other margin
    account changes. *)
Theorem cancel_refunds caller inst_ai book margin rest id b w w' :
  holds book.(key) (DBook b) w -> whole b ->
  process_cancel_intent (caller :: inst_ai :: book :: margin :: rest) id w = (Ok tt, w') ->
  exists inst f b',
    holds inst_ai.(key) (DInstrument inst) w /\ inst.(intent_book) = book.(key) /\
    offers b !! id = Some f /\ caller.(is_signer) = true /\
    (caller.(key) = f.(of_owner) \/ f.(of_expiry) <= clock_slot) /\
    holds book.(key) (DBook b') w' /\ offers b' = delete id (offers b) /\
    margin_of margin.(key) f.(of_owner) inst.(ic_collateral_mint) w /\
    moved [(margin.(key), shift (f.(of_reserved) + f.(of_fee)) (- (f.(of_reserved) + f.(of_fee))) 0)] w w'.
Proof.
  intros Hb Hw E. unfold process_cancel_intent in E. handler_run.
  match goal with
  | Hm : with_mut _ (cancel_on_book _ ?mint _ _) _ = _, Hi : acc_data (acct w inst_ai.(key)) = inj ?i |- _ =>
      pose proof (book_run _ _ _ _ _ _ _ Hb (cancel_refines b id mint margin.(key)
        (owner_or_expired caller.(key)) Hw (fun o e => bail_is_check _ _)) Hm)
        as (b' & (Hw' & Hoff & f & Hf & -> & -> & _ & Hauth) & Hb' & Hm0);
      exists i, f, b'; rename Hm into Ecancel;
      assert (Hmo : margin_of margin.(key) f.(of_owner) mint w)
  end.
  { apply (margin_of_back _ _ _ _ _ _ _ _ Ecancel); [done|done|].
    eapply margin_checked; [exact E|]. by rewrite (with_mut_owner _ _ _ _ _ _ Ecancel). }
  split_and!; try done.
  - unfold owner_or_expired in Hauth.
    apply bail_if_ok_inv in Hauth as [[H1|H1]%andb_false_iff _]; apply negb_false_iff in H1; [left|right]; lia.
  - by apply (with_mut_kept _ _ _ _ _ _ _ E Hb').
  - clear Ecancel. eapply moved_eq; [follow|done].
Qed.

(** ** Posting *)

(** The offer a post adds. *)
Definition new_offer (owner : Pubkey) (args : PostIntentArgs) (seq reserve fee : Z) : Offer :=
  {| of_owner := owner; of_side := args.(pa_side);
     of_flags := if negb (args.(pa_reentry_enabled) =? 0) then INTENT_FLAG_REENTRY else 0;
     of_price := args.(pa_price_fp); of_total := args.(pa_contracts);
     of_left := args.(pa_contracts); of_expiry := args.(pa_expiration_slot); of_seq := seq;
     of_reserved := reserve; of_fee := fee |}.

(** A refund is a sum of [u64]s. *)
Lemma apply_prunes_nonneg prunes refund b r b' :
  0 <= refund -> apply_prunes prunes refund b = (Ok r, b') -> 0 <= r.
Proof.
  revert refund b. induction prunes as [|[[side idx] total] prunes IH]; intros refund b Hr E.
  - by injection E as <- <-.
  - cbn [apply_prunes] in E. inv_world.
    match goal with H : checked _ _ = Some _, E : apply_prunes _ _ _ = _ |- _ =>
      apply checked_some in H; by apply IH in E; [|lia] end.
Qed.
Lemma prune_own_nonneg owner now b r b' : prune_own owner now b = (Ok r, b') -> 0 <= r.
Proof.
  unfold prune_own. intros E. apply bind_ok_inv in E as (i & b1 & _ & E). case_match; inv_world; [|lia].
  by eapply apply_prunes_nonneg; [|eassumption].
Qed.

(** The fee buffer of a post: the highest tier's fee on the whole collateral. *)
Lemma fee_buffer_exact n bucket bps fee : fee_buffer_for n bucket bps = Ok fee ->
  fee = n * bucket * bps / 10000 /\ is_u64 fee.
Proof.
  unfold fee_buffer_for, opt_ok_or. intros E. case_match eqn:Eo; [|done]. injection E as <-.
  apply bind_Some in Eo as (v & [-> _]%checked_some & Eo).
  apply bind_Some in Eo as (v & [-> _]%checked_some & Eo). cbn in Eo.
  by apply checked_some in Eo as [-> ?].
Qed.

(** C14: a post with no inline match that succeeds was signed by the owner of the margin
    account, drops some of that owner's own expired offers and adds one under a fresh id,
    exactly as asked. What the dropped offers held is freed, and [contracts * bucket] and the
    fee buffer, the book's highest fee on that collateral, are reserved; no other margin account
    changes. *)
Theorem post_reserves owner cfg inst_ai book margin rest args b w w' :
  holds book.(key) (DBook b) w -> whole b -> args.(pa_try_match) = 0 ->
  process_post_intent (owner :: cfg :: inst_ai :: book :: margin :: rest) args w = (Ok tt, w') ->
  exists inst b' ids id seq fee,
    let reserve := args.(pa_contracts) * inst.(collateral_bucket) in
    let refund := held (offers b) ids in
    fee = reserve * b.(header).(cached_max_fee_bps) / 10000 /\
    holds inst_ai.(key) (DInstrument inst) w /\ inst.(intent_book) = book.(key) /\
    owner.(is_signer) = true /\ clock_slot < args.(pa_expiration_slot) /\
    Forall (prunes b owner.(key) clock_slot) ids /\ NoDup ids /\
    foldr delete (offers b) ids !! id = None /\
    holds book.(key) (DBook b') w' /\
    offers b' = <[id := new_offer owner.(key) args seq reserve fee]> (foldr delete (offers b) ids) /\
    margin_of margin.(key) owner.(key) inst.(ic_collateral_mint) w /\
    moved [(margin.(key), shift (refund - (reserve + fee)) (reserve + fee - refund) 0)] w w'.
Proof.
  intros Hb Hw Ht E. unfold process_post_intent, do_post_intent_inner, validate_post in E.
  rewrite Ht in E. cbn [Z.eqb negb when] in E. handler_run.
  match goal with
  | Hp : with_mut _ (prune_own ?o ?t) w = (Ok ?r, ?w1), Hm : with_mut _ (reserve_margin _ ?mint _ _ _) ?w1 = (_, ?w2),
    Hi : with_mut _ (place_intent _ ?s ?f ?p ?n ?e ?res ?fee) ?w2 = _ |- _ =>
      destruct (book_run _ _ _ _ _ _ _ Hb (prune_own_refines b o t Hw) Hp)
        as (b1 & (Hw1 & ids & _ & Hnd & Hpr & Hoff1 & Hrefund) & Hb1 & Hm1);
      pose proof (with_mut_kept _ _ _ _ _ _ _ Hm Hb1 ltac:(done)) as Hb2;
      destruct (book_run _ _ _ _ _ _ _ Hb2 (place_refines b1 o s f p n e res fee Hw1 (sides_ok _ ltac:(done))) Hi)
        as (b2 & (_ & _ & Hid & Hfresh & Hoff2) & Hb3 & Hm2);
      rename Hp into Ep, Hm into Em; clear Hi
  end.
  unfold holds in Hb. match goal with H : acc_data (acct w book.(key)) = inj ?b0 |- _ =>
    rewrite H in Hb; injection Hb as -> end.
  repeat match goal with H : checked _ _ = Some _ |- _ => apply checked_some in H as [-> ?] end.
  match goal with H : fee_buffer_for _ _ _ = Ok _ |- _ => apply fee_buffer_exact in H as [Hfee _] end.
  rewrite Hoff1 in *. eexists _, _, ids, _, _, _. cbv zeta. split; [exact Hfee|]. split_and!; try eassumption.
  - apply (margin_of_back _ _ _ _ _ _ _ _ Ep); [done|done|].
    eapply margin_checked; [exact Em|]. by rewrite (with_mut_owner _ _ _ _ _ _ Ep).
  - assert (Hr : 0 <= held (offers b) ids).
    { rewrite <- Hrefund. apply with_mut_ok_inv in Ep as (? & ? & _ & Ep & _).
      by eapply prune_own_nonneg. }
    clear Ep. eapply moved_eq; [follow|]. subst. destruct (Z.ltb_spec 0 (held (offers b) ids)); same_shifts.
Qed.

(** ** Novating *)

(** One side of a contract passes from its owner to another; the other side's owner, the
    status, the flags and the terms stay. *)
Definition side_passes (side : Z) (current new : Pubkey) (p p' : Pmlc) : Prop :=
  (side = SIDE_LONG /\ p.(long_owner) = current /\ p'.(long_owner) = new /\
     p'.(short_owner) = p.(short_owner) \/
   side = SIDE_SHORT /\ p.(short_owner) = current /\ p'.(short_owner) = new /\
     p'.(long_owner) = p.(long_owner)) /\
  p'.(pm_status) = p.(pm_status) /\ p'.(close_reason) = p.(close_reason) /\
  p'.(pm_flags) = p.(pm_flags) /\ p'.(last_mark_slot) = clock_slot /\ same_terms p p'.

Lemma handed side o new k p w u w' :
  with_mut k (modify (hand_over side new clock_slot)) w = (Ok u, w') -> holds k (DPmlc p) w ->
  side = SIDE_LONG \/ side = SIDE_SHORT -> owner_of_side side p = o ->
  exists p', holds k (DPmlc p') w' /\ side_passes side o new p p'.
Proof.
  intros (q & q' & Hq & [= _ <-] & ->)%with_mut_ok_inv Hp Hs Ho. unfold holds in Hp. rewrite Hp in Hq.
  injection Hq as <-. eexists. split; [unfold holds; by rewrite acct_set_eq|]. unfold side_passes.
  destruct Hs as [-> | ->]; (split; [|by split_and!]); [left|right]; done.
Qed.

(** C28: a novation that succeeds was signed by both traders: one side of a live contract passes
    from its owner to the other, whose free balance now backs it, and the owner's collateral is
    unlocked. The other side's owner, the contract's flags and terms and every other margin
    account stay. *)
Theorem novation_hands_over current new cfg inst_ai pmlc current_margin new_margin rest side w w' :
  process_novate (current :: new :: cfg :: inst_ai :: pmlc :: current_margin :: new_margin :: rest)
    side w = (Ok tt, w') ->
  exists p p',
    let c := p.(collateral_per_side) in
    let mint := p.(pm_collateral_mint) in
    holds pmlc.(key) (DPmlc p) w /\ p.(pm_status) = PMLC_STATUS_LIVE /\
    current.(is_signer) = true /\ new.(is_signer) = true /\
    holds pmlc.(key) (DPmlc p') w' /\ side_passes side current.(key) new.(key) p p' /\
    margin_of current_margin.(key) current.(key) mint w /\
    margin_of new_margin.(key) new.(key) mint w /\
    moved [(current_margin.(key), shift c 0 (- c)); (new_margin.(key), shift (- c) 0 c)] w w'.
Proof.
  intros E. unfold process_novate in E. handler_run.
  match goal with
  | Hp : acc_data (acct w pmlc.(key)) = inj (T := Pmlc) ?p, Hl : require_live ?p = _,
    H1 : with_mut current_margin.(key) _ w = _, H2 : with_mut new_margin.(key) _ _ = _ |- _ =>
      rename H1 into E1, H2 into E2, Hp into Hc; exists p;
      assert (Hlive : p.(pm_status) = PMLC_STATUS_LIVE)
        by (unfold require_live in Hl; by destruct (Z.eqb_spec p.(pm_status) PMLC_STATUS_LIVE))
  end.
  pose proof (with_mut_kept _ _ _ _ _ _ _ E1 Hc ltac:(done)) as Hc1.
  pose proof (with_mut_kept _ _ _ _ _ _ _ E2 Hc1 ltac:(done)) as Hc2.
  destruct (handed side current.(key) new.(key) _ _ _ _ _ E Hc2) as (p' & Hp' & Hpass);
    [by apply sides_ok|congruence|].
  exists p'. cbv zeta. split; [done|]. split; [done|]. split; [done|]. split; [done|]. split; [done|].
  split; [done|]. split_and!.
  - by eapply margin_checked_owner.
  - eapply margin_of_shift; [exact E1|solve [eauto with shifts]|]. eapply margin_checked_owner; [exact E2|].
    by rewrite (with_mut_owner _ _ _ _ _ _ E1).
  - eapply moved_eq; [follow|same_shifts].
Qed.

(** ** Deposits and withdrawals *)

(** A deposit that succeeds was signed by the owner, pulled exactly the amount into the
    canonical vault of the mint, and credits the owner's margin account with it and nothing
    else. *)
Theorem deposit_credits owner margin mint ata vault token rest amount w w' :
  process_deposit (owner :: margin :: mint :: ata :: vault :: token :: rest) amount w = (Ok tt, w') ->
  let authority := fst (find_program_address [SEED_VAULT; key_seed mint.(key)]) in
  amount <> 0 /\ owner.(is_signer) = true /\
  vault.(key) = get_associated_token_address authority mint.(key) /\
  margin_of margin.(key) owner.(key) mint.(key) w /\
  (exists w1, invoke (TokenTransfer ata.(key) vault.(key) owner.(key) amount) [] w = Some w1) /\
  moved [(margin.(key), shift amount 0 0)] w w'.
Proof.
  intros E. unfold process_deposit, require_token_program, validate_vault in E. handler_run.
  match goal with H : find_program_address [SEED_VAULT; _] = _ |- _ => rewrite H end.
  cbv zeta. split_and!; try done.
  - eexists. split; [split; [eassumption|done]|done].
  - by eexists.
  - eapply moved_eq; [follow|done].
Qed.

(** C25: a withdrawal that succeeds was signed by the account's owner, takes no more than the
    free balance (reserved and locked collateral stay), and pays exactly that amount out of the
    mint's canonical vault; no other margin account changes. *)
Theorem withdrawal_debits owner margin mint ata vault authority token rest amount w w' :
  process_withdraw (owner :: margin :: mint :: ata :: vault :: authority :: token :: rest) amount w
    = (Ok tt, w') ->
  exists m w1 bump,
    amount <> 0 /\ owner.(is_signer) = true /\
    margin_at margin.(key) m w /\ m.(ma_owner) = owner.(key) /\ m.(ma_collateral_mint) = mint.(key) /\
    amount <= m.(free_collateral) /\
    find_program_address [SEED_VAULT; key_seed mint.(key)] = (authority.(key), bump) /\
    vault.(key) = get_associated_token_address authority.(key) mint.(key) /\
    w1 = set_data margin.(key) (DMargin (set_free (m.(free_collateral) - amount) m)) w /\
    invoke (TokenTransfer vault.(key) ata.(key) authority.(key) amount)
      [SEED_VAULT; key_seed mint.(key); [bump]] w1 = Some w' /\
    moved [(margin.(key), shift (- amount) 0 0)] w w'.
Proof.
  intros E. unfold process_withdraw, require_token_program, validate_vault in E. handler_run.
  match goal with H : with_mut margin.(key) _ w = _ |- _ => rename H into Em end.
  assert (Hm : moved [(margin.(key), shift (- amount) 0 0)] w w').
  { pose proof Em as Em'. eapply moved_eq; [follow|done]. }
  apply with_mut_ok_inv in Em as (m & m' & Hd & Em & ->). unfold check_margin, debit_free in Em. inv_world.
  match goal with H : checked _ _ = Some _ |- _ => apply checked_some in H as [-> ?] end.
  eexists m, _, _. cbn [id] in *. split_and!; try eassumption; try done. lia.
Qed.

(** ** Matching *)

Ltac unmoved_step :=
  first
  [ world_step
  | lazymatch goal with
    | |- respects (moved []) (with_mut _ _) => apply moved_mut_other; other_write
    | |- respects (moved []) (init_account _ _) => apply moved_init
    | |- respects (moved []) (create_pda _ _ _ _ _) => apply moved_invoke
    end ].

Lemma unmoved_ensure_treasury p t m : respects (moved []) (ensure_fee_treasury p t m).
Proof. unfold ensure_fee_treasury. repeat unmoved_step. Qed.
Lemma unmoved_ensure_volume p v o m now : respects (moved []) (ensure_user_volume p v o m now).
Proof. unfold ensure_user_volume. repeat unmoved_step. Qed.
Lemma unmoved_charge ctx fc r m c : respects (moved []) (charge_taker ctx fc r m c).
Proof.
  unfold charge_taker.
  repeat first [apply unmoved_ensure_treasury | apply unmoved_ensure_volume | unmoved_step].
Qed.

Lemma settle_margin_moves c buf fee b :
  0 <= buf ->
  shifts (settle_margin c buf fee b) (buf - (if b && (0 <? fee) then fee else 0)) (- c - buf) c.
Proof.
  intros Hb. eapply shifts_eq; [unfold settle_margin; eauto 10 with shifts|..];
    destruct (Z.ltb_spec 0 buf), (b && (0 <? fee)); lia.
Qed.
Lemma open_moves ctx r inst id bump fee w u w' :
  0 <= fee -> 0 <= r.(fee_buf_release_long) -> 0 <= r.(fee_buf_release_short) ->
  open_position ctx r inst id bump fee w = (Ok u, w') ->
  let c := r.(n_contracts) * inst.(collateral_bucket) in
  moved [(ctx.(long_margin_ai).(key),
          shift (r.(fee_buf_release_long) - (if r.(taker_is_long) then fee else 0))
            (- c - r.(fee_buf_release_long)) c);
         (ctx.(short_margin_ai).(key),
          shift (r.(fee_buf_release_short) - (if r.(taker_is_long) then 0 else fee))
            (- c - r.(fee_buf_release_short)) c)] w w' /\
  exists notional size, Fixed.notional_atoms inst.(collateral_bucket) inst.(leverage_bps) = Ok notional /\
    position_size_fp notional r.(mr_entry_fp) = Ok size /\
    holds ctx.(pmlc_ai).(key) (DPmlc (new_pmlc r ctx.(instrument_ai).(key) inst id bump notional size)) w'.
Proof.
  intros Hf Hl Hs E c. unfold open_position in E. inv_world.
  match goal with
  | Hc : create_pda _ _ _ _ _ _ = (Ok _, _) |- _ =>
      pose proof (moved_invoke _ _ _ _ _ Hc) as Hm;
      apply invoke_signed_ok_inv, create_fresh in Hc as (_ & _ & Hz & _)
  end.
  apply overwrite_ok_inv in E as ->. split; [|do 2 eexists; split_and!; [done..|by unfold holds; rewrite acct_set_eq]].
  eapply moved_eq.
  - repeat match goal with
    | H : with_mut _ (settle_margin ?c ?b ?f ?t) ?w = (Ok _, _) |- moved _ ?w _ =>
        eapply moved_trans; [eapply moved_mut; [|exact H]; by apply settle_margin_moves|clear H]
    end.
    eapply moved_trans; [exact Hm|]. apply moved_set_other. intros m. by rewrite Hz.
  - assert (He : (if (0 <? fee) then fee else 0) = fee) by (destruct (Z.ltb_spec 0 fee); lia).
    intros k. cbn [app]. fold c. destruct (taker_is_long r); cbn [andb negb]; rewrite ?He; reflexivity.
Qed.

(** Writing back what is there changes nothing. *)
Lemma set_data_same k d w : (acct w k).(acc_data) = d -> d <> no_account.(acc_data) -> set_data k d w = w.
Proof.
  unfold set_data, acct. intros Hd Hn. destruct (w !! k) as [a|] eqn:E; [|by destruct Hn].
  cbn in *. apply insert_id. rewrite E. subst. by destruct a.
Qed.

(** The numbers of an offer are unsigned. *)
Definition unsigned_offers (b : Book) : Prop :=
  forall id f, offers b !! id = Some f -> 0 <= f.(of_left) /\ 0 <= f.(of_fee).
Lemma released_nonneg f : 0 <= f.(of_left) -> 0 <= f.(of_fee) -> 0 <= released f.
Proof.
  intros Hl Hf. unfold released. case_match; [done|]. destruct (decide (f.(of_left) = 0)) as [->|].
  - by rewrite Zdiv_0_r.
  - apply Z.div_pos; lia.
Qed.

(** No step after the fill touches a book. *)
Definition books_fixed (w w' : World) : Prop :=
  forall k b, holds k (DBook b) w -> holds k (DBook b) w'.
Instance books_fixed_preorder : PreOrder books_fixed.
Proof. split; [by intros w k b|]. intros w1 w2 w3 H1 H2 k b Hk. by apply H2, H1. Qed.
Lemma fixed_set k d w : (forall b, (acct w k).(acc_data) <> DBook b) -> books_fixed w (set_data k d w).
Proof.
  intros Hn k' b Hk. unfold holds in *. assert (k <> k') by (intros ->; by apply (Hn b)).
  by rewrite acct_set_ne.
Qed.
Lemma fixed_create p n space seeds bump : respects books_fixed (create_pda p n space seeds bump).
Proof.
  apply respects_invoke; [exact _|]. intros w w' E k b Hk. destruct (decide (k = n)) as [->|Hne].
  - apply create_fresh in E as (_ & Hz & _). unfold holds in Hk. rewrite Hk in Hz.
    unfold data_len, intent_book_byte_size, INTENT_BOOK_HEADER_LEN, NODE_SIZE in Hz. lia.
  - destruct (create_frame _ _ _ _ _ _ _ _ k E Hne) as [Ed _]. unfold holds in *. by rewrite Ed.
Qed.
Lemma fixed_init `{AccountType T} k (v : T) : respects books_fixed (init_account k v).
Proof. apply respects_init_account; [exact _|]. intros w bs Hd. apply fixed_set. by rewrite Hd. Qed.
Lemma fixed_mut `{AccountType T} {A} k (m : M T A) :
  (forall (v : T) b, inj v <> DBook b) -> respects books_fixed (with_mut k m).
Proof.
  intros Hn. apply respects_with_mut; [exact _|]. intros w v r v' Hd _. apply fixed_set.
  rewrite Hd. apply Hn.
Qed.
Ltac fixed_tac :=
  repeat first
  [ world_step
  | lazymatch goal with
    | |- respects books_fixed (with_mut _ _) => apply fixed_mut; other_write
    | |- respects books_fixed (init_account _ _) => apply fixed_init
    | |- respects books_fixed (create_pda _ _ _ _ _) => apply fixed_create
    end ].
Lemma fixed_ensure_treasury p t m : respects books_fixed (ensure_fee_treasury p t m).
Proof. unfold ensure_fee_treasury. fixed_tac. Qed.
Lemma fixed_ensure_volume p v o m now : respects books_fixed (ensure_user_volume p v o m now).
Proof. unfold ensure_user_volume. fixed_tac. Qed.
Lemma fixed_charge ctx fc r m c : respects books_fixed (charge_taker ctx fc r m c).
Proof.
  unfold charge_taker. fixed_tac; first [apply fixed_ensure_treasury | apply fixed_ensure_volume].
Qed.
Lemma fixed_open ctx r inst id bump fee w u w' :
  open_position ctx r inst id bump fee w = (Ok u, w') -> books_fixed w w'.
Proof.
  intros E. unfold open_position in E. inv_world.
  match goal with
  | H1 : with_mut _ _ w = _, H2 : with_mut _ _ ?w1 = (_, ?w2), Hc : create_pda _ _ _ _ _ ?w2 = _ |- _ =>
      pose proof (fixed_create _ _ _ _ _ _ _ _ Hc);
      apply invoke_signed_ok_inv, create_fresh in Hc as (_ & _ & Hz & _);
      assert (books_fixed w w2)
        by (etrans; [refine (fixed_mut _ _ _ _ _ _ H1) | refine (fixed_mut _ _ _ _ _ _ H2)]; other_write)
  end.
  apply overwrite_ok_inv in E as ->. etrans; [done|]. etrans; [done|]. apply fixed_set. by rewrite Hz.
Qed.

(** What a match of these two offers at these accounts amounts to. *)
Definition opens_contract (inst_ai book long short pmlc : Pubkey) (fc : FeeCtx) (long_id short_id : Z)
    (b : Book) (w w' : World) : Prop :=
  exists inst lf sf b' fee p,
    let c := inst.(collateral_bucket) in
    let mint := inst.(ic_collateral_mint) in
    let taker_long := sf.(of_seq) <? lf.(of_seq) in
    let taker := if taker_long then lf.(of_owner) else sf.(of_owner) in
    let maker := if taker_long then sf.(of_owner) else lf.(of_owner) in
    (holds inst_ai (DInstrument inst) w /\ inst.(intent_book) = book) /\
    (offers b !! long_id = Some lf /\ offers b !! short_id = Some sf /\
     crosses clock_slot lf sf /\ c <= lf.(of_reserved) /\ c <= sf.(of_reserved)) /\
    (holds book (DBook b') w' /\
     offers b' = fill_map short_id c (released sf) (fill_map long_id c (released lf) (offers b))) /\
    (holds pmlc (DPmlc p) w' /\ new_contract inst_ai inst lf sf p) /\
    charged taker maker mint fc.(taker_volume_ai).(key) fc.(maker_volume_ai).(key)
      fc.(fee_treasury_ai).(key) fc.(fee_schedule_ai).(key) c fee w w' /\
    margin_of long lf.(of_owner) mint w /\ margin_of short sf.(of_owner) mint w /\
    moved [(long, shift (released lf - (if taker_long then fee else 0)) (- c - released lf) c);
           (short, shift (released sf - (if taker_long then 0 else fee)) (- c - released sf) c)] w w'.

(** Fee accounts are read back before the book's write. *)
Lemma charged_before taker maker mint tv mv t s c fee k (m : M Book (MatchResult * Z * Z)) x w w1 w' :
  with_mut k m w = (Ok x, w1) -> charged taker maker mint tv mv t s c fee w1 w' ->
  charged taker maker mint tv mv t s c fee w w'.
Proof.
  intros E (sd & v1 & v2 & tr & Hs & (O1 & M1 & H1) & (O2 & M2 & H2) & (Mt & Ht) & Hr).
  assert (Hb : forall k' d, proj (T := Book) d = None -> holds k' d w1 -> holds k' d w)
    by (intros k' d Hp Hh; by apply (with_mut_back (T := Book) _ _ _ _ _ _ _ E Hh)).
  assert (Hz : forall k', data_len (acct w1 k').(acc_data) = 0 -> data_len (acct w k').(acc_data) = 0).
  { intros k' Hz. apply with_mut_ok_inv in E as (b & b' & Hd & _ & ->).
    destruct (decide (k = k')) as [<-|Hne]; [|by rewrite acct_set_ne in Hz].
    rewrite acct_set_eq in Hz. cbn in Hz.
    unfold intent_book_byte_size, INTENT_BOOK_HEADER_LEN, NODE_SIZE in Hz. lia. }
  exists sd, v1, v2, tr. split; [by apply Hb|].
  split; [split_and!; try done; destruct H1 as [H1|(H1 & Hi)]; [left; by apply Hb|right; eauto]|].
  split; [split_and!; try done; destruct H2 as [H2|(H2 & Hi)]; [left; by apply Hb|right; eauto]|].
  split; [split_and!; try done; destruct Ht as [Ht|(Ht & Hi)]; [left; by apply Hb|right; eauto]|]. done.
Qed.

Lemma core_opens ctx fc long_id short_id n b w u w' :
  holds ctx.(book_ai).(key) (DBook b) w -> whole b -> unsigned_offers b ->
  ctx.(fee_ctx) = Some fc ->
  (acct w ctx.(long_margin_ai).(key)).(acc_owner) = program_id ->
  (acct w ctx.(short_margin_ai).(key)).(acc_owner) = program_id ->
  match_pair_core ctx long_id short_id n w = (Ok u, w') ->
  opens_contract ctx.(instrument_ai).(key) ctx.(book_ai).(key) ctx.(long_margin_ai).(key)
    ctx.(short_margin_ai).(key) ctx.(pmlc_ai).(key) fc long_id short_id b w w'.
Proof.
  intros Hb Hw Hu Hfc Hol Hos E. unfold match_pair_core, settle_match in E. rewrite Hfc in E. inv_world.
  match goal with
  | Hm : with_mut _ (match_on_book ?i ?p ?c ?l ?s) w = _, H5 : Some fc = Some _, Hc : charge_taker _ _ _ _ _ _ = _ |- _ =>
      injection H5 as <-; rename Hm into Em, Hc into Ec;
      destruct (book_run _ _ _ _ _ _ _ Hb (match_refines b i p c l s Hw) Em)
        as (b' & (_ & lf & sf & Hl & Hs & Hx & Hrl & Hrs & _ & -> & Hoff) & Hb' & Hm0)
  end.
  destruct (Hu _ _ Hl), (Hu _ _ Hs). cbn [n_contracts] in *. rewrite Z.mul_1_l in *.
  pose proof (unmoved_charge _ _ _ _ _ _ _ _ Ec) as Hm1. pose proof (fixed_charge _ _ _ _ _ _ _ _ Ec) as Hk1.
  pose proof (charge_pays _ _ _ _ _ _ _ _ Ec) as Hch.
  pose proof (charged_nonneg _ _ _ _ _ _ _ _ _ _ _ Hch) as Hfee.
  pose proof (fixed_open _ _ _ _ _ _ _ _ _ E) as Hk2.
  apply (charged_later _ _ _ _ _ _ _ _ _ _ _ w') in Hch; [|intros k d; by apply (open_keeps _ _ _ _ _ _ _ _ _ k d E)].
  apply (charged_before _ _ _ _ _ _ _ _ _ _ _ _ _ _ _ Em) in Hch.
  apply open_moves in E as (Hm2 & notional & size & Hn & Hz & Hp); [|done|by apply released_nonneg..].
  cbn [long_trader short_trader n_contracts fee_buf_release_long fee_buf_release_short taker_is_long] in Hm2, Hch.
  rewrite Z.mul_1_l in Hm2.
  eexists _, lf, sf, b', _, _. cbv zeta. split; [done|]. split; [done|]. split; [split; [by apply Hk2, Hk1|done]|].
  split; [split; [exact Hp|by eapply new_contract_written]|]. split; [exact Hch|]. split_and!.
  - apply (margin_of_back _ _ _ _ _ _ _ _ Em); [done|done|]. eexists. split; [split; [done|]|done].
    by rewrite (with_mut_owner _ _ _ _ _ _ Em).
  - apply (margin_of_back _ _ _ _ _ _ _ _ Em); [done|done|]. eexists. split; [split; [done|]|done].
    by rewrite (with_mut_owner _ _ _ _ _ _ Em).
  - clear Em. eapply moved_eq; [follow|done].
Qed.

(** [MatchBestAvailable] matches the best live bid with the best live ask, by price and then
    by age, with all that a match of the two does. *)
Theorem best_match_opens_contract payer inst_ai book long short pmlc sys sched taker_vol maker_vol treasury
    rest b w w' :
  holds book.(key) (DBook b) w -> whole b -> spannable b -> unsigned_offers b ->
  process_match_best_available (payer :: inst_ai :: book :: long :: short :: pmlc :: sys :: sched
                                  :: taker_vol :: maker_vol :: treasury :: rest) w = (Ok tt, w') ->
  exists long_id short_id lf sf,
    offers b !! long_id = Some lf /\ offers b !! short_id = Some sf /\
    best SIDE_LONG clock_slot (offers b) lf /\ best SIDE_SHORT clock_slot (offers b) sf /\
    opens_contract inst_ai.(key) book.(key) long.(key) short.(key) pmlc.(key)
      {| fee_schedule_ai := sched; taker_volume_ai := taker_vol; maker_volume_ai := maker_vol;
         fee_treasury_ai := treasury |} long_id short_id b w w'.
Proof.
  intros Hb Hw Hl Hu E. unfold process_match_best_available in E.
  apply bind_ok_inv in E as (ctx & w1 & Hc & E).
  pose proof (unpack_margins _ _ _ _ Hc) as (-> & Hol & Hos). unfold unpack_accounts in Hc. handler_run.
  match goal with H : with_mut _ (scan_for_first_valid_pair _) _ = _ |- _ => rename H into Es end.
  apply with_mut_ok_inv in Es as (b0 & b1 & Hb0 & Es & Ew). unfold holds in Hb. cbn [book_ai] in *.
  rewrite Hb in Hb0. injection Hb0 as <-.
  pose proof (scan_best b clock_slot Hw Hl) as Hscan. apply runs_ok in Hscan as (r & b2 & Er & -> & Hr).
  rewrite Er in Es. injection Es as -> <-. rewrite set_data_same in Ew by done. subst.
  destruct Hr as (lf & sf & Hlf & Hsf & _ & Hbl & Hbs). do 2 eexists. exists lf, sf. split_and!; [done..|].
  match type of E with match_pair_core ?c _ _ _ _ = _ =>
    exact (core_opens c _ _ _ _ b _ _ _ Hb Hw Hu eq_refl Hol Hos E) end.
Qed.


(** ** Substituting *)

Lemma premium_exact delta c : 2 * c <= U64_MAX -> Z.abs delta <= c -> premium delta = delta.
Proof.
  intros Hc Hd. unfold premium. revert Hc. unfold U64_MAX. intros Hc.
  destruct (Z.ltb_spec 0 delta); [by rewrite as_u_small by lia|].
  destruct (Z.ltb_spec delta 0); [rewrite as_u_small by lia; lia|lia].
Qed.

Lemma substitutor_moves s m ctx delta :
  let buf := if ctx.(substitutor_is_long) then ctx.(per_contract_fee_buf_long)
             else ctx.(per_contract_fee_buf_short) in
  let c := ctx.(per_contract_collateral) in
  0 <= buf ->
  shifts (substitutor_side s m ctx delta) (2 * c + buf + premium delta) (- c - buf) (- c).
Proof.
  cbv zeta. intros Hb. eapply shifts_eq; [unfold substitutor_side; eauto 10 using shifts_premium_gain with shifts|..];
    destruct (Z.ltb_spec 0 (if ctx.(substitutor_is_long) then ctx.(per_contract_fee_buf_long)
             else ctx.(per_contract_fee_buf_short))); lia.
Qed.
Lemma counterparty_moves m ctx delta :
  let buf := if ctx.(substitutor_is_long) then ctx.(per_contract_fee_buf_short)
             else ctx.(per_contract_fee_buf_long) in
  let c := ctx.(per_contract_collateral) in
  0 <= buf ->
  shifts (counterparty_side m ctx delta) (buf - premium delta) (- c - buf) c.
Proof.
  cbv zeta. intros Hb. eapply shifts_eq; [unfold counterparty_side; eauto 10 using shifts_premium_cost with shifts|..];
    destruct (Z.ltb_spec 0 (if ctx.(substitutor_is_long) then ctx.(per_contract_fee_buf_short)
             else ctx.(per_contract_fee_buf_long))); lia.
Qed.
Lemma delta_bounded b p ctx bucket delta :
  settlement_delta b p ctx bucket = Ok delta -> 0 <= bucket -> Z.abs delta <= bucket.
Proof.
  unfold settlement_delta. intros E Hb. destruct b; [|injection E as <-; lia].
  destruct (pnl_long_atoms _ _ _); try done. cbn in E.
  match type of E with (if ?b <? ?d then _ else _) = _ => destruct (Z.ltb_spec b d) end; [done|].
  injection E as <-. done.
Qed.

Lemma sell_sign (b : bool) (x y : Z) :
  (if (if b then SIDE_LONG else SIDE_SHORT) =? SIDE_LONG then x else y) = if b then x else y.
Proof. by destruct b. Qed.
(** The premium is the side's profit to the midpoint. *)
Lemma settlement_delta_exact settle p ctx bucket delta : contract_fits p ->
  settlement_delta settle p ctx bucket = Ok delta ->
  delta = if settle then
            if ctx.(substitutor_pmlc_side) =? SIDE_LONG then profit p ctx.(match_midpoint)
            else - profit p ctx.(match_midpoint)
          else 0.
Proof.
  intros Hf. unfold settlement_delta. destruct settle; [|by intros [= <-]].
  destruct (pnl_long_atoms _ _ _) as [pnl| | |] eqn:E; try done. cbn.
  apply profit_exact in E as [-> _]; [|done].
  match goal with |- (if ?b <? ?d then _ else _) = _ -> _ => destruct (Z.ltb_spec b d) end; [done|].
  by intros [= <-].
Qed.

(** C27: for a contract whose pot fits a u64: a substitution that succeeds was signed by the owner
    of one side of a live contract, who has an offer on the other side of the book; that side
    passes to the owner of the offer it crosses, at an entry price both limits admit. The
    substitutor's reservation and contract collateral become free, plus the premium: with
    settlement that side's profit from the entry to the midpoint of the limits, at most the
    collateral, without it none. The counterparty pays the premium while its reservation comes
    to back the contract. The book loses one contract of each offer; the other side's owner, the
    contract's flags and terms and every other margin account stay. *)
Theorem substitution_hands_over substitutor inst_ai book pmlc sub_margin cp_margin rest args settle b p w w' :
  holds book.(key) (DBook b) w -> whole b -> unsigned_offers b ->
  holds pmlc.(key) (DPmlc p) w -> contract_fits p ->
  do_substitute (substitutor :: inst_ai :: book :: pmlc :: sub_margin :: cp_margin :: rest) args settle w
    = (Ok tt, w') ->
  exists inst lf sf b' p',
    let c := inst.(collateral_bucket) in
    let was_bid := lf.(of_owner) =? substitutor.(key) in
    let side := if sf.(of_owner) =? substitutor.(key) then SIDE_LONG else SIDE_SHORT in
    let new_owner := if was_bid then sf.(of_owner) else lf.(of_owner) in
    let own := if was_bid then released lf else released sf in
    let other := if was_bid then released sf else released lf in
    let gain := profit p ((lf.(of_price) + sf.(of_price)) / 2) in
    let delta := if settle then (if sf.(of_owner) =? substitutor.(key) then gain else - gain) else 0 in
    holds inst_ai.(key) (DInstrument inst) w /\
    (offers b !! args.(mp_long_intent_id) = Some lf /\ offers b !! args.(mp_short_intent_id) = Some sf /\
     crosses clock_slot lf sf /\ sf.(of_price) <= p.(entry_price_fp) <= lf.(of_price)) /\
    (substitutor.(is_signer) = true /\
     (lf.(of_owner) = substitutor.(key) \/ sf.(of_owner) = substitutor.(key))) /\
    (p.(pm_status) = PMLC_STATUS_LIVE /\ p.(Governance.instrument) = inst_ai.(key) /\
     p.(collateral_per_side) = c /\
     holds pmlc.(key) (DPmlc p') w' /\ side_passes side substitutor.(key) new_owner p p') /\
    (holds book.(key) (DBook b') w' /\
     offers b' = fill_map args.(mp_short_intent_id) c (released sf)
                   (fill_map args.(mp_long_intent_id) c (released lf) (offers b))) /\
    Z.abs delta <= c /\
    margin_of sub_margin.(key) substitutor.(key) inst.(ic_collateral_mint) w /\
    margin_of cp_margin.(key) new_owner inst.(ic_collateral_mint) w /\
    moved [(sub_margin.(key), shift (2 * c + own + delta) (- c - own) (- c));
           (cp_margin.(key), shift (other - delta) (- c - other) c)] w w'.
Proof.
  intros Hb Hw Hu Hp Hfit E. unfold do_substitute, settle_substitution in E. handler_run.
  match goal with
  | Hm : with_mut _ (substitute_on_book ?q ?s ?c ?a) w = _, Hi : acc_data (acct w inst_ai.(key)) = inj ?inst,
    Hq : acc_data (acct w pmlc.(key)) = inj (T := Pmlc) ?q, Hl : require_live ?q = _,
    Hd : settlement_delta _ _ _ _ = Ok ?d,
    H1 : with_mut sub_margin.(key) _ _ = _, H2 : with_mut cp_margin.(key) _ _ = _ |- _ =>
      pose proof (contract_live _ _ Hl) as Hlive;
      let Eq := fresh in pose proof (eq_trans (eq_sym Hp) Hq) as Eq; injection Eq as <-;
      destruct (book_run _ _ _ _ _ _ _ Hb (substitute_refines b p s c a Hw) Hm)
        as (b' & (_ & lf & sf & Hlf & Hsf & Hx & Hpr & -> & Hown & Hwho & Hoff) & Hb' & Hm0);
      rename Hm into Em, H1 into E1, H2 into E2, Hd into Ed, d into delta, inst into i; exists i, lf, sf, b'
  end.
  cbn [new_pmlc_owner substitutor_pmlc_side] in *.
  pose proof (settlement_delta_exact _ _ _ _ _ Hfit Ed) as Hdelta. cbn [match_midpoint substitutor_pmlc_side] in Hdelta.
  destruct (Hu _ _ Hlf), (Hu _ _ Hsf).
  pose proof (released_nonneg lf ltac:(done) ltac:(done)) as Hr1.
  pose proof (released_nonneg sf ltac:(done) ltac:(done)) as Hr2.
  assert (Hbuf : forall c : bool, 0 <= (if c then released lf else released sf) /\
    0 <= (if c then released sf else released lf)) by (by intros []).
  pose proof (with_mut_kept _ _ _ _ _ _ _ Em Hp ltac:(done)) as Hk1.
  pose proof (with_mut_kept _ _ _ _ _ _ _ E1 Hk1 ltac:(done)) as Hk2.
  pose proof (with_mut_kept _ _ _ _ _ _ _ E2 Hk2 ltac:(done)) as Hk3.
  pose proof (with_mut_kept _ _ _ _ _ _ _ E1 Hb' ltac:(done)) as Hb1.
  pose proof (with_mut_kept _ _ _ _ _ _ _ E2 Hb1 ltac:(done)) as Hb2.
  pose proof (with_mut_kept _ _ _ _ _ _ _ E Hb2 ltac:(done)) as Hb3.
  destruct (handed _ substitutor.(key) _ _ _ _ _ _ E Hk3) as (p' & Hp' & Hpass);
    [destruct (_ =? _); [by left|by right]|exact Hown|].
  exists p'. cbv zeta. rewrite price_midpoint_exact, sell_sign in Hdelta. rewrite <- Hdelta.
  destruct Hfit as (Hc1 & Hc2 & _).
  assert (Habs : Z.abs delta <= i.(collateral_bucket)) by (eapply delta_bounded; [exact Ed|congruence]).
  split; [done|]. split; [done|]. split; [done|]. split; [by split_and!|]. split; [done|]. split; [done|].
  split; [|split].
  - apply (margin_of_back _ _ _ _ _ _ _ _ Em); [done|done|]. eapply margin_checked_owner; [exact E1|].
    by rewrite (with_mut_owner _ _ _ _ _ _ Em).
  - apply (margin_of_back _ _ _ _ _ _ _ _ Em); [done|done|].
    eapply margin_of_shift; [exact E1|apply substitutor_moves; exact (proj1 (Hbuf _))|].
    eapply margin_checked_owner; [exact E2|].
    by rewrite (with_mut_owner _ _ _ _ _ _ E1), (with_mut_owner _ _ _ _ _ _ Em).
  - assert (Hprem : premium delta = delta) by (eapply premium_exact; [|exact Habs]; lia).
    eapply moved_mut in E1; [|apply substitutor_moves; exact (proj1 (Hbuf _))].
    eapply moved_mut in E2; [|apply counterparty_moves; exact (proj2 (Hbuf _))].
    rewrite Hprem in E1, E2. clear Em. eapply moved_eq; [follow|done].
Qed.
End trades.

(* ------------------------------------------------------------------ *)
(** ** On the demo world *)

Lemma demo_unsigned : unsigned_offers demo_book.
Proof.
  assert (H : map_Forall (fun _ f => 0 <= f.(of_left) /\ 0 <= f.(of_fee)) (offers demo_book)).
  { apply (bool_decide_unpack (map_Forall _ _)). by vm_compute. }
  exact H.
Qed.
Definition RT : Runtime := demo 100 1700100000 [].

Lemma cancel_refunds_witness :
  let book := writable BOOK in
  let margin := writable (MARGIN ALICE) in
  let run := process_cancel_intent (R := RT) [signer ALICE; readonly INSTRUMENT; book; margin] 1 demo_world in
  fst run = Ok tt /\
  exists b' n, holds book.(key) (DBook b') (snd run) /\ offers b' = delete 1 (offers demo_book) /\
    moved (R := RT) [(margin.(key), shift n (- n) 0)] demo_world (snd run).
Proof.
  intros book margin run. assert (E : fst run = Ok tt) by (vm_compute; reflexivity). split; [exact E|].
  pose proof (ran run _ E) as Er. unfold run in Er at 1.
  apply (cancel_refunds (R := RT) _ _ _ _ _ _ demo_book) in Er; [|vm_compute; reflexivity|exact demo_book_whole].
  destruct Er as (inst & f & b' & _ & _ & _ & _ & _ & Hb & Ho & _ & Hm).
  exists b', (f.(of_reserved) + f.(of_fee)). exact (conj Hb (conj Ho Hm)).
Defined.

Definition carol_post : PostIntentArgs :=
  {| pa_side := SIDE_SHORT; pa_price_fp := 7 * 10 ^ 17; pa_contracts := 3; pa_expiration_slot := 500;
     pa_reentry_enabled := 0; pa_try_match := 0 |}.
Lemma post_reserves_witness :
  let run := process_post_intent (R := RT)
    [signer CAROL; readonly CONFIG; readonly INSTRUMENT; writable BOOK; writable (MARGIN CAROL)]
    carol_post demo_world in
  fst run = Ok tt /\
  exists b' ids id seq, holds BOOK (DBook b') (snd run) /\
    offers b' = <[id := new_offer CAROL carol_post seq 3000000 0]> (foldr delete (offers demo_book) ids) /\
    moved (R := RT) [(MARGIN CAROL, shift (held (offers demo_book) ids - 3000000)
      (3000000 - held (offers demo_book) ids) 0)] demo_world (snd run).
Proof.
  intros run. assert (E : fst run = Ok tt) by (vm_compute; reflexivity). split; [exact E|].
  pose proof (ran run _ E) as Er. unfold run in Er at 1.
  apply (post_reserves (R := RT) _ _ _ _ _ _ _ demo_book) in Er;
    [|vm_compute; reflexivity|exact demo_book_whole|reflexivity].
  destruct Er as (inst & b' & ids & id & seq & fee & Hfee & Hi & _ & _ & _ & _ & _ & _ & Hb & Ho & _ & Hm).
  vm_compute in Hi. injection Hi as <-. vm_compute in Hfee. subst fee.
  exists b', ids, id, seq. exact (conj Hb (conj Ho Hm)).
Defined.

Lemma novation_hands_over_witness :
  let run := process_novate (R := RT)
    [signer ALICE; signer CAROL; readonly CONFIG; readonly INSTRUMENT; writable (PMLC 101);
     writable (MARGIN ALICE); writable (MARGIN CAROL)] SIDE_LONG demo_world in
  fst run = Ok tt /\
  exists p', holds (PMLC 101) (DPmlc p') (snd run) /\ p'.(long_owner) = CAROL /\ p'.(short_owner) = BOB /\
    moved (R := RT) [(MARGIN ALICE, shift 1000000 0 (-1000000)); (MARGIN CAROL, shift (-1000000) 0 1000000)]
      demo_world (snd run).
Proof.
  intros run. assert (E : fst run = Ok tt) by (vm_compute; reflexivity). split; [exact E|].
  pose proof (ran run _ E) as Er. unfold run in Er at 1. apply (novation_hands_over (R := RT)) in Er.
  destruct Er as (p & p' & Hp & _ & _ & _ & Hp' & ([(_ & _ & Hl & Hs)|(Hside & _)] & _) & _ & _ & Hm);
    [|discriminate Hside].
  vm_compute in Hp. injection Hp as <-. exists p'. exact (conj Hp' (conj Hl (conj Hs Hm))).
Defined.

Lemma deposit_credits_witness :
  let margin := writable (MARGIN ALICE) in
  let run := process_deposit (R := RT)
    [signer ALICE; margin; readonly USD; writable ALICE_ATA; writable VAULT; readonly SPL_TOKEN_ID]
    500000 demo_world in
  fst run = Ok tt /\ moved (R := RT) [(margin.(key), shift 500000 0 0)] demo_world (snd run).
Proof.
  intros margin run. assert (E : fst run = Ok tt) by (vm_compute; reflexivity). split; [exact E|].
  pose proof (ran run _ E) as Er. unfold run in Er at 1. apply (deposit_credits (R := RT) (L := demo_laws 100 1700100000 [])) in Er.
  exact (proj2 (proj2 (proj2 (proj2 (proj2 Er))))).
Defined.

Lemma withdrawal_debits_witness :
  let margin := writable (MARGIN ALICE) in
  let run := process_withdraw (R := RT)
    [signer ALICE; margin; readonly USD; writable ALICE_ATA; writable VAULT; readonly VAULT_AUTHORITY;
     readonly SPL_TOKEN_ID] 700000 demo_world in
  fst run = Ok tt /\ moved (R := RT) [(margin.(key), shift (- 700000) 0 0)] demo_world (snd run).
Proof.
  intros margin run. assert (E : fst run = Ok tt) by (vm_compute; reflexivity). split; [exact E|].
  pose proof (ran run _ E) as Er. unfold run in Er at 1.
  apply (withdrawal_debits (R := RT) (L := demo_laws 100 1700100000 [])) in Er.
  destruct Er as (m & w1 & bump & _ & _ & _ & _ & _ & _ & _ & _ & _ & _ & Hm). exact Hm.
Defined.

Definition at_inst : AccountInfo := readonly INSTRUMENT.
Definition at_book : AccountInfo := writable BOOK.
Definition at_long : AccountInfo := writable (MARGIN ALICE).
Definition at_short : AccountInfo := writable (MARGIN BOB).
Definition at_pmlc : AccountInfo := writable (PMLC 3).
Definition at_sched : AccountInfo := readonly SCHEDULE.
Definition at_accounts : list AccountInfo :=
  [signer CAROL; at_inst; at_book; at_long; at_short; at_pmlc; readonly SYSTEM_PROGRAM_ID;
   at_sched; writable (VOLUME BOB); writable (VOLUME ALICE); writable TREASURY].

Definition at_fees : FeeCtx :=
  {| fee_schedule_ai := at_sched; taker_volume_ai := writable (VOLUME BOB);
     maker_volume_ai := writable (VOLUME ALICE); fee_treasury_ai := writable TREASURY |}.


Lemma best_match_opens_contract_witness :
  let run := process_match_best_available (R := RT) at_accounts demo_world in
  fst run = Ok tt /\
  exists long_id short_id,
    opens_contract (R := RT) at_inst.(key) at_book.(key) at_long.(key) at_short.(key) at_pmlc.(key) at_fees
      long_id short_id demo_book demo_world (snd run).
Proof.
  intros run. assert (E : fst run = Ok tt) by (vm_compute; reflexivity). split; [exact E|].
  pose proof (ran run _ E) as Er. unfold run in Er at 1. unfold at_accounts in Er at 1.
  apply (best_match_opens_contract (R := RT) (L := demo_laws 100 1700100000 [])
    _ _ _ _ _ _ _ _ _ _ _ _ demo_book) in Er;
    [|vm_compute; reflexivity|exact demo_book_whole|by vm_compute|exact demo_unsigned].
  destruct Er as (i & j & lf & sf & _ & _ & _ & _ & H). exists i, j. exact H.
Defined.

(** Bob's ask takes him out of a contract he is long of, entered at 0.45; Alice's bid takes his
    place at the midpoint, one half, and pays him the gain. *)
Definition bob_is_long : Pmlc := Eval vm_compute in
  {| pm_status := PMLC_STATUS_LIVE; close_reason := CLOSE_REASON_NONE; pm_flags := 0;
     pm_bump := 255; pm_id := 0; Governance.instrument := INSTRUMENT; pm_collateral_mint := USD;
     pm_market_id := MARKET; long_owner := BOB; short_owner := CAROL;
     collateral_per_side := 1000000; pm_leverage_bps := 20000; entry_price_fp := 45 * 10 ^ 16;
     Governance.notional_atoms := 2000000; size_fp_lo := 4000000; size_fp_hi := 0;
     opened_slot := 90; last_mark_slot := 90; long_reentry_price_fp := 45 * 10 ^ 16;
     short_reentry_price_fp := 45 * 10 ^ 16 |}.
Definition bob_world : World := set_data (PMLC 102) (DPmlc bob_is_long) demo_world.
Lemma substitution_hands_over_witness :
  let args := {| mp_long_intent_id := 1; mp_short_intent_id := 2; mp_max_contracts := 1 |} in
  let run := do_substitute (R := RT)
    [signer BOB; readonly INSTRUMENT; writable BOOK; writable (PMLC 102); writable (MARGIN BOB);
     writable (MARGIN ALICE)] args true bob_world in
  fst run = Ok tt /\
  exists p', holds (PMLC 102) (DPmlc p') (snd run) /\ p'.(long_owner) = ALICE /\ p'.(short_owner) = CAROL /\
    moved (R := RT) [(MARGIN BOB, shift 2200000 (-1000000) (-1000000));
      (MARGIN ALICE, shift (-200000) (-1000000) 1000000)] bob_world (snd run).
Proof.
  intros args run. assert (E : fst run = Ok tt) by (vm_compute; reflexivity).
  split; [exact E|]. pose proof (ran run _ E) as Er. unfold run in Er at 1.
  apply (substitution_hands_over (R := RT)) with (b := demo_book) (p := bob_is_long) in Er;
    [|vm_compute; reflexivity|exact demo_book_whole|exact demo_unsigned|vm_compute; reflexivity|
      split_and!; vm_compute; done].
  destruct Er as (inst & lf & sf & b' & p' & Hi & (Hl & Hs & _) & _ & (_ & _ & _ & Hp' & Hpass & _) & _ & _ & _ & _ & Hm).
  vm_compute in Hi. injection Hi as <-. vm_compute in Hl. injection Hl as <-. vm_compute in Hs. injection Hs as <-.
  destruct Hpass as [(_ & _ & Hlo & Hso)|(Hside & _)]; [|vm_compute in Hside; discriminate Hside].
  exists p'. split; [exact Hp'|]. split; [exact Hlo|]. split; [exact Hso|exact Hm].
Defined.
