(* ===== verification/Inline.v ===== *)
(** * The inline match of a post

    A post with [try_match] set posts first and then matches, and a failed match is logged and
    forgotten. What it wrote before it failed is kept: a match at the wrong contract account
    consumes the two offers and opens nothing. *)
From S2P Require Import Prelude Fixed IntentBook RbTree RbHeap IntentTree SeatTree Ledger Governance Attestation World Footprint Solvency MatchIx Intent Settlement Lifecycle BookInvariant BookShape OrderBook Authority Custody Dispatch Demo DemoWorld Market BookHistory Conservation Balances Effects Fees Trades.

(** The same post without the match. *)
Definition without_match (args : PostIntentArgs) : PostIntentArgs :=
  {| pa_side := args.(pa_side); pa_price_fp := args.(pa_price_fp); pa_contracts := args.(pa_contracts);
     pa_expiration_slot := args.(pa_expiration_slot); pa_reentry_enabled := args.(pa_reentry_enabled);
     pa_try_match := 0 |}.

Section inline.
Context {R : Runtime}.

(** The contract's address is checked last: by then the two offers are consumed. *)
Lemma wrong_address instrument address k c l s b x b' :
  match_on_book instrument address c l s b = (Ok x, b') -> k <> address ->
  match_on_book instrument k c l s b = (Err InvalidPda, b').
Proof.
  intros E Hne. unfold match_on_book in *.
  apply bind_ok_inv in E as ([[[li si] lo] sh] & b1 & E1 & E). rewrite (bind_ok _ _ _ _ _ E1).
  apply bind_ok_inv in E as ([rl rs] & b2 & E2 & E). rewrite (bind_ok _ _ _ _ _ E2).
  apply bind_ok_inv in E as (pid & b3 & E3 & E). rewrite (bind_ok _ _ _ _ _ E3).
  destruct (find_program_address _) as [pda bump]. unfold seat in E. inv_ok.
  match goal with H : negb (pda =? address) = false |- _ =>
    apply negb_false_iff, Z.eqb_eq in H as -> end.
  by rewrite (proj2 (Z.eqb_neq address k)) by congruence.
Qed.

(** A book operation that succeeded, by what it means. *)
Lemma outcome_of {A} (m : M Book A) b Q a b' : outcome m b Q -> m b = (Ok a, b') -> Q a b'.
Proof. unfold outcome. intros H E. by rewrite E in H. Qed.
Lemma bind_err {S A B} (m : M S A) (f : A -> M S B) s e s1 :
  m s = (Err e, s1) -> (m ≫= f) s = (Err e, s1).
Proof. unfold mbind, M_bind. by intros ->. Qed.

(** The match of an active instrument, at the wrong address, from the world after the post. *)
Lemma core_wrong_address ctx inst address l s n x b b' w :
  holds ctx.(instrument_ai).(key) (DInstrument inst) w -> require_active inst = Ok tt ->
  inst.(intent_book) = ctx.(book_ai).(key) -> holds ctx.(book_ai).(key) (DBook b) w ->
  match_on_book ctx.(instrument_ai).(key) address inst.(collateral_bucket) l s b = (Ok x, b') ->
  ctx.(pmlc_ai).(key) <> address ->
  match_pair_core ctx l s n w = (Err InvalidPda, set_data ctx.(book_ai).(key) (DBook b') w).
Proof.
  intros Hi Ha Hk Hb E Hne. unfold match_pair_core.
  rewrite (bind_ok _ _ w inst w) by (apply load_ok; exact Hi).
  unfold lift. rewrite Ha. rewrite (bind_ok _ _ w tt w) by done.
  rewrite (proj2 (Z.eqb_eq _ _) Hk). rewrite (bind_ok _ _ w tt w) by done.
  apply bind_err. exact (with_mut_run (T := Book) _ _ w b _ b' Hb (wrong_address _ _ _ _ _ _ _ _ _ E Hne)).
Qed.
Lemma read_book_run {A} k (m : M Book A) w b r :
  holds k (DBook b) w -> m b = (r, b) -> with_mut k m w = (r, w).
Proof.
  intros Hb E. transitivity (r, set_data k (DBook b) w); [|f_equal; by apply set_data_same].
  exact (with_mut_run (T := Book) k m w b r b Hb E).
Qed.

(** A post with a match runs its posting part, and then the match on the new offer. *)
Lemma post_then_match owner payer cfg inst_ai book margin full off args b w w1 :
  holds book.(key) (DBook b) w -> whole b -> args.(pa_try_match) <> 0 ->
  do_post_intent_inner owner payer cfg inst_ai book margin None full off (without_match args) w = (Ok tt, w1) ->
  exists inst b1 id seq reserve fee,
    holds inst_ai.(key) (DInstrument inst) w1 /\ require_active inst = Ok tt /\
    inst.(intent_book) = book.(key) /\ holds book.(key) (DBook b1) w1 /\ whole b1 /\
    offers b1 !! id = Some (new_offer owner args seq reserve fee) /\
    do_post_intent_inner owner payer cfg inst_ai book margin None full off args w =
      try_inline_match payer inst_ai book margin full off args id w1.
Proof.
  intros Hb Hw Ht E. unfold do_post_intent_inner in *.
  apply bind_ok_inv in E as ([[[inst bump] reserve] fee] & w2 & Ev & E).
  change (validate_post owner cfg inst_ai book margin args w = (Ok (inst, bump, reserve, fee), w2)) in Ev.
  rewrite (bind_ok _ _ _ _ _ Ev).
  apply bind_ok_inv in E as (total & w3 & Et & E). rewrite (bind_ok _ _ _ _ _ Et).
  apply bind_ok_inv in E as ([] & w4 & Es & E). rewrite (bind_ok _ _ _ _ _ Es). injection Es as <-.
  apply bind_ok_inv in E as (refund & w5 & Ep & E). rewrite (bind_ok _ _ _ _ _ Ep).
  apply bind_ok_inv in E as ([] & w6 & Er & E). rewrite (bind_ok _ _ _ _ _ Er).
  apply bind_ok_inv in E as (id & w7 & Ei & E).
  change (with_mut book.(key) (place_intent owner args.(pa_side)
    (if negb (args.(pa_reentry_enabled) =? 0) then INTENT_FLAG_REENTRY else 0) args.(pa_price_fp)
    args.(pa_contracts) args.(pa_expiration_slot) reserve fee) w6 = (Ok id, w7)) in Ei.
  rewrite (bind_ok _ _ _ _ _ Ei). injection E as <-.
  apply ok_or_ok_inv in Et as [_ ->].
  assert (Hi : w2 = w /\ holds inst_ai.(key) (DInstrument inst) w /\ require_active inst = Ok tt /\
    inst.(intent_book) = book.(key) /\ (args.(pa_side) = SIDE_LONG \/ args.(pa_side) = SIDE_SHORT)).
  { pose proof Ev as Hside. apply validate_post_side in Hside. unfold validate_post in Ev. inv_world.
    match goal with H : (inst, bump, reserve, fee) = _ |- _ => injection H as -> -> -> -> end. by split_and!. }
  destruct Hi as (-> & Hi & Hact & Hbook & Hside).
  destruct (book_run _ _ _ _ _ _ _ Hb (prune_own_refines b owner clock_slot Hw) Ep) as (b1 & (Hw1 & _) & Hb1 & _).
  pose proof (with_mut_kept _ _ _ _ _ _ _ Er Hb1 ltac:(done)) as Hb2.
  destruct (book_run _ _ _ _ _ _ _ Hb2 (place_refines b1 _ _ _ _ _ _ _ _ Hw1 Hside) Ei)
    as (b2 & (Hw2 & _ & _ & _ & Hoff) & Hb3 & _).
  pose proof (with_mut_kept _ _ _ _ _ _ _ Ep Hi ltac:(done)) as Hi1.
  pose proof (with_mut_kept _ _ _ _ _ _ _ Er Hi1 ltac:(done)) as Hi2.
  pose proof (with_mut_kept _ _ _ _ _ _ _ Ei Hi2 ltac:(done)) as Hi3.
  do 6 eexists. split; [exact Hi3|]. split; [done|]. split; [done|]. split; [exact Hb3|]. split; [done|].
  split; [rewrite Hoff; apply lookup_insert_eq|]. by rewrite (proj2 (Z.eqb_neq _ _) Ht).
Qed.

(** C39: a failed inline match keeps what it wrote, and consumes offers for nothing. Take a post
    that succeeds without a match. With the match asked for, on a crossing offer, and with a
    contract account that is not the one the match would have opened, it succeeds too, and
    changes the book alone: one contract of each of the two offers is gone, with its
    reservation and its share of the fee buffer, though no contract was opened, and no margin
    account, so neither trader's reserved balance, moved. *)
Theorem failed_match_consumes_offers owner cfg inst_ai book margin cp_margin pmlc sys sched taker_vol
    maker_vol treasury rest args b w w1 :
  let accounts := owner :: cfg :: inst_ai :: book :: margin :: cp_margin :: pmlc :: sys :: sched
                    :: taker_vol :: maker_vol :: treasury :: rest in
  holds book.(key) (DBook b) w -> whole b -> args.(pa_try_match) <> 0 ->
  process_post_intent accounts (without_match args) w = (Ok tt, w1) ->
  exists inst b1 id seq reserve fee,
    holds inst_ai.(key) (DInstrument inst) w1 /\ holds book.(key) (DBook b1) w1 /\
    offers b1 !! id = Some (new_offer owner.(key) args seq reserve fee) /\
    forall cp address r pid bump b2,
      let c := inst.(collateral_bucket) in
      let opposite := if args.(pa_side) =? SIDE_LONG then SIDE_SHORT else SIDE_LONG in
      let long_id := if args.(pa_side) =? SIDE_LONG then id else cp in
      let short_id := if args.(pa_side) =? SIDE_LONG then cp else id in
      find_overlap_on_side opposite args.(pa_price_fp) clock_slot id b1 = (Ok (Some cp), b1) ->
      match_on_book inst_ai.(key) address c long_id short_id b1 = (Ok (r, pid, bump), b2) ->
      pmlc.(key) <> address ->
      process_post_intent accounts args w = (Ok tt, set_data book.(key) (DBook b2) w1) /\
      exists lf sf, offers b1 !! long_id = Some lf /\ offers b1 !! short_id = Some sf /\
        crosses clock_slot lf sf /\ c <= lf.(of_reserved) /\ c <= sf.(of_reserved) /\
        offers b2 = fill_map short_id c (released sf) (fill_map long_id c (released lf) (offers b1)).
Proof.
  intros accounts Hb Hw Ht E. unfold process_post_intent in E.
  apply bind_ok_inv in E as (a0 & ? & [[= <-] ->]%account_ok_inv & E).
  apply bind_ok_inv in E as (a1 & ? & [[= <-] ->]%account_ok_inv & E).
  apply bind_ok_inv in E as (a2 & ? & [[= <-] ->]%account_ok_inv & E).
  apply bind_ok_inv in E as (a3 & ? & [[= <-] ->]%account_ok_inv & E).
  apply bind_ok_inv in E as (a4 & ? & [[= <-] ->]%account_ok_inv & E).
  apply bind_ok_inv in E as ([] & ? & Hsig & E). pose proof Hsig as [_ ->]%assert_signer_ok_inv.
  destruct (post_then_match _ _ _ _ _ _ _ _ _ b w w1 Hb Hw Ht E)
    as (inst & b1 & id & seq & reserve & fee & Hi & Hact & Hbook & Hb1 & Hw1 & Hoff & Hrun).
  exists inst, b1, id, seq, reserve, fee. split; [done|]. split; [done|]. split; [done|].
  intros cp address r pid bump b2 c opposite long_id short_id Hfind Hmatch Hne. split.
  - unfold process_post_intent. do 5 (rewrite (bind_ok _ _ w _ w) by reflexivity).
    rewrite (bind_ok _ _ _ _ _ Hsig), Hrun. unfold try_inline_match.
    change (length accounts <? 5 + 7)%nat with false. cbn iota.
    do 7 (rewrite (bind_ok _ _ w1 _ w1) by reflexivity). fold opposite.
    rewrite (bind_ok _ _ w1 (Some cp) w1).
    2:{ exact (read_book_run _ _ _ _ _ Hb1 Hfind). }
    cbv zeta. fold long_id short_id. unfold catch, mbind, M_bind.
    rewrite (core_wrong_address _ inst address long_id short_id 1 (r, pid, bump) b1 b2 w1) by done. done.
  - destruct (outcome_of _ _ _ _ _ (match_refines b1 inst_ai.(key) address c long_id short_id Hw1) Hmatch)
      as (_ & lf & sf & Hl & Hs & Hx & Hrl & Hrs & _ & _ & Hoff2).
    exists lf, sf. by split_and!.
Qed.
End inline.

(** Carol bids for one contract against Bob's ask, with the account of contract 5 where contract 4
    is next: her bid and his ask are both gone. *)
Definition carol_args : PostIntentArgs :=
  {| pa_side := SIDE_LONG; pa_price_fp := 6 * 10 ^ 17; pa_contracts := 1; pa_expiration_slot := 500;
     pa_reentry_enabled := 0; pa_try_match := 1 |}.
Definition carol_accounts : list AccountInfo :=
  [signer CAROL; readonly CONFIG; readonly INSTRUMENT; writable BOOK; writable (MARGIN CAROL);
   writable (MARGIN BOB); writable (PMLC 5); readonly SYSTEM_PROGRAM_ID; readonly SCHEDULE;
   writable (VOLUME CAROL); writable (VOLUME BOB); writable TREASURY].

(** The book after her post without the match. *)
Definition posted_book : Book := Eval vm_compute in
  match (acct (snd (process_post_intent (R := RT) carol_accounts (without_match carol_args) demo_world)) BOOK).(acc_data)
  with DBook b => b | _ => demo_book end.
Lemma carols_bid id f : offers posted_book !! id = Some f -> f.(of_owner) = CAROL -> id = 3.
Proof.
  intros Hf. revert id f Hf.
  assert (H : map_Forall (fun id f => f.(of_owner) = CAROL -> id = 3) (offers posted_book)).
  { refine (bool_decide_unpack _ _). by vm_compute. }
  exact H.
Qed.

Lemma failed_match_consumes_offers_witness :
  let posted := process_post_intent (R := RT) carol_accounts (without_match carol_args) demo_world in
  fst posted = Ok tt /\
  exists b1 b2, holds BOOK (DBook b1) (snd posted) /\
    process_post_intent (R := RT) carol_accounts carol_args demo_world =
      (Ok tt, set_data BOOK (DBook b2) (snd posted)) /\
    is_Some (offers b1 !! 2) /\ is_Some (offers b1 !! 3) /\
    offers b2 !! 2 = None /\ offers b2 !! 3 = None.
Proof.
  intros posted. assert (E : fst posted = Ok tt) by (vm_compute; reflexivity). split; [exact E|].
  pose proof (ran posted _ E) as Er. unfold posted in Er at 1. unfold carol_accounts in Er at 1.
  apply (failed_match_consumes_offers (R := RT))
    with (b := demo_book) in Er; [|vm_compute; reflexivity|exact demo_book_whole|discriminate].
  destruct Er as (inst & b1 & id & seq & reserve & fee & Hi & Hb1 & Hid & Hpost).
  assert (b1 = posted_book) as -> by (unfold holds in Hb1; vm_compute in Hb1; by injection Hb1 as <-).
  vm_compute in Hi. injection Hi as <-. pose proof (carols_bid id _ Hid eq_refl) as ->.
  destruct (match_on_book (R := RT) INSTRUMENT (PMLC 4) 1000000 3 2 posted_book) as [r b2] eqn:Em.
  assert (Er : exists x, r = Ok x) by (vm_compute in Em; injection Em as <- _; by eexists).
  destruct Er as [[[r0 pid] bump] ->].
  destruct (Hpost 2 (PMLC 4) r0 pid bump b2) as [Hrun _]; [vm_compute; reflexivity|exact Em|vm_compute; discriminate|].
  exists posted_book, b2. split; [exact Hb1|]. split; [exact Hrun|].
  vm_compute in Em. injection Em as _ _ _ <-. split_and!; try (vm_compute; eexists; reflexivity); vm_compute; reflexivity.
Defined.
