(* ===== verification/Evolution.v ===== *)
(** * How accounts evolve

    One relation, [evolves], says for every kind of account what a step of the program may
    do to it: which fields are fixed, which only grow, which transitions of the state
    machines exist, and what only an administrator may touch. Every handler respects it on
    every path, errors included ([run_instruction_evolves]); the statements about the life
    of the accounts follow. *)
From S2P Require Import Prelude Fixed IntentBook Ledger Governance Attestation World Footprint MatchIx Intent Settlement Lifecycle Authority Custody Dispatch.

(** What an instruction is allowed beyond the common rules: to act as an administrator,
    to install one given attestor, to replace a trading session. *)
Record Scope := {
  sc_admin : bool;
  sc_attestor : option Pubkey;
  sc_session : bool;
}.
Definition plain : Scope := {| sc_admin := false; sc_attestor := None; sc_session := false |}.

(* ------------------------------------------------------------------ *)
(** ** One account *)

Definition pmlc_step (p p' : Pmlc) : Prop :=
  p' = set_pm_state p p'.(pm_status) p'.(close_reason) p'.(pm_flags) p'.(last_mark_slot)
         p'.(long_owner) p'.(short_owner) /\
  Z.land p'.(pm_flags) p.(pm_flags) = p'.(pm_flags) /\
  (p.(pm_status) <> PMLC_STATUS_LIVE ->
   p'.(pm_status) = p.(pm_status) /\ p'.(close_reason) = p.(close_reason) /\
   p'.(last_mark_slot) = p.(last_mark_slot) /\
   p'.(long_owner) = p.(long_owner) /\ p'.(short_owner) = p.(short_owner)).

Definition nonce_step (n n' : MarketNonceAccount) : Prop :=
  n'.(mn_market_id) = n.(mn_market_id) /\ n'.(mn_bump) = n.(mn_bump) /\
  n.(last_accepted_cre_nonce) <= n'.(last_accepted_cre_nonce) /\
  (n.(is_resolved) = 1 -> n'.(is_resolved) = 1).

Definition margin_step (a a' : MarginAccount) : Prop :=
  a'.(ma_owner) = a.(ma_owner) /\ a'.(ma_collateral_mint) = a.(ma_collateral_mint) /\
  a'.(ma_bump) = a.(ma_bump).

Definition treasury_step (t t' : FeeTreasury) : Prop :=
  t'.(ft_collateral_mint) = t.(ft_collateral_mint) /\ t'.(ft_bump) = t.(ft_bump).

Definition volume_step (v v' : UserVolume) : Prop :=
  v' = set_epoch v v'.(volume_current_atoms) v'.(volume_prev_atoms) v'.(epoch_start_slot).

Definition timelock_step (p p' : TimelockProposal) : Prop :=
  p' = set_tl_status p'.(tl_status) p /\
  (p.(tl_status) <> TL_STATUS_PENDING -> p'.(tl_status) = p.(tl_status)).

Section evolution.
Context {R : Runtime} (sc : Scope).

Definition config_step (c c' : ProgramConfig) : Prop :=
  c' = set_attestation_signer c'.(attestation_signer) (set_global_pause c'.(global_pause) c) /\
  (sc.(sc_admin) = false -> c'.(global_pause) = c.(global_pause)) /\
  (c'.(attestation_signer) = c.(attestation_signer) \/
   Some c'.(attestation_signer) = sc.(sc_attestor)).

Definition instrument_step (c c' : InstrumentConfig) : Prop :=
  c' = set_ic_status c'.(ic_status) c /\
  (sc.(sc_admin) = false -> c'.(ic_status) = c.(ic_status)).

Definition schedule_step (s s' : FeeSchedule) : Prop :=
  s'.(fs_bump) = s.(fs_bump) /\ s'.(max_tier_fee_bps) <= s.(max_tier_fee_bps) /\
  (sc.(sc_admin) = false -> s' = s).

Definition session_step (s s' : Session) : Prop :=
  s'.(se_owner) = s.(se_owner) /\
  (sc.(sc_session) = false ->
   s'.(delegate) = s.(delegate) /\ s'.(expires_at_slot) = s.(expires_at_slot) /\
   s'.(per_intent_max_collateral_atoms) = s.(per_intent_max_collateral_atoms) /\
   s'.(cumulative_collateral_cap) = s.(cumulative_collateral_cap) /\
   s'.(n_allowed_instruments) = s.(n_allowed_instruments) /\
   s'.(allowed_instruments) = s.(allowed_instruments) /\
   s.(cumulative_collateral_used) <= s'.(cumulative_collateral_used) /\
   (s.(revoked) = 1 -> s'.(revoked) = 1)).

(** Accounts only an administrator writes. *)
Definition admin_step {T} (v v' : T) : Prop := sc.(sc_admin) = false -> v' = v.

Definition data_step (d d' : AccountData) : Prop :=
  match d with
  | DConfig c => exists c', d' = DConfig c' /\ config_step c c'
  | DMargin a => exists a', d' = DMargin a' /\ margin_step a a'
  | DInstrument c => exists c', d' = DInstrument c' /\ instrument_step c c'
  | DBook _ => exists b', d' = DBook b'
  | DPmlc p => exists p', d' = DPmlc p' /\ pmlc_step p p'
  | DNonce n => exists n', d' = DNonce n' /\ nonce_step n n'
  | DFeeSchedule s => exists s', d' = DFeeSchedule s' /\ schedule_step s s'
  | DVolume v => exists v', d' = DVolume v' /\ volume_step v v'
  | DTreasury t => exists t', d' = DTreasury t' /\ treasury_step t t'
  | DTimelock p => exists p', d' = DTimelock p' /\ timelock_step p p'
  | DMultisig v => exists v', d' = DMultisig v' /\ admin_step v v'
  | DBuckets v => exists v', d' = DBuckets v' /\ admin_step v v'
  | DStables v => exists v', d' = DStables v' /\ admin_step v v'
  | DSession s => exists s', d' = DSession s' /\ session_step s s'
  | DBytes _ => True
  end.

(* ------------------------------------------------------------------ *)
(** ** The invariants of the account types *)

(** What a session has spent is within its cap. *)
Definition session_ok (s : Session) : Prop :=
  s.(cumulative_collateral_used) = 0 \/
  0 < s.(cumulative_collateral_used) <= s.(cumulative_collateral_cap).
Definition schedule_ok (s : FeeSchedule) : Prop :=
  validate_tiers s.(tiers) = Ok tt /\ s.(max_tier_fee_bps) = compute_max_fee_bps s.(tiers).
Definition timelock_ok (p : TimelockProposal) : Prop :=
  p.(executable_after_unix_ts) = p.(proposed_unix_ts) + TIMELOCK_DELAY_SECS /\
  p.(tl_kind) = TL_KIND_SET_ATTESTATION_SIGNER.
Definition buckets_ok (r : BucketRegistry) : Prop :=
  exists ls bs, validate_inputs ls bs = Ok tt /\
    (forall x, allows_leverage r x = contains x ls) /\ (forall x, allows_bucket r x = contains x bs).
Definition treasury_ok (t : FeeTreasury) : Prop :=
  is_u64 t.(accrued_atoms) /\ is_u64 t.(total_swept_atoms).

Definition data_ok (d : AccountData) : Prop :=
  match d with
  | DMargin a => margin_wf a
  | DFeeSchedule s => schedule_ok s
  | DTreasury t => treasury_ok t
  | DTimelock p => timelock_ok p
  | DMultisig v => multisig_ok v
  | DBuckets v => buckets_ok v
  | DStables v => stables_ok v
  | DSession s => session_ok s
  | _ => True
  end.

Definition acc_step (a a' : Account) : Prop :=
  (data_ok a.(acc_data) -> data_ok a'.(acc_data)) /\
  (a.(acc_owner) = program_id ->
   a'.(acc_owner) = program_id /\ data_step a.(acc_data) a'.(acc_data)).

Definition evolves (w w' : World) : Prop := forall k, acc_step (acct w k) (acct w' k).

(* ------------------------------------------------------------------ *)
(** ** It is a preorder *)

Lemma data_step_refl d : data_step d d.
Proof.
  destruct d as [[]|[]|[]| |[]|[]|[]|[]|[]|[]| | | |[]|]; cbn; try done;
    try (eexists; reflexivity);
    (eexists; split; [reflexivity|]; repeat split; cbn; try done; auto; try lia).
  apply Z.land_diag.
Qed.

Lemma pmlc_step_refl p : pmlc_step p p.
Proof. split_and!; [by destruct p|apply Z.land_diag|done]. Qed.

Lemma pmlc_step_trans p1 p2 p3 : pmlc_step p1 p2 -> pmlc_step p2 p3 -> pmlc_step p1 p3.
Proof.
  intros (E2 & F2 & T2) (E3 & F3 & T3). split_and!.
  - rewrite E3. rewrite E2. reflexivity.
  - rewrite <- F3 at 1. rewrite <- Z.land_assoc, F2. done.
  - intros Hl. destruct T2 as (? & ? & ? & ? & ?); [done|].
    destruct T3 as (? & ? & ? & ? & ?); [congruence|]. split_and!; congruence.
Qed.

Lemma data_step_trans d1 d2 d3 : data_step d1 d2 -> data_step d2 d3 -> data_step d1 d3.
Proof.
  destruct d1; cbn; intros H12 H23; [..|done];
    try (destruct H12 as (v2 & -> & H12); cbn in H23; destruct H23 as (v3 & -> & H23);
         eexists; split; [reflexivity|]).
  - destruct H12 as (E1 & P1 & A1), H23 as (E2 & P2 & A2). split_and!.
    + rewrite E2, E1. reflexivity.
    + intros Hc. rewrite P2, P1; done.
    + destruct A2 as [A2|A2]; [rewrite A2|by right]. destruct A1; auto.
  - unfold margin_step in *. intuition congruence.
  - destruct H12 as (E1 & P1), H23 as (E2 & P2). split; [by rewrite E2, E1|].
    intros Hc. rewrite P2, P1; done.
  - destruct H12 as (? & ->). destruct H23 as (? & ->). eauto.
  - by eapply pmlc_step_trans.
  - unfold nonce_step in *. intuition (try congruence; lia).
  - destruct H12 as (? & ? & P1), H23 as (? & ? & P2). split_and!; [congruence|lia|].
    intros Hc. rewrite P2, P1; done.
  - unfold volume_step in *. by rewrite H23, H12.
  - unfold treasury_step in *. intuition (try congruence; lia).
  - destruct H12 as (E1 & P1), H23 as (E2 & P2). split; [by rewrite E2, E1|].
    intros Hc. rewrite P2; [by apply P1|]. by rewrite P1.
  - intros Hc. rewrite H23, H12; done.
  - intros Hc. rewrite H23, H12; done.
  - intros Hc. rewrite H23, H12; done.
  - destruct H12 as (? & P1), H23 as (? & P2). split; [congruence|]. intros Hc.
    specialize (P1 Hc). specialize (P2 Hc). intuition (try congruence; lia).
Qed.

#[export] Instance evolves_preorder : PreOrder evolves.
Proof.
  split.
  - intros w k. split; [done|]. intros ?. split; [done|]. apply data_step_refl.
  - intros w1 w2 w3 H12 H23 k. destruct (H12 k) as [G1 S1], (H23 k) as [G2 S2].
    split; [auto|]. intros Ho. destruct (S1 Ho) as [Ho2 D1]. destruct (S2 Ho2) as [Ho3 D2].
    split; [done|]. by eapply data_step_trans.
Qed.

(** ** The step of one loaded struct *)

Definition inner (T : Type) `{AccountType T} (v v' : T) : Prop :=
  data_step (inj v) (inj v') /\ (data_ok (inj v) -> data_ok (inj v')).

#[export] Instance inner_preorder `{AccountType T} : PreOrder (inner T).
Proof.
  split.
  - intros v. split; [apply data_step_refl|done].
  - intros v1 v2 v3 [D1 G1] [D2 G2]. split; [by eapply data_step_trans|auto].
Qed.

Lemma evolves_set k d' w :
  data_step (acct w k).(acc_data) d' -> (data_ok (acct w k).(acc_data) -> data_ok d') ->
  evolves w (set_data k d' w).
Proof.
  intros Hd Hg k'. destruct (decide (k = k')) as [<-|].
  - rewrite acct_set_eq. by split.
  - rewrite acct_set_ne by done. split; [done|]. intros ?. split; [done|]. apply data_step_refl.
Qed.

(** An account, once loaded, that the steps leave as it is. *)
Definition evolves_at (k : Pubkey) (d : AccountData) (w w' : World) : Prop :=
  evolves w w' /\ (holds k d w -> holds k d w').

#[export] Instance evolves_at_preorder k d : PreOrder (evolves_at k d).
Proof.
  split.
  - intros w. by split.
  - intros w1 w2 w3 [E1 K1] [E2 K2]. split; [by etrans|auto].
Qed.

Lemma respects_mut `{AccountType T} {A} k (m : M T A) :
  respects (inner T) m -> respects evolves (with_mut k m).
Proof.
  intros Hm. apply respects_with_mut; [exact _|]. intros w v r v' Hd E.
  apply Hm in E as [Hs Hg]. apply evolves_set; by rewrite Hd.
Qed.

(** A write to a struct of one type leaves the accounts of another type alone. *)
Lemma respects_mut_at `{AccountType T} {A} k (m : M T A) k0 d0 :
  proj (T := T) d0 = None -> respects (inner T) m -> respects (evolves_at k0 d0) (with_mut k m).
Proof.
  intros Hn Hm. apply respects_with_mut; [exact _|]. intros w v r v' Hd E. split.
  - apply Hm in E as [Hs Hg]. apply evolves_set; by rewrite Hd.
  - exact (keeps_mut k m k0 d0 Hn w r _ (with_mut_run k m w v r v' Hd E)).
Qed.

(** From the loaded value on, a step that keeps it and one that writes it. *)
Lemma guarded_at_bind {A B} k d (m : M World A) (f : A -> M World B) :
  respects (evolves_at k d) m ->
  (forall a s s1, m s = (Ok a, s1) -> guarded (holds k d) evolves (f a)) ->
  guarded (holds k d) evolves (m ≫= f).
Proof. intros Hm Hf. apply guarded_bind; [exact _|exact Hm|]. intros. by eapply Hf. Qed.

Lemma guarded_mut `{AccountType T} {A} k (v : T) (m : M T A) :
  (forall r v', m v = (r, v') -> inner T v v') ->
  guarded (holds k (inj v)) evolves (with_mut k m).
Proof.
  intros Hm w r w' Hh E. unfold holds in Hh. unfold with_mut in E.
  rewrite (bind_ok _ _ w v w) in E by by apply load_ok. cbn in E.
  destruct (m v) as [r1 v1] eqn:Em. injection E as <- <-. specialize (Hm _ _ eq_refl) as [Hs Hg].
  apply evolves_set; by rewrite Hh.
Qed.

Lemma respects_init `{AccountType T} k (v : T) :
  data_ok (inj v) -> respects evolves (init_account k v).
Proof.
  intros Hg. apply respects_init_account; [exact _|]. intros w bs Hd.
  apply evolves_set; by rewrite Hd.
Qed.

(** ** Calls into other programs *)

Context {L : RuntimeLaws}.

Lemma respects_create payer new lam space owner seeds :
  respects evolves (invoke_signed (CreateAccount payer new lam space owner) seeds).
Proof.
  apply respects_invoke; [exact _|]. intros w w' E k. destruct (decide (k = new)) as [Hk|Hk].
  - rewrite Hk. apply create_fresh in E as (Ho & Hl & Hd & _). split; [by rewrite Hd|].
    intros Hp. rewrite Ho in Hp. by destruct program_not_system.
  - destruct (create_frame _ _ _ _ _ _ _ _ k E Hk) as [E1 E2]. unfold acc_step.
    rewrite E1, E2. split; [done|]. intros ?. split; [done|]. apply data_step_refl.
Qed.

Lemma respects_transfer from to lam seeds :
  respects evolves (invoke_signed (TransferLamports from to lam) seeds).
Proof.
  apply respects_invoke; [exact _|]. intros w w' E k.
  destruct (transfer_frame _ _ _ _ _ _ k E) as [E1 E2]. unfold acc_step. rewrite E1, E2.
  split; [done|]. intros ?. split; [done|]. apply data_step_refl.
Qed.

Definition token_call (c : Cpi) : bool :=
  match c with CreateAccount _ _ _ _ _ | TransferLamports _ _ _ => false | _ => true end.

Lemma respects_token c seeds :
  token_call c = true -> respects evolves (invoke_signed c seeds).
Proof.
  intros Hc. apply respects_invoke; [exact _|]. intros w w' E k.
  destruct (token_frame c seeds w w' k) as (Ho & Hd & Hb); [by destruct c|done|].
  destruct (decide ((acct w k).(acc_owner) = SPL_TOKEN_ID)) as [Ht|Ht].
  - split.
    + destruct (Hb Ht) as [->|[bs ->]]; done.
    + intros Hp. rewrite Ht in Hp. by destruct program_not_token.
  - unfold acc_step. rewrite (Hd Ht), Ho. split; [done|]. intros ?. split; [done|]. apply data_step_refl.
Qed.

Lemma respects_create_pda payer new space seeds bump :
  respects evolves (create_pda payer new space seeds bump).
Proof. apply respects_create. Qed.
End evolution.
