(* ===== verification/Lifetimes.v ===== *)
(** * Every instruction follows the evolution rules

    The proof, handler by handler, that the instructions take the accounts only along
    [evolves], and what follows for the life of contracts, nonces, sessions, fees and the
    governance accounts. *)
From S2P Require Import Prelude Fixed IntentBook Ledger Governance Attestation World Footprint MatchIx Intent Settlement Lifecycle Authority Custody Dispatch Evolution.

Section state_operations.
Context {R : Runtime} (sc : Scope).

(** ** The operations of the account types *)

Lemma inner_book {A} (m : M Book A) : respects (inner sc Book) m.
Proof. intros b r b' _. split; [by eexists|done]. Qed.

(** A bucket operation: one checked new value. *)
Lemma inner_bucket (v : MarginAccount -> Z) (set : Z -> MarginAccount -> MarginAccount) e :
  (forall a x, margin_step a (set x a)) ->
  (forall a x, margin_wf a -> is_u64 x -> margin_wf (set x a)) ->
  respects (inner sc MarginAccount)
    (a ← gets id; x ← ok_or (checked U64_MAX (v a)) e; modify (set x)).
Proof.
  intros Hs Hw. apply respects_bind; [exact _|apply respects_gets; exact _|].
  intros a s s1 Ha. apply respects_bind; [exact _|apply respects_ok_or; exact _|].
  intros x s2 s3 Hx. inv_ok. apply checked_some in H as [-> Hx]. apply respects_modify.
  intros a. split; [eexists; split; [reflexivity|]; by apply Hs|]. cbn. intros. by apply Hw.
Qed.

Ltac bucket := apply inner_bucket;
  [intros; repeat split | intros ? ? (? & ? & ?) ?; unfold margin_wf; cbn; tauto].

Lemma inner_credit_free n : respects (inner sc MarginAccount) (credit_free n).
Proof. bucket. Qed.
Lemma inner_debit_free n : respects (inner sc MarginAccount) (debit_free n).
Proof. bucket. Qed.
Lemma inner_credit_reserved n : respects (inner sc MarginAccount) (credit_reserved n).
Proof. bucket. Qed.
Lemma inner_debit_reserved n : respects (inner sc MarginAccount) (debit_reserved n).
Proof. bucket. Qed.
Lemma inner_credit_locked n : respects (inner sc MarginAccount) (credit_locked n).
Proof. bucket. Qed.
Lemma inner_debit_locked n : respects (inner sc MarginAccount) (debit_locked n).
Proof. bucket. Qed.
Lemma inner_margin_pnl (f : MarginAccount -> Z) :
  respects (inner sc MarginAccount) (modify (fun m => set_realized_pnl (f m) m)).
Proof.
  apply respects_modify. intros a. split; [eexists; split; [reflexivity|]; by repeat split|done].
Qed.

(** Any computation on a margin account made of those. *)
Ltac margin_op := respects_tac;
  first [ apply inner_credit_free | apply inner_debit_free | apply inner_credit_reserved
        | apply inner_debit_reserved | apply inner_credit_locked | apply inner_debit_locked
        | apply inner_margin_pnl ].

Lemma inner_settle_margin c f fee t : respects (inner sc MarginAccount) (settle_margin c f fee t).
Proof. unfold settle_margin, move_reserved_to_locked, move_reserved_to_free. margin_op. Qed.
Lemma inner_reserve_margin o m b r t :
  respects (inner sc MarginAccount) (reserve_margin o m b r t).
Proof.
  unfold reserve_margin, check_margin, move_reserved_to_free, move_free_to_reserved. margin_op.
Qed.
Lemma inner_release_margin o m b t : respects (inner sc MarginAccount) (release_margin o m b t).
Proof. unfold release_margin, check_margin, move_reserved_to_free. margin_op. Qed.
Lemma inner_settle_equity c e : respects (inner sc MarginAccount) (settle_equity c e).
Proof. unfold settle_equity, add_pnl. margin_op. Qed.
Lemma inner_sub_pnl x : respects (inner sc MarginAccount) (sub_pnl x).
Proof. apply inner_margin_pnl. Qed.
Lemma inner_add_pnl x : respects (inner sc MarginAccount) (add_pnl x).
Proof. apply inner_margin_pnl. Qed.
Lemma inner_move_reserved_to_free n : respects (inner sc MarginAccount) (move_reserved_to_free n).
Proof. unfold move_reserved_to_free. margin_op. Qed.
Lemma inner_move_free_to_reserved n : respects (inner sc MarginAccount) (move_free_to_reserved n).
Proof. unfold move_free_to_reserved. margin_op. Qed.
Lemma inner_substitutor s m ctx d :
  respects (inner sc MarginAccount) (substitutor_side s m ctx d).
Proof.
  unfold substitutor_side, check_owner_mint, move_reserved_to_free, move_locked_to_free. margin_op.
Qed.
Lemma inner_counterparty m ctx d :
  respects (inner sc MarginAccount) (counterparty_side m ctx d).
Proof.
  unfold counterparty_side, check_owner_mint, move_reserved_to_locked, move_reserved_to_free.
  margin_op.
Qed.
Lemma inner_novate_current o m c :
  respects (inner sc MarginAccount) (check_owner_mint o m;; move_locked_to_free c).
Proof. unfold check_owner_mint, move_locked_to_free. margin_op. Qed.
Lemma inner_novate_new o m c :
  respects (inner sc MarginAccount) (check_owner_mint o m;; debit_free c;; credit_locked c).
Proof. unfold check_owner_mint. margin_op. Qed.
Lemma inner_withdraw o m b n :
  respects (inner sc MarginAccount) (check_margin o m b;; debit_free n).
Proof. unfold check_margin. margin_op. Qed.

(** The treasury, the volumes, the nonces. *)
Lemma inner_accrue n : respects (inner sc FeeTreasury) (accrue n).
Proof.
  unfold accrue. respects_tac. inv_ok. checked_facts. apply respects_modify.
  intros t. split; [by eexists|]. unfold data_ok, treasury_ok. cbn. tauto.
Qed.
Lemma inner_sweep m n : respects (inner sc FeeTreasury) (check_treasury m;; sweep n).
Proof.
  unfold sweep, check_treasury. respects_tac; inv_ok; checked_facts;
    apply respects_modify; intros t; (split; [by eexists|]); unfold data_ok, treasury_ok; cbn; tauto.
Qed.
Lemma inner_add_volume n now : respects (inner sc UserVolume) (add_volume n now).
Proof.
  unfold add_volume, maybe_roll_epoch. respects_tac; apply respects_modify; intros v;
    (split; [eexists; split; [reflexivity|]; reflexivity|done]).
Qed.

Lemma inner_nonce_field (f : MarketNonceAccount -> MarketNonceAccount) :
  (forall n, nonce_step n (f n)) -> respects (inner sc MarketNonceAccount) (modify f).
Proof.
  intros Hf. apply respects_modify. intros n. split; [by eexists|done].
Qed.

Lemma fresh_nonce att market last now st u :
  validate_freshness_and_nonce att market last now st = Ok u ->
  market_id att = market /\ last < nonce att /\
  timestamp att <= now /\ now - timestamp att <= st.
Proof.
  unfold validate_freshness_and_nonce. destruct (Z.eqb_spec (market_id att) market); [|done].
  destruct (Z.ltb_spec now (timestamp att)); [done|].
  destruct (Z.ltb_spec st (now - timestamp att)); [done|].
  destruct (Z.leb_spec (nonce att) last); [done|]. intros _. split_and!; try done; lia.
Qed.

(** The nonce only grows: a fresh attestation's nonce is above the recorded one. *)
Lemma inner_accept_nonce {A} att market now st (k : MarketNonceAccount -> M MarketNonceAccount A) :
  (forall n, respects (inner sc MarketNonceAccount) (k n)) ->
  respects (inner sc MarketNonceAccount)
    (n ← gets id;
     lift (validate_freshness_and_nonce att market n.(last_accepted_cre_nonce) now st);;
     modify (fun n => set_nonce n n.(is_resolved) (nonce att) n.(last_accepted_twap_fp)
       n.(last_accepted_ts) n.(Governance.final_outcome_bps));; k n).
Proof.
  intros Hk n r n' E. unfold mbind, M_bind, gets, lift, modify, id in E.
  destruct (validate_freshness_and_nonce _ _ _ _ _) as [u| | |] eqn:Ev; cbn in E; simplify_eq; try done.
  etrans; [|by eapply Hk]. split; [|done]. eexists. split; [reflexivity|].
  apply fresh_nonce in Ev as (_ & Hn & _). split_and!; cbn; try done; lia.
Qed.

Lemma inner_liquidation_nonce att market now st :
  respects (inner sc MarketNonceAccount)
    (accept_nonce att market now st;; mark ← lift (breach_mark_fp att); set_mark mark).
Proof.
  unfold set_mark. respects_tac; [|apply inner_nonce_field; by repeat split].
  apply inner_accept_nonce. intros n. apply inner_nonce_field. by repeat split.
Qed.
Lemma inner_resolution_nonce att market now st :
  respects (inner sc MarketNonceAccount)
    (accept_nonce att market now st;; o ← lift (att_final_outcome_bps att); set_outcome o).
Proof.
  unfold set_outcome. respects_tac; [|apply inner_nonce_field; by repeat split].
  apply inner_accept_nonce. intros n. apply inner_nonce_field. by repeat split.
Qed.
Lemma inner_mutual_nonce att market now st :
  respects (inner sc MarketNonceAccount)
    (n ← gets id;
     lift (validate_freshness_and_nonce att market n.(last_accepted_cre_nonce) now st);;
     modify (fun n => set_nonce n n.(is_resolved) (nonce att) n.(last_accepted_twap_fp)
       n.(last_accepted_ts) n.(Governance.final_outcome_bps));;
     price ← lift (price_fp att);
     set_mark price;;
     modify (fun n => set_nonce n n.(is_resolved) n.(last_accepted_cre_nonce)
       n.(last_accepted_twap_fp) now n.(Governance.final_outcome_bps))).
Proof.
  apply inner_accept_nonce. intros n. unfold set_mark.
  respects_tac; apply inner_nonce_field; by repeat split.
Qed.

(** Sessions. *)
Lemma inner_record_intent n :
  0 <= n -> respects (inner sc Session) (record_intent n).
Proof.
  intros Hn s r s' E. unfold record_intent, mbind, M_bind, gets, id, bail_if, fail, lift in E.
  cbn in E. destruct (n =? 0); cbn in E; [by simplify_eq|].
  destruct (_ <? n); cbn in E; [by simplify_eq|].
  destruct (checked _ _) as [u|] eqn:Eu; cbn in E; [|by simplify_eq]. checked_facts.
  destruct (Z.ltb_spec s.(cumulative_collateral_cap) (s.(cumulative_collateral_used) + n));
    cbn in E; [by simplify_eq|].
  unfold put, modify, mret, M_ret in E. simplify_eq. split.
  - eexists. split; [reflexivity|]. split; [done|]. intros _. cbn. split_and!; try done; lia.
  - cbn. unfold session_ok. cbn. lia.
Qed.
Lemma inner_revoke owner :
  respects (inner sc Session)
    (s ← gets id; bail_if (negb (s.(se_owner) =? owner)) SessionOwnerMismatch;; revoke).
Proof.
  unfold revoke. respects_tac. apply respects_modify. intros v. split; [|done].
  eexists. split; [reflexivity|]. split; [done|]. intros _. cbn. split_and!; try done; lia.
Qed.
End state_operations.

Section governance_operations.
Context {R : Runtime} (sc : Scope) (Hadmin : sc.(sc_admin) = true).

(** What an administrator's instruction writes. *)
Lemma admin_step_any {T} (v v' : T) : admin_step sc v v'.
Proof. unfold admin_step. by rewrite Hadmin. Qed.

Lemma inner_pause b :
  respects (inner sc ProgramConfig) (modify (set_global_pause b)).
Proof.
  apply respects_modify. intros c. split; [|done]. eexists. split; [reflexivity|].
  split_and!; [reflexivity|by rewrite Hadmin|by left].
Qed.
Lemma inner_status b : respects (inner sc InstrumentConfig) (modify (set_ic_status b)).
Proof.
  apply respects_modify. intros c. split; [|done]. eexists. split; [reflexivity|].
  split; [reflexivity|by rewrite Hadmin].
Qed.

Lemma take_padded {A} n (d : A) l : (length l <= n)%nat -> take (length l) (padded n d l) = l.
Proof.
  intros Hl. unfold padded. rewrite (firstn_all2 l) by lia. by rewrite take_app_length.
Qed.

Lemma active_padded {A} n (d : A) l :
  (length l <= n)%nat -> (n < 256)%nat ->
  take (Nat.min (Z.to_nat (as_u 8 (Z.of_nat (length l)))) n) (padded n d l) = l.
Proof.
  intros Hl Hn. rewrite as_u_small by lia. rewrite Nat2Z.id, Nat.min_l by done.
  by apply take_padded.
Qed.

Lemma validate_signers_ok l t :
  validate_signers l t = Ok tt ->
  (0 < length l <= MAX_MULTISIG_SIGNERS)%nat /\ t <> 0 /\ t <= Z.of_nat (length l) /\ NoDup l.
Proof.
  unfold validate_signers. destruct (_ || _) eqn:E1; [done|].
  destruct ((t =? 0) || _) eqn:E2; [done|]. destruct (has_duplicates l) eqn:E3; [done|].
  intros _. apply orb_false_iff in E1 as [E1 E1']. apply orb_false_iff in E2 as [E2 E2'].
  apply has_duplicates_NoDup in E3. split_and!; try done.
  - apply Nat.eqb_neq in E1. lia.
  - by apply Nat.ltb_ge in E1'.
  - by apply Z.eqb_neq in E2.
  - by apply Z.ltb_ge in E2'.
Qed.

Lemma multisig_valid l t (v : AdminMultisig) :
  validate_signers l t = Ok tt -> v.(threshold) = t ->
  v.(n_signers) = as_u 8 (Z.of_nat (length l)) -> v.(signers) = padded MAX_MULTISIG_SIGNERS 0 l ->
  multisig_ok v.
Proof.
  intros Hv Ht Hn Hs. exists l. rewrite Ht. split; [done|].
  apply validate_signers_ok in Hv as (? & _). unfold active_signers. rewrite Hn, Hs.
  apply active_padded; [lia|]. unfold MAX_MULTISIG_SIGNERS. lia.
Qed.

Lemma inner_rotate l t : respects (inner sc AdminMultisig) (rotate l t).
Proof.
  unfold rotate. respects_tac. inv_ok. apply respects_modify. intros v. split.
  - eexists. split; [reflexivity|]. apply admin_step_any.
  - intros _. cbn. destruct a. by eapply multisig_valid.
Qed.

Lemma buckets_valid ls bs (v : BucketRegistry) :
  validate_inputs ls bs = Ok tt ->
  v.(n_leverage) = as_u 8 (Z.of_nat (length ls)) ->
  v.(n_collateral) = as_u 8 (Z.of_nat (length bs)) ->
  v.(br_leverage_bps) = padded MAX_LEVERAGE_SLOTS 0 ls ->
  v.(collateral_buckets) = padded MAX_COLLATERAL_SLOTS 0 bs -> buckets_ok v.
Proof.
  intros Hv E1 E2 E3 E4. exists ls, bs. split; [done|].
  unfold validate_inputs in Hv. destruct (_ || _) eqn:H1; [done|].
  destruct ((length bs =? 0)%nat || _) eqn:H2; [done|].
  apply orb_false_iff in H1 as [_ H1%Nat.ltb_ge]. apply orb_false_iff in H2 as [_ H2%Nat.ltb_ge].
  unfold allows_leverage, allows_bucket. rewrite E1, E2, E3, E4.
  rewrite !active_padded; try done; unfold MAX_LEVERAGE_SLOTS, MAX_COLLATERAL_SLOTS; lia.
Qed.

Lemma inner_registry_set ls bs : respects (inner sc BucketRegistry) (registry_set ls bs).
Proof.
  unfold registry_set. respects_tac. inv_ok. apply respects_modify. intros v. split.
  - eexists. split; [reflexivity|]. apply admin_step_any.
  - intros _. cbn. destruct a. by eapply buckets_valid.
Qed.

Lemma inner_set_schedule ts now :
  validate_tiers ts = Ok tt -> respects (inner sc FeeSchedule) (set_schedule ts now).
Proof.
  intros Hv s r s' E. unfold set_schedule, mbind, M_bind, gets, id, bail_if, fail, lift, put, modify in E.
  cbn in E. destruct (Z.ltb_spec s.(max_tier_fee_bps) (compute_max_fee_bps ts)); cbn in E;
    simplify_eq; [done|]. split; [|by split].
  eexists. split; [reflexivity|]. split_and!; [done|done|by rewrite Hadmin].
Qed.

Lemma inner_add_mint m : respects (inner sc StablecoinRegistry) (add_mint m).
Proof.
  intros v r v' E. split; [eexists; split; [reflexivity|]; apply admin_step_any|].
  intros Hv. cbn in *. pose proof (add_mint_spec m v Hv) as Hs.
  destruct (is_accepted v m); [congruence|]. destruct (n_mints v =? 16); [congruence|].
  destruct Hs as (r' & Hs & ? & _). congruence.
Qed.
Lemma inner_remove_mint m : respects (inner sc StablecoinRegistry) (remove_mint m).
Proof.
  intros v r v' E. split; [eexists; split; [reflexivity|]; apply admin_step_any|].
  intros Hv. cbn in *. pose proof (remove_mint_spec m v Hv) as Hs.
  destruct (is_accepted v m); [|congruence]. destruct Hs as (r' & Hs & ? & _). congruence.
Qed.
End governance_operations.

#[export] Hint Resolve inner_book inner_credit_free inner_debit_free inner_debit_locked
  inner_settle_margin inner_reserve_margin inner_release_margin inner_settle_equity inner_sub_pnl
  inner_add_pnl inner_move_reserved_to_free inner_move_free_to_reserved inner_substitutor
  inner_counterparty inner_novate_current inner_novate_new inner_withdraw inner_accrue inner_sweep
  inner_add_volume inner_liquidation_nonce inner_resolution_nonce inner_mutual_nonce inner_revoke inner_pause
  inner_status inner_rotate inner_registry_set inner_add_mint inner_remove_mint : respects.

(* ------------------------------------------------------------------ *)
(** ** The handlers *)

(** Steps of a handler along [evolves]: reads, writes to one struct, calls. *)
Ltac evolve_step :=
  first
  [ lazymatch goal with |- respects (inner _ _) _ => solve [auto with respects] end
  | world_step
  | lazymatch goal with
    | |- respects (evolves_at _ _ _) (with_mut _ _) => apply respects_mut_at; [reflexivity|]
    | |- respects (evolves _) (with_mut _ _) => apply respects_mut
    | |- respects (evolves _) (create_pda _ _ _ _ _) => apply respects_create_pda; exact _
    | |- respects (evolves _) (invoke_signed (CreateAccount _ _ _ _ _) _) =>
        apply respects_create; exact _
    | |- respects (evolves _) (invoke_signed (TransferLamports _ _ _) _) =>
        apply respects_transfer; exact _
    | |- respects (evolves _) (invoke_signed _ _) => apply respects_token; [exact _|reflexivity]
    | |- respects (evolves _) (init_account _ _) => apply respects_init
    end ].
Ltac evolve := repeat evolve_step.

Section handlers.
Context {R : Runtime} {L : RuntimeLaws} (sc : Scope).

Lemma evolves_ensure_fee_treasury p t m : respects (evolves sc) (ensure_fee_treasury p t m).
Proof.
  unfold ensure_fee_treasury. evolve. unfold data_ok, treasury_ok. cbn. mlia.
Qed.
Lemma evolves_ensure_user_volume p v o m now :
  respects (evolves sc) (ensure_user_volume p v o m now).
Proof. unfold ensure_user_volume. evolve. done. Qed.

Lemma evolves_charge_taker ctx fc r m c : respects (evolves sc) (charge_taker ctx fc r m c).
Proof.
  unfold charge_taker. evolve; first [apply evolves_ensure_fee_treasury | apply evolves_ensure_user_volume].
Qed.

(** A created account holds zeros, and whatever overwrites those starts a new life. *)
Lemma create_pda_holds payer k space seeds bump w u w' :
  create_pda payer k space seeds bump w = (Ok u, w') -> holds k (zeros space) w'.
Proof. intros E%invoke_signed_ok_inv. by apply create_fresh in E as (_ & _ & ? & _). Qed.

Lemma guarded_overwrite `{AccountType T} k (v : T) n :
  data_ok (inj v) -> guarded (holds k (zeros n)) (evolves sc) (overwrite k v).
Proof.
  intros Hv w r w' Hh E.
  unfold overwrite, data_of, mbind, M_bind, gets in E. destruct (negb _).
  - unfold panic, lift in E. by simplify_eq.
  - unfold modify in E. simplify_eq. apply evolves_set; unfold holds in Hh; by rewrite Hh.
Qed.

(** A pure step between the two. *)
Lemma guarded_pure {A B} (P : World -> Prop) (x : Res A) (f : A -> M World B) :
  (forall a, x = Ok a -> guarded P (evolves sc) (f a)) ->
  guarded P (evolves sc) (lift x ≫= f).
Proof.
  intros Hf w r w' Hp E. unfold mbind, M_bind, lift in E. destruct x; [by eapply Hf|..]; by simplify_eq.
Qed.

Lemma evolves_open_position ctx r inst id bump fee :
  respects (evolves sc) (open_position ctx r inst id bump fee).
Proof.
  unfold open_position. do 2 (apply respects_bind; [exact _|evolve|intros _ _ _ _]).
  apply (respects_establish _ (fun _ => holds ctx.(pmlc_ai).(key) (zeros PMLC_LEN))); [evolve|..].
  - intros ? ? ?. apply create_pda_holds.
  - intros _ _ _ _. apply guarded_pure. intros notional _. apply guarded_pure. intros size _.
    by apply guarded_overwrite.
Qed.

Lemma evolves_match_pair_core ctx l s n : respects (evolves sc) (match_pair_core ctx l s n).
Proof.
  unfold match_pair_core, settle_match.
  evolve; first [apply evolves_charge_taker | apply evolves_open_position].
Qed.

Lemma evolves_unpack_accounts accounts : respects (evolves sc) (unpack_accounts accounts).
Proof. unfold unpack_accounts. evolve. Qed.

Lemma evolves_match_pair accounts args : respects (evolves sc) (process_match_pair accounts args).
Proof.
  unfold process_match_pair.
  evolve; first [apply evolves_unpack_accounts | apply evolves_match_pair_core].
Qed.
Lemma evolves_match_best accounts : respects (evolves sc) (process_match_best_available accounts).
Proof.
  unfold process_match_best_available.
  evolve; first [apply evolves_unpack_accounts | apply evolves_match_pair_core].
Qed.

(** Posting and cancelling. *)
Lemma evolves_validate_post o c i b m args :
  respects (evolves sc) (validate_post o c i b m args).
Proof. unfold validate_post. evolve. Qed.
Lemma evolves_inline_match p i b m full off args id :
  respects (evolves sc) (try_inline_match p i b m full off args id).
Proof. unfold try_inline_match. evolve; apply evolves_match_pair_core. Qed.

Lemma evolves_post o p c i b m s full off args :
  respects (evolves sc) (do_post_intent_inner o p c i b m s full off args).
Proof.
  unfold do_post_intent_inner.
  evolve; first [apply evolves_validate_post | apply evolves_inline_match
                | inv_ok; checked_facts; apply inner_record_intent; lia].
Qed.
Lemma evolves_post_intent accounts args :
  respects (evolves sc) (process_post_intent accounts args).
Proof. unfold process_post_intent. evolve. apply evolves_post. Qed.
Lemma evolves_authorize_session d i s : respects (evolves sc) (authorize_session d i s).
Proof. unfold authorize_session. evolve. Qed.
Lemma evolves_post_delegated accounts args :
  respects (evolves sc) (process_post_intent_delegated accounts args).
Proof.
  unfold process_post_intent_delegated.
  evolve; first [apply evolves_post | apply evolves_authorize_session].
Qed.
Lemma evolves_cancel accounts id : respects (evolves sc) (process_cancel_intent accounts id).
Proof. unfold process_cancel_intent. evolve. Qed.
Lemma evolves_cancel_delegated accounts id :
  respects (evolves sc) (process_cancel_intent_delegated accounts id).
Proof. unfold process_cancel_intent_delegated. evolve. apply evolves_authorize_session. Qed.

(** Custody. *)
Lemma evolves_validate_vault v a m : respects (evolves sc) (validate_vault v a m).
Proof. unfold validate_vault. evolve. Qed.
Lemma evolves_create_margin accounts :
  respects (evolves sc) (process_create_margin_account accounts).
Proof. unfold process_create_margin_account. evolve. unfold data_ok, margin_wf. cbn. mlia. Qed.
Lemma evolves_deposit accounts n : respects (evolves sc) (process_deposit accounts n).
Proof. unfold process_deposit, require_token_program. evolve. apply evolves_validate_vault. Qed.
Lemma evolves_withdraw accounts n : respects (evolves sc) (process_withdraw accounts n).
Proof. unfold process_withdraw, require_token_program. evolve. apply evolves_validate_vault. Qed.
Lemma evolves_sweep accounts n : respects (evolves sc) (process_sweep_fees accounts n).
Proof. unfold process_sweep_fees, require_token_program, require_admin. evolve. Qed.
Lemma evolves_wrap accounts n : respects (evolves sc) (process_wrap_stablecoin accounts n).
Proof.
  unfold process_wrap_stablecoin, require_token_program, check_accepted, check_reserve. evolve.
Qed.
Lemma evolves_unwrap accounts n : respects (evolves sc) (process_unwrap_stablecoin accounts n).
Proof.
  unfold process_unwrap_stablecoin, require_token_program, check_accepted, check_reserve. evolve.
Qed.

(** ** Contracts *)

Lemma live_ok p : require_live p = Ok tt -> p.(pm_status) = PMLC_STATUS_LIVE.
Proof. unfold require_live. by destruct (Z.eqb_spec p.(pm_status) PMLC_STATUS_LIVE). Qed.

Lemma load_live_pmlc_ok k ik mk mint w p w' :
  load_live_pmlc k ik mk mint w = (Ok p, w') ->
  holds k (DPmlc p) w' /\ p.(pm_status) = PMLC_STATUS_LIVE.
Proof.
  unfold load_live_pmlc. intros (p0 & w1 & El & H)%bind_ok_inv.
  apply load_ok_inv in El as [-> Hd]. apply bind_ok_inv in H as ([] & w2 & Hl & H).
  apply lift_ok_inv in Hl as [Hl%live_ok ->]. inv_ok. done.
Qed.

(** A live contract may end, or change hands. *)
Lemma guarded_finish k p st reason :
  p.(pm_status) = PMLC_STATUS_LIVE ->
  guarded (holds k (DPmlc p)) (evolves sc) (with_mut k (finish_pmlc st reason)).
Proof.
  intros Hl. change (DPmlc p) with (inj p). apply guarded_mut. intros r p' [= _ <-]. split; [|done].
  eexists. split; [reflexivity|]. split_and!; [reflexivity|apply Z.land_diag|done].
Qed.
Lemma guarded_hand_over k p side o slot :
  p.(pm_status) = PMLC_STATUS_LIVE ->
  guarded (holds k (DPmlc p)) (evolves sc) (with_mut k (modify (hand_over side o slot))).
Proof.
  intros Hl. change (DPmlc p) with (inj p). apply guarded_mut. intros r p' [= _ <-]. split; [|done].
  eexists. split; [reflexivity|]. unfold hand_over.
  destruct (side =? SIDE_LONG); (split_and!; [reflexivity|apply Z.land_diag|done]).
Qed.
Lemma inner_clear_flag mask : respects (inner sc Pmlc) (modify (clear_flag mask)).
Proof.
  apply respects_modify. intros p. split; [|done]. eexists. split; [reflexivity|].
  split_and!; [reflexivity| |done]. cbn. rewrite (Z.land_comm _ (pm_flags p)), Z.land_assoc.
  by rewrite Z.land_diag.
Qed.

Lemma at_liquidation_payout k p l s c b lw :
  respects (evolves_at sc k (DPmlc p)) (liquidation_payout l s c b lw).
Proof. unfold liquidation_payout. evolve. Qed.
Lemma at_pay_equities k p l s c el es :
  respects (evolves_at sc k (DPmlc p)) (pay_equities l s c el es).
Proof. unfold pay_equities. evolve. Qed.

Ltac at_step :=
  lazymatch goal with
  | |- guarded _ _ (mbind _ _) =>
      apply guarded_at_bind;
        [solve [first [apply at_liquidation_payout | apply at_pay_equities | evolve]]
        |intros ? ? ? ?]
  | |- guarded _ _ (let _ := _ in _) => cbv zeta
  | |- guarded _ _ (match ?x with _ => _ end) => destruct x
  end.

Lemma evolves_load_live k ik mk mint : respects (evolves sc) (load_live_pmlc k ik mk mint).
Proof. unfold load_live_pmlc. evolve. Qed.
Lemma evolves_signer k : respects (evolves sc) (load_attestation_signer k).
Proof. unfold load_attestation_signer. evolve. Qed.
Lemma evolves_breach a k : respects (evolves sc) (check_breach a k).
Proof. unfold check_breach. evolve. Qed.
Lemma evolves_verified s k o : respects (evolves sc) (verified_attestation s k o).
Proof. unfold verified_attestation. evolve. Qed.

(** From the load of a live contract to its end. *)
Lemma respects_live {B} k ik mk mint (f : Pmlc -> M World B) :
  (forall p, p.(pm_status) = PMLC_STATUS_LIVE -> guarded (holds k (DPmlc p)) (evolves sc) (f p)) ->
  respects (evolves sc) (load_live_pmlc k ik mk mint ≫= f).
Proof.
  intros Hf. apply (respects_establish _ (fun p => holds k (DPmlc p))); [apply evolves_load_live|..].
  - intros p w w' E. by apply load_live_pmlc_ok in E as [? _].
  - intros p w w' E. apply load_live_pmlc_ok in E as [_ ?]. by apply Hf.
Qed.

Ltac settle_head := repeat first
  [ apply respects_live; intros p Hlive
  | apply evolves_signer | apply evolves_breach | apply evolves_verified
  | evolve_step ].

Lemma evolves_liquidate accounts args : respects (evolves sc) (process_liquidate accounts args).
Proof.
  unfold process_liquidate. settle_head. repeat at_step.
  apply guarded_then; [exact _|by apply guarded_finish|]. intros _. evolve.
Qed.
Lemma evolves_resolve accounts args : respects (evolves sc) (process_resolve accounts args).
Proof.
  unfold process_resolve. settle_head. repeat at_step. by apply guarded_finish.
Qed.
Lemma evolves_close_mutual accounts args :
  respects (evolves sc) (process_close_mutual accounts args).
Proof.
  unfold process_close_mutual. settle_head. repeat at_step. by apply guarded_finish.
Qed.

(** Loads that guard the rest. *)
Lemma respects_live_load {B} k (f : Pmlc -> M World B) :
  (forall p, p.(pm_status) = PMLC_STATUS_LIVE -> guarded (holds k (DPmlc p)) (evolves sc) (f p)) ->
  respects (evolves sc) (p ← load Pmlc k; lift (require_live p);; f p).
Proof.
  intros Hf. apply respects_load_bind; [exact _|]. intros p. apply guarded_pure. intros [] Hl.
  apply Hf. by apply live_ok.
Qed.

Lemma evolves_novate accounts side : respects (evolves sc) (process_novate accounts side).
Proof.
  unfold process_novate.
  repeat first [apply respects_live_load; intros p Hlive | evolve_step].
  repeat at_step. by apply guarded_hand_over.
Qed.
Lemma evolves_substitute accounts args b :
  respects (evolves sc) (do_substitute accounts args b).
Proof.
  unfold do_substitute, settle_substitution.
  repeat first [apply respects_live_load; intros p Hlive | evolve_step].
  repeat at_step. by apply guarded_hand_over.
Qed.

(** ** Re-entry and pruning *)

Lemma evolves_affordable n b m f : respects (evolves sc) (affordable n b m f).
Proof. induction n as [|n IH]; cbn [affordable]; evolve; done. Qed.
Lemma evolves_reservation n b m : respects (evolves sc) (reservation n b m).
Proof. unfold reservation. evolve. Qed.
Lemma evolves_reentry_size f b k : respects (evolves sc) (reentry_size f b k).
Proof.
  unfold reentry_size. evolve; first [apply evolves_affordable | apply evolves_reservation].
Qed.
Lemma evolves_claim accounts side e :
  respects (evolves sc) (process_claim_reentry accounts side e).
Proof.
  unfold process_claim_reentry, repost.
  evolve; first [apply evolves_reentry_size | apply inner_clear_flag].
Qed.

Lemma evolves_find_margin t m j ms : respects (evolves sc) (find_margin t m j ms).
Proof. revert j. induction ms as [|a ms IH]; intros j; cbn [find_margin]; evolve; apply IH. Qed.
Lemma evolves_prune_all k m ms work : respects (evolves sc) (prune_all k m ms work).
Proof.
  revert ms. induction work as [|[[[side i] t] n] work IH]; intros ms; cbn [prune_all]; evolve;
    first [apply evolves_find_margin | apply IH].
Qed.
Lemma evolves_prune accounts : respects (evolves sc) (process_prune_expired accounts).
Proof. unfold process_prune_expired. evolve. apply evolves_prune_all. Qed.
End handlers.

(* ------------------------------------------------------------------ *)
(** ** Administration *)

(** The facts a validation leaves behind. *)
Ltac validated :=
  repeat match goal with
  | H : lift _ _ = (Ok _, _) |- _ => apply lift_ok_inv in H as [H ?]; subst
  | u : unit |- _ => destruct u
  end.

Section administration.
Context {R : Runtime} {L : RuntimeLaws} (sc : Scope).

Lemma reads_authorize (W : World -> World -> Prop) `{!PreOrder W} c accounts :
  respects W (authorize c accounts).
Proof.
  unfold authorize, authorize_admin_or_multisig. world_tac.
  generalize accounts at 2 as ais. induction ais as [|ai ais IH]; cbn [authorize_scan]; world_tac.
  done.
Qed.
Lemma reads_require_admin (W : World -> World -> Prop) `{!PreOrder W} c a :
  respects W (require_admin c a).
Proof. unfold require_admin. world_tac. Qed.
Lemma evolves_create_if_empty p n sp seeds b :
  respects (evolves sc) (create_if_empty p n sp seeds b).
Proof. unfold create_if_empty. evolve. Qed.

Ltac admin := repeat first
  [ evolve_step | apply reads_authorize; exact _ | apply reads_require_admin; exact _
  | apply evolves_create_if_empty ].

Lemma evolves_init_config accounts s st :
  respects (evolves sc) (process_init_program_config accounts s st).
Proof. unfold process_init_program_config. admin. done. Qed.

Lemma evolves_init_multisig accounts t l :
  respects (evolves sc) (process_init_admin_multisig accounts t l).
Proof. unfold process_init_admin_multisig. admin. validated. by eapply multisig_valid. Qed.
Lemma evolves_init_buckets accounts ls bs :
  respects (evolves sc) (process_init_bucket_registry accounts ls bs).
Proof.
  unfold process_init_bucket_registry. admin; validated; by eapply buckets_valid.
Qed.
Lemma evolves_init_schedule accounts ts :
  respects (evolves sc) (process_init_fee_schedule accounts ts).
Proof. unfold process_init_fee_schedule. admin. validated. by split. Qed.

Lemma validate_mints_ok l :
  validate_mints l = Ok tt -> (length l <= MAX_STABLECOIN_SLOTS)%nat /\ NoDup l.
Proof.
  unfold validate_mints. destruct (Nat.ltb_spec MAX_STABLECOIN_SLOTS (length l)); [done|].
  intros Hv. split; [done|]. clear H. induction l as [|m l IH]; [constructor|]. cbn in Hv.
  destruct (m =? 0); [done|]. case_bool_decide; [done|]. constructor; auto.
Qed.
Lemma stables_valid w d l b : validate_mints l = Ok tt -> stables_ok (stablecoins_init w d l b).
Proof.
  intros [Hl Hn]%validate_mints_ok. unfold MAX_STABLECOIN_SLOTS in *.
  unfold stables_ok, stablecoins_init, MAX_STABLECOIN_SLOTS. cbn -[padded].
  rewrite as_u_small by lia. rewrite Nat2Z.id, take_padded by done.
  split_and!; try done; try lia. unfold padded.
  rewrite length_app, length_take, length_replicate. lia.
Qed.
Lemma evolves_init_stables accounts d l :
  respects (evolves sc) (process_init_stablecoin_registry accounts d l).
Proof.
  unfold process_init_stablecoin_registry, create_wusd_mint. admin. validated.
  by apply stables_valid.
Qed.

(** ** Timelock *)

Lemma guarded_tl_status k p st :
  p.(tl_status) = TL_STATUS_PENDING ->
  guarded (holds k (DTimelock p)) (evolves sc) (with_mut k (modify (set_tl_status st))).
Proof.
  intros Hl. change (DTimelock p) with (inj p). apply guarded_mut. intros r p' [= _ <-].
  split; [|done]. eexists. split; [reflexivity|]. by split.
Qed.

Lemma evolves_cancel_timelock accounts id :
  respects (evolves sc) (process_cancel_timelock accounts id).
Proof.
  unfold process_cancel_timelock. do 6 (apply respects_bind; [exact _|admin|intros ? ? ? ?]).
  apply respects_load_bind; [exact _|]. intros p.
  apply guarded_at_bind; [admin|intros ? ? ? _]. apply guarded_at_bind; [admin|intros ? ? ? H'].
  apply bail_if_ok_inv in H' as [Hp%negb_false_iff%Z.eqb_eq _]. by apply guarded_tl_status.
Qed.

Lemma evolves_propose accounts id k :
  respects (evolves sc) (process_propose_set_attestation_signer accounts id k).
Proof.
  unfold process_propose_set_attestation_signer.
  do 13 (apply respects_bind; [exact _|admin|intros ? ? ? ?]).
  apply (respects_establish _ (fun _ => holds a1.(key) (zeros TIMELOCK_PROPOSAL_LEN))); [admin|..].
  - intros ? ? ?. apply create_pda_holds.
  - intros _ _ _ _ w r w' Hh E. unfold mbind, M_bind in E.
    destruct (checked_i64 _) as [t|] eqn:Et; cbn in E; [|by simplify_eq].
    apply checked_i64_some in Et as [-> _].
    by refine (guarded_overwrite _ _ _ _ _ _ _ _ Hh E).
Qed.

(** ** Instruments *)

Lemma evolves_init_instrument k c : respects (evolves sc) (init_instrument k c).
Proof.
  intros w r w' E. unfold init_instrument, data_of, mbind, M_bind, gets, modify, bail_if, fail, lift in E.
  destruct (negb (len_ok _)); [by simplify_eq|]. cbn in E.
  destruct (bool_decide (disc _ = Some 0)) eqn:Ed; cbn in E; [|by simplify_eq].
  destruct (validate_instrument c) eqn:Ev; cbn in E; simplify_eq; try done.
  apply bool_decide_eq_true in Ed.
  destruct (acc_data (acct w k)) as [| | | | | | | | | | | | | |bs] eqn:Eb; try done.
  apply evolves_set; by rewrite Eb.
Qed.

(** A book's length is no other struct's. *)
Lemma evolves_init_book k i c b : respects (evolves sc) (init_book k i c b).
Proof.
  intros w r w' E. unfold init_book, data_of, mbind, M_bind, gets, modify, lift, init_intent_book in E.
  destruct (Z.eqb_spec (data_len (acc_data (acct w k))) (intent_book_byte_size c)) as [El|];
    cbn in E; simplify_eq; [|done].
  unfold intent_book_byte_size, INTENT_BOOK_HEADER_LEN, NODE_SIZE in El.
  apply evolves_set;
    destruct (acc_data (acct w k)); cbn in El |- *; try done; try (by eexists); exfalso;
    unfold PROGRAM_CONFIG_LEN, MARGIN_ACCOUNT_LEN, INSTRUMENT_CONFIG_LEN, PMLC_LEN,
      MARKET_NONCE_LEN, FEE_SCHEDULE_LEN, USER_VOLUME_LEN, FEE_TREASURY_LEN,
      TIMELOCK_PROPOSAL_LEN, ADMIN_MULTISIG_LEN, BUCKET_REGISTRY_LEN, STABLECOIN_REGISTRY_LEN,
      SESSION_LEN in El; lia.
Qed.

Lemma evolves_check_bucket_registry t l b : respects (evolves sc) (check_bucket_registry t l b).
Proof. unfold check_bucket_registry. admin. Qed.
Lemma evolves_ensure_market_nonce p n m : respects (evolves sc) (ensure_market_nonce p n m).
Proof. unfold ensure_market_nonce. admin. done. Qed.
Lemma evolves_create_instrument accounts args :
  respects (evolves sc) (process_create_instrument accounts args).
Proof.
  unfold process_create_instrument.
  admin; first [apply evolves_check_bucket_registry | apply evolves_init_instrument
               | apply evolves_init_book | apply evolves_ensure_market_nonce].
Qed.
Lemma evolves_expand accounts n : respects (evolves sc) (process_expand_intent_book accounts n).
Proof. unfold process_expand_intent_book. admin. Qed.

(** ** Sessions *)

Lemma guarded_write_session k s d :
  session_ok s ->
  (forall o, d = DSession o -> o.(se_owner) = s.(se_owner) /\ sc.(sc_session) = true) ->
  (exists bs, d = DBytes bs) \/ (exists o, d = DSession o) ->
  guarded (holds k d) (evolves sc) (write_session k s).
Proof.
  intros Hs Hd Hb w r w' Hh E. unfold holds in Hh.
  unfold write_session, data_of, mbind, M_bind, gets, modify, bail_if, fail, lift in E.
  destruct (negb (len_ok _)); cbn in E; injection E as <- <-; [done|].
  apply evolves_set; rewrite Hh; [|done]. destruct Hb as [[bs ->]|[o ->]]; [done|].
  destruct (Hd _ eq_refl) as [Ho Hr]. eexists. split; [reflexivity|]. split; [done|]. by rewrite Hr.
Qed.

Lemma evolves_revoke accounts : respects (evolves sc) (process_revoke_session accounts).
Proof. unfold process_revoke_session. admin. Qed.
End administration.

Section admin_only.
Context {R : Runtime} {L : RuntimeLaws} (sc : Scope) (Hadmin : sc.(sc_admin) = true).

Ltac admin := repeat first
  [ evolve_step | apply reads_authorize; exact _ | apply reads_require_admin; exact _
  | apply evolves_create_if_empty ].

Lemma evolves_set_pause accounts b : respects (evolves sc) (process_set_global_pause accounts b).
Proof. unfold process_set_global_pause. admin. Qed.
Lemma evolves_rotate accounts t l :
  respects (evolves sc) (process_rotate_admin_multisig accounts t l).
Proof. unfold process_rotate_admin_multisig. admin. Qed.
Lemma evolves_set_buckets accounts ls bs :
  respects (evolves sc) (process_set_bucket_registry accounts ls bs).
Proof. unfold process_set_bucket_registry. admin. Qed.
Lemma evolves_add_mint accounts : respects (evolves sc) (process_add_stablecoin_mint accounts).
Proof. unfold process_add_stablecoin_mint. admin. Qed.
Lemma evolves_remove_mint accounts :
  respects (evolves sc) (process_remove_stablecoin_mint accounts).
Proof. unfold process_remove_stablecoin_mint. admin. Qed.
Lemma evolves_set_schedule accounts ts :
  respects (evolves sc) (process_set_fee_schedule accounts ts).
Proof.
  unfold process_set_fee_schedule. admin. validated. by apply inner_set_schedule.
Qed.
Lemma evolves_set_status accounts b :
  respects (evolves sc) (process_set_instrument_status accounts b).
Proof. unfold process_set_instrument_status. admin. Qed.
End admin_only.

(* ------------------------------------------------------------------ *)
(** ** Replacing a session, installing an attestor, closing a contract *)

Section special.
Context {R : Runtime} {L : RuntimeLaws}.

(** The session account is fresh, or holds a session of this owner that no longer trades. *)
Definition replaceable (owner : Pubkey) (k : Pubkey) (w : World) : Prop :=
  holds k (zeros SESSION_LEN) w \/
  exists o, holds k (DSession o) w /\ o.(se_owner) = owner /\ is_active o clock_slot = false.

Lemma alloc_session_replaceable owner k bump w u w' :
  alloc_session owner k bump w = (Ok u, w') -> replaceable owner k w'.
Proof.
  unfold alloc_session. intros (d & w1 & Hd & H)%bind_ok_inv. apply read_ok_inv in Hd as [-> ->].
  destruct (data_len _ =? 0); [left; by eapply create_pda_holds|].
  right. apply bind_ok_inv in H as (o & w2 & Hl & H). apply load_ok_inv in Hl as [-> Hl].
  apply bind_ok_inv in H as ([] & w3 & Ho & H).
  apply bail_if_ok_inv in Ho as [Ho%negb_false_iff%Z.eqb_eq ->].
  apply bail_if_ok_inv in H as [Hi ->]. by exists o.
Qed.

Lemma evolves_create_session sc accounts args :
  sc.(sc_session) = true -> respects (evolves sc) (process_create_session accounts args).
Proof.
  intros Hs. unfold process_create_session.
  do 13 (apply respects_bind; [exact _|evolve|intros ? ? ? ?]).
  apply respects_bind; [exact _|evolve|intros ? ? ? Hv].
  apply lift_ok_inv in Hv as [Hv _].
  apply (respects_establish _ (fun _ => replaceable a.(key) a1.(key))).
  - unfold alloc_session. evolve.
  - intros ? ? ?. apply alloc_session_replaceable.
  - intros _ _ _ _ w r w' Hr E. set (s' := session_init _ _ _ _ _ _ _ _) in E.
    assert (Hok : session_ok s') by by left.
    destruct Hr as [Hr|(o & Hr & Ho & _)].
    + refine (guarded_write_session _ _ _ _ Hok _ _ _ _ _ Hr E); [done|by left; eexists].
    + refine (guarded_write_session _ _ _ _ Hok _ _ _ _ _ Hr E); [|eauto].
      intros o' [= <-]. done.
Qed.

(** A pending proposal past its delay, in an account of the program. *)
Definition due (w : World) (k : Pubkey) (tl : TimelockProposal) : Prop :=
  holds k (DTimelock tl) w /\ (acct w k).(acc_owner) = program_id /\
  tl.(tl_status) = TL_STATUS_PENDING /\ tl.(tl_kind) = TL_KIND_SET_ATTESTATION_SIGNER /\
  tl.(executable_after_unix_ts) <= clock_unix_timestamp.

Definition installs (k : Pubkey) : Scope :=
  {| sc_admin := true; sc_attestor := Some k; sc_session := false |}.

Lemma execute_evolves accounts id w u w' :
  process_execute_set_attestation_signer accounts id w = (Ok u, w') ->
  exists k tl, due w k tl /\ evolves (installs tl.(Governance.new_signer)) w w'.
Proof.
  unfold process_execute_set_attestation_signer. intros H. inv_world.
  match goal with H : authorize _ _ _ = _ |- _ => rename H into Ha end.
  apply (reads_authorize eq) in Ha as <-.
  match goal with H : with_mut _ (modify (set_attestation_signer _)) _ = _ |- _ => rename H into Hc end.
  match goal with H : with_mut _ (modify (set_tl_status _)) _ = _ |- _ => rename H into Ht end.
  match goal with H : _ = inj ?p, H' : tl_status ?p = _ |- _ => rename p into prop, H into Hd end.
  match goal with H : forallb _ _ = true |- _ => cbn in H; apply andb_true_iff in H as [_ H];
    rewrite andb_true_r in H; apply owned_spec in H end.
  eexists _, prop. split; [by split_and!|].
  apply with_mut_ok_inv in Hc as (c & c' & Hc & [= <-] & ->).
  apply with_mut_ok_inv in Ht as (t & t' & Ht & [= <-] & ->).
  match goal with
  | Hc : acc_data (acct w ?kc) = inj c, Hd : acc_data (acct w ?kp) = inj prop |- _ =>
      assert (Hne : kc <> kp) by (intros Hk; rewrite Hk, Hd in Hc; discriminate)
  end.
  rewrite acct_set_ne in Ht by done. rewrite Hd in Ht. injection Ht as <-.
  etrans; apply evolves_set.
  - rewrite Hc. eexists. split; [reflexivity|]. split_and!; [reflexivity|done|by right].
  - by rewrite Hc.
  - rewrite acct_set_ne, Hd by done. eexists. split; [reflexivity|]. by split.
  - by rewrite acct_set_ne, Hd by done.
Qed.

(** The data and the owner of every account but one stay. *)
Definition same_but (k : Pubkey) (w w' : World) : Prop :=
  forall k', k' <> k -> (acct w' k').(acc_data) = (acct w k').(acc_data) /\
    (acct w' k').(acc_owner) = (acct w k').(acc_owner).

Lemma close_account_clears recipient k w u w' :
  close_pmlc_account recipient k w = (Ok u, w') ->
  holds k (zeros (data_len (acct w k).(acc_data))) w' /\
  (acct w' k).(acc_owner) = SYSTEM_PROGRAM_ID /\ same_but k w w'.
Proof.
  unfold close_pmlc_account. intros H. inv_world. unfold id, holds, same_but, set_data.
  rewrite !acct_insert_eq. cbn. split_and!; [|done|].
  - destruct (decide (recipient = k)) as [->|].
    + by rewrite !acct_insert_eq.
    + rewrite !acct_insert_ne, !acct_insert_eq by done. done.
  - intros k' Hk. rewrite !(acct_insert_ne k k') by done.
    destruct (decide (recipient = k')) as [->|].
    + rewrite !acct_insert_eq. cbn. by rewrite acct_insert_ne.
    + by rewrite !acct_insert_ne.
Qed.

(** Closing takes one terminal contract of the program off the books: its account is
    zeroed and given to the system program. No other account's data or owner changes. *)
Lemma close_pmlc_closes accounts w u w' :
  process_close_pmlc accounts w = (Ok u, w') ->
  exists k p, holds k (DPmlc p) w /\ (acct w k).(acc_owner) = program_id /\
    p.(pm_status) <> PMLC_STATUS_LIVE /\
    holds k (zeros PMLC_LEN) w' /\ (acct w' k).(acc_owner) = SYSTEM_PROGRAM_ID /\
    same_but k w w'.
Proof.
  unfold process_close_pmlc. intros H. inv_world.
  match goal with H : close_pmlc_account _ ?k _ = _, Hd : acc_data (acct w ?k) = inj ?p |- _ =>
    apply close_account_clears in H as (Hz & Ho & Hs); exists k, p; rewrite Hd in Hz end.
  split_and!; try done.
  - match goal with H : forallb _ _ = true |- _ => cbn in H; rewrite andb_true_r in H;
      by apply owned_spec in H end.
  - intros Hl. match goal with H : _ || _ = true |- _ => rewrite Hl in H; done end.
Qed.
End special.
