(* ===== verification/Invariants.v ===== *)
(** * What holds over whole histories

    The dispatcher takes the accounts along [evolves]; the theorems of this file read the
    life of contracts, nonces, the attestor, sessions, fees and governance accounts off that
    fact, for one transaction and for every sequence of them. *)
From S2P Require Import Prelude Fixed IntentBook Ledger Governance Attestation World Demo Footprint MatchIx Intent Settlement Lifecycle Authority Custody Dispatch DemoWorld Evolution Lifetimes.

(** The instructions that act for the program's administrators. *)
Definition is_admin_tag (t : InstructionTag) : bool :=
  match t with
  | TSetGlobalPause | TPauseInstrument | TResumeInstrument | TSetFeeSchedule
  | TRotateAdminMultisig | TSetBucketRegistry | TAddStablecoinMint | TRemoveStablecoinMint => true
  | _ => false
  end.

Definition scope_of (t : InstructionTag) : Scope :=
  {| sc_admin := is_admin_tag t; sc_attestor := None;
     sc_session := bool_decide (t = TCreateSession) |}.

Create HintDb evolution discriminated.
#[export] Hint Constants Opaque : evolution.
#[export] Hint Resolve evolves_init_config evolves_set_pause evolves_create_instrument
  evolves_set_status evolves_expand evolves_create_margin evolves_deposit evolves_withdraw
  evolves_post_intent evolves_cancel evolves_match_pair evolves_match_best evolves_prune
  evolves_create_session evolves_revoke evolves_post_delegated evolves_cancel_delegated
  evolves_liquidate evolves_resolve evolves_close_mutual evolves_claim evolves_novate
  evolves_substitute evolves_init_schedule evolves_set_schedule evolves_sweep evolves_propose
  evolves_cancel_timelock evolves_init_multisig evolves_rotate evolves_init_buckets
  evolves_set_buckets evolves_init_stables evolves_add_mint evolves_remove_mint evolves_wrap
  evolves_unwrap : evolution.

Section dispatch.
Context {R : Runtime} {L : RuntimeLaws} {B : Borsh}.

Lemma run_instruction_evolves t accounts payload :
  t <> TClosePmlc -> t <> TExecuteSetAttestationSigner ->
  respects (evolves (scope_of t)) (run_instruction t accounts payload).
Proof.
  intros H1 H2.
  destruct t; try done; cbn [run_instruction]; unfold decode, process_match_substitute,
    process_match_substitute_with_settle; evolve; solve [auto with evolution].
Qed.

(** ** One transaction *)

(** What a transaction comes to: nothing, the close of a terminal contract, the execution
    of a due proposal, or an instruction within its scope. *)
Lemma transaction_cases accounts data w :
  let w' := transaction accounts data w in
  w' = w \/
  (exists u, process_close_pmlc accounts w = (Ok u, w')) \/
  (exists k tl, due w k tl /\ evolves (installs tl.(Governance.new_signer)) w w') \/
  (exists t payload, data = tag_byte t :: payload /\
     run_instruction t accounts payload w = (Ok tt, w') /\ evolves (scope_of t) w w').
Proof.
  cbn. unfold transaction. destruct (process accounts data w) as [[[]|e| |] w1] eqn:E; try by left.
  right. unfold process in E. destruct data as [|b payload]; [done|].
  apply bind_ok_inv in E as (t & w0 & Ht & E). apply lift_ok_inv in Ht as [Ht ->].
  destruct (decide (t = TClosePmlc)) as [->|H1]; [left; by eexists|right].
  destruct (decide (t = TExecuteSetAttestationSigner)) as [->|H2].
  - left. cbn in E. apply bind_ok_inv in E as (id & w0 & Hi & E).
    apply ok_or_ok_inv in Hi as [_ ->]. by apply execute_evolves in E.
  - right. exists t, payload. split_and!; [by rewrite (tag_try_from_ok _ _ Ht)|done|].
    by eapply run_instruction_evolves in E.
Qed.

(** The same, for what becomes of the accounts. *)
Lemma transaction_evolves accounts data w :
  let w' := transaction accounts data w in
  (exists u, process_close_pmlc accounts w = (Ok u, w')) \/
  (exists sc, evolves sc w w' /\
     forall s, sc.(sc_attestor) = Some s ->
       exists k tl, due w k tl /\ s = tl.(Governance.new_signer)).
Proof.
  cbn. destruct (transaction_cases accounts data w) as [E|[?|[(k & tl & Hd & He)|(t & pl & _ & _ & He)]]];
    [|by left|..]; right.
  - exists plain. rewrite E. split; [done|]. done.
  - exists (installs tl.(Governance.new_signer)). split; [done|]. intros s [= <-]. eauto.
  - exists (scope_of t). split; [done|]. done.
Qed.

(** A program account whose kind is not a contract keeps its kind. *)
Lemma transaction_keeps accounts data w k d :
  holds k d w -> (acct w k).(acc_owner) = program_id ->
  match d with DPmlc _ => False | _ => True end ->
  let w' := transaction accounts data w in
  (acct w' k).(acc_owner) = program_id /\
  exists sc, data_step sc d (acct w' k).(acc_data) /\
    forall s, sc.(sc_attestor) = Some s ->
       exists k tl, due w k tl /\ s = tl.(Governance.new_signer).
Proof.
  intros Hh Ho Hd w'. destruct (transaction_evolves accounts data w) as [[u E]|(sc & He & Ha)].
  - apply close_pmlc_closes in E as (k' & p & Hk' & _ & _ & _ & _ & Hs).
    destruct (decide (k = k')) as [->|Hne].
    + unfold holds in *. rewrite Hk' in Hh. by subst d.
    + destruct (Hs k Hne) as [Hs1 Hs2]. fold w' in Hs1, Hs2. rewrite Hs1, Hs2. split; [done|].
      exists plain. unfold holds in Hh. rewrite Hh. split; [apply data_step_refl|done].
  - destruct (He k) as [_ Hk]. destruct (Hk Ho) as [Ho' Hs]. split; [done|]. exists sc.
    unfold holds in Hh. by rewrite Hh in Hs.
Qed.
End dispatch.

(* ------------------------------------------------------------------ *)
(** ** Histories

    Each transaction runs in a runtime of its own (another clock, other instructions next
    to it), for the same program. *)

Definition step (pid : Pubkey) (w w' : World) : Prop :=
  exists (R : Runtime) (_ : RuntimeLaws) (_ : Borsh) accounts data,
    program_id = pid /\ w' = transaction accounts data w.
Definition history (pid : Pubkey) : World -> World -> Prop := rtc (step pid).

Definition of_program (pid k : Pubkey) (w : World) : Prop := (acct w k).(acc_owner) = pid.

Lemma step_ok pid w w' : step pid w w' ->
  (forall k, data_ok (acct w k).(acc_data)) -> forall k, data_ok (acct w' k).(acc_data).
Proof.
  intros (R & L & B & accounts & data & Hp & ->) Hok k.
  destruct (transaction_evolves accounts data w) as [[u E]|(sc & He & _)].
  - apply close_pmlc_closes in E as (k' & p & _ & _ & _ & Hz & _ & Hs).
    destruct (decide (k = k')) as [->|Hne]; [by rewrite Hz|].
    destruct (Hs k Hne) as [-> _]. apply Hok.
  - apply (He k), Hok.
Qed.

(** A relation on the structs of one type that every transaction follows holds over
    histories. *)
Lemma history_typed `{AccountType T} (Rel : T -> T -> Prop) `{!PreOrder Rel} pid k w w' v :
  (forall v, match inj v with DPmlc _ => False | _ => True end) ->
  (forall (R : Runtime) sc v d', data_step sc (inj v) d' -> exists v', d' = inj v' /\ Rel v v') ->
  history pid w w' -> of_program pid k w -> holds k (inj v) w ->
  of_program pid k w' /\ exists v', holds k (inj v') w' /\ Rel v v'.
Proof.
  intros Hkind Hstep Hh Ho Hd.
  induction Hh as [w|w w1 w2 (R & L & B & accounts & data & Hp & ->) Hh IH] in v, Ho, Hd |- *.
  - split; [done|]. by exists v.
  - subst pid. destruct (transaction_keeps accounts data w k _ Hd Ho) as (Ho' & sc & Hs & _).
    { apply Hkind. }
    destruct (Hstep _ _ _ _ Hs) as (v1 & Hv1 & Hr). destruct (IH v1) as (? & v2 & ? & ?); try done.
    split; [done|]. exists v2. split; [done|]. by etrans.
Qed.

(** C16: every account stays within its type's invariant through every history, whatever
    instructions are sent: balances are u64s, what a session spent is within its cap, a fee
    schedule is validated and its recorded maximum is its tiers' maximum, a timelock
    proposal waits its 24 hours, a multisig has distinct signers and a reachable threshold, a
    bucket registry answers for a validated list, and a stablecoin registry is duplicate
    free. The empty world satisfies it. *)
Theorem account_invariants_hold pid w w' :
  (forall k, data_ok (acct ∅ k).(acc_data)) /\
  (history pid w w' ->
   (forall k, data_ok (acct w k).(acc_data)) -> forall k, data_ok (acct w' k).(acc_data)).
Proof.
  split; [done|]. intros Hh. induction Hh as [|w w1 w2 Hs Hh IH]; [done|].
  intros Hok. apply IH. by eapply step_ok.
Qed.

(** C10: a matched contract's terms (parties' collateral, entry price, size, market, mint,
    instrument, re-entry prices) never change in any history. Its status leaves Live at
    most once, for a terminal one, and from then on the status, the reason and the owners
    are final; re-entry rights are only ever consumed. It disappears only by the close of
    an already terminal contract. *)
Theorem contract_lifecycle pid k p w w' :
  history pid w w' -> of_program pid k w -> holds k (DPmlc p) w ->
  (exists p', holds k (DPmlc p') w' /\ of_program pid k w' /\ pmlc_step p p') \/
  (exists w1 w2 p1, history pid w w1 /\ step pid w1 w2 /\ history pid w2 w' /\
     holds k (DPmlc p1) w1 /\ pmlc_step p p1 /\ p1.(pm_status) <> PMLC_STATUS_LIVE /\
     holds k (zeros PMLC_LEN) w2).
Proof.
  intros Hh. induction Hh as [w|w w1 w2 Hs Hh IH] in p |- *; intros Ho Hd.
  { left. exists p. pose proof (pmlc_step_refl p). auto. }
  pose proof Hs as (R & L & B & accounts & data & Hp & Hw). subst pid.
  assert (Hstep : (exists p1, holds k (DPmlc p1) w1 /\ of_program program_id k w1 /\ pmlc_step p p1)
    \/ (p.(pm_status) <> PMLC_STATUS_LIVE /\ holds k (zeros PMLC_LEN) w1)).
  { rewrite Hw. destruct (transaction_evolves accounts data w) as [[u E]|(sc & He & _)].
    - apply close_pmlc_closes in E as (k' & p1 & Hk' & _ & Ht & Hz & _ & Hsb).
      destruct (decide (k = k')) as [->|Hne].
      + unfold holds in *. rewrite Hk' in Hd. injection Hd as <-. by right.
      + left. destruct (Hsb k Hne) as [H1 H2]. exists p. unfold holds, of_program in *.
        rewrite H1, H2. pose proof (pmlc_step_refl p). auto.
    - left. destruct (He k) as [_ Hk]. destruct (Hk Ho) as [Ho' Hds].
      unfold holds in Hd. rewrite Hd in Hds. destruct Hds as (p1 & Hp1 & ?). by exists p1. }
  destruct Hstep as [(p1 & Hd1 & Ho1 & Hs1)|[Ht Hz]].
  - destruct (IH _ Ho1 Hd1) as [(p' & ? & ? & Hs2)|(v1 & v2 & q & Hv1 & Hv2 & Hv3 & Hq & Hs2 & Hv)];
      pose proof (pmlc_step_trans _ _ _ Hs1 Hs2) as Hs3.
    + left. exists p'. auto.
    + right. exists v1, v2, q. pose proof (rtc_l _ _ _ _ Hs Hv1). unfold history. auto 10.
  - right. exists w, w1, p. pose proof (pmlc_step_refl p). pose proof (rtc_refl (step program_id) w).
    unfold history. auto 10.
Qed.

(** C22: the administrator and the fee authority of a configuration never change, and the
    attestation key changes only when a pending proposal of the program for exactly that
    key is due: its 24 hours since the proposal have passed. *)
Theorem attestor_change_waits `{R : Runtime} `{L : RuntimeLaws} `{B : Borsh} accounts data w k c :
  (forall k, data_ok (acct w k).(acc_data)) ->
  holds k (DConfig c) w -> of_program program_id k w ->
  exists c', holds k (DConfig c') (transaction accounts data w) /\
    c'.(admin) = c.(admin) /\ c'.(fee_treasury_authority) = c.(fee_treasury_authority) /\
    (c'.(attestation_signer) = c.(attestation_signer) \/
     exists kt tl, due w kt tl /\ c'.(attestation_signer) = tl.(Governance.new_signer) /\
       tl.(proposed_unix_ts) + 86400 <= clock_unix_timestamp).
Proof.
  intros Hok Hd Ho.
  destruct (transaction_keeps accounts data w k _ Hd Ho I) as (_ & sc & (c' & Hc' & Hs) & Ha).
  exists c'. destruct Hs as (E & _ & Hsig). split; [done|].
  rewrite E. split_and!; [done..|]. cbn. destruct Hsig as [Hsig|Hsig]; [by left|right].
  symmetry in Hsig. destruct (Ha _ Hsig) as (kt & tl & Hdue & Hnew). exists kt, tl.
  split_and!; [done..|]. destruct Hdue as (Hh & _ & _ & _ & Hle). specialize (Hok kt).
  unfold holds in Hh. rewrite Hh in Hok. destruct Hok as [Hexec _].
  unfold TIMELOCK_DELAY_SECS in Hexec. lia.
Qed.

Definition max_falls (s s' : FeeSchedule) : Prop := s'.(max_tier_fee_bps) <= s.(max_tier_fee_bps).
#[export] Instance max_falls_preorder : PreOrder max_falls.
Proof. unfold max_falls. split; [intros ?|intros ???]; lia. Qed.

(** C23: fees never rise. Through every history a fee schedule's recorded maximum only
    falls, so no volume is ever charged more than the maximum of the schedule's first day,
    nor ever more than ten percent. *)
Theorem fees_never_rise pid k s w w' :
  history pid w w' -> (forall k, data_ok (acct w k).(acc_data)) ->
  of_program pid k w -> holds k (DFeeSchedule s) w ->
  exists s', holds k (DFeeSchedule s') w' /\ s'.(max_tier_fee_bps) <= s.(max_tier_fee_bps) /\
    forall volume, s'.(tiers) <> [] ->
      fee_for_volume s' volume <= s.(max_tier_fee_bps) /\ fee_for_volume s' volume <= 1000.
Proof.
  intros Hh Hok Ho Hd.
  destruct (history_typed max_falls pid k w w' s) as (_ & s' & Hs' & Hm); try done.
  - intros R sc v d' (v' & -> & _ & ? & _). by exists v'.
  - unfold max_falls in Hm. exists s'. split_and!; [done|done|]. intros v Hne.
    assert (Hok' : data_ok (acct w' k).(acc_data)).
    { clear -Hh Hok. induction Hh as [|w w1 w2 Hs Hh IH]; [done|]. apply IH. by eapply step_ok. }
    rewrite Hs' in Hok'. destruct Hok' as [Hv Hmax].
    assert (H : fee_for_volume s' v <= s'.(max_tier_fee_bps) <= 1000); [|lia].
    by apply fee_bounded.
Qed.

(* ------------------------------------------------------------------ *)
(** ** Who may change the governance accounts *)

Section authority.
Context {R : Runtime} {L : RuntimeLaws} {B : Borsh}.

Definition signed (accounts : list AccountInfo) (k : Pubkey) : Prop :=
  exists ai, ai ∈ accounts /\ ai.(is_signer) = true /\ ai.(key) = k.

(** The admin of a configuration of the program signed, or a multisig of the program among
    the accounts reached its threshold. *)
Definition authorised (accounts : list AccountInfo) (w : World) : Prop :=
  (exists k c, holds k (DConfig c) w /\ of_program program_id k w /\ signed accounts c.(admin)) \/
  (exists ai ms, ai ∈ accounts /\ of_program program_id ai.(key) w /\
     holds ai.(key) (DMultisig ms) w /\ check_threshold ms accounts = Ok tt).

Lemma authorize_scan_ok c all ais w u w' :
  authorize_scan c all ais w = (Ok u, w') -> (forall ai, ai ∈ ais -> ai ∈ all) ->
  signed all c.(admin) \/
  exists ai ms, ai ∈ all /\ of_program program_id ai.(key) w /\
    holds ai.(key) (DMultisig ms) w /\ check_threshold ms all = Ok tt.
Proof.
  induction ais as [|ai ais IH]; cbn [authorize_scan]; intros H Hin.
  - destruct (existsb _ all) eqn:E; [|by apply fail_ok_inv in H].
    left. apply existsb_exists in E as (ai & Ha & E). apply andb_true_iff in E as [? E%Z.eqb_eq].
    exists ai. split_and!; try done. by apply list_elem_of_In.
  - apply bind_ok_inv in H as (w0 & w1 & Hg & H). apply gets_ok_inv in Hg as [-> ->].
    unfold id in H. destruct (is_multisig_account w ai) eqn:E; cbn [negb] in H.
    + right. apply bind_ok_inv in H as (ms & w1 & Hl & H). apply load_ok_inv in Hl as [-> Hl].
      apply lift_ok_inv in H as [H _]. destruct u. exists ai, ms.
      unfold is_multisig_account in E. apply andb_true_iff in E as [E _].
      apply andb_true_iff in E as [E _]. apply andb_true_iff in E as [E%Z.eqb_eq _].
      split_and!; try done. apply Hin. by left.
    + apply IH in H; [done|]. intros ai' ?. apply Hin. by right.
Qed.

Lemma authorize_ok config accounts w u w' :
  authorize config accounts w = (Ok u, w') -> of_program program_id config w ->
  w' = w /\ authorised accounts w.
Proof.
  intros H Ho. apply (reads_authorize eq) in H as E. split; [done|].
  unfold authorize in H. apply bind_ok_inv in H as (c & w1 & Hl & H).
  apply load_ok_inv in Hl as [-> Hl]. apply authorize_scan_ok in H; [|done].
  destruct H as [H|H]; [left; by exists config, c|by right].
Qed.

Lemma require_admin_ok config a accounts w u w' :
  require_admin config a.(key) w = (Ok u, w') -> of_program program_id config w ->
  a ∈ accounts -> a.(is_signer) = true -> w' = w /\ authorised accounts w.
Proof.
  intros H Ho Ha Hs. unfold require_admin in H. inv_world. split; [done|].
  left. eexists config, _. split_and!; try done. by exists a.
Qed.

Lemma admin_authorised t accounts payload w u w' :
  is_admin_tag t || bool_decide (t = TExecuteSetAttestationSigner) = true ->
  run_instruction t accounts payload w = (Ok u, w') -> authorised accounts w.
Proof.
  intros Ht H. destruct t; try done; cbn [run_instruction] in H; unfold decode in H;
    unfold process_set_global_pause, process_set_instrument_status, process_set_fee_schedule,
      process_execute_set_attestation_signer, process_rotate_admin_multisig,
      process_set_bucket_registry, process_add_stablecoin_mint, process_remove_stablecoin_mint in H;
    try (destruct payload as [|b [|]]; [by apply fail_ok_inv in H| |by apply fail_ok_inv in H]);
    inv_world; owned_facts;
    try match goal with H : authorize _ _ _ = _ |- _ => by apply authorize_ok in H as [_ H] end;
    try match goal with H : require_admin _ (key ?a) _ = _ |- _ =>
      eapply (require_admin_ok _ a) in H as [_ H]; [exact H|done|by eapply in_accounts|done] end.
  right. eexists _, _. split_and!; [by eapply in_accounts|done|done|done].
Qed.

(** The kinds of account only administrators write. *)
Definition is_governance (d : AccountData) : bool :=
  match d with
  | DConfig _ | DInstrument _ | DFeeSchedule _ | DMultisig _ | DBuckets _ | DStables _ => true
  | _ => false
  end.

Lemma governance_fixed sc d d' :
  is_governance d = true -> sc.(sc_admin) = false -> sc.(sc_attestor) = None ->
  data_step sc d d' -> d' = d.
Proof.
  intros Hg Ha Hs. destruct d; try done; cbn.
  - intros (c' & -> & E & Hp & [Hat|Hat]); [|by rewrite Hs in Hat].
    rewrite E, Hp, Hat by done. by destruct v.
  - intros (c' & -> & E & Hp). rewrite E, Hp by done. by destruct v.
  - intros (c' & -> & _ & _ & E). by rewrite E.
  - intros (c' & -> & E). by rewrite E.
  - intros (c' & -> & E). by rewrite E.
  - intros (c' & -> & E). by rewrite E.
Qed.

(** C21: a transaction that changes a configuration, an instrument, the fee schedule, the
    multisig or a registry of the program was authorised: the admin of a configuration of
    the program signed it, or a multisig of the program met its threshold with the
    signatures it carries. *)
Theorem governance_changes_are_authorised accounts data w k d :
  of_program program_id k w -> holds k d w -> is_governance d = true ->
  holds k d (transaction accounts data w) \/ authorised accounts w.
Proof.
  intros Ho Hd Hg. unfold transaction.
  destruct (process accounts data w) as [[[]|e| |] w'] eqn:E; try by left.
  unfold process in E. destruct data as [|b payload]; [done|].
  apply bind_ok_inv in E as (t & w0 & Ht & E). apply lift_ok_inv in Ht as [_ ->].
  destruct (is_admin_tag t || bool_decide (t = TExecuteSetAttestationSigner)) eqn:Ea.
  { right. by eapply admin_authorised. }
  left. apply orb_false_iff in Ea as [Ea Ee%bool_decide_eq_false].
  destruct (decide (t = TClosePmlc)) as [->|Hc].
  - cbn in E. apply close_pmlc_closes in E as (k' & p & Hk' & _ & _ & _ & _ & Hs).
    destruct (decide (k = k')) as [->|Hne].
    + unfold holds in *. rewrite Hk' in Hd. by subst d.
    + destruct (Hs k Hne) as [Hs1 _]. unfold holds in *. by rewrite Hs1.
  - apply run_instruction_evolves in E; [|done..]. destruct (E k) as [_ Hk].
    destruct (Hk Ho) as [_ Hs]. unfold holds in *. rewrite Hd in Hs.
    by apply governance_fixed in Hs.
Qed.
End authority.

(* ------------------------------------------------------------------ *)
(** ** Sessions and attestations *)

Section sessions.
Context {R : Runtime} {L : RuntimeLaws} {B : Borsh}.

(** The same grant, with no less spent and no revocation undone. *)
Definition session_same (s s' : Session) : Prop :=
  s'.(delegate) = s.(delegate) /\ s'.(expires_at_slot) = s.(expires_at_slot) /\
  s'.(per_intent_max_collateral_atoms) = s.(per_intent_max_collateral_atoms) /\
  s'.(cumulative_collateral_cap) = s.(cumulative_collateral_cap) /\
  s'.(allowed_instruments) = s.(allowed_instruments) /\
  s.(cumulative_collateral_used) <= s'.(cumulative_collateral_used) /\
  (s.(revoked) = 1 -> s'.(revoked) = 1).
(** A new grant by the signing owner in place of one that trades no more. *)
Definition session_renewed (accounts : list AccountInfo) (s s' : Session) : Prop :=
  is_active s clock_slot = false /\ signed accounts s.(se_owner) /\
  s'.(cumulative_collateral_used) = 0.

Lemma alloc_session_existing owner k bump w u w' s :
  alloc_session owner k bump w = (Ok u, w') -> holds k (DSession s) w ->
  w' = w /\ s.(se_owner) = owner /\ is_active s clock_slot = false.
Proof.
  unfold alloc_session, holds. intros (d & w1 & Hd & H)%bind_ok_inv Hs.
  apply read_ok_inv in Hd as [-> ->]. rewrite Hs in H.
  replace (data_len (DSession s) =? 0) with false in H by reflexivity.
  apply bind_ok_inv in H as (o & w2 & Hl & H). apply load_ok_inv in Hl as [-> Hl].
  rewrite Hs in Hl. injection Hl as <-. by inv_world.
Qed.

Lemma alloc_session_other owner k bump w u w' k0 d :
  alloc_session owner k bump w = (Ok u, w') -> k0 <> k -> holds k0 d w -> holds k0 d w'.
Proof.
  unfold alloc_session. intros (d' & w1 & Hd & H)%bind_ok_inv Hk Hs.
  apply read_ok_inv in Hd as [-> ->]. destruct (data_len _ =? 0).
  - apply invoke_signed_ok_inv in H. unfold holds.
    by destruct (create_frame _ _ _ _ _ _ _ _ k0 H Hk) as [-> _].
  - inv_world. done.
Qed.

Lemma create_session_replaces accounts args w u w' k s :
  process_create_session accounts args w = (Ok u, w') -> holds k (DSession s) w ->
  holds k (DSession s) w' \/
  (is_active s clock_slot = false /\ signed accounts s.(se_owner) /\
   exists s', holds k (DSession s') w' /\ s'.(se_owner) = s.(se_owner) /\
     s'.(cumulative_collateral_used) = 0).
Proof.
  unfold process_create_session, write_session. intros H Hd. inv_world.
  match goal with H : alloc_session _ ?k0 _ _ = _ |- _ =>
    rename H into Ha; destruct (decide (k = k0)) as [->|Hne] end.
  - destruct (alloc_session_existing _ _ _ _ _ _ _ Ha Hd) as (-> & Ho & Hi).
    right. split_and!; [done| |].
    + eexists. split_and!; [by eapply (in_accounts _ 0)|done|done].
    + unfold holds. rewrite acct_set_eq. eexists. by split_and!.
  - left. unfold holds. rewrite acct_set_ne by done. by eapply alloc_session_other.
Qed.

(** C24: what a session grants is fixed: no transaction changes the delegate, the expiry,
    the caps or the allowed instruments of an existing session, lowers the collateral it
    counted, or un-revokes it; the one exception is that the owner, by signing, replaces a
    session that is revoked, expired or used up by a new one of their own, which starts
    counting at zero. *)
Theorem session_terms_fixed accounts data w k s :
  of_program program_id k w -> holds k (DSession s) w ->
  exists s', holds k (DSession s') (transaction accounts data w) /\
    s'.(se_owner) = s.(se_owner) /\
    (session_same s s' \/ session_renewed accounts s s').
Proof.
  intros Ho Hd.
  assert (Hsame : forall w', holds k (DSession s) w' -> exists s', holds k (DSession s') w' /\
    s'.(se_owner) = s.(se_owner) /\ (session_same s s' \/ session_renewed accounts s s')).
  { intros w' H'. exists s. split_and!; [done..|]. left. unfold session_same. split_and!; done || lia. }
  assert (Hstep : forall sc w', sc.(sc_session) = false -> evolves sc w w' ->
    exists s', holds k (DSession s') w' /\
    s'.(se_owner) = s.(se_owner) /\ (session_same s s' \/ session_renewed accounts s s')).
  { intros sc w' Hsc He. destruct (He k) as [_ Hk]. destruct (Hk Ho) as [_ Hs].
    unfold holds in *. rewrite Hd in Hs. destruct Hs as (s' & Hs' & Ho' & Hs). exists s'.
    destruct (Hs Hsc) as (? & ? & ? & ? & ? & ? & ? & ?). split_and!; [done..|]. left. by split_and!. }
  destruct (transaction_cases accounts data w)
    as [E|[[u E]|[(k' & tl & _ & He)|(t & pl & Ht & Hr & He)]]].
  - apply Hsame. by rewrite E.
  - apply Hsame. apply close_pmlc_closes in E as (k' & p & Hk' & _ & _ & _ & _ & Hs).
    assert (Hne : k <> k') by (intros ->; unfold holds in *; congruence).
    destruct (Hs k Hne) as [Hs1 _]. unfold holds in *. by rewrite Hs1.
  - eapply Hstep; [|exact He]. done.
  - destruct (decide (t = TCreateSession)) as [->|Hne].
    + cbn in Hr. apply bind_ok_inv in Hr as (args & w1 & Hde & Hr).
      apply ok_or_ok_inv in Hde as [_ ->].
      destruct (create_session_replaces _ _ _ _ _ _ _ Hr Hd) as [H|(Hi & Hsg & s' & Hs' & Ho' & Hu)].
      * by apply Hsame.
      * exists s'. split_and!; [done..|]. right. by split_and!.
    + eapply Hstep; [|exact He]. cbn. by rewrite bool_decide_eq_false_2.
Qed.
End sessions.

Section attestations.
Context {R : Runtime}.

(** A successful settlement whose market nonce account is [k]. *)
Definition settles (accounts : list AccountInfo) (args : AttestationArgs) (k : Pubkey)
    (w w' : World) : Prop :=
  (process_liquidate accounts args w = (Ok tt, w') /\ key <$> accounts !! 5%nat = Some k) \/
  (process_resolve accounts args w = (Ok tt, w') /\ key <$> accounts !! 5%nat = Some k) \/
  (process_close_mutual accounts args w = (Ok tt, w') /\ key <$> accounts !! 6%nat = Some k).

(** The transaction carries this attestation, signed by the attestor of an unpaused
    configuration of the program. *)
Definition attested (accounts : list AccountInfo) (args : AttestationArgs) (w : World)
    (att : Attestation) : Prop :=
  exists config sysvar c bytes, config ∈ accounts /\ sysvar ∈ accounts /\
    of_program program_id config.(key) w /\ holds config.(key) (DConfig c) w /\
    c.(global_pause) = 0 /\
    verify_via_ed25519_sysvar
      (load_instruction_at_checked args.(attestation_ix_offset) sysvar) c.(attestation_signer)
      = Ok bytes /\ parse bytes = Ok att.

(** The nonce account before and after. *)
Definition consumed (k : Pubkey) (att : Attestation) (w w' : World) : Prop :=
  of_program program_id k w /\
  exists n n', holds k (DNonce n) w /\ holds k (DNonce n') w' /\
    n.(last_accepted_cre_nonce) < nonce att /\ n'.(last_accepted_cre_nonce) = nonce att.

Ltac keep_nonce :=
  repeat first [world_step | apply keeps_mut; reflexivity].

Lemma keeps_payout k n l s c b lw :
  respects (keeps k (DNonce n)) (liquidation_payout l s c b lw).
Proof. unfold liquidation_payout. keep_nonce. Qed.
Lemma keeps_pay k n l s c el es : respects (keeps k (DNonce n)) (pay_equities l s c el es).
Proof. unfold pay_equities. keep_nonce. Qed.
Lemma keeps_load_live k n pk ik mk mint :
  respects (keeps k (DNonce n)) (load_live_pmlc pk ik mk mint).
Proof. unfold load_live_pmlc. keep_nonce. Qed.

(** The write of the nonce account: a fresh attestation's nonce is recorded. *)
Lemma accept_nonce_ok att market now st n u n' :
  accept_nonce att market now st n = (Ok u, n') ->
  n.(last_accepted_cre_nonce) < nonce att /\ n'.(last_accepted_cre_nonce) = nonce att.
Proof.
  unfold accept_nonce. intros H. inv_world.
  match goal with H : validate_freshness_and_nonce _ _ _ _ _ = _ |- _ =>
    apply fresh_nonce in H as (_ & H & _) end. done.
Qed.

Lemma nonce_write {A} (m : M MarketNonceAccount A) att k w a w' :
  (forall n a n', m n = (Ok a, n') ->
     n.(last_accepted_cre_nonce) < nonce att /\ n'.(last_accepted_cre_nonce) = nonce att) ->
  with_mut k m w = (Ok a, w') ->
  exists n n', holds k (DNonce n) w /\ holds k (DNonce n') w' /\
    n.(last_accepted_cre_nonce) < nonce att /\ n'.(last_accepted_cre_nonce) = nonce att.
Proof.
  intros Hm (n & n' & Hd & E & ->)%with_mut_ok_inv.
  exists n, n'. split; [done|]. split; [unfold holds; by rewrite acct_set_eq|]. by eapply Hm.
Qed.

Lemma liquidation_write att market now st n u n' :
  (accept_nonce att market now st;; mark ← lift (breach_mark_fp att); set_mark mark) n
    = (Ok u, n') ->
  n.(last_accepted_cre_nonce) < nonce att /\ n'.(last_accepted_cre_nonce) = nonce att.
Proof.
  intros (v & n1 & H1 & H)%bind_ok_inv. apply accept_nonce_ok in H1 as [? H1].
  unfold set_mark in H. by inv_world.
Qed.
Lemma resolution_write att market now st n u n' :
  (accept_nonce att market now st;; o ← lift (att_final_outcome_bps att); set_outcome o) n
    = (Ok u, n') ->
  n.(last_accepted_cre_nonce) < nonce att /\ n'.(last_accepted_cre_nonce) = nonce att.
Proof.
  intros (v & n1 & H1 & H)%bind_ok_inv. apply accept_nonce_ok in H1 as [? H1].
  unfold set_outcome in H. by inv_world.
Qed.

Lemma mutual_write att market now st n u n' :
  (n ← gets id;
   lift (validate_freshness_and_nonce att market n.(last_accepted_cre_nonce) now st);;
   modify (fun n => set_nonce n n.(is_resolved) (nonce att) n.(last_accepted_twap_fp)
     n.(last_accepted_ts) n.(Governance.final_outcome_bps));;
   price ← lift (price_fp att);
   set_mark price;;
   modify (fun n => set_nonce n n.(is_resolved) n.(last_accepted_cre_nonce)
     n.(last_accepted_twap_fp) now n.(Governance.final_outcome_bps))) n = (Ok u, n') ->
  n.(last_accepted_cre_nonce) < nonce att /\ n'.(last_accepted_cre_nonce) = nonce att.
Proof.
  unfold set_mark. intros H. inv_world.
  match goal with H : validate_freshness_and_nonce _ _ _ _ _ = _ |- _ =>
    apply fresh_nonce in H as (_ & H & _) end. done.
Qed.

Lemma attested_intro accounts args w ci si config sysvar cfg att bytes :
  verify_via_ed25519_sysvar (load_instruction_at_checked args.(attestation_ix_offset) sysvar)
    cfg.(attestation_signer) = Ok bytes ->
  parse bytes = Ok att -> (acct w config.(key)).(acc_data) = inj cfg ->
  of_program program_id config.(key) w -> cfg.(global_pause) = 0 ->
  accounts !! ci = Some config -> accounts !! si = Some sysvar -> attested accounts args w att.
Proof.
  intros Hv Hb Hh Ho Hp Hc Hs. exists config, sysvar, cfg, bytes.
  split_and!; try done; by eapply in_accounts.
Qed.

(** What follows the write keeps the nonce account. *)
Ltac nonce_kept :=
  match goal with
  | Hh : holds ?k (DNonce ?n) ?w, H : ?m ?w = (_, ?w') |- _ =>
      let Hk := fresh in
      assert (Hk : respects (keeps k (DNonce n)) m) by
        (first [ apply keeps_payout | apply keeps_pay | apply keeps_load_live | keep_nonce ]);
      apply Hk in H; clear Hk; red in H; specialize (H Hh)
  end.

(** A settlement read backwards: its attestation, and the nonce account it wrote. *)
Ltac settled w write :=
  lazymatch goal with Hp : parse _ = Ok ?att |- _ =>
  lazymatch goal with Hw : with_mut (key ?ai) _ w = _ |- _ =>

    apply (nonce_write _ att) in Hw as (n & n' & Hn & Hn' & Hlt & He);
      [|intros ? ? ?; apply write];
    repeat nonce_kept;
    lazymatch goal with Hk : key <$> ?o = Some _ |- _ =>
    lazymatch goal with Ha : o = Some ai |- _ =>
      rewrite Ha in Hk; injection Hk as <-;
      exists att; split; [eapply attested_intro; eassumption|]; split; [eassumption|]; by exists n, n'
    end end
  end end.

Lemma settles_consumes accounts args k w w' :
  settles accounts args k w w' ->
  exists att, attested accounts args w att /\ consumed k att w w'.
Proof.
  intros [[H Hk]|[[H Hk]|[H Hk]]].
  - unfold process_liquidate, load_attestation_signer, verified_attestation, check_breach in H.
    inv_world. owned_facts. settled w liquidation_write.
  - unfold process_resolve, load_attestation_signer, verified_attestation in H.
    inv_world. owned_facts. settled w resolution_write.
  - unfold process_close_mutual, load_attestation_signer, verified_attestation in H.
    inv_world. owned_facts. settled w mutual_write.
Qed.

End attestations.

Definition nonces_grow (n n' : MarketNonceAccount) : Prop :=
  n.(last_accepted_cre_nonce) <= n'.(last_accepted_cre_nonce).
#[export] Instance nonces_grow_preorder : PreOrder nonces_grow.
Proof. unfold nonces_grow. split; [intros ?|intros ???]; lia. Qed.

(** C9: an attestation settles at most once. Every liquidation, resolution and mutual
    close carries an attestation signed by the configured attestor, whose nonce is above
    the one its market recorded and is recorded in turn; over every history, a later
    settlement through the same market account carries a strictly larger nonce. *)
Theorem attestations_settle_once (R1 R2 : Runtime) k accounts1 accounts2 args1 args2 w0 w1 w2 w3 :
  @program_id R2 = @program_id R1 ->
  settles (R := R1) accounts1 args1 k w0 w1 ->
  history (@program_id R1) w1 w2 -> of_program (@program_id R1) k w1 ->
  settles (R := R2) accounts2 args2 k w2 w3 ->
  exists att1 att2, attested (R := R1) accounts1 args1 w0 att1 /\
    attested (R := R2) accounts2 args2 w2 att2 /\ nonce att1 < nonce att2.
Proof.
  intros Hp H1 Hh Ho H2.
  apply settles_consumes in H1 as (att1 & Ha1 & _ & n0 & n1 & _ & Hn1 & _ & E1).
  apply settles_consumes in H2 as (att2 & Ha2 & _ & n2 & n3 & Hn2 & _ & Hlt & _).
  destruct (history_typed nonces_grow (@program_id R1) k w1 w2 n1) as (_ & n2' & Hn2' & Hg); try done.
  { intros R sc v d' (v' & -> & _ & _ & ? & _). by exists v'. }
  unfold holds in *. rewrite Hn2 in Hn2'. injection Hn2' as <-. unfold nonces_grow in Hg.
  exists att1, att2. split_and!; [done..|lia].
Qed.

(* ------------------------------------------------------------------ *)
(** ** The theorems at work on the demo world *)

Lemma demo_world_ok k : data_ok (acct demo_world k).(acc_data).
Proof.
  revert k. apply (world_forall (fun _ a => data_ok a.(acc_data))); [done|].
  repeat (apply Forall_cons; split); try done. by left.
Qed.

Lemma demo_step now ixs accounts t payload w :
  history PID w (demo_tx now ixs accounts t payload w).
Proof.
  apply rtc_once. exists (demo 100 now ixs), (demo_laws 100 now ixs), demo_borsh, accounts,
    (tag_byte t :: payload). done.
Qed.

Definition demo_deposit : World :=
  demo_tx 1700100000 []
    [signer ALICE; writable (MARGIN ALICE); readonly USD; writable ALICE_ATA; writable VAULT;
     readonly SPL_TOKEN_ID] TDeposit (le_bytes 8 500000) demo_world.

Lemma account_invariants_hold_witness :
  (acct demo_deposit (MARGIN ALICE)).(acc_data)
    = DMargin (demo_margin ALICE 5500000 2000000 2000000) /\
  forall k, data_ok (acct demo_deposit k).(acc_data).
Proof.
  split; [vm_compute; reflexivity|].
  apply (proj2 (account_invariants_hold PID demo_world demo_deposit)).
  - apply demo_step.
  - apply demo_world_ok.
Defined.

Definition demo_settles (id : Z) : list AccountInfo :=
  [signer CAROL; readonly CONFIG; readonly SYSVAR_INSTRUCTIONS_ID; readonly INSTRUMENT;
   writable (PMLC id); writable NONCE; writable (MARGIN ALICE); writable (MARGIN BOB)].

Definition demo_resolve (id nonce : Z) (w : World) : World :=
  demo_tx 1700100000 [resolution 10000 nonce 1700099990]
    (demo_settles id) TResolve [0] w.

Lemma contract_lifecycle_witness :
  let p := demo_pmlc 101 in
  let w' := demo_resolve 101 5 demo_world in
  (acct w' (PMLC 101)).(acc_data)
    = DPmlc (set_pm_state p PMLC_STATUS_RESOLVED CLOSE_REASON_RESOLVED 1 100 ALICE BOB) /\
  ((exists p', holds (PMLC 101) (DPmlc p') w' /\ of_program PID (PMLC 101) w' /\ pmlc_step p p') \/
   (exists w1 w2 p1, history PID demo_world w1 /\ step PID w1 w2 /\ history PID w2 w' /\
     holds (PMLC 101) (DPmlc p1) w1 /\ pmlc_step p p1 /\ p1.(pm_status) <> PMLC_STATUS_LIVE /\
     holds (PMLC 101) (zeros PMLC_LEN) w2)).
Proof.
  intros p w'. split; [vm_compute; reflexivity|].
  apply contract_lifecycle; [apply demo_step|vm_compute; reflexivity|vm_compute; reflexivity].
Defined.

Definition demo_execute : World :=
  demo_tx 1700100000 [] [signer ADMIN; writable CONFIG; writable (TIMELOCK 7)]
    TExecuteSetAttestationSigner (le_bytes 8 7) demo_world.

Lemma attestor_change_waits_witness :
  exists c', holds CONFIG (DConfig c') demo_execute /\ c'.(admin) = ADMIN /\
    c'.(attestation_signer) = 901.
Proof.
  destruct (attestor_change_waits (R := demo 100 1700100000 [])
    (L := demo_laws 100 1700100000 []) (B := demo_borsh)
    [signer ADMIN; writable CONFIG; writable (TIMELOCK 7)]
    (tag_byte TExecuteSetAttestationSigner :: le_bytes 8 7) demo_world CONFIG demo_config)
    as (c' & Hc & Ha & _ & _); [apply demo_world_ok|vm_compute; reflexivity..|].
  exists c'. split; [exact Hc|]. split; [exact Ha|].
  assert (E : DConfig c' = DConfig (set_attestation_signer 901 demo_config)).
  { rewrite <- Hc. vm_compute. reflexivity. }
  injection E as ->. reflexivity.
Defined.

(** One tier of twenty basis points in place of thirty and ten. *)
Definition demo_cut : World :=
  demo_tx 1700100000 [] [signer ADMIN; readonly CONFIG; writable SCHEDULE] TSetFeeSchedule
    (le_bytes 4 1 ++ le_bytes 8 0 ++ le_bytes 2 20) demo_world.

Lemma fees_never_rise_witness :
  exists s', holds SCHEDULE (DFeeSchedule s') demo_cut /\ s'.(max_tier_fee_bps) = 20 /\
    fee_for_volume s' 9000000 <= 30.
Proof.
  destruct (fees_never_rise PID SCHEDULE (schedule_init demo_tiers 1 255) demo_world demo_cut)
    as (s' & Hs & _ & Hf); [apply demo_step|apply demo_world_ok|vm_compute; reflexivity..|].
  exists s'. split; [exact Hs|].
  assert (E : DFeeSchedule s' =
    DFeeSchedule (schedule_init [{| volume_threshold := 0; fee_bps := 20 |}] 100 255)).
  { rewrite <- Hs. vm_compute. reflexivity. }
  injection E as ->. split; [reflexivity|]. apply Hf. discriminate.
Defined.

Lemma governance_changes_are_authorised_witness :
  holds CONFIG (DConfig demo_config)
    (demo_tx 1700100000 [] [signer ALICE; writable CONFIG] TSetGlobalPause [1] demo_world) /\
  authorised (R := demo 100 1700100000 []) [signer ADMIN; writable CONFIG] demo_world.
Proof.
  split.
  - destruct (governance_changes_are_authorised (R := demo 100 1700100000 [])
      (L := demo_laws 100 1700100000 []) (B := demo_borsh) [signer ALICE; writable CONFIG]
      [tag_byte TSetGlobalPause; 1] demo_world CONFIG (DConfig demo_config)) as [H|_];
      [vm_compute; reflexivity..|exact H|vm_compute; reflexivity].
  - destruct (governance_changes_are_authorised (R := demo 100 1700100000 [])
      (L := demo_laws 100 1700100000 []) (B := demo_borsh) [signer ADMIN; writable CONFIG]
      [tag_byte TSetGlobalPause; 1] demo_world CONFIG (DConfig demo_config)) as [H|H];
      [vm_compute; reflexivity..| |exact H].
    exfalso. vm_compute in H. discriminate H.
Defined.

(** Carol posts a one-contract bid for Alice under the session. *)
Definition demo_delegated : list AccountInfo :=
  [signer CAROL; signer CAROL; readonly CONFIG; readonly INSTRUMENT; writable BOOK;
   writable (MARGIN ALICE); writable (SESSION ALICE)].
Definition demo_post_payload : list Z :=
  [SIDE_LONG] ++ le_bytes 8 (5 * 10 ^ 17) ++ le_bytes 2 1 ++ le_bytes 8 900 ++ [0; 0; 0].

Lemma session_terms_fixed_witness :
  let w' := demo_tx 1700100000 [] demo_delegated TPostIntentDelegated demo_post_payload demo_world in
  exists s', holds (SESSION ALICE) (DSession s') w' /\ s'.(cumulative_collateral_used) = 1000000 /\
    s'.(cumulative_collateral_cap) = 9000000.
Proof.
  intros w'.
  destruct (session_terms_fixed (R := demo 100 1700100000 [])
    (L := demo_laws 100 1700100000 []) (B := demo_borsh) demo_delegated
    (tag_byte TPostIntentDelegated :: demo_post_payload) demo_world (SESSION ALICE) demo_session)
    as (s' & Hs & _ & Hcase); [vm_compute; reflexivity..|].
  exists s'. split; [exact Hs|].
  assert (E : DSession s' = DSession (set_session demo_session 0 1000000)).
  { rewrite <- Hs. vm_compute. reflexivity. }
  injection E as ->. split; reflexivity.
Defined.

Lemma attestations_settle_once_witness :
  let w1 := demo_resolve 101 5 demo_world in
  exists att1 att2,
    attested (R := demo 100 1700100000 [resolution 10000 5 1700099990]) (demo_settles 101)
      {| attestation_ix_offset := 0 |} demo_world att1 /\
    attested (R := demo 100 1700100000 [resolution 10000 6 1700099995]) (demo_settles 102)
      {| attestation_ix_offset := 0 |} w1 att2 /\
    nonce att1 < nonce att2.
Proof.
  pose (R1 := demo 100 1700100000 [resolution 10000 5 1700099990]).
  pose (R2 := demo 100 1700100000 [resolution 10000 6 1700099995]).
  pose (args := {| attestation_ix_offset := 0 |}). intros w1.
  apply (attestations_settle_once R1 R2 NONCE (demo_settles 101) (demo_settles 102) args args
    demo_world w1 w1 (snd (process_resolve (R := R2) (demo_settles 102) args w1))).
  - reflexivity.
  - right. left. split; vm_compute; reflexivity.
  - apply rtc_refl.
  - vm_compute. reflexivity.
  - right. left. split; vm_compute; reflexivity.
Defined.
