(* ===== verification/Backing.v ===== *)
(** * What backs the balances

    A margin account's reserved balance is a claim on the offers its owner has on the
    books, its locked balance one on the live contracts it is a side of. This file defines
    the two sides of that account, per trader and mint, and the effect of each primitive
    step of a handler on their difference; [Backed] adds them up over the handlers. *)
From S2P Require Import Prelude IntentBook Ledger Governance Attestation World Footprint Totals Solvency MatchIx Intent Settlement Lifecycle BookInvariant BookShape OrderBook Authority Custody Dispatch BookHistory Conservation Balances Effects Trades.

(* ------------------------------------------------------------------ *)
(** ** The two sides *)

(** The terms an instrument and its book trade on, the mint and the bucket, at the
    addresses of both; the bounty at the address of the instrument; and the address, with its
    bump, of a trader's margin account in a mint. *)
Record Terms := {
  tm_trades : gmap Pubkey (Pubkey * Z);
  tm_bounty : Pubkey -> Z;
  tm_margin : Pubkey -> Pubkey -> Pubkey * Z;
}.
#[export] Instance terms_lookup : Lookup Pubkey (Pubkey * Z) Terms := fun k G => G.(tm_trades) !! k.
#[export] Instance terms_subseteq : SubsetEq Terms := fun G G' =>
  (forall k t, G.(tm_trades) !! k = Some t ->
     G'.(tm_trades) !! k = Some t /\ G'.(tm_bounty) k = G.(tm_bounty) k) /\
  G'.(tm_margin) = G.(tm_margin).
#[export] Instance terms_preorder : PreOrder (⊆@{Terms}).
Proof.
  split; [by intros G|]. intros G1 G2 G3 [S1 E1] [S2 E2]. split; [|by rewrite E2].
  intros k t Hk. destruct (S1 k t Hk) as [Hk1 B1]. destruct (S2 k t Hk1) as [Hk2 B2].
  split; [done|by rewrite B2].
Qed.
Lemma terms_weaken (G G' : Terms) k t : G !! k = Some t -> G ⊆ G' -> G' !! k = Some t.
Proof. intros Hk [Hs _]. by apply Hs. Qed.

Definition trades_in (G : Terms) (k m : Pubkey) : bool :=
  from_option (fun t : Pubkey * Z => t.1 =? m) false (G !! k).

(** What a trader's offers hold, fee buffers included. *)
Definition share (o : Pubkey) (f : Offer) : Z :=
  if f.(of_owner) =? o then f.(of_reserved) + f.(of_fee) else 0.
Definition held_for (o : Pubkey) (offs : gmap Z Offer) : Z :=
  map_fold (fun _ f acc => share o f + acc) 0 offs.
(** A trader's collateral in a contract. *)
Definition stake (o : Pubkey) (p : Pmlc) : Z :=
  (if p.(long_owner) =? o then p.(collateral_per_side) else 0)
  + (if p.(short_owner) =? o then p.(collateral_per_side) else 0).

Definition reserved_in (o m _k : Pubkey) (d : AccountData) : Z :=
  match d with
  | DMargin a => if (a.(ma_owner) =? o) && (a.(ma_collateral_mint) =? m)
                 then a.(reserved_collateral) else 0
  | _ => 0
  end.
Definition offered_in (G : Terms) (o m k : Pubkey) (d : AccountData) : Z :=
  match d with DBook b => if trades_in G k m then held_for o (offers b) else 0 | _ => 0 end.
Definition locked_in (o m _k : Pubkey) (d : AccountData) : Z :=
  match d with
  | DMargin a => if (a.(ma_owner) =? o) && (a.(ma_collateral_mint) =? m)
                 then a.(locked_collateral) else 0
  | _ => 0
  end.
Definition staked_in (o m _k : Pubkey) (d : AccountData) : Z :=
  match d with
  | DPmlc p => if (p.(pm_status) =? PMLC_STATUS_LIVE) && (p.(pm_collateral_mint) =? m)
               then stake o p else 0
  | _ => 0
  end.

(** Over the program's accounts: the trader's reserved balances, what their offers hold,
    their locked balances, and their collateral in live contracts. *)
Definition reserved_of (pid o m : Pubkey) (w : World) : Z := sum_over pid (reserved_in o m) w.
Definition offered_by (pid : Pubkey) (G : Terms) (o m : Pubkey) (w : World) : Z :=
  sum_over pid (offered_in G o m) w.
Definition locked_of (pid o m : Pubkey) (w : World) : Z := sum_over pid (locked_in o m) w.
Definition staked_by (pid o m : Pubkey) (w : World) : Z := sum_over pid (staked_in o m) w.

(** The difference of the two sides, at one account. *)
Definition reserve_gap (G : Terms) (o m k : Pubkey) (d : AccountData) : Z :=
  reserved_in o m k d - offered_in G o m k d.
Definition lock_gap (o m k : Pubkey) (d : AccountData) : Z := locked_in o m k d - staked_in o m k d.

#[export] Instance reserve_gap_vanishes G o m : Vanishes (reserve_gap G o m).
Proof. by intros k. Qed.
#[export] Instance lock_gap_vanishes o m : Vanishes (lock_gap o m).
Proof. by intros k. Qed.

(** ** Accounts that fit the terms *)

(** The runtime derives the margin accounts' addresses as the terms say. *)
Definition derives {R : Runtime} (G : Terms) : Prop :=
  forall o m, find_program_address [SEED_MARGIN; key_seed o; key_seed m] = G.(tm_margin) o m.

(** Every offer has contracts left, and reserves a bucket for each. *)
Definition sized (c : Z) (offs : gmap Z Offer) : Prop :=
  map_Forall (fun _ f => 0 < f.(of_left) /\ 0 <= f.(of_fee) /\ f.(of_reserved) = f.(of_left) * c) offs.

Definition fits (G : Terms) (k : Pubkey) (d : AccountData) : Prop :=
  match d with
  | DMargin a => G.(tm_margin) a.(ma_owner) a.(ma_collateral_mint) = (k, a.(ma_bump))
  | DInstrument i =>
      G !! k = Some (i.(ic_collateral_mint), i.(collateral_bucket)) /\
      G !! i.(intent_book) = Some (i.(ic_collateral_mint), i.(collateral_bucket)) /\
      G.(tm_bounty) k = i.(liquidation_bounty_bps)
  | DBook b => whole b /\ forall m c, G !! k = Some (m, c) -> sized c (offers b)
  | DPmlc p => p.(pm_status) = PMLC_STATUS_LIVE ->
      G !! p.(Governance.instrument) = Some (p.(pm_collateral_mint), p.(collateral_per_side))
  | _ => True
  end.

(** The balances of every trader are backed, in every mint. *)
Record backed (pid : Pubkey) (G : Terms) (w : World) : Prop := {
  bk_fits k : (acct w k).(acc_owner) = pid -> fits G k (acct w k).(acc_data);
  bk_terms k m c : G !! k = Some (m, c) ->
    0 < c /\ (acct w k).(acc_owner) = pid /\
    match (acct w k).(acc_data) with DInstrument _ | DBook _ => True | _ => False end;
  bk_reserved o m : reserved_of pid o m w = offered_by pid G o m w;
  bk_locked o m : locked_of pid o m w = staked_by pid o m w;
}.

(* ------------------------------------------------------------------ *)
(** ** What a trader's offers hold, under the operations of the map *)

Lemma held_for_insert o (offs : gmap Z Offer) id f :
  offs !! id = None -> held_for o (<[id := f]> offs) = share o f + held_for o offs.
Proof.
  intros Hn. unfold held_for. apply (map_fold_insert_L (fun _ f acc => share o f + acc)); [|done].
  intros. lia.
Qed.
Lemma held_for_delete o (offs : gmap Z Offer) id f :
  offs !! id = Some f -> held_for o (delete id offs) = held_for o offs - share o f.
Proof.
  intros Hf. rewrite <- (insert_delete_id offs id f Hf) at 2.
  rewrite held_for_insert by apply lookup_delete_eq. lia.
Qed.
Lemma held_for_replace o (offs : gmap Z Offer) id f g :
  offs !! id = Some f -> held_for o (<[id := g]> offs) = held_for o offs - share o f + share o g.
Proof.
  intros Hf. rewrite <- insert_delete_eq, held_for_insert by apply lookup_delete_eq.
  rewrite (held_for_delete _ _ _ f) by done. lia.
Qed.

Lemma held_for_absent o (offs : gmap Z Offer) :
  map_Forall (fun _ f => f.(of_owner) <> o) offs -> held_for o offs = 0.
Proof.
  induction offs as [|id f offs Hn IH] using map_ind; [done|]. intros H.
  rewrite held_for_insert by done. apply map_Forall_insert in H as [Hf H]; [|done].
  rewrite IH by done. unfold share. by rewrite (proj2 (Z.eqb_neq _ _) Hf).
Qed.

(** A fill takes a bucket and the released part of the fee buffer. *)
Lemma held_for_fill o c (offs : gmap Z Offer) id f :
  offs !! id = Some f -> sized c offs ->
  held_for o (fill_map id c (released f) offs) =
  held_for o offs - (if f.(of_owner) =? o then c + released f else 0).
Proof.
  intros Hf Hs. destruct (Hs id f Hf) as (Hl & Hfee & Hr). unfold fill_map, released. rewrite Hf.
  destruct (Z.eqb_spec f.(of_left) 1) as [E|E].
  - rewrite (held_for_delete _ _ _ f) by done. unfold share. rewrite Hr, E. case_match; lia.
  - rewrite (held_for_replace _ _ _ f) by done. unfold share. cbn. case_match; lia.
Qed.
Lemma released_at_most f : 0 < f.(of_left) -> 0 <= f.(of_fee) -> 0 <= released f <= f.(of_fee).
Proof.
  intros Hl Hf. unfold released. case_match; [lia|]. split; [apply Z.div_pos; lia|].
  apply Z.div_le_upper_bound; nia.
Qed.
Lemma sized_fill c (offs : gmap Z Offer) id f :
  offs !! id = Some f -> sized c offs -> sized c (fill_map id c (released f) offs).
Proof.
  intros Hf Hs. destruct (Hs id f Hf) as (Hl & Hfee & Hr).
  pose proof (released_at_most f Hl Hfee). unfold fill_map. rewrite Hf.
  destruct (Z.eqb_spec f.(of_left) 1) as [E|E]; [by apply map_Forall_delete|].
  apply map_Forall_insert_2; [|done]. cbn. split_and!; lia.
Qed.

(** The offers of one trader removed. *)
Lemma held_for_prune o owner (offs : gmap Z Offer) ids :
  NoDup ids -> Forall (fun id => exists f, offs !! id = Some f /\ f.(of_owner) = owner) ids ->
  held_for o (foldr delete offs ids) =
  held_for o offs - (if owner =? o then held offs ids else 0).
Proof.
  intros Hnd Hids. induction ids as [|id ids IH]; [cbn; case_match; lia|].
  apply NoDup_cons in Hnd as [Hi Hnd]. apply Forall_cons in Hids as [(f & Hf & <-) Hids].
  specialize (IH Hnd Hids). cbn [foldr]. rewrite (held_for_delete _ _ _ f).
  - rewrite IH. unfold held. cbn [foldr]. rewrite Hf. unfold share. case_match; lia.
  - clear IH Hids Hnd. induction ids as [|id' ids IH]; [done|]. cbn.
    apply not_elem_of_cons in Hi as [? ?]. rewrite lookup_delete_ne by done. auto.
Qed.
Lemma sized_prune c (offs : gmap Z Offer) ids : sized c offs -> sized c (foldr delete offs ids).
Proof. intros Hs. induction ids; [done|]. cbn. by apply map_Forall_delete. Qed.

(* ------------------------------------------------------------------ *)
(** ** Postings

    [tally l w w']: the step keeps the accounts within the terms and every margin account
    its owner's, and the entries of [l] are what it adds to the difference of the two sides,
    per trader and mint. *)

Record Posting := posting { po_owner : Pubkey; po_mint : Pubkey; po_reserved : Z; po_locked : Z }.
Definition about (o m : Pubkey) (e : Posting) : bool := (e.(po_owner) =? o) && (e.(po_mint) =? m).
Definition reserved_by (o m : Pubkey) (l : list Posting) : Z :=
  foldr (fun e acc => (if about o m e then e.(po_reserved) else 0) + acc) 0 l.
Definition locked_by (o m : Pubkey) (l : list Posting) : Z :=
  foldr (fun e acc => (if about o m e then e.(po_locked) else 0) + acc) 0 l.

Lemma reserved_by_cons o m e l :
  reserved_by o m (e :: l) = (if about o m e then e.(po_reserved) else 0) + reserved_by o m l.
Proof. done. Qed.
Lemma locked_by_cons o m e l :
  locked_by o m (e :: l) = (if about o m e then e.(po_locked) else 0) + locked_by o m l.
Proof. done. Qed.
Lemma reserved_by_app o m l1 l2 : reserved_by o m (l1 ++ l2) = reserved_by o m l1 + reserved_by o m l2.
Proof. induction l1 as [|e l1 IH]; [done|]. cbn [app]. rewrite !reserved_by_cons, IH. lia. Qed.
Lemma locked_by_app o m l1 l2 : locked_by o m (l1 ++ l2) = locked_by o m l1 + locked_by o m l2.
Proof. induction l1 as [|e l1 IH]; [done|]. cbn [app]. rewrite !locked_by_cons, IH. lia. Qed.

Section tally.
Context {R : Runtime} (G : Terms).

Definition all_fit (w : World) : Prop :=
  forall k, (acct w k).(acc_owner) = program_id -> fits G k (acct w k).(acc_data).

Record tally (l : list Posting) (w w' : World) : Prop := {
  ta_fit : all_fit w';
  ta_margin k o m : margin_of k o m w -> margin_of k o m w';
  ta_reserve o m : sum_over program_id (reserve_gap G o m) w' =
    sum_over program_id (reserve_gap G o m) w + reserved_by o m l;
  ta_lock o m : sum_over program_id (lock_gap o m) w' =
    sum_over program_id (lock_gap o m) w + locked_by o m l;
}.

Lemma tally_refl w : all_fit w -> tally [] w w.
Proof. intros Hf. split; [done|done|cbn; lia..]. Qed.
Lemma tally_trans l1 l2 w1 w2 w3 : tally l1 w1 w2 -> tally l2 w2 w3 -> tally (l1 ++ l2) w1 w3.
Proof.
  intros [F1 M1 R1 K1] [F2 M2 R2 K2]. split; [done|auto|..]; intros o m.
  - rewrite reserved_by_app, R2, R1. lia.
  - rewrite locked_by_app, K2, K1. lia.
Qed.
Lemma tally_eq l l' w w' : tally l w w' ->
  (forall o m, reserved_by o m l = reserved_by o m l' /\ locked_by o m l = locked_by o m l') ->
  tally l' w w'.
Proof.
  intros [F M Rg K] He. split; [done|done|..]; intros o m; destruct (He o m) as [E1 E2].
  - by rewrite Rg, E1.
  - by rewrite K, E2.
Qed.

(** A step that posts nothing. *)
Definition quiet (w w' : World) : Prop := all_fit w -> tally [] w w'.
#[export] Instance quiet_preorder : PreOrder quiet.
Proof.
  split; [intros w Hf; by apply tally_refl|]. intros w1 w2 w3 H1 H2 Hf.
  pose proof (H1 Hf) as T1. pose proof (H2 (ta_fit _ _ _ T1)) as T2. exact (tally_trans _ _ _ _ _ T1 T2).
Qed.

(** ** One account rewritten *)

(** A margin account stays one, of the same owner and mint. *)
Definition same_purse (d d' : AccountData) : Prop :=
  forall a, d = DMargin a -> exists a', d' = DMargin a' /\ a'.(ma_owner) = a.(ma_owner) /\
    a'.(ma_collateral_mint) = a.(ma_collateral_mint).
(** Its address is right for its owner and mint, not its balances. *)
Lemma fits_purse k a a' : a'.(ma_owner) = a.(ma_owner) ->
  a'.(ma_collateral_mint) = a.(ma_collateral_mint) -> a'.(ma_bump) = a.(ma_bump) ->
  fits G k (DMargin a) -> fits G k (DMargin a').
Proof. cbn. by intros -> -> ->. Qed.

Lemma same_purse_margins k d w : same_purse (acct w k).(acc_data) d ->
  forall k' o m, margin_of k' o m w -> margin_of k' o m (set_data k d w).
Proof.
  intros Hp k' o m (a & [Ha Ho] & <- & <-). unfold margin_of, margin_at, holds in *.
  rewrite owner_set. destruct (decide (k = k')) as [<-|Hne].
  - destruct (Hp a Ha) as (a' & -> & E1 & E2). exists a'. by rewrite acct_set_eq.
  - exists a. by rewrite acct_set_ne.
Qed.
Lemma all_fit_set k d w : all_fit w -> ((acct w k).(acc_owner) = program_id -> fits G k d) ->
  all_fit (set_data k d w).
Proof.
  intros Hf Hd k' Ho. rewrite owner_set in Ho. destruct (decide (k = k')) as [<-|Hne].
  - rewrite acct_set_eq. by apply Hd.
  - rewrite acct_set_ne by done. by apply Hf.
Qed.

Lemma tally_set l k d w :
  all_fit w -> (acct w k).(acc_owner) = program_id -> fits G k d -> same_purse (acct w k).(acc_data) d ->
  (forall o m, reserve_gap G o m k d = reserve_gap G o m k (acct w k).(acc_data) + reserved_by o m l) ->
  (forall o m, lock_gap o m k d = lock_gap o m k (acct w k).(acc_data) + locked_by o m l) ->
  tally l w (set_data k d w).
Proof.
  intros Hf Ho Hd Hp Hr Hl. split.
  - by apply all_fit_set.
  - by apply same_purse_margins.
  - intros o m. rewrite sum_set by exact _. rewrite Ho, Z.eqb_refl, Hr. lia.
  - intros o m. rewrite sum_set by exact _. rewrite Ho, Z.eqb_refl, Hl. lia.
Qed.

(** The same whoever owns the account, when nothing is posted. *)
Lemma quiet_set k d w :
  (fits G k (acct w k).(acc_data) -> fits G k d) -> same_purse (acct w k).(acc_data) d ->
  (forall o m, reserve_gap G o m k d = reserve_gap G o m k (acct w k).(acc_data)) ->
  (forall o m, lock_gap o m k d = lock_gap o m k (acct w k).(acc_data)) ->
  quiet w (set_data k d w).
Proof.
  intros Hd Hp Hr Hl Hf. split.
  - apply all_fit_set; [done|]. intros Ho. by apply Hd, Hf.
  - by apply same_purse_margins.
  - intros o m. rewrite sum_set, Hr by exact _. cbn. case_match; lia.
  - intros o m. rewrite sum_set, Hl by exact _. cbn. case_match; lia.
Qed.

(** Accounts on neither side. *)
Definition silent (d : AccountData) : Prop :=
  match d with
  | DMargin _ | DInstrument _ | DBook _ => False
  | DPmlc p => p.(pm_status) <> PMLC_STATUS_LIVE
  | _ => True
  end.
Lemma silent_fits k d : silent d -> fits G k d.
Proof. destruct d; try done. intros H1 H2. by destruct H1. Qed.
Lemma silent_reserve o m k d : silent d -> reserve_gap G o m k d = 0.
Proof. by destruct d. Qed.
Lemma silent_lock o m k d : silent d -> lock_gap o m k d = 0.
Proof.
  destruct d; try done. cbn. intros H. unfold lock_gap. cbn.
  by rewrite (proj2 (Z.eqb_neq _ _) H).
Qed.
Lemma silent_purse d d' : silent d -> same_purse d d'.
Proof. intros Hd a ->. destruct Hd. Qed.

Lemma quiet_set_silent k d w : silent (acct w k).(acc_data) -> silent d -> quiet w (set_data k d w).
Proof.
  intros H1 H2. apply quiet_set.
  - intros _. by apply silent_fits.
  - by apply silent_purse.
  - intros. by rewrite !silent_reserve.
  - intros. by rewrite !silent_lock.
Qed.
Lemma quiet_insert k a w :
  a.(acc_owner) = (acct w k).(acc_owner) \/ silent (acct w k).(acc_data) ->
  a.(acc_data) = (acct w k).(acc_data) -> quiet w (<[k := a]> w).
Proof.
  intros Ho Hd Hf. split.
  - intros k' Hk. destruct (decide (k = k')) as [<-|Hne].
    + rewrite acct_insert_eq in *. rewrite Hd. destruct Ho as [Ho|Ho]; [|by apply silent_fits].
      apply Hf. congruence.
    + rewrite acct_insert_ne in * by done. by apply Hf.
  - intros k' o m (b & [Hb Hbo] & <- & <-). exists b. unfold margin_at, holds in *.
    destruct (decide (k = k')) as [<-|Hne]; [|by rewrite acct_insert_ne].
    rewrite acct_insert_eq, Hd. destruct Ho as [->|Ho]; [done|]. by rewrite Hb in Ho.
  - intros o m. rewrite sum_insert_same; [cbn; lia|exact _|]. unfold counted. rewrite Hd.
    destruct Ho as [->|Ho]; [done|]. rewrite silent_reserve by done. by repeat case_match.
  - intros o m. rewrite sum_insert_same; [cbn; lia|exact _|]. unfold counted. rewrite Hd.
    destruct Ho as [->|Ho]; [done|]. rewrite silent_lock by done. by repeat case_match.
Qed.
End tally.

(* ------------------------------------------------------------------ *)
(** ** Steps that post nothing *)

Class Silent (T : Type) `{AccountType T} : Prop := silent_inj (v : T) : silent (inj v).
#[export] Instance silent_config : Silent ProgramConfig.
Proof. by intros v. Qed.
#[export] Instance silent_nonce : Silent MarketNonceAccount.
Proof. by intros v. Qed.
#[export] Instance silent_schedule : Silent FeeSchedule.
Proof. by intros v. Qed.
#[export] Instance silent_volume : Silent UserVolume.
Proof. by intros v. Qed.
#[export] Instance silent_treasury : Silent FeeTreasury.
Proof. by intros v. Qed.
#[export] Instance silent_timelock : Silent TimelockProposal.
Proof. by intros v. Qed.
#[export] Instance silent_multisig : Silent AdminMultisig.
Proof. by intros v. Qed.
#[export] Instance silent_buckets : Silent BucketRegistry.
Proof. by intros v. Qed.
#[export] Instance silent_stables : Silent StablecoinRegistry.
Proof. by intros v. Qed.
#[export] Instance silent_session : Silent Session.
Proof. by intros v. Qed.

Section quiet.
Context {R : Runtime} (G : Terms).
Abbreviation quiet := (quiet G).

Lemma quiet_mut `{Silent T} {A} k (m : M T A) : respects quiet (with_mut k m).
Proof.
  apply respects_with_mut; [exact _|]. intros w v r v' Hd _.
  apply quiet_set_silent; [rewrite Hd|]; apply silent_inj.
Qed.

(** Only the free balance moves. *)
Lemma quiet_free k m df : shifts m df 0 0 -> yields quiet (with_mut k m).
Proof.
  intros Hs w u w' (a & a' & Hd & E & ->)%with_mut_ok_inv. apply Hs in E as (_ & E1 & E2 & E3 & _ & Er & El).
  apply quiet_set; unfold reserve_gap, lock_gap; rewrite ?Hd; cbn.
  - by apply fits_purse.
  - intros b [= <-]. by exists a'.
  - intros o m'. rewrite E1, E2, Er. case_match; lia.
  - intros o m'. rewrite E1, E2, El. case_match; lia.
Qed.
Lemma quiet_status b k : yields quiet (with_mut k (modify (set_ic_status b))).
Proof.
  intros w u w' (i & i' & Hd & [= _ <-] & ->)%with_mut_ok_inv.
  apply quiet_set; unfold reserve_gap, lock_gap; rewrite ?Hd; done.
Qed.
Lemma quiet_read k (m : M Book (option (Z * Z))) : respects eq m -> yields quiet (with_mut k m).
Proof.
  intros Hm w u w' (b & b' & Hd & E & ->)%with_mut_ok_inv. apply Hm in E as <-.
  apply quiet_set; rewrite ?Hd; done.
Qed.

(** A fresh struct. *)
Lemma quiet_init `{AccountType T} k (v : T) :
  fits G k (inj v) -> (forall o m, reserve_gap G o m k (inj v) = 0) ->
  (forall o m, lock_gap o m k (inj v) = 0) -> respects quiet (init_account k v).
Proof.
  intros Hf Hr Hl. apply respects_init_account; [exact _|]. intros w bs Hd.
  apply quiet_set; rewrite ?Hd; try done.
Qed.
Lemma quiet_init_silent `{Silent T} k (v : T) : respects quiet (init_account k v).
Proof.
  pose proof (silent_inj v). apply quiet_init; intros;
    [by apply silent_fits|by apply silent_reserve|by apply silent_lock].
Qed.
Lemma quiet_overwrite `{Silent T} k (v : T) w u w' :
  silent (acct w k).(acc_data) -> overwrite k v w = (Ok u, w') -> quiet w w'.
Proof. intros Hs ->%overwrite_ok_inv. apply quiet_set_silent; [done|apply silent_inj]. Qed.

Context {L : RuntimeLaws}.

(** Calls into other programs leave the program's accounts alone. *)
Lemma quiet_frame w w' :
  (forall k, (acct w k).(acc_owner) = program_id ->
     (acct w' k).(acc_owner) = program_id /\ (acct w' k).(acc_data) = (acct w k).(acc_data)) ->
  (forall k, (acct w k).(acc_owner) <> program_id ->
     (acct w' k).(acc_owner) <> program_id \/ silent (acct w' k).(acc_data)) ->
  quiet w w'.
Proof.
  intros H1 H2 Hf.
  assert (Hc : forall h, (forall k, silent (acct w' k).(acc_data) -> h k (acct w' k).(acc_data) = 0) ->
    forall k, counted program_id h k (acct w' k) = counted program_id h k (acct w k)).
  { intros h Hh k. unfold counted. destruct (Z.eqb_spec (acct w k).(acc_owner) program_id) as [Ho|Ho].
    - destruct (H1 k Ho) as [-> ->]. by rewrite Z.eqb_refl.
    - destruct (H2 k Ho) as [Hn|Hn]; [by rewrite (proj2 (Z.eqb_neq _ _) Hn)|].
      rewrite Hh by done. by case_match. }
  split.
  - intros k Ho. destruct (decide ((acct w k).(acc_owner) = program_id)) as [E|E].
    + destruct (H1 k E) as [_ ->]. by apply Hf.
    + destruct (H2 k E) as [Hn|Hn]; [done|]. by apply silent_fits.
  - intros k o m (a & [Ha Ho] & E). exists a. destruct (H1 k Ho) as [Ho' Hd].
    split; [|done]. split; [|done]. unfold holds in *. by rewrite Hd.
  - intros o m. rewrite (sum_ext program_id (reserve_gap G o m) (reserve_gap G o m) w w'); [cbn; lia|].
    apply Hc. intros k. apply silent_reserve.
  - intros o m. rewrite (sum_ext program_id (lock_gap o m) (lock_gap o m) w w'); [cbn; lia|].
    apply Hc. intros k. apply silent_lock.
Qed.

Lemma quiet_invoked c seeds w w' : invoke c seeds w = Some w' -> quiet w w'.
Proof.
  intros E. destruct (match c with CreateAccount _ _ _ _ _ | TransferLamports _ _ _ => false | _ => true end) eqn:Ec.
  - apply quiet_frame; intros k Ho;
      destruct (token_frame c seeds w w' k) as (Ho' & Hd & _); try (by destruct c); try done;
      rewrite Ho'; [|by left].
    split; [done|]. apply Hd. rewrite Ho. apply program_not_token.
  - destruct c as [from new lam space owner|from to lam| | | |]; try done; apply quiet_frame; intros k Ho.
    + destruct (decide (k = new)) as [->|Hk].
      * apply create_fresh in E as (Ho' & _). rewrite Ho' in Ho. by destruct program_not_system.
      * destruct (create_frame _ _ _ _ _ _ _ _ k E Hk) as [-> ->]. done.
    + destruct (decide (k = new)) as [->|Hk].
      * apply create_fresh in E as (_ & _ & -> & _). by right.
      * destruct (create_frame _ _ _ _ _ _ _ _ k E Hk) as [_ ->]. by left.
    + destruct (transfer_frame _ _ _ _ _ _ k E) as [-> ->]. auto.
    + destruct (transfer_frame _ _ _ _ _ _ k E) as [-> ->]. auto.
Qed.
Lemma quiet_invoke c seeds : yields quiet (invoke_signed c seeds).
Proof. intros w u w' E%invoke_signed_ok_inv. by eapply quiet_invoked. Qed.
Lemma quiet_create payer new space seeds bump : yields quiet (create_pda payer new space seeds bump).
Proof. apply quiet_invoke. Qed.
(** An account just created is silent. *)
Lemma quiet_create_then {A} payer new space seeds bump (m : M World A) :
  (forall w a w', silent (acct w new).(acc_data) -> m w = (Ok a, w') -> quiet w w') ->
  yields quiet (create_pda payer new space seeds bump;; m).
Proof.
  intros Hm w a w' (u & w1 & Hc & H)%bind_ok_inv. etrans; [by eapply quiet_create|].
  eapply Hm; [|exact H]. apply invoke_signed_ok_inv, create_fresh in Hc as (_ & _ & -> & _). done.
Qed.
End quiet.

(** One step of a handler along [quiet]. *)
Ltac quiet_step :=
  lazymatch goal with
  | |- yields _ (with_mut _ _) =>
      first [ apply yields_respects, quiet_mut; exact _
            | eapply quiet_free, shifts_eq; [solve [eauto with shifts]|reflexivity|lia|lia]
            | apply quiet_status ]
  | |- yields _ (init_account _ _) => apply yields_respects, quiet_init_silent; exact _
  | |- yields _ (create_pda _ _ _ _ _) => apply quiet_create; exact _
  | |- yields _ (invoke_signed _ _) => apply quiet_invoke; exact _
  | |- yields _ _ => first [ yields_step | solve [eauto with nocore yields] ]
  end.
Ltac quiet_tac := repeat quiet_step.

(* ------------------------------------------------------------------ *)
(** ** Steps that post *)

(** The difference of a claim taken off a book. *)
Definition taken (o : Pubkey) (l : list (Pubkey * Z)) : Z :=
  foldr (fun e acc => (if e.1 =? o then e.2 else 0) + acc) 0 l.
Definition off_book (m : Pubkey) (l : list (Pubkey * Z)) : list Posting :=
  map (fun e => posting e.1 m e.2 0) l.

Lemma reserved_off_book o m m' l :
  reserved_by o m (off_book m' l) = if m' =? m then taken o l else 0.
Proof.
  induction l as [|e l IH]; [cbn; by case_match|].
  change (off_book m' (e :: l)) with (posting e.1 m' e.2 0 :: off_book m' l).
  rewrite reserved_by_cons, IH. unfold about. cbn.
  destruct (m' =? m); [by rewrite andb_true_r|by rewrite andb_false_r].
Qed.
Lemma locked_off_book o m m' l : locked_by o m (off_book m' l) = 0.
Proof.
  induction l as [|e l IH]; [done|].
  change (off_book m' (e :: l)) with (posting e.1 m' e.2 0 :: off_book m' l).
  rewrite locked_by_cons, IH. cbn. by case_match.
Qed.

Section steps.
Context {R : Runtime} (G : Terms).
Abbreviation all_fit := (all_fit G).
Abbreviation tally := (tally G).

Lemma fit_instrument k i w : all_fit w -> (acct w k).(acc_owner) = program_id -> holds k (DInstrument i) w ->
  G !! k = Some (i.(ic_collateral_mint), i.(collateral_bucket)) /\
  G !! i.(intent_book) = Some (i.(ic_collateral_mint), i.(collateral_bucket)).
Proof. intros Hf Ho Hi. specialize (Hf k Ho). unfold holds in Hi. rewrite Hi in Hf. by destruct Hf as (? & ? & _). Qed.
Lemma fit_book k b w : all_fit w -> (acct w k).(acc_owner) = program_id -> holds k (DBook b) w ->
  whole b /\ forall m c, G !! k = Some (m, c) -> sized c (offers b).
Proof. intros Hf Ho Hb. specialize (Hf k Ho). unfold holds in Hb. by rewrite Hb in Hf. Qed.
Lemma fit_contract k p w : all_fit w -> (acct w k).(acc_owner) = program_id -> holds k (DPmlc p) w ->
  p.(pm_status) = PMLC_STATUS_LIVE ->
  G !! p.(Governance.instrument) = Some (p.(pm_collateral_mint), p.(collateral_per_side)).
Proof. intros Hf Ho Hp. specialize (Hf k Ho). unfold holds in Hp. by rewrite Hp in Hf. Qed.

(** A bucket operation on a trader's margin account. *)
Lemma tally_margin k op df dr dl o m w u w' :
  all_fit w -> margin_of k o m w -> shifts op df dr dl -> with_mut k op w = (Ok u, w') ->
  tally [posting o m dr dl] w w'.
Proof.
  intros Hf (a & [Ha Ho] & <- & <-) Hs (a0 & a' & Hd & E & ->)%with_mut_ok_inv.
  unfold holds in Ha. rewrite Ha in Hd. injection Hd as <-.
  apply Hs in E as (_ & E1 & E2 & E3 & _ & Er & El).
  apply tally_set; rewrite ?Ha; try done.
  - apply (fits_purse _ _ a); try done. specialize (Hf k Ho). by rewrite Ha in Hf.
  - intros b [= <-]. by exists a'.
  - intros o m. unfold reserve_gap, reserved_by, about. cbn. rewrite E1, E2, Er. case_match; lia.
  - intros o m. unfold lock_gap, locked_by, about. cbn. rewrite E1, E2, El. case_match; lia.
Qed.

(** An operation of a book, by what it does to the map of offers. *)
Lemma tally_book k b b' m c l w :
  all_fit w -> (acct w k).(acc_owner) = program_id -> holds k (DBook b) w -> G !! k = Some (m, c) ->
  whole b' -> sized c (offers b') ->
  (forall o, held_for o (offers b') = held_for o (offers b) - taken o l) ->
  tally (off_book m l) w (set_data k (DBook b') w).
Proof.
  intros Hf Ho Hb Hk Hw Hs Hh. unfold holds in Hb. apply tally_set; rewrite ?Hb; try done.
  - split; [done|]. intros m' c' E. rewrite Hk in E. by injection E as <- <-.
  - intros o m'. rewrite reserved_off_book. unfold reserve_gap. cbn.
    assert (E : trades_in G k m' = (m =? m')) by (unfold trades_in; by rewrite Hk).
    rewrite E, Hh. case_match; lia.
  - intros o m'. rewrite locked_off_book. unfold lock_gap. cbn. lia.
Qed.
Lemma book_ran {A} k (op : M Book A) (Q : Book -> A -> Book -> Prop) w a w' :
  all_fit w -> (acct w k).(acc_owner) = program_id ->
  (forall b, whole b -> outcome op b (Q b)) -> with_mut k op w = (Ok a, w') ->
  exists b b', holds k (DBook b) w /\ whole b /\ Q b a b' /\ w' = set_data k (DBook b') w.
Proof.
  intros Hf Ho HQ (b & b' & Hb & E & ->)%with_mut_ok_inv. exists b, b'.
  destruct (fit_book k b w Hf Ho Hb) as [Hw _]. pose proof (HQ b Hw) as H. unfold outcome in H.
  by rewrite E in H.
Qed.

(** A contract rewritten. *)
Lemma tally_contract k d p l w :
  all_fit w -> (acct w k).(acc_owner) = program_id -> (acct w k).(acc_data) = d ->
  match d with DPmlc _ | DBytes _ => True | _ => False end -> fits G k (DPmlc p) ->
  (forall o m, reserved_by o m l = 0) ->
  (forall o m, staked_in o m k d = staked_in o m k (DPmlc p) + locked_by o m l) ->
  tally l w (set_data k (DPmlc p) w).
Proof.
  intros Hf Ho Hd Hk Hp Hr Hl. apply tally_set; rewrite ?Hd; try done.
  - by intros a ->.
  - intros o m. rewrite Hr. destruct d; done.
  - intros o m. specialize (Hl o m). unfold lock_gap. destruct d; try done; cbn in *; lia.
Qed.

(** It ends: both sides give their collateral up. *)
Lemma tally_end k p status reason w u w' :
  all_fit w -> (acct w k).(acc_owner) = program_id -> holds k (DPmlc p) w ->
  p.(pm_status) = PMLC_STATUS_LIVE -> status <> PMLC_STATUS_LIVE ->
  with_mut k (finish_pmlc status reason) w = (Ok u, w') ->
  let m := p.(pm_collateral_mint) in
  let c := p.(collateral_per_side) in
  tally [posting p.(long_owner) m 0 c; posting p.(short_owner) m 0 c] w w'.
Proof.
  intros Hf Ho Hp Hl Hs (q & q' & Hq & [= _ <-] & ->)%with_mut_ok_inv m c.
  unfold holds in Hp. rewrite Hp in Hq. injection Hq as <-.
  apply (tally_contract k _ _ _ w Hf Ho Hp I); [by intros ?| |]; intros o m'.
  - unfold reserved_by. cbn. by repeat case_match.
  - unfold locked_by, about, staked_in, stake, m, c. cbn. rewrite Hl, (proj2 (Z.eqb_neq _ _) Hs). cbn.
    destruct (_ =? m'); rewrite ?andb_true_r, ?andb_false_r; lia.
Qed.
(** A side changes hands. *)
Lemma tally_hand_over k p side new slot w u w' :
  all_fit w -> (acct w k).(acc_owner) = program_id -> holds k (DPmlc p) w ->
  p.(pm_status) = PMLC_STATUS_LIVE -> with_mut k (modify (hand_over side new slot)) w = (Ok u, w') ->
  let m := p.(pm_collateral_mint) in
  let c := p.(collateral_per_side) in
  tally [posting (owner_of_side side p) m 0 c; posting new m 0 (- c)] w w'.
Proof.
  intros Hf Ho Hp Hl (q & q' & Hq & [= _ <-] & ->)%with_mut_ok_inv m c.
  unfold holds in Hp. rewrite Hp in Hq. injection Hq as <-.
  apply (tally_contract k _ _ _ w Hf Ho Hp I).
  - intros _. unfold hand_over. destruct (side =? _); by apply (fit_contract k p w Hf Ho Hp).
  - intros o m'. unfold reserved_by. cbn. by repeat case_match.
  - intros o m'. unfold locked_by, about, staked_in, stake, m, c, hand_over, owner_of_side.
    destruct (side =? _); cbn; rewrite Hl; cbn;
      (destruct (_ =? m'); rewrite ?andb_true_r, ?andb_false_r; repeat case_match; lia).
Qed.
(** It is written on a fresh account. *)
Lemma tally_open k p w u w' :
  all_fit w -> (acct w k).(acc_owner) = program_id -> silent (acct w k).(acc_data) ->
  p.(pm_status) = PMLC_STATUS_LIVE -> G !! p.(Governance.instrument) = Some (p.(pm_collateral_mint), p.(collateral_per_side)) ->
  overwrite k p w = (Ok u, w') ->
  let m := p.(pm_collateral_mint) in
  let c := p.(collateral_per_side) in
  tally [posting p.(long_owner) m 0 (- c); posting p.(short_owner) m 0 (- c)] w w'.
Proof.
  intros Hf Ho Hd Hl Hg ->%overwrite_ok_inv. cbv zeta. apply tally_set; [done|done|exact (fun _ => Hg)|by apply silent_purse|..];
    intros o m'.
  - rewrite (silent_reserve G _ _ _ _ Hd). unfold reserve_gap, reserved_by. cbn. by repeat case_match.
  - rewrite (silent_lock _ _ _ _ Hd). unfold lock_gap, locked_by, about, staked_in, stake. cbn. rewrite Hl. cbn.
    destruct (_ =? m'); rewrite ?andb_true_r, ?andb_false_r; repeat case_match; lia.
Qed.
(** A right of a contract that ended is used up. *)
Lemma quiet_clear k p mask w u w' :
  holds k (DPmlc p) w -> p.(pm_status) <> PMLC_STATUS_LIVE ->
  with_mut k (modify (clear_flag mask)) w = (Ok u, w') -> quiet G w w'.
Proof.
  intros Hp Hl (q & q' & Hq & [= _ <-] & ->)%with_mut_ok_inv. unfold holds in Hp. rewrite Hp in Hq.
  injection Hq as <-. apply quiet_set_silent; [by rewrite Hp|done].
Qed.

(** ** The operations of a book *)

Section book.
Context (k m : Pubkey) (c : Z) (w : World).
Context (Hf : all_fit w) (Ho : (acct w k).(acc_owner) = program_id) (Hk : G !! k = Some (m, c)).

Lemma book_sized b : holds k (DBook b) w -> sized c (offers b).
Proof. intros Hb. destruct (fit_book k b w Hf Ho Hb) as [_ Hs]. by eapply Hs. Qed.

Lemma tally_cancel id f b b' :
  holds k (DBook b) w -> whole b' -> offers b !! id = Some f -> offers b' = delete id (offers b) ->
  tally (off_book m [(f.(of_owner), f.(of_reserved) + f.(of_fee))]) w (set_data k (DBook b') w).
Proof.
  intros Hb Hw Hid E. pose proof (book_sized b Hb) as Hs. eapply tally_book; try done; rewrite E.
  - by apply map_Forall_delete.
  - intros o. rewrite (held_for_delete _ _ _ f) by done. cbn. unfold share. lia.
Qed.
Lemma tally_fill i j lf sf b b' :
  holds k (DBook b) w -> whole b' -> offers b !! i = Some lf -> offers b !! j = Some sf -> i <> j ->
  offers b' = fill_map j c (released sf) (fill_map i c (released lf) (offers b)) ->
  tally (off_book m [(lf.(of_owner), c + released lf); (sf.(of_owner), c + released sf)])
    w (set_data k (DBook b') w).
Proof.
  intros Hb Hw Hi Hj Hne E. pose proof (book_sized b Hb) as Hs.
  pose proof (sized_fill c _ i lf Hi Hs) as Hs1.
  assert (Hj1 : fill_map i c (released lf) (offers b) !! j = Some sf) by (rewrite fill_map_other; done).
  eapply tally_book; try done; rewrite E.
  - by apply sized_fill.
  - intros o. rewrite (held_for_fill _ _ _ _ sf), (held_for_fill _ _ _ _ lf) by done. cbn. lia.
Qed.
Lemma tally_place id f b b' :
  holds k (DBook b) w -> whole b' -> offers b !! id = None -> offers b' = <[id := f]> (offers b) ->
  0 < f.(of_left) -> 0 <= f.(of_fee) -> f.(of_reserved) = f.(of_left) * c ->
  tally (off_book m [(f.(of_owner), - (f.(of_reserved) + f.(of_fee)))]) w (set_data k (DBook b') w).
Proof.
  intros Hb Hw Hid E Hl Hfee Hr. pose proof (book_sized b Hb) as Hs. eapply tally_book; try done; rewrite E.
  - by apply map_Forall_insert_2.
  - intros o. rewrite held_for_insert by done. cbn. unfold share. case_match; lia.
Qed.
Lemma tally_prune owner ids b b' :
  holds k (DBook b) w -> whole b' -> NoDup ids ->
  Forall (fun id => exists f, offers b !! id = Some f /\ f.(of_owner) = owner) ids ->
  offers b' = foldr delete (offers b) ids ->
  tally (off_book m [(owner, held (offers b) ids)]) w (set_data k (DBook b') w).
Proof.
  intros Hb Hw Hnd Hids E. pose proof (book_sized b Hb) as Hs. eapply tally_book; try done; rewrite E.
  - by apply sized_prune.
  - intros o. rewrite (held_for_prune _ owner) by done. cbn. lia.
Qed.
End book.
End steps.

(** The entries of a run cancel. *)
Ltac posted :=
  intros ? ?; split; unfold reserved_by, locked_by, off_book, about;
  cbn [app map foldr fst snd po_owner po_mint po_reserved po_locked];
  repeat match goal with |- context [?a =? ?b] => destruct (Z.eqb_spec a b) end;
  subst; cbn [andb]; try lia; try congruence.
