(* ===== verification/Backed.v ===== *)
(** * Every balance stays backed

    What each instruction posts to the two sides of [Backing]: nothing, in sum. *)
From S2P Require Import Prelude Fixed IntentBook RbHeap IntentTree Ledger Governance Attestation World Demo Footprint Totals Solvency MatchIx Intent Settlement Lifecycle BookInvariant BookShape OrderBook Authority Custody Dispatch DemoWorld Market BookHistory Conservation Balances Effects Trades Evolution Lifetimes Invariants Backing.

Section quiet.
Context {R : Runtime} {L : RuntimeLaws} (G : Terms).
Abbreviation quiet := (quiet G).

(* ------------------------------------------------------------------ *)
(** ** Administration and custody *)

Lemma quiet_create_if_empty payer new space seeds bump :
  yields quiet (create_if_empty payer new space seeds bump).
Proof. unfold create_if_empty. quiet_tac. Qed.
Lemma quiet_require_admin config admin_key : yields quiet (require_admin config admin_key).
Proof. unfold require_admin. quiet_tac. Qed.
Lemma quiet_authorize config accounts : yields quiet (authorize config accounts).
Proof.
  unfold authorize, authorize_admin_or_multisig. quiet_tac. clear H.
  generalize accounts at 2. intros ais.
  induction ais; cbn [authorize_scan]; quiet_tac.
Qed.
Hint Resolve quiet_create_if_empty quiet_require_admin quiet_authorize : yields.

Lemma quiet_init_config accounts s st : yields quiet (process_init_program_config accounts s st).
Proof. unfold process_init_program_config. quiet_tac. Qed.
Lemma quiet_set_pause accounts b : yields quiet (process_set_global_pause accounts b).
Proof. unfold process_set_global_pause. quiet_tac. Qed.
Lemma quiet_init_multisig accounts t s : yields quiet (process_init_admin_multisig accounts t s).
Proof. unfold process_init_admin_multisig. quiet_tac. Qed.
Lemma quiet_rotate accounts t s : yields quiet (process_rotate_admin_multisig accounts t s).
Proof. unfold process_rotate_admin_multisig. quiet_tac. Qed.
Lemma quiet_propose accounts id s : yields quiet (process_propose_set_attestation_signer accounts id s).
Proof.
  unfold process_propose_set_attestation_signer.
  repeat lazymatch goal with
  | |- yields _ (create_pda _ _ _ _ _ ≫= _) => apply quiet_create_then; [exact _|]
  | _ => quiet_step
  end.
  intros w u w' Hm E. inv_world. eapply (quiet_overwrite G (T := TimelockProposal)); [exact Hm|done].
Qed.
Lemma quiet_execute accounts id : yields quiet (process_execute_set_attestation_signer accounts id).
Proof. unfold process_execute_set_attestation_signer. quiet_tac. Qed.
Lemma quiet_cancel_timelock accounts id : yields quiet (process_cancel_timelock accounts id).
Proof. unfold process_cancel_timelock. quiet_tac. Qed.
Lemma quiet_init_buckets accounts l b : yields quiet (process_init_bucket_registry accounts l b).
Proof. unfold process_init_bucket_registry. quiet_tac. Qed.
Lemma quiet_set_buckets accounts l b : yields quiet (process_set_bucket_registry accounts l b).
Proof. unfold process_set_bucket_registry. quiet_tac. Qed.
Lemma quiet_init_stables accounts d m : yields quiet (process_init_stablecoin_registry accounts d m).
Proof. unfold process_init_stablecoin_registry, create_wusd_mint. quiet_tac. Qed.
Lemma quiet_add_mint accounts : yields quiet (process_add_stablecoin_mint accounts).
Proof. unfold process_add_stablecoin_mint. quiet_tac. Qed.
Lemma quiet_remove_mint accounts : yields quiet (process_remove_stablecoin_mint accounts).
Proof. unfold process_remove_stablecoin_mint. quiet_tac. Qed.
Lemma quiet_init_schedule accounts ts : yields quiet (process_init_fee_schedule accounts ts).
Proof. unfold process_init_fee_schedule. quiet_tac. Qed.
Lemma quiet_set_schedule accounts ts : yields quiet (process_set_fee_schedule accounts ts).
Proof. unfold process_set_fee_schedule. quiet_tac. Qed.
Lemma quiet_set_status accounts p : yields quiet (process_set_instrument_status accounts p).
Proof. unfold process_set_instrument_status. quiet_tac. Qed.
Lemma quiet_revoke accounts : yields quiet (process_revoke_session accounts).
Proof. unfold process_revoke_session. quiet_tac. Qed.
Lemma quiet_create_session accounts args : yields quiet (process_create_session accounts args).
Proof.
  intros w u w' E. unfold process_create_session in E. inv_world.
  match goal with
  | Ha : alloc_session _ _ _ _ = _, Hw : write_session _ _ _ = _ |- _ =>
      unfold alloc_session in Ha; unfold write_session in Hw
  end.
  inv_world. case_match.
  - match goal with H : create_pda _ _ _ _ _ _ = (Ok _, ?w1) |- _ =>
      etrans; [by eapply quiet_create|]; apply invoke_signed_ok_inv, create_fresh in H as (_ & _ & Hd & _) end.
    apply quiet_set_silent; [by rewrite Hd|done].
  - inv_world. apply quiet_set_silent; [|done]. by match goal with H : _ = inj _ |- _ => rewrite H end.
Qed.

(** A margin account is created at its address. *)
Lemma quiet_create_margin accounts : derives G -> yields quiet (process_create_margin_account accounts).
Proof.
  intros HD w u w' E. unfold process_create_margin_account in E. inv_world.
  match goal with
  | Hc : create_pda _ _ _ _ _ w = (Ok _, ?w1), Hp : find_program_address _ = _ |- _ =>
      rewrite HD in Hp; etrans; [by eapply quiet_create|]
  end.
  lazymatch type of E with init_account ?k ?v _ = _ => eapply (quiet_init G k v); [..|exact E] end; [done|..];
    intros o m; unfold reserve_gap, lock_gap; cbn; by case_match.
Qed.
Lemma quiet_deposit accounts n : yields quiet (process_deposit accounts n).
Proof. unfold process_deposit, require_token_program, validate_vault. quiet_tac. Qed.
Lemma quiet_withdraw accounts n : yields quiet (process_withdraw accounts n).
Proof. unfold process_withdraw, require_token_program, validate_vault. quiet_tac. Qed.
Lemma quiet_sweep accounts n : yields quiet (process_sweep_fees accounts n).
Proof. unfold process_sweep_fees, require_token_program. quiet_tac. Qed.
Lemma quiet_wrap accounts n : yields quiet (process_wrap_stablecoin accounts n).
Proof. unfold process_wrap_stablecoin, require_token_program, check_accepted, check_reserve. quiet_tac. Qed.
Lemma quiet_unwrap accounts n : yields quiet (process_unwrap_stablecoin accounts n).
Proof. unfold process_unwrap_stablecoin, require_token_program, check_accepted, check_reserve. quiet_tac. Qed.

(** A contract is closed when its sides have settled. *)
Lemma quiet_close_account recipient k w u w' :
  silent (acct w k).(acc_data) -> close_pmlc_account recipient k w = (Ok u, w') -> quiet w w'.
Proof.
  intros Hm E. unfold close_pmlc_account in E. inv_world.
  etrans; [|apply quiet_insert; [right; by rewrite acct_set_eq|done]].
  etrans; [|apply quiet_set_silent; [|done]].
  - etrans; [|by apply quiet_insert; [left|]]. by apply quiet_insert; [left|].
  - destruct (decide (recipient = k)) as [->|];
      [rewrite acct_insert_eq|rewrite acct_insert_ne by done]; cbn; by rewrite acct_insert_eq.
Qed.
Lemma quiet_close accounts : yields quiet (process_close_pmlc accounts).
Proof.
  intros w u w' E. unfold process_close_pmlc in E. inv_world. eapply quiet_close_account; [|done].
  match goal with H : _ = inj _ |- _ => rewrite H end. cbn. intros Hl.
  match goal with H : _ || _ = true |- _ => rewrite Hl in H; discriminate H end.
Qed.

(* ------------------------------------------------------------------ *)
(** ** Cancelling and posting *)

Abbreviation all_fit := (all_fit G).
Abbreviation tally := (tally G).

(** The terms of the instrument a handler trades. *)
Ltac terms :=
  match goal with
  | Hf : Backing.all_fit _ ?w, Ho : acc_owner (acct ?w ?k) = program_id,
    Hi : acc_data (acct ?w ?k) = inj (T := InstrumentConfig) ?i |- _ =>
      let H := fresh "Hterms" in
      pose proof (fit_instrument G k i w Hf Ho Hi) as [? H];
      match goal with E : i.(intent_book) = _ |- _ => rewrite E in H end
  end.

Lemma cancel_on_margin inst_mint k book id margin authorize bump total original w w1 u w' :
  all_fit w -> (acct w k).(acc_owner) = program_id -> (acct w book).(acc_owner) = program_id ->
  (exists c, G !! book = Some (inst_mint, c)) -> (forall o e, is_check (authorize o e)) ->
  with_mut book (cancel_on_book id inst_mint margin authorize) w = (Ok (original, bump, total), w1) ->
  with_mut k (release_margin original inst_mint bump total) w1 = (Ok u, w') -> tally [] w w'.
Proof.
  intros Hf Hk Ho [c Hg] Ha E1 E2.
  pose proof E1 as (b & b' & Hb & Hw & (Hw' & Hoff & f & Hid & -> & -> & _) & ->)%(book_ran G _ _ _ _ _ _ Hf Ho
    (fun b Hw => cancel_refines b id inst_mint margin authorize Hw Ha)).
  pose proof (tally_cancel G book inst_mint c w Hf Ho Hg id f b b' Hb Hw' Hid Hoff) as T1.
  assert (Hm : margin_of k f.(of_owner) inst_mint (set_data book (DBook b') w)).
  { eapply margin_checked; [exact E2|]. by rewrite owner_set. }
  eapply (tally_margin G k _ _ _ _ _ _ _ _ _ (ta_fit _ _ _ _ T1) Hm) in E2 as T2; [|apply shifts_release].
  eapply tally_eq; [exact (tally_trans _ _ _ _ _ _ T1 T2)|posted].
Qed.
Lemma backed_cancel accounts id : yields quiet (process_cancel_intent accounts id).
Proof.
  intros w u w' E Hf. unfold process_cancel_intent in E. inv_world. owned_facts. terms.
  eapply cancel_on_margin; [exact Hf| | |by eexists| |eassumption..]; try done.
  intros. apply bail_is_check.
Qed.
Lemma backed_cancel_delegated accounts id : yields quiet (process_cancel_intent_delegated accounts id).
Proof.
  intros w u w' E Hf. unfold process_cancel_intent_delegated, authorize_session in E. inv_world.
  owned_facts. terms.
  eapply cancel_on_margin; [exact Hf| | |by eexists| |eassumption..]; try done.
  intros. apply bail_is_check.
Qed.

Lemma quiet_session_spend (session : option AccountInfo) n :
  yields quiet (match session with Some s => with_mut s.(key) (record_intent n);; mret tt | None => mret tt end).
Proof. destruct session; quiet_tac. Qed.

Context (Hpos : forall k m c, G !! k = Some (m, c) -> 0 < c).

(** The refund of the poster's expired offers, the reservation and the new offer. *)
Lemma post_on_margin m c k book owner now bump args reserve fee refund id w w1 w2 w' u :
  all_fit w -> (acct w k).(acc_owner) = program_id -> (acct w book).(acc_owner) = program_id ->
  G !! book = Some (m, c) -> (args.(pa_side) = SIDE_LONG \/ args.(pa_side) = SIDE_SHORT) ->
  args.(pa_contracts) <> 0 -> reserve = args.(pa_contracts) * c -> 0 <= reserve -> 0 <= fee ->
  with_mut book (prune_own owner now) w = (Ok refund, w1) ->
  with_mut k (reserve_margin owner m bump refund (reserve + fee)) w1 = (Ok u, w2) ->
  with_mut book (place_intent owner args.(pa_side)
    (if negb (args.(pa_reentry_enabled) =? 0) then INTENT_FLAG_REENTRY else 0)
    args.(pa_price_fp) args.(pa_contracts) args.(pa_expiration_slot) reserve fee) w2 = (Ok id, w') ->
  tally [] w w'.
Proof.
  intros Hf Hk Ho Hg Hside Hn -> Hr Hfee E1 E2 E3.
  pose proof E1 as (b & b' & Hb & Hw & (Hw' & ids & _ & Hnd & Hids & Hoff & Href) & ->)%(book_ran G _ _ _ _ _ _ Hf Ho
    (fun b Hw => prune_own_refines b owner now Hw)).
  assert (Hpr : Forall (fun id => exists f, offers b !! id = Some f /\ f.(of_owner) = owner) ids).
  { eapply Forall_impl; [exact Hids|]. intros i (f & Hi & Hfo & _). by exists f. }
  pose proof (tally_prune G book m c w Hf Ho Hg owner ids b b' Hb Hw' Hnd Hpr Hoff) as T1.
  assert (Hm : margin_of k owner m (set_data book (DBook b') w)).
  { eapply margin_checked; [exact E2|]. by rewrite owner_set. }
  pose proof (tally_margin G k _ _ _ _ _ _ _ _ _ (ta_fit _ _ _ _ T1) Hm (shifts_reserve _ _ _ _ _) E2) as T2.
  assert (Ho2 : (acct w2 book).(acc_owner) = program_id).
  { by rewrite (with_mut_owner _ _ _ _ _ book E2), owner_set. }
  pose proof E3 as (b1 & b2 & Hb1 & Hw1 & (Hw2 & _ & _ & Hfresh & Hoff2) & ->)%(book_ran G _ _ _ _ _ _ (ta_fit _ _ _ _ T2) Ho2
    (fun b Hw => place_refines b _ _ _ _ _ _ _ _ Hw Hside)).
  assert (Hc : 0 < c) by (by eapply Hpos). assert (0 < args.(pa_contracts)) by nia.
  pose proof (tally_place G book m c w2 (ta_fit _ _ _ _ T2) Ho2 Hg id _ b1 b2 Hb1 Hw2 Hfresh Hoff2) as T3.
  cbn in T3. specialize (T3 ltac:(done) ltac:(done) ltac:(done)).
  assert (Hrefund : 0 <= refund).
  { pose proof E1 as (? & ? & _ & Ep & _)%with_mut_ok_inv. by eapply prune_own_nonneg. }
  eapply tally_eq; [exact (tally_trans _ _ _ _ _ _ (tally_trans _ _ _ _ _ _ T1 T2) T3)|].
  subst refund. destruct (Z.ltb_spec 0 (held (offers b) ids)); posted.
Qed.

Lemma fee_buffer_nonneg n c bps fee : fee_buffer_for n c bps = Ok fee -> 0 <= fee.
Proof.
  unfold fee_buffer_for, opt_ok_or. intros E. case_match; [|done]. injection E as <-.
  match goal with H : _ = Some _ |- _ => apply bind_Some in H as (? & _ & H) end.
  apply bind_Some in H as (? & _ & H). apply bind_Some in H as (? & _ & H).
  unfold u64_try_from in H. apply checked_some in H as [-> ?]. lia.
Qed.

Lemma backed_post_inner owner payer config instr book margin session accounts off args :
  args.(pa_try_match) = 0 ->
  yields quiet (do_post_intent_inner owner payer config instr book margin session accounts off args).
Proof.
  intros Ht w u w' E Hf. unfold do_post_intent_inner, validate_post in E. rewrite Ht in E.
  cbn [Z.eqb negb when] in E.
  apply bind_ok_inv in E as ([[[inst bump] reserve] fee] & w1 & Hv & E). inv_world. owned_facts.
  match goal with H : (inst, bump, reserve, fee) = _ |- _ => injection H as -> -> -> -> end. terms.
  match goal with
  | Hs : (match session with _ => _ end) w = (Ok _, ?w2), Hp : with_mut _ (prune_own _ _) ?w2 = _,
    Hr : checked _ (_ * _) = Some _, Ht : checked _ (_ + _) = Some _ |- _ =>
      pose proof (quiet_session_spend _ _ _ _ _ Hs Hf) as T1;
      assert (Hown : forall k, (acct w2 k).(acc_owner) = (acct w k).(acc_owner))
  end.
  { intros k. destruct session; [|by match goal with H : mret tt _ = _ |- _ => injection H as <- end].
    inv_world. by eapply with_mut_owner. }
  repeat match goal with H : checked _ _ = Some _ |- _ => apply checked_some in H as [-> ?] end.
  eapply (tally_trans _ [] []); [exact T1|].
  eapply (post_on_margin _ _ margin.(key) book.(key)); [exact (ta_fit _ _ _ _ T1)| | |eassumption|..];
    try eassumption; rewrite ?Hown; try done.
  - by apply sides_ok.
  - unfold_bounds. lia.
  - by eapply fee_buffer_nonneg.
Qed.
Lemma backed_post accounts args : args.(pa_try_match) = 0 -> yields quiet (process_post_intent accounts args).
Proof.
  intros Ht w u w' E. unfold process_post_intent in E. inv_world. by eapply backed_post_inner.
Qed.
Lemma backed_post_delegated accounts args :
  args.(pa_try_match) = 0 -> yields quiet (process_post_intent_delegated accounts args).
Proof.
  intros Ht w u w' E. unfold process_post_intent_delegated, authorize_session in E. inv_world.
  by eapply backed_post_inner.
Qed.

(** ** Re-entry *)

Lemma affordable_reads n b m f : respects eq (affordable n b m f).
Proof. induction n as [|n IH]; cbn [affordable]; world_tac; done. Qed.
Lemma reads_reentry free bucket bk : respects eq (reentry_size free bucket bk).
Proof. unfold reentry_size, reservation. world_tac. apply affordable_reads. Qed.
Lemma reentry_size_ok free bucket bk w n reserve fee total w' :
  reentry_size free bucket bk w = (Ok (Some (n, reserve, fee, total)), w') ->
  w' = w /\ n <> 0 /\ reserve = n * bucket /\ 0 <= reserve /\ 0 <= fee /\ total = reserve + fee.
Proof.
  intros E. unfold reentry_size, reservation in E. apply bind_ok_inv in E as (n64 & w1 & H & E).
  apply or_panic_ok_inv in H as [_ ->]. destruct (Z.eqb_spec n64 0); [by injection E|].
  assert (Z.min n64 U16_MAX <> 0) by (unfold_bounds; lia).
  inv_world. destruct (free <? _).
  - apply bind_ok_inv in E as (k & w1 & Ha & E). apply affordable_reads in Ha as <-.
    destruct (Nat.eqb_spec k 0); [by injection E|]. inv_world. checked_facts.
    repeat match goal with H : fee_buffer_for _ _ _ = Ok _ |- _ => apply fee_buffer_nonneg in H end.
    simplify_eq. split_and!; first [done|mlia].
  - inv_world. checked_facts.
    repeat match goal with H : fee_buffer_for _ _ _ = Ok _ |- _ => apply fee_buffer_nonneg in H end.
    simplify_eq. split_and!; first [done|mlia].
Qed.

(** A right is spent on a new offer, or on nothing; the contract has ended. *)
Lemma reentry_on_margin m c k book pmlc p mask owner n reserve fee side flags price expiration id w w1 w2 w' u u' :
  all_fit w -> margin_of k owner m w -> (acct w book).(acc_owner) = program_id ->
  G !! book = Some (m, c) -> holds pmlc (DPmlc p) w -> p.(pm_status) <> PMLC_STATUS_LIVE ->
  (side = SIDE_LONG \/ side = SIDE_SHORT) ->
  n <> 0 -> reserve = n * c -> 0 <= reserve -> 0 <= fee ->
  with_mut k (move_free_to_reserved (reserve + fee)) w = (Ok u, w1) ->
  with_mut book (place_intent owner side flags price n expiration reserve fee) w1 = (Ok id, w2) ->
  with_mut pmlc (modify (clear_flag mask)) w2 = (Ok u', w') ->
  tally [] w w'.
Proof.
  intros Hf Hm Ho Hg Hp Hd Hside Hn -> Hr Hfee E1 E2 E3.
  pose proof (tally_margin G k _ _ _ _ _ _ _ _ _ Hf Hm (shifts_free_to_reserved _) E1) as T1.
  rewrite <- (with_mut_owner _ _ _ _ _ book E1) in Ho.
  pose proof (with_mut_kept _ _ _ _ _ _ _ E1 Hp ltac:(done)) as Hp1.
  pose proof (with_mut_kept _ _ _ _ _ _ _ E2 Hp1 ltac:(done)) as Hp2.
  pose proof E2 as (b & b' & Hb & Hw & (Hw' & _ & _ & Hfresh & Hoff) & ->)%(book_ran G _ _ _ _ _ _ (ta_fit _ _ _ _ T1) Ho
    (fun b Hw => place_refines b _ _ _ _ _ _ _ _ Hw Hside)).
  assert (Hc : 0 < c) by (by eapply Hpos). assert (0 < n) by nia.
  pose proof (tally_place G book m c w1 (ta_fit _ _ _ _ T1) Ho Hg id _ b b' Hb Hw' Hfresh Hoff) as T2.
  cbn in T2. specialize (T2 ltac:(done) ltac:(done) ltac:(done)).
  pose proof (quiet_clear G _ _ _ _ _ _ Hp2 Hd E3 (ta_fit _ _ _ _ T2)) as T3.
  eapply tally_eq; [exact (tally_trans _ _ _ _ _ _ (tally_trans _ _ _ _ _ _ T1 T2) T3)|posted].
Qed.

Lemma backed_claim accounts side expiration : yields quiet (process_claim_reentry accounts side expiration).
Proof.
  intros w u w' E Hf. unfold process_claim_reentry, repost in E. inv_world. owned_facts. terms.
  match goal with H : reentry_size _ _ _ _ = (Ok ?size, _) |- _ => destruct size as [[[[n reserve] fee] total]|] end.
  - match goal with H : reentry_size _ _ _ _ = _ |- _ => apply reentry_size_ok in H as (-> & Hn & Hr & Hr0 & Hfee & ->) end.
    inv_world.
    lazymatch goal with
    | H1 : with_mut ?k (move_free_to_reserved _) w = _, H2 : with_mut ?bk (place_intent _ _ _ _ _ _ _ _) _ = _,
      H3 : with_mut ?pm _ _ = (Ok _, w'), Hp : acc_data (acct w ?pm) = inj (T := Pmlc) ?p,
      Hm : acc_data (acct w ?k) = inj (T := MarginAccount) ?a |- _ =>
        eapply (reentry_on_margin p.(pm_collateral_mint) _ k bk pm p);
          [exact Hf| | | |exact Hp| | |exact Hn|exact Hr|exact Hr0|exact Hfee|exact H1|exact H2|exact H3]
    end; try done; try (by apply sides_ok).
    + eexists. split; [by split|done].
    + match goal with E : ic_collateral_mint _ = _ |- _ => by rewrite E in Hterms end.
  - match goal with H : reentry_size _ _ _ _ = _ |- _ => apply reads_reentry in H as <- end.
    by eapply quiet_clear.
Qed.

(** ** Pruning *)

Lemma found_margin trader m j ms w i ai w' :
  find_margin trader m j ms w = (Ok (Some (i, ai)), w') -> margin_of ai.(key) trader m w.
Proof.
  revert j. induction ms as [|a ms IH]; intros j E; cbn [find_margin] in E; [by injection E|].
  apply bind_ok_inv in E as (u & w1 & Ha & E). apply assert_owned_ok_inv in Ha as [-> Ho].
  apply bind_ok_inv in E as (v & w1 & Hl & E). apply load_ok_inv in Hl as [-> Hd].
  destruct ((v.(ma_owner) =? trader) && _) eqn:Em; [|by eapply IH].
  apply andb_true_iff in Em as [E1%Z.eqb_eq E2%Z.eqb_eq]. inv_world. owned_facts.
  match goal with H : Some _ = Some _ |- _ => injection H as -> -> end.
  exists v. by split.
Qed.

Lemma prune_on_margins m c k margins work ids b w u w' :
  all_fit w -> (acct w k).(acc_owner) = program_id -> G !! k = Some (m, c) -> holds k (DBook b) w ->
  workable b work ids -> prune_all k m margins work w = (Ok u, w') -> tally [] w w'.
Proof.
  revert margins ids b w. induction work as [|[[[side i] trader] total] work IH];
    intros margins ids b w Hf Ho Hg Hb Hwork E; cbn [prune_all] in E.
  { injection E as _ <-. by apply tally_refl. }
  destruct Hwork as [Hp Hitems]. destruct (prunable_split _ _ _ _ Hp) as (id & ids' & ->).
  destruct (fit_book G k b w Hf Ho Hb) as [Hw _].
  pose proof (prunable_ids b _ _ Hw Hp) as [Hid _]%NoDup_cons.
  inversion Hitems as [|? ? ? ? (f & Hfo & Hown & Htot) Hitems']; subst. cbn in Hown, Htot.
  apply bind_ok_inv in E as (found & w1 & E1 & E). pose proof E1 as <-%(reads_find_margin eq).
  apply bind_ok_inv in E as ([j ai] & w1 & E2 & E). apply ok_or_ok_inv in E2 as [-> ->].
  apply found_margin in E1 as Hm.
  apply bind_ok_inv in E as ([] & w1 & E2 & E). apply bind_ok_inv in E as ([] & w2 & E3 & E).
  pose proof (tally_margin G _ _ _ _ _ _ _ _ _ _ Hf Hm (shifts_reserved_to_free _) E2) as T1.
  pose proof (with_mut_kept _ _ _ _ _ _ _ E2 Hb ltac:(done)) as Hb1.
  rewrite <- (with_mut_owner _ _ _ _ _ k E2) in Ho.
  apply with_mut_ok_inv in E3 as (b0 & b' & Hb0 & Ed & ->). unfold holds in Hb1. rewrite Hb1 in Hb0.
  injection Hb0 as <-. pose proof (drop_expired_ok b side i _ id ids' Hw Hp) as Hrun.
  unfold runs in Hrun. rewrite Ed in Hrun. destruct Hrun as (Hw' & Hoff & Hp').
  pose proof (tally_cancel G k m c w1 (ta_fit _ _ _ _ T1) Ho Hg id f b b' Hb1 Hw' Hfo Hoff) as T2.
  assert (T3 : tally [] (set_data k (DBook b') w1) w').
  { refine (IH _ ids' b' _ (ta_fit _ _ _ _ T2) _ Hg _ _ E).
    - by rewrite owner_set.
    - unfold holds. by rewrite acct_set_eq.
    - split; [done|]. apply Forall2_same_length_lookup in Hitems' as [Hlen Hl].
      apply Forall2_same_length_lookup. split; [done|]. intros n e id' He Hid'.
      destruct (Hl n e id' He Hid') as (g & Hg' & Hrest). exists g. split; [|done].
      rewrite Hoff, lookup_delete_ne; [done|]. intros ->. apply Hid. by eapply list_elem_of_lookup_2. }
  eapply tally_eq; [exact (tally_trans _ _ _ _ _ _ (tally_trans _ _ _ _ _ _ T1 T2) T3)|posted].
Qed.
Lemma backed_prune accounts : yields quiet (process_prune_expired accounts).
Proof.
  intros w u w' E Hf. unfold process_prune_expired in E. inv_world. owned_facts. terms.
  match goal with Hc : collect_expired ?b _ _ _ _ = _, Hb : acc_data (acct w ?k) = inj ?b |- _ =>
    destruct (fit_book G k b w Hf ltac:(done) Hb) as [Hw _];
    destruct (collected_workable _ _ _ _ Hw Hc) as [ids Hids] end.
  by eapply prune_on_margins.
Qed.

(* ------------------------------------------------------------------ *)
(** ** Settlement *)

Lemma tally_payout long short c bounty b o1 o2 m w u w' :
  all_fit w -> margin_of long o1 m w -> margin_of short o2 m w ->
  liquidation_payout long short c bounty b w = (Ok u, w') ->
  tally [posting o1 m 0 (- c); posting o2 m 0 (- c)] w w'.
Proof.
  intros Hf Hl Hs E. unfold liquidation_payout in E. inv_world.
  match goal with
  | H1 : with_mut long (debit_locked _) w = _, H2 : with_mut short (debit_locked _) _ = _,
    H3 : with_mut _ (credit_free _) _ = _, H4 : with_mut _ (sub_pnl _) _ = _,
    H5 : with_mut _ (add_pnl _) _ = _ |- _ =>
      pose proof (tally_margin G _ _ _ _ _ _ _ _ _ _ Hf Hl (shifts_debit_locked _) H1) as T1;
      pose proof (tally_margin G _ _ _ _ _ _ _ _ _ _ (ta_fit _ _ _ _ T1) (ta_margin _ _ _ _ T1 _ _ _ Hs)
        (shifts_debit_locked _) H2) as T2;
      pose proof (quiet_free G _ _ _ (shifts_credit_free _) _ _ _ H3 (ta_fit _ _ _ _ T2)) as T3;
      pose proof (quiet_free G _ _ _ (shifts_sub_pnl _) _ _ _ H4 (ta_fit _ _ _ _ T3)) as T4;
      pose proof (quiet_free G _ _ _ (shifts_add_pnl _) _ _ _ H5 (ta_fit _ _ _ _ T4)) as T5
  end.
  exact (tally_trans _ _ _ _ _ _ (tally_trans _ _ _ _ _ _ T1 T2)
    (tally_trans _ _ _ _ _ _ T3 (tally_trans _ _ _ _ _ _ T4 T5))).
Qed.
Lemma tally_pay_equities long short c el es o1 o2 m w u w' :
  all_fit w -> margin_of long o1 m w -> margin_of short o2 m w ->
  pay_equities long short c el es w = (Ok u, w') ->
  tally [posting o1 m 0 (- c); posting o2 m 0 (- c)] w w'.
Proof.
  intros Hf Hl Hs E. unfold pay_equities in E. inv_world.
  match goal with
  | H1 : with_mut long _ w = _, H2 : with_mut short _ _ = _ |- _ =>
      pose proof (tally_margin G _ _ _ _ _ _ _ _ _ _ Hf Hl (shifts_settle_equity _ _) H1) as T1;
      pose proof (tally_margin G _ _ _ _ _ _ _ _ _ _ (ta_fit _ _ _ _ T1) (ta_margin _ _ _ _ T1 _ _ _ Hs)
        (shifts_settle_equity _ _) H2) as T2
  end.
  exact (tally_trans _ _ _ _ _ _ T1 T2).
Qed.

(** What the three settlements share: the market's nonce is written, the contract and the two
    margin accounts are read, the collateral is paid out and the contract ends. *)
Lemma settled {A} nonce_key (mn : M MarketNonceAccount A) x pmlc i market mint p long short
    status reason w w1 w2 w3 w4 u :
  all_fit w -> with_mut nonce_key mn w = (Ok x, w1) -> load_live_pmlc pmlc i market mint w1 = (Ok p, w2) ->
  (acct w pmlc).(acc_owner) = program_id ->
  (acct w long).(acc_owner) = program_id -> (acct w short).(acc_owner) = program_id ->
  (exists a, (acct w2 long).(acc_data) = DMargin a /\ a.(ma_owner) = p.(long_owner) /\
     a.(ma_collateral_mint) = mint) ->
  (exists b, (acct w2 short).(acc_data) = DMargin b /\ b.(ma_owner) = p.(short_owner) /\
     b.(ma_collateral_mint) = mint) ->
  (forall o1 o2 m, all_fit w2 -> margin_of long o1 m w2 -> margin_of short o2 m w2 ->
     tally [posting o1 m 0 (- p.(collateral_per_side)); posting o2 m 0 (- p.(collateral_per_side))] w2 w3) ->
  (acct w3 pmlc).(acc_owner) = (acct w2 pmlc).(acc_owner) -> (holds pmlc (DPmlc p) w2 -> holds pmlc (DPmlc p) w3) ->
  status <> PMLC_STATUS_LIVE -> with_mut pmlc (finish_pmlc status reason) w3 = (Ok u, w4) ->
  tally [] w w4.
Proof.
  intros Hf Hn Hl Hop Ho1 Ho2 Ha Hb Hpay Hop3 Hkeep Hst Hfin.
  destruct (settle_facts _ _ _ _ _ _ _ _ _ _ _ long short Hn Hl Ho1 Ho2 Ha Hb)
    as (-> & _ & Hc & Hlive & _ & _ & Hml & Hms).
  apply live_contract_inv in Hl as (_ & _ & _ & _ & _ & Hmint).
  pose proof (quiet_mut G _ _ _ _ _ Hn Hf) as T0.
  pose proof (Hpay _ _ _ (ta_fit _ _ _ _ T0) (ta_margin _ _ _ _ T0 _ _ _ Hml) (ta_margin _ _ _ _ T0 _ _ _ Hms)) as T1.
  rewrite (with_mut_owner _ _ _ _ _ pmlc Hn), Hop in Hop3.
  pose proof (tally_end G _ _ _ _ _ _ _ (ta_fit _ _ _ _ T1) Hop3 (Hkeep Hc) Hlive Hst Hfin) as T2.
  eapply tally_eq; [exact (tally_trans _ _ _ _ _ _ T0 (tally_trans _ _ _ _ _ _ T1 T2))|].
  rewrite Hmint. posted.
Qed.
Lemma pay_equities_owner long short c el es w u w' k :
  pay_equities long short c el es w = (Ok u, w') -> (acct w' k).(acc_owner) = (acct w k).(acc_owner).
Proof.
  intros E. unfold pay_equities in E. inv_world.
  repeat match goal with H : with_mut _ _ ?w0 = (Ok _, ?w1) |- context [acct ?w1 k] =>
    rewrite (with_mut_owner _ _ _ _ _ k H) end. done.
Qed.
Lemma payout_owner long short c bounty b w u w' k :
  liquidation_payout long short c bounty b w = (Ok u, w') -> (acct w' k).(acc_owner) = (acct w k).(acc_owner).
Proof.
  intros E. unfold liquidation_payout in E. inv_world.
  repeat match goal with H : with_mut _ _ ?w0 = (Ok _, ?w1) |- context [acct ?w1 k] =>
    rewrite (with_mut_owner _ _ _ _ _ k H) end. done.
Qed.

Ltac settlement :=
  lazymatch goal with
  | Hn : with_mut (T := MarketNonceAccount) _ _ ?w = _, Hl : load_live_pmlc _ _ _ _ _ = _,
    Hp : ?pay ?long ?short _ _ _ _ = (Ok _, ?w3), Hfin : with_mut _ (finish_pmlc _ _) ?w3 = _,
    Hf : Backing.all_fit _ ?w |- _ =>
      eapply (settled _ _ _ _ _ _ _ _ long short); [exact Hf|exact Hn|exact Hl|..|exact Hfin];
      [try done; eauto..| | | |done];
      intros; try first
        [ eapply tally_pay_equities; eassumption | eapply pay_equities_owner; eassumption
        | eapply pay_equities_keeps; eassumption | eapply tally_payout; eassumption
        | eapply payout_owner; eassumption | eapply payout_keeps; eassumption ]
  end.

Lemma backed_resolve accounts args : yields quiet (process_resolve accounts args).
Proof.
  intros w u w' E Hf. unfold process_resolve, load_attestation_signer, verified_attestation in E.
  inv_world. owned_facts. settlement.
Qed.
Lemma backed_close_mutual accounts args : yields quiet (process_close_mutual accounts args).
Proof.
  intros w u w' E Hf. unfold process_close_mutual, load_attestation_signer, verified_attestation in E.
  inv_world. owned_facts. settlement; (eexists; split_and!; [done|congruence|done]).
Qed.
Lemma backed_liquidate accounts args : yields quiet (process_liquidate accounts args).
Proof.
  intros w u w' E Hf. unfold process_liquidate, load_attestation_signer, verified_attestation, check_breach in E.
  inv_world. owned_facts.
  match goal with H : when _ _ ?w4 = _ |- _ => assert (T : tally [] w w4) by settlement; rename H into Hw end.
  refine (tally_trans _ [] [] _ _ _ T _).
  match type of Hw with when ?b (with_mut ?k ?m) _ = _ =>
    assert (Hq : yields quiet (when b (with_mut k m))) by quiet_tac end.
  exact (Hq _ _ _ Hw (ta_fit _ _ _ _ T)).
Qed.

(* ------------------------------------------------------------------ *)
(** ** Sides changing hands *)

Lemma shifts_novate_current o m c : shifts (check_owner_mint o m;; move_locked_to_free c) c 0 (- c).
Proof. shifts_tac. Qed.
Lemma shifts_novate_new o m c : shifts (check_owner_mint o m;; debit_free c;; credit_locked c) (- c) 0 c.
Proof. shifts_tac. Qed.

Lemma backed_novate accounts side : yields quiet (process_novate accounts side).
Proof.
  intros w u w' E Hf. unfold process_novate in E. inv_world. owned_facts.
  match goal with
  | Hp : acc_data (acct w ?k) = inj (T := Pmlc) ?p, Hl : require_live ?p = _,
    H1 : with_mut ?k1 _ w = (_, ?w1), H2 : with_mut ?k2 _ ?w1 = (_, ?w2), Ho : acc_owner (acct w ?k) = _ |- _ =>
      apply contract_live in Hl;
      pose proof (margin_checked_owner _ _ _ _ _ _ _ H1 ltac:(done)) as Hm1;
      pose proof (tally_margin G _ _ _ _ _ _ _ _ _ _ Hf Hm1 (shifts_novate_current _ _ _) H1) as T1;
      pose proof (margin_checked_owner _ _ _ _ _ _ _ H2 ltac:(by rewrite (with_mut_owner _ _ _ _ _ k2 H1))) as Hm2;
      pose proof (tally_margin G _ _ _ _ _ _ _ _ _ _ (ta_fit _ _ _ _ T1) Hm2 (shifts_novate_new _ _ _) H2) as T2;
      pose proof (with_mut_kept _ _ _ _ _ _ _ H2 (with_mut_kept _ _ _ _ _ _ _ H1 Hp ltac:(done)) ltac:(done)) as Hp2;
      rewrite <- (with_mut_owner _ _ _ _ _ k H1), <- (with_mut_owner _ _ _ _ _ k H2) in Ho;
      pose proof (tally_hand_over G _ _ _ _ _ _ _ _ (ta_fit _ _ _ _ T2) Ho Hp2 Hl E) as T3
  end.
  eapply tally_eq; [exact (tally_trans _ _ _ _ _ _ (tally_trans _ _ _ _ _ _ T1 T2) T3)|].
  match goal with H : owner_of_side _ _ = _ |- _ => rewrite H end. posted.
Qed.

Lemma crossing_distinct (offs : gmap Z Offer) i j lf sf now :
  offs !! i = Some lf -> offs !! j = Some sf -> crosses now lf sf -> i <> j.
Proof.
  intros Hi Hj (H1 & H2 & _) ->. rewrite Hi in Hj. injection Hj as ->. by rewrite H1 in H2.
Qed.
Lemma sized_released c (offs : gmap Z Offer) i f : sized c offs -> offs !! i = Some f -> 0 <= released f.
Proof. intros Hs Hf. destruct (Hs i f Hf) as (? & ? & _). by apply released_at_most. Qed.

(** The substitutor's collateral goes, the counterparty's comes, and the contract's side with
    them: only the reservations are left to account for. *)
Lemma tally_sides m k1 k2 pmlc s ctx delta slot p w w1 w2 w' u1 u2 u :
  let c := ctx.(per_contract_collateral) in
  let long := ctx.(per_contract_fee_buf_long) in
  let short := ctx.(per_contract_fee_buf_short) in
  let taker := ctx.(substitutor_is_long) in
  all_fit w -> (acct w k1).(acc_owner) = program_id -> (acct w k2).(acc_owner) = program_id ->
  (acct w pmlc).(acc_owner) = program_id -> holds pmlc (DPmlc p) w -> p.(pm_status) = PMLC_STATUS_LIVE ->
  p.(pm_collateral_mint) = m -> p.(collateral_per_side) = c -> 0 <= long -> 0 <= short ->
  owner_of_side ctx.(substitutor_pmlc_side) p = s ->
  with_mut k1 (substitutor_side s m ctx delta) w = (Ok u1, w1) ->
  with_mut k2 (counterparty_side m ctx delta) w1 = (Ok u2, w2) ->
  with_mut pmlc (modify (hand_over ctx.(substitutor_pmlc_side) ctx.(new_pmlc_owner) slot)) w2 = (Ok u, w') ->
  tally [posting s m (- c - (if taker then long else short)) 0;
         posting ctx.(new_pmlc_owner) m (- c - (if taker then short else long)) 0] w w'.
Proof.
  intros c long short taker Hf Ho1 Ho2 Ho Hp Hl <- Ec Hbl Hbs <- E1 E2 E3.
  pose proof (margin_checked_owner _ _ _ _ _ _ _ E1 Ho1) as Hm1.
  pose proof (tally_margin G _ _ _ _ _ _ _ _ _ _ Hf Hm1
    (substitutor_moves _ _ ctx delta ltac:(by case_match)) E1) as T1.
  rewrite <- (with_mut_owner _ _ _ _ _ k2 E1) in Ho2.
  pose proof (margin_checked_owner _ _ _ _ _ _ _ E2 Ho2) as Hm2.
  pose proof (tally_margin G _ _ _ _ _ _ _ _ _ _ (ta_fit _ _ _ _ T1) Hm2
    (counterparty_moves _ ctx delta ltac:(by case_match)) E2) as T2.
  pose proof (with_mut_kept _ _ _ _ _ _ _ E2 (with_mut_kept _ _ _ _ _ _ _ E1 Hp ltac:(done)) ltac:(done)) as Hp2.
  rewrite <- (with_mut_owner _ _ _ _ _ pmlc E1), <- (with_mut_owner _ _ _ _ _ pmlc E2) in Ho.
  pose proof (tally_hand_over G _ _ _ _ _ _ _ _ (ta_fit _ _ _ _ T2) Ho Hp2 Hl E3) as T3.
  eapply tally_eq; [exact (tally_trans _ _ _ _ _ _ (tally_trans _ _ _ _ _ _ T1 T2) T3)|].
  rewrite Ec. fold c long short taker. posted.
Qed.

Lemma backed_substitute accounts args b : yields quiet (do_substitute accounts args b).
Proof.
  intros w u w' E Hf. unfold do_substitute, settle_substitution in E. inv_world. owned_facts. terms.
  match goal with
  | Hb : with_mut ?bk (substitute_on_book ?p ?s ?c ?a) w = _, Hp : acc_data (acct w ?k) = inj (T := Pmlc) ?p,
    Hl : require_live ?p = _, Hof : acc_owner (acct w ?bk) = _, Hok : acc_owner (acct w ?k) = _,
    H1 : with_mut ?k1 (substitutor_side _ _ _ _) _ = (_, ?w2),
    H2 : with_mut ?k2 (counterparty_side _ _ _) ?w2 = (_, ?w3), H3 : with_mut ?k _ ?w3 = (_, w') |- _ =>
      rename Hb into Eb, H1 into E1, H2 into E2; apply contract_live in Hl as Hlive;
      pose proof (book_ran G _ _ _ _ _ _ Hf Hof (fun b Hw => substitute_refines b p s c a Hw) Eb)
        as (bb & b' & Hbb & Hw & (Hw' & lf & sf & Hlf & Hsf & Hx & _ & Ectx & Hside & Hsub & Hoff) & Ew);
      pose proof (fit_contract G k p w Hf Hok Hp Hlive) as Hc';
      pose proof (tally_fill G bk _ _ w Hf Hof ltac:(eassumption) _ _ lf sf bb b' Hbb Hw' Hlf Hsf
        (crossing_distinct _ _ _ _ _ _ Hlf Hsf Hx) Hoff) as T1;
      pose proof (book_sized G bk _ _ w Hf Hof ltac:(eassumption) bb Hbb) as Hs;
      rewrite <- Ew in T1;
      pose proof (with_mut_kept _ _ _ _ _ _ _ Eb Hp ltac:(done)) as Hp1;
      eassert (T2 : tally _ _ w')
        by (eapply (tally_sides _ k1 k2 k); [exact (ta_fit _ _ _ _ T1)|..|exact Hside|exact E1|exact E2|exact E];
            [rewrite (with_mut_owner _ _ _ _ _ _ Eb); done | rewrite (with_mut_owner _ _ _ _ _ _ Eb); done
            |rewrite (with_mut_owner _ _ _ _ _ _ Eb); done | exact Hp1 | exact Hlive | congruence
            |subst; cbn; congruence | subst; by eapply sized_released | subst; by eapply sized_released])
  end.
  eapply tally_eq; [exact (tally_trans _ _ _ _ _ _ T1 T2)|]. subst.
  cbn [per_contract_collateral per_contract_fee_buf_long per_contract_fee_buf_short substitutor_is_long new_pmlc_owner].
  match goal with H : _ \/ of_owner sf = ?s |- _ => destruct (Z.eqb_spec lf.(of_owner) s) as [<-|] end;
    [|destruct Hsub as [|<-]; [done|]]; posted.
Qed.

(* ------------------------------------------------------------------ *)
(** ** Matching *)

Lemma quiet_ensure_treasury payer k m : yields quiet (ensure_fee_treasury payer k m).
Proof. unfold ensure_fee_treasury. quiet_tac. Qed.
Lemma quiet_ensure_volume payer k o m now : yields quiet (ensure_user_volume payer k o m now).
Proof. unfold ensure_user_volume. quiet_tac. Qed.
Hint Resolve quiet_ensure_treasury quiet_ensure_volume : yields.
Lemma quiet_charge ctx fc r m c : yields quiet (charge_taker ctx fc r m c).
Proof. unfold charge_taker. quiet_tac. Qed.

(** Each side's reservation becomes collateral, and the contract is there. *)
Lemma tally_open_position ctx r inst id bump fee w u w' :
  let k := r.(n_contracts) * inst.(collateral_bucket) in
  let m := inst.(ic_collateral_mint) in
  all_fit w -> G !! ctx.(instrument_ai).(key) = Some (m, inst.(collateral_bucket)) -> k = inst.(collateral_bucket) ->
  margin_of ctx.(long_margin_ai).(key) r.(long_trader) m w ->
  margin_of ctx.(short_margin_ai).(key) r.(short_trader) m w ->
  0 <= r.(fee_buf_release_long) -> 0 <= r.(fee_buf_release_short) ->
  open_position ctx r inst id bump fee w = (Ok u, w') ->
  tally [posting r.(long_trader) m (- k - r.(fee_buf_release_long)) 0;
         posting r.(short_trader) m (- k - r.(fee_buf_release_short)) 0] w w'.
Proof.
  intros k m Hf Hg Hk Hl Hs Hbl Hbs E. unfold open_position in E. inv_world.
  match goal with
  | H1 : with_mut (key (long_margin_ai ctx)) _ w = _, H2 : with_mut (key (short_margin_ai ctx)) _ _ = _,
    Hc : create_pda _ _ _ _ _ _ = (Ok _, _) |- _ =>
      pose proof (tally_margin G _ _ _ _ _ _ _ _ _ _ Hf Hl (settle_margin_moves _ _ _ _ Hbl) H1) as T1;
      pose proof (tally_margin G _ _ _ _ _ _ _ _ _ _ (ta_fit _ _ _ _ T1) (ta_margin _ _ _ _ T1 _ _ _ Hs)
        (settle_margin_moves _ _ _ _ Hbs) H2) as T2;
      pose proof (quiet_create G _ _ _ _ _ _ _ _ Hc (ta_fit _ _ _ _ T2)) as T3;
      apply invoke_signed_ok_inv, create_fresh in Hc as (_ & _ & Hd & Ho)
  end.
  eapply (tally_open G _ _ _ _ _ (ta_fit _ _ _ _ T3)) in E as T4; [|done|by rewrite Hd|done|done].
  eapply tally_eq; [exact (tally_trans _ _ _ _ _ _ (tally_trans _ _ _ _ _ _ T1 T2) (tally_trans _ _ _ _ _ _ T3 T4))|].
  cbn [long_owner short_owner collateral_per_side pm_collateral_mint new_pmlc].
  fold k m. rewrite <- Hk. posted.
Qed.

Lemma backed_core ctx long short n :
  forall w u w',
    (acct w ctx.(instrument_ai).(key)).(acc_owner) = program_id ->
    (acct w ctx.(book_ai).(key)).(acc_owner) = program_id ->
    (acct w ctx.(long_margin_ai).(key)).(acc_owner) = program_id ->
    (acct w ctx.(short_margin_ai).(key)).(acc_owner) = program_id ->
    match_pair_core ctx long short n w = (Ok u, w') -> quiet w w'.
Proof.
  intros w u w' Hoi Hob Hol Hos E Hf. unfold match_pair_core, settle_match in E. inv_world. terms.
  lazymatch goal with
  | Hm : with_mut ?bk (match_on_book ?i ?p ?c ?l ?s) w = _, Hc : charge_taker _ _ _ _ _ _ = _,
    H1 : acc_data (acct _ (key (long_margin_ai ctx))) = DMargin _,
    H2 : acc_data (acct _ (key (short_margin_ai ctx))) = DMargin _ |- _ =>
      pose proof (book_ran G _ _ _ _ _ _ Hf Hob (fun b Hw => match_refines b i p c l s Hw) Hm)
        as (b & b' & Hb & Hw & (Hw' & lf & sf & Hlf & Hsf & Hx & _ & _ & _ & Er & Hoff) & Ew);
      pose proof (tally_fill G bk _ _ w Hf Hob ltac:(eassumption) _ _ lf sf b b' Hb Hw' Hlf Hsf
        (crossing_distinct _ _ _ _ _ _ Hlf Hsf Hx) Hoff) as T1;
      pose proof (book_sized G bk _ _ w Hf Hob ltac:(eassumption) b Hb) as Hs;
      rewrite <- Ew in T1;
      pose proof (quiet_charge _ _ _ _ _ _ _ _ Hc (ta_fit _ _ _ _ T1)) as T2;
      rewrite <- (with_mut_owner _ _ _ _ _ (key (long_margin_ai ctx)) Hm) in Hol;
      rewrite <- (with_mut_owner _ _ _ _ _ (key (short_margin_ai ctx)) Hm) in Hos;
      eapply (tally_open_position _ _ _ _ _ _ _ _ _ (ta_fit _ _ _ _ T2)) in E as T3;
        [|eassumption|subst; cbn; lia|apply (ta_margin _ _ _ _ T2); by eexists
         |apply (ta_margin _ _ _ _ T2); by eexists|subst; by eapply sized_released|subst; by eapply sized_released]
  end.
  eapply tally_eq; [exact (tally_trans _ _ _ _ _ _ T1 (tally_trans _ _ _ _ _ _ T2 T3))|].
  subst. cbn [long_trader short_trader fee_buf_release_long fee_buf_release_short n_contracts]. posted.
Qed.
Lemma unpacked_owners accounts w ctx w' :
  unpack_accounts accounts w = (Ok ctx, w') -> w' = w /\
  (acct w ctx.(instrument_ai).(key)).(acc_owner) = program_id /\
  (acct w ctx.(book_ai).(key)).(acc_owner) = program_id /\
  (acct w ctx.(long_margin_ai).(key)).(acc_owner) = program_id /\
  (acct w ctx.(short_margin_ai).(key)).(acc_owner) = program_id.
Proof. intros E. unfold unpack_accounts in E. inv_world. owned_facts. done. Qed.
Lemma backed_match_pair accounts args : yields quiet (process_match_pair accounts args).
Proof.
  intros w u w' E. unfold process_match_pair in E. apply bind_ok_inv in E as (ctx & w1 & Hu & E).
  apply unpacked_owners in Hu as (-> & ? & ? & ? & ?). by eapply backed_core.
Qed.
Lemma backed_match_best accounts : yields quiet (process_match_best_available accounts).
Proof.
  intros w u w' E. unfold process_match_best_available in E. apply bind_ok_inv in E as (ctx & w1 & Hu & E).
  apply unpacked_owners in Hu as (-> & ? & ? & ? & ?). inv_world.
  match goal with Hb : with_mut _ _ w = _ |- _ =>
    etrans; [eapply quiet_read; [|exact Hb]|eapply backed_core; [..|exact E];
      by rewrite (with_mut_owner _ _ _ _ _ _ Hb)] end.
  unfold scan_for_first_valid_pair, first_live. respects_tac; apply reads_for_each.
Qed.
End quiet.

(* ------------------------------------------------------------------ *)
(** ** New instruments *)

Section listing.
Context {R : Runtime} {L : RuntimeLaws}.

(** More terms, for accounts that hold nothing yet. *)
Lemma more_terms G G' w :
  all_fit G w -> G ⊆ G' -> (forall k, G !! k = None -> G' !! k <> None -> silent (acct w k).(acc_data)) ->
  all_fit G' w /\
  forall o m, sum_over program_id (reserve_gap G' o m) w = sum_over program_id (reserve_gap G o m) w.
Proof.
  intros Hf Hsub Hnew.
  assert (Hold : forall k, silent (acct w k).(acc_data) \/ G' !! k = G !! k).
  { intros k. destruct (G !! k) as [t|] eqn:E; [right; by eapply terms_weaken|].
    destruct (G' !! k) eqn:E'; [left; apply Hnew; by rewrite ?E'|by right]. }
  split.
  - intros k Ho. specialize (Hf k Ho). destruct (Hold k) as [Hs|E]; [by apply silent_fits|].
    destruct (acct w k).(acc_data); try done; cbn in *.
    + by destruct Hsub as [_ ->].
    + destruct Hf as (H1 & H2 & H3). split_and!; [by eapply terms_weaken..|]. rewrite <- H3.
      by apply (proj1 Hsub k _ H1).
    + by rewrite E.
    + intros Hl. eapply terms_weaken; [by apply Hf|done].
  - intros o m. apply sum_ext; [exact _..|]. intros k. unfold counted. case_match; [|done].
    destruct (Hold k) as [Hs|E]; [by rewrite !silent_reserve|].
    unfold reserve_gap, offered_in, trades_in. by rewrite E.
Qed.

(** What is placed at an address of the program stays there. *)
Definition placed (k : Pubkey) (d : AccountData) (w : World) : Prop :=
  holds k d w /\ (acct w k).(acc_owner) = program_id.
Definition stays (k : Pubkey) (d : AccountData) (w w' : World) : Prop := placed k d w -> placed k d w'.
#[export] Instance stays_preorder k d : PreOrder (stays k d).
Proof. split; unfold stays; repeat intro; auto. Qed.

Lemma stays_set k d k' d' w : k <> k' -> stays k d w (set_data k' d' w).
Proof. intros Hne [Hh Ho]. split; [unfold holds in *; by rewrite acct_set_ne|by rewrite owner_set]. Qed.
Lemma stays_create k d payer new space seeds bump : respects (stays k d) (create_pda payer new space seeds bump).
Proof.
  apply respects_invoke; [exact _|]. intros w w' E [Hh Ho]. destruct (decide (k = new)) as [->|Hne].
  - apply create_fresh in E as (Hs & _). rewrite Ho in Hs. by destruct program_not_system.
  - destruct (create_frame _ _ _ _ _ _ _ _ k E Hne) as [Hd Ho']. split; [unfold holds in *|]; congruence.
Qed.
Lemma stays_init `{AccountType T} k d k' (v : T) :
  (forall bs, d <> DBytes bs) -> respects (stays k d) (init_account k' v).
Proof.
  intros Hd. apply respects_init_account; [exact _|]. intros w bs Hb Hp. apply stays_set; [|done].
  intros ->. destruct Hp as [Hh _]. unfold holds in Hh. rewrite Hb in Hh. by apply (Hd (0 :: bs)).
Qed.
Lemma stays_ensure_nonce k d payer nonce market :
  (forall bs, d <> DBytes bs) -> respects (stays k d) (ensure_market_nonce payer nonce market).
Proof.
  intros Hd. unfold ensure_market_nonce. world_tac; [apply stays_create|by apply stays_init].
Qed.

(** The program's instruments and books are where the terms say. *)
Definition listed (G : Terms) (w : World) : Prop :=
  forall k m c, G !! k = Some (m, c) -> 0 < c /\ exists d, placed k d w /\
    match d with DInstrument _ | DBook _ => True | _ => False end.

Lemma listed_fresh G w w' payer new space seeds bump u :
  listed G w -> create_pda payer new space seeds bump w = (Ok u, w') -> G !! new = None.
Proof.
  intros Hl E. apply invoke_signed_ok_inv, create_fresh in E as (Hs & _).
  destruct (G !! new) as [[m c]|] eqn:Eg; [|done]. destruct (Hl new m c Eg) as (_ & d & [_ Ho] & _).
  rewrite Ho in Hs. by destruct program_not_system.
Qed.

Lemma listed_create G w w' payer new space seeds bump u :
  listed G w -> create_pda payer new space seeds bump w = (Ok u, w') -> listed G w'.
Proof.
  intros Hl E k m c Hk. destruct (Hl k m c Hk) as (Hc & d & Hp & Hd). split; [done|]. exists d.
  split; [|done]. by eapply (stays_create k d).
Qed.
Lemma require_admin_reads config admin_key : respects eq (require_admin config admin_key).
Proof. unfold require_admin. world_tac. Qed.
Lemma reads_check_registry t l b : respects eq (check_bucket_registry t l b).
Proof. unfold check_bucket_registry. world_tac. Qed.

(** An instrument and its empty book, on their own terms. *)
Lemma quiet_new_instrument G k i w u w' :
  G !! k = Some (i.(ic_collateral_mint), i.(collateral_bucket)) ->
  G !! i.(intent_book) = Some (i.(ic_collateral_mint), i.(collateral_bucket)) ->
  G.(tm_bounty) k = i.(liquidation_bounty_bps) ->
  silent (acct w k).(acc_data) -> init_instrument k i w = (Ok u, w') ->
  quiet G w w' /\ w' = set_data k (DInstrument i) w.
Proof.
  intros Hk Hb Hy Hs E. unfold init_instrument in E. inv_world. split; [|done]. apply quiet_set.
  - intros _. by split_and!.
  - by apply silent_purse.
  - intros o m. by rewrite (silent_reserve G o m k (acct w k).(acc_data)).
  - intros o m. by rewrite (silent_lock o m k (acct w k).(acc_data)).
Qed.
Lemma quiet_new_book G k inst cap bump w u w' :
  1 <= cap <= U32_MAX -> silent (acct w k).(acc_data) -> init_book k inst cap bump w = (Ok u, w') ->
  quiet G w w' /\ exists b, w' = set_data k (DBook b) w.
Proof.
  intros Hcap Hs E. unfold init_book in E. inv_world.
  match goal with H : init_intent_book _ _ _ _ _ = _ |- _ => apply (init_whole _ _ _ _ _ _ Hcap) in H as [Hw Ho] end.
  split; [|by eexists]. apply quiet_set.
  - intros _. split; [done|]. intros m c _. rewrite Ho. apply map_Forall_empty.
  - by apply silent_purse.
  - intros o m. rewrite (silent_reserve G o m k (acct w k).(acc_data)) by done.
    unfold reserve_gap. cbn. rewrite Ho. by case_match.
  - intros o m. by rewrite (silent_lock o m k (acct w k).(acc_data)).
Qed.

Definition add_listing (k : Pubkey) (i : InstrumentConfig) (G : Terms) : Terms :=
  let t := (i.(ic_collateral_mint), i.(collateral_bucket)) in
  {| tm_trades := <[k := t]> (<[i.(intent_book) := t]> G.(tm_trades));
     tm_bounty k' := if decide (k' = k \/ k' = i.(intent_book)) then i.(liquidation_bounty_bps)
                     else G.(tm_bounty) k';
     tm_margin := G.(tm_margin) |}.

Section add.
Context (G : Terms) (k : Pubkey) (i : InstrumentConfig).
Context (Hk : G !! k = None) (Hbk : G !! i.(intent_book) = None) (Hne : k <> i.(intent_book)).

Lemma lookup_listing k' : add_listing k i G !! k' =
  if decide (k' = k \/ k' = i.(intent_book)) then Some (i.(ic_collateral_mint), i.(collateral_bucket))
  else G !! k'.
Proof.
  clear Hk Hbk Hne. unfold add_listing, lookup, terms_lookup. cbn. case_decide as Hd.
  - destruct (decide (k' = k)) as [->|Hk']; [by rewrite lookup_insert_eq|].
    destruct Hd as [?| ->]; [done|]. by rewrite lookup_insert_ne, lookup_insert_eq.
  - rewrite !lookup_insert_ne; [done|intros <-; tauto..].
Qed.
Lemma add_listing_old : G ⊆ add_listing k i G.
Proof.
  split; [|done]. intros k' t Hk'. change (G !! k' = Some t) in Hk'. split.
  - change (add_listing k i G !! k' = Some t). rewrite lookup_listing. case_decide as Hd; [|done].
    destruct Hd as [->| ->]; [by rewrite Hk in Hk'|by rewrite Hbk in Hk'].
  - cbn. case_decide as Hd; [|done]. destruct Hd as [->| ->]; [by rewrite Hk in Hk'|by rewrite Hbk in Hk'].
Qed.
Lemma add_listing_new : forall k', G !! k' = None -> add_listing k i G !! k' <> None ->
  k' = k \/ k' = i.(intent_book).
Proof. clear Hk Hbk Hne. intros k' Hn. rewrite lookup_listing. by case_decide. Qed.
Lemma add_listing_instrument : add_listing k i G !! k = Some (i.(ic_collateral_mint), i.(collateral_bucket)).
Proof. clear Hk Hbk Hne. rewrite lookup_listing. case_decide; [done|tauto]. Qed.
Lemma add_listing_book :
  add_listing k i G !! i.(intent_book) = Some (i.(ic_collateral_mint), i.(collateral_bucket)).
Proof. clear Hk Hbk Hne. rewrite lookup_listing. case_decide; [done|tauto]. Qed.
Lemma add_listing_bounty : (add_listing k i G).(tm_bounty) k = i.(liquidation_bounty_bps).
Proof. clear Hk Hbk Hne. cbn. case_decide; [done|tauto]. Qed.

(** The two fresh accounts filled. *)
Lemma listing_filled inst cap bump payer nonce market w w1 w2 w' u1 u2 u :
  let G' := add_listing k i G in
  silent (acct w k).(acc_data) -> (acct w k).(acc_owner) = program_id ->
  silent (acct w i.(intent_book)).(acc_data) -> (acct w i.(intent_book)).(acc_owner) = program_id ->
  0 < i.(collateral_bucket) -> 1 <= cap <= U32_MAX ->
  init_instrument k i w = (Ok u1, w1) -> init_book i.(intent_book) inst cap bump w1 = (Ok u2, w2) ->
  ensure_market_nonce payer nonce market w2 = (Ok u, w') ->
  quiet G' w w' /\
  forall k' m c, G' !! k' = Some (m, c) -> G !! k' = None -> 0 < c /\ exists d, placed k' d w' /\
    match d with DInstrument _ | DBook _ => True | _ => False end.
Proof.
  intros G' Hs Ho Hs' Ho' Hc Hcap E1 E2 E3.
  destruct (quiet_new_instrument G' k i w u1 w1) as (Q1 & ->);
    [apply add_listing_instrument|apply add_listing_book|apply add_listing_bounty|done|done|].
  pose proof (quiet_new_book G' i.(intent_book) _ _ _ (set_data k (DInstrument i) w) _ _ Hcap
    ltac:(by rewrite acct_set_ne) E2) as (Q2 & b & ->).
  assert (Q3 : yields (quiet G') (ensure_market_nonce payer nonce market)).
  { unfold ensure_market_nonce. quiet_tac. }
  split; [etrans; [exact Q1|]; etrans; [exact Q2|]; by eapply Q3|].
  assert (Hkeep : forall k' d, (forall bs, d <> DBytes bs) ->
    placed k' d (set_data i.(intent_book) (DBook b) (set_data k (DInstrument i) w)) -> placed k' d w').
  { intros k' d Hd Hp. by eapply (stays_ensure_nonce k' d payer nonce market). }
  intros k' m c Hg Hn.
  assert (Hb : c = i.(collateral_bucket)).
  { destruct (add_listing_new k' Hn) as [->| ->]; [unfold G' in Hg; by rewrite Hg|..].
    - unfold G' in Hg. rewrite add_listing_instrument in Hg. by injection Hg.
    - unfold G' in Hg. rewrite add_listing_book in Hg. by injection Hg. }
  split; [by rewrite Hb|].
  destruct (add_listing_new k' Hn) as [->| ->]; [unfold G' in Hg; by rewrite Hg|..].
  - exists (DInstrument i). split; [|done]. apply Hkeep; [done|]. split; [|by rewrite !owner_set].
    unfold holds. by rewrite acct_set_ne, acct_set_eq.
  - exists (DBook b). split; [|done]. apply Hkeep; [done|]. split; [|by rewrite !owner_set].
    unfold holds. by rewrite acct_set_eq.
Qed.
End add.

Lemma listed_instrument G accounts args w u w' :
  listed G w -> args.(ci_initial_book_capacity) <= U32_MAX -> 0 <= args.(ci_collateral_bucket) ->
  process_create_instrument accounts args w = (Ok u, w') ->
  exists G' w1, (exists k mint book bump, G' = add_listing k (new_instrument args mint book bump) G) /\
    G ⊆ G' /\ quiet G w w1 /\
    (forall k, G !! k = None -> G' !! k <> None -> silent (acct w1 k).(acc_data)) /\
    quiet G' w1 w' /\
    forall k m c, G' !! k = Some (m, c) -> G !! k = None -> 0 < c /\ exists d, placed k d w' /\
      match d with DInstrument _ | DBook _ => True | _ => False end.
Proof.
  intros Hl Hcap Hb E. unfold process_create_instrument in E. inv_world.
  lazymatch goal with
  | Ha : require_admin _ _ w = (_, ?w1), Hr : check_bucket_registry _ _ _ ?w1 = (_, ?w2),
    C1 : create_pda _ ?k _ _ _ ?w2 = (_, ?w3), C2 : create_pda _ ?bk _ _ _ ?w3 = (_, ?w4),
    I1 : init_instrument ?k ?i ?w4 = (_, ?w5), I2 : init_book ?bk _ _ _ ?w5 = (_, ?w6) |- _ =>
      apply require_admin_reads in Ha as <-; apply reads_check_registry in Hr as <-;
      pose proof (listed_fresh G _ _ _ _ _ _ _ _ Hl C1) as Hk;
      pose proof (listed_fresh G _ _ _ _ _ _ _ _ (listed_create G _ _ _ _ _ _ _ _ Hl C1) C2) as Hbk;
      pose proof (quiet_create G _ _ _ _ _ _ _ _ C1) as Q1; pose proof (quiet_create G _ _ _ _ _ _ _ _ C2) as Q2;
      apply invoke_signed_ok_inv in C1, C2;
      pose proof (create_fresh _ _ _ _ _ _ _ _ C1) as (_ & _ & Hd1 & Ho1);
      pose proof (create_fresh _ _ _ _ _ _ _ _ C2) as (Hs2 & _ & Hd2 & Ho2);
      assert (Hne : k <> bk) by (intros E'; rewrite <- E', Ho1 in Hs2; by destruct program_not_system);
      destruct (create_frame _ _ _ _ _ _ _ _ k C2 Hne) as [Hd1' Ho1'];
      rewrite Hd1 in Hd1'; rewrite Ho1 in Ho1'; exists (add_listing k i G), w4;
      destruct (listing_filled G k i Hne _ args.(ci_initial_book_capacity) _ _ _ _ w4 w5 w6 _ _ _ _
        ltac:(by rewrite Hd1') Ho1' ltac:(cbn [intent_book new_instrument]; by rewrite Hd2) Ho2 ltac:(cbn; lia) ltac:(split; [lia|exact Hcap]) I1 I2 E)
        as [Q3 Hnew];
      split_and!; [by do 4 eexists|by apply add_listing_old|by etrans| |exact Q3|exact Hnew];
      intros k' Hn Hs; destruct (add_listing_new G k i k' Hn Hs) as [->| ->]; [by rewrite Hd1'|cbn; by rewrite Hd2]
  end.
Qed.
End listing.

(* ------------------------------------------------------------------ *)
(** ** Every instruction *)

Create HintDb backed discriminated.
#[export] Hint Constants Opaque : backed.
#[export] Hint Resolve quiet_init_config quiet_set_pause quiet_init_multisig quiet_rotate quiet_propose
  quiet_execute quiet_cancel_timelock quiet_init_buckets quiet_set_buckets quiet_init_stables
  quiet_add_mint quiet_remove_mint quiet_init_schedule quiet_set_schedule quiet_set_status quiet_revoke
  quiet_create_session quiet_create_margin quiet_deposit quiet_withdraw quiet_sweep quiet_wrap
  quiet_unwrap quiet_close backed_cancel backed_cancel_delegated backed_claim backed_prune
  backed_resolve backed_close_mutual backed_liquidate backed_novate backed_substitute
  backed_match_pair backed_match_best : backed.

Section instructions.
Context {R : Runtime} {L : RuntimeLaws} {B : Borsh}.

Lemma quiet_instruction G t accounts payload w w' :
  derives G -> (forall k m c, G !! k = Some (m, c) -> 0 < c) ->
  t <> TExpandIntentBook -> t <> TCreateInstrument -> inline_match (tag_byte t :: payload) = false ->
  run_instruction t accounts payload w = (Ok tt, w') -> quiet G w w'.
Proof.
  intros HD Hpos H1 H2 Hi E. unfold inline_match in Hi. rewrite tag_try_from_byte in Hi.
  destruct t; try done; cbn [run_instruction] in E;
    unfold process_match_substitute, process_match_substitute_with_settle in E;
    repeat match goal with
    | H : decode _ _ _ = (Ok _, _) |- _ => apply decode_ok_inv in H as [? ->]
    | H : (_ ≫= _) _ = (Ok _, _) |- _ => apply bind_ok_inv in H as (? & ? & ? & ?)
    | H : (let '(_, _) := ?p in _) _ = _ |- _ => destruct p
    end;
    lazymatch goal with
    | H : process_post_intent _ _ _ = _, Hd : de_post_intent _ = _ |- _ =>
        rewrite Hd in Hi; apply negb_false_iff, Z.eqb_eq in Hi; by eapply backed_post
    | H : process_post_intent_delegated _ _ _ = _, Hd : de_post_intent _ = _ |- _ =>
        rewrite Hd in Hi; apply negb_false_iff, Z.eqb_eq in Hi; by eapply backed_post_delegated
    | H : (match ?p with _ => _ end) _ = _ |- _ =>
        destruct p as [|? [|? ?]]; try done; by eapply quiet_set_pause
    | H : ?m ?w = (Ok _, w') |- _ =>
        assert (Hy : yields (quiet G) m) by eauto with nocore backed; exact (Hy _ _ _ H)
    end.
Qed.
End instructions.

(* ------------------------------------------------------------------ *)
(** ** Histories *)

Section transactions.
Context {R : Runtime} {L : RuntimeLaws} {B : Borsh} {W : BorshWidths}.

Lemma reserve_sides G o m w :
  sum_over program_id (reserve_gap G o m) w = reserved_of program_id o m w - offered_by program_id G o m w.
Proof. apply sum_sub. Qed.
Lemma lock_sides o m w :
  sum_over program_id (lock_gap o m) w = locked_of program_id o m w - staked_by program_id o m w.
Proof. apply sum_sub. Qed.

Lemma backed_listed G w : backed program_id G w -> listed G w.
Proof.
  intros [_ Ht _ _] k m c Hk. destruct (Ht k m c Hk) as (Hc & Ho & Hd). split; [done|].
  exists (acct w k).(acc_data). by split.
Qed.
(** What the accounts hold, that they are where the terms say, and that nothing was posted. *)
Lemma backed_of G w :
  all_fit G w -> listed G w ->
  (forall o m, sum_over program_id (reserve_gap G o m) w = 0) ->
  (forall o m, sum_over program_id (lock_gap o m) w = 0) -> backed program_id G w.
Proof.
  intros Hf Hl Hr Hk. split.
  - exact Hf.
  - intros k m c Hg. destruct (Hl k m c Hg) as (Hc & d & [Hh Ho] & Hd). unfold holds in Hh. by rewrite Hh.
  - intros o m. specialize (Hr o m). rewrite reserve_sides in Hr. lia.
  - intros o m. specialize (Hk o m). rewrite lock_sides in Hk. lia.
Qed.
Lemma backed_gaps G w o m : backed program_id G w ->
  sum_over program_id (reserve_gap G o m) w = 0 /\ sum_over program_id (lock_gap o m) w = 0.
Proof. intros [_ _ Hr Hk]. rewrite reserve_sides, lock_sides, Hr, Hk. lia. Qed.

Lemma listed_transaction G accounts data w : listed G w -> listed G (transaction accounts data w).
Proof.
  intros Hl k m c Hg. destruct (Hl k m c Hg) as (Hc & d & [Hh Ho] & Hd). split; [done|].
  destruct (transaction_keeps accounts data w k d Hh Ho) as (Ho' & sc & Hs & _); [by destruct d|].
  exists (acct (transaction accounts data w) k).(acc_data). split; [by split|].
  destruct d; try done; [destruct Hs as (? & -> & _)|destruct Hs as (? & ->)]; done.
Qed.

(** Terms on which the pot of a contract fits a [u64] and the bounty is at most the pot, and
    the creation of an instrument on such terms. *)
Definition sound_terms (G : Terms) : Prop :=
  forall k m c, G !! k = Some (m, c) -> 2 * c <= U64_MAX /\ 0 <= G.(tm_bounty) k <= 20000.
Definition sound_create (data : list Z) : Prop :=
  match data with
  | [] => True
  | b :: payload =>
      match tag_try_from b, de_create_instrument payload with
      | Ok TCreateInstrument, Some args =>
          2 * args.(ci_collateral_bucket) <= U64_MAX /\ 0 <= args.(ci_liquidation_bounty_bps) <= 20000
      | _, _ => True
      end
  end.

Lemma sound_listing G k args mint book bump :
  sound_terms G -> 2 * args.(ci_collateral_bucket) <= U64_MAX ->
  0 <= args.(ci_liquidation_bounty_bps) <= 20000 ->
  sound_terms (add_listing k (new_instrument args mint book bump) G).
Proof.
  intros Hs Hc Hy k' m c Hk. rewrite lookup_listing in Hk. cbn [tm_bounty add_listing].
  case_decide; [|by eapply Hs]. by injection Hk as <- <-.
Qed.

Lemma transaction_backed G accounts data w :
  derives G -> backed program_id G w -> (forall payload, data <> tag_byte TExpandIntentBook :: payload) ->
  inline_match data = false ->
  exists G', G ⊆ G' /\ backed program_id G' (transaction accounts data w) /\
    (sound_terms G -> sound_create data -> sound_terms G').
Proof.
  intros HD Hb Hne Hi. pose proof (backed_listed _ _ Hb) as Hl.
  pose proof (listed_transaction G accounts data w Hl) as Hl'.
  unfold transaction in *. destruct (process accounts data w) as [[[]|e| |] w'] eqn:E; try by exists G.
  unfold process in E. destruct data as [|b payload]; [done|].
  apply bind_ok_inv in E as (t & w0 & Ht & E). apply lift_ok_inv in Ht as [Ht%tag_try_from_ok ->].
  subst b. pose proof Hb as [Hf _ _ _].
  destruct (decide (t = TCreateInstrument)) as [->|Hti].
  - cbn [run_instruction] in E. apply bind_ok_inv in E as (args & w1 & Hd & E).
    apply decode_ok_inv in Hd as [Hd ->].
    destruct (listed_instrument G _ _ _ _ _ Hl (capacity_width _ _ Hd) (bucket_width _ _ Hd) E)
      as (G' & w1 & (k0 & mint & book & bump & EG) & Hsub & Q1 & Hs & Q2 & Hnew).
    exists G'. split; [done|]. split; cycle 1.
    { intros Hsd Hcr. unfold sound_create in Hcr. rewrite tag_try_from_byte, Hd in Hcr. subst G'.
      destruct Hcr; by apply sound_listing. }
    specialize (Q1 Hf).
    destruct (more_terms G G' w1 (ta_fit _ _ _ _ Q1) Hsub Hs) as [Hf1 Hsum]. specialize (Q2 Hf1).
    apply backed_of; [exact (ta_fit _ _ _ _ Q2)|..].
    + intros k m c Hg. destruct (G !! k) as [[m' c']|] eqn:Eg; [|by apply (Hnew k m c)].
      pose proof (terms_weaken _ _ _ _ Eg Hsub) as Hg'. rewrite Hg in Hg'. injection Hg' as <- <-.
      by apply (Hl' k m c).
    + intros o m. rewrite (ta_reserve _ _ _ _ Q2), Hsum, (ta_reserve _ _ _ _ Q1).
      destruct (backed_gaps G w o m Hb) as [-> _]. done.
    + intros o m. rewrite (ta_lock _ _ _ _ Q2), (ta_lock _ _ _ _ Q1).
      destruct (backed_gaps G w o m Hb) as [_ ->]. done.
  - assert (Hte : t <> TExpandIntentBook) by (intros ->; by apply (Hne payload)).
    assert (Q : quiet G w w').
    { eapply quiet_instruction; [exact HD| |exact Hte|exact Hti|exact Hi|exact E].
      intros k m c Hg. by destruct (Hl k m c Hg). }
    specialize (Q Hf). exists G. split; [done|]. split; [|done].
    apply backed_of; [exact (ta_fit _ _ _ _ Q)|exact Hl'|..]; intros o m.
    + rewrite (ta_reserve _ _ _ _ Q). destruct (backed_gaps G w o m Hb) as [-> _]. done.
    + rewrite (ta_lock _ _ _ _ Q). destruct (backed_gaps G w o m Hb) as [_ ->]. done.
Qed.
End transactions.

(** A transaction of any instruction but [ExpandIntentBook], and of any post but one that
    asks for an inline match, where margin accounts are derived by [D]. *)
Definition plain_step (pid : Pubkey) (D : Pubkey -> Pubkey -> Pubkey * Z) (w w' : World) : Prop :=
  exists (R : Runtime) (_ : RuntimeLaws) (B : Borsh) (_ : BorshWidths) accounts data,
    program_id = pid /\ (forall o m, find_program_address [SEED_MARGIN; key_seed o; key_seed m] = D o m) /\
    (forall payload, data <> tag_byte TExpandIntentBook :: payload) /\
    inline_match data = false /\ w' = transaction accounts data w.

Definition no_terms (D : Pubkey -> Pubkey -> Pubkey * Z) : Terms := {| tm_trades := ∅; tm_bounty _ := 0; tm_margin := D |}.

Lemma empty_backed pid D : backed pid (no_terms D) ∅.
Proof. by split. Qed.
Lemma history_backed pid G w w' : rtc (plain_step pid G.(tm_margin)) w w' -> backed pid G w ->
  exists G', G ⊆ G' /\ backed pid G' w'.
Proof.
  intros Hh. revert G Hh. intros G Hh. remember G.(tm_margin) as D eqn:ED. revert G ED.
  induction Hh as [w|w w1 w2 (R & L & B & W & accounts & data & <- & HD & He & Hi & ->) Hh IH];
    intros G -> Hb; [by exists G|].
  destruct (transaction_backed G accounts data w HD Hb He Hi) as (G1 & Hs1 & Hb1 & _).
  destruct (IH G1 ltac:(by destruct Hs1) Hb1) as (G2 & Hs2 & Hb2). exists G2. split; [by etrans|done].
Qed.

(** C3: every reserved atom is held by an offer and every locked atom by a live contract. In
    every world reached from a backed one (the empty world is) by any history of
    transactions other than [ExpandIntentBook] and posts with an inline match, whatever
    accounts, data, clocks and attestations they carry: for every trader and mint, the
    reserved balances equal what the trader's offers on the books of that mint hold, fee
    buffers included, and the locked balances equal the trader's collateral in the live
    contracts of that mint; every offer reserves one bucket for each contract it has left,
    and every margin account is at the one address derived for its owner and mint.
    So posts, fills, cancels, prunings, re-entries, matches, liquidations, resolutions,
    closes, novations and substitutions never leave a balance behind, nor pay out of
    another's. *)
Theorem balances_stay_backed pid G w w' :
  backed pid (no_terms G.(tm_margin)) ∅ /\
  (rtc (plain_step pid G.(tm_margin)) w w' -> backed pid G w -> exists G', G ⊆ G' /\ backed pid G' w').
Proof. split; [apply empty_backed|apply history_backed]. Qed.

(* ------------------------------------------------------------------ *)
(** ** On the demo world *)

Definition demo_terms : Terms := {|
  tm_trades := <[INSTRUMENT := (USD, 1000000)]> {[BOOK := (USD, 1000000)]};
  tm_bounty _ := 100;
  tm_margin o m := find_program_address (Runtime := demo 100 1700100000 []) [SEED_MARGIN; key_seed o; key_seed m];
|}.

Definition demo_traders : list Pubkey := [ALICE; BOB; CAROL].

(** Accounts of other traders, or in other mints. *)
Section apart.
Context (G : Terms) (o m k : Pubkey).
Lemma margin_apart a : a.(ma_owner) <> o \/ a.(ma_collateral_mint) <> m ->
  reserve_gap G o m k (DMargin a) = 0 /\ lock_gap o m k (DMargin a) = 0.
Proof.
  intros H. unfold reserve_gap, lock_gap. cbn.
  destruct (Z.eqb_spec a.(ma_owner) o), (Z.eqb_spec a.(ma_collateral_mint) m); try done. naive_solver.
Qed.
Lemma contract_apart p : (p.(long_owner) <> o /\ p.(short_owner) <> o) \/ p.(pm_collateral_mint) <> m ->
  reserve_gap G o m k (DPmlc p) = 0 /\ lock_gap o m k (DPmlc p) = 0.
Proof.
  intros H. unfold reserve_gap, lock_gap, staked_in, stake. cbn. split; [done|].
  destruct (Z.eqb_spec p.(pm_collateral_mint) m), (Z.eqb_spec p.(long_owner) o),
    (Z.eqb_spec p.(short_owner) o); rewrite ?andb_false_r; try done; try (case_match; done); naive_solver.
Qed.
Lemma book_apart b : map_Forall (fun _ f => f.(of_owner) <> o) (offers b) \/ trades_in G k m = false ->
  reserve_gap G o m k (DBook b) = 0 /\ lock_gap o m k (DBook b) = 0.
Proof.
  intros H. unfold reserve_gap. cbn. split; [|done].
  destruct H as [H| ->]; [rewrite held_for_absent by done; by case_match|done].
Qed.
End apart.

(** Nobody else is on either side of the account. *)
Lemma demo_offers : map_Forall (fun _ f => f.(of_owner) ∈ demo_traders) (offers demo_book).
Proof. apply (bool_decide_unpack _). vm_compute. exact I. Qed.
Lemma demo_strangers o m k : (o ∉ demo_traders \/ m <> USD) ->
  counted PID (reserve_gap demo_terms o m) k (acct demo_world k) = 0 /\
  counted PID (lock_gap o m) k (acct demo_world k) = 0.
Proof.
  intros Ho. revert k. apply (world_forall (fun k a =>
    counted PID (reserve_gap demo_terms o m) k a = 0 /\ counted PID (lock_gap o m) k a = 0)).
  { intros k. by rewrite !counted_none. }
  assert (Ht : forall o', o' ∈ demo_traders -> o' <> o \/ USD <> m).
  { intros o' Ho'. destruct Ho as [Ho|Ho]; [left; by intros <-|by right]. }
  assert (Ha := Ht ALICE ltac:(by left)). assert (Hb := Ht BOB ltac:(by right; left)).
  assert (Hc := Ht CAROL ltac:(by right; right; left)).
  repeat (apply Forall_cons; split); try apply Forall_nil; try (split; reflexivity);
    cbn [fst snd]; unfold counted, program_account; cbn [acc_owner acc_data]; rewrite !Z.eqb_refl;
    first [ apply book_apart | by apply margin_apart | apply contract_apart; cbn; naive_solver ].
  destruct Ho as [Ho|Ho]; [left|right].
  - eapply map_Forall_impl; [exact demo_offers|]. by intros id f Hf <-.
  - change (trades_in demo_terms BOOK m) with (USD =? m). by apply Z.eqb_neq.
Qed.

Lemma demo_gaps o m :
  sum_over PID (reserve_gap demo_terms o m) demo_world = 0 /\ sum_over PID (lock_gap o m) demo_world = 0.
Proof.
  destruct (decide (o ∈ demo_traders /\ m = USD)) as [[Ho ->]|Hn].
  - unfold demo_traders in Ho. rewrite !elem_of_cons in Ho.
    destruct Ho as [->|[->|[->|[]%elem_of_nil]]]; vm_compute; by split.
  - assert (Ho : o ∉ demo_traders \/ m <> USD).
    { destruct (decide (o ∈ demo_traders)); [right; naive_solver|by left]. }
    split; apply sum_zero; try exact _; intros k; apply (demo_strangers o m k Ho).
Qed.

Lemma demo_backed : backed PID demo_terms demo_world.
Proof.
  apply (backed_of (R := demo 100 1700100000 [])).
  - intros k. apply (world_forall (fun k a => acc_owner a = PID -> fits demo_terms k a.(acc_data))); [done|].
    repeat (apply Forall_cons; split); try apply Forall_nil; try done; intros _.
    split; [exact demo_book_whole|]. intros m c [= <- <-].
    apply (bool_decide_unpack _). vm_compute. exact I.
  - intros k m c Hk.
    unfold lookup, terms_lookup in Hk. cbn in Hk.
    apply lookup_insert_Some in Hk as [[<- [= <- <-]]|[_ Hk]]; [|apply lookup_singleton_Some in Hk as [<- [= <- <-]]];
      (split; [done|]); [exists (DInstrument demo_instrument)|exists (DBook demo_book)]; by repeat split.
  - intros o m. exact (proj1 (demo_gaps o m)).
  - intros o m. exact (proj2 (demo_gaps o m)).
Qed.

Lemma demo_plain_step ixs accounts t payload w :
  t <> TExpandIntentBook -> inline_match (B := demo_borsh) (tag_byte t :: payload) = false ->
  plain_step PID demo_terms.(tm_margin) w (demo_tx 1700100000 ixs accounts t payload w).
Proof.
  intros Ht Hi. exists (demo 100 1700100000 ixs), (demo_laws 100 1700100000 ixs), demo_borsh, demo_widths.
  exists accounts, (tag_byte t :: payload). split_and!; [done|done| |done|done].
  intros payload' [= E _]. by destruct t.
Qed.

Lemma balances_stay_backed_witness :
  exists G', demo_terms ⊆ G' /\ backed PID G' (demo_liquidate demo_world).
Proof.
  apply (balances_stay_backed PID demo_terms demo_world); [|exact demo_backed].
  by apply rtc_once, demo_plain_step.
Defined.
