(* ===== verification/Reentry.v ===== *)
(** * Re-entry

    What [ClaimReentry] makes of a right to re-enter: the greatest number of contracts the
    owner's free balance pays for, posted at the price the contract recorded, once. *)
From S2P Require Import Prelude Fixed IntentBook Ledger Governance Attestation World Demo Footprint Totals Solvency MatchIx Intent Settlement Lifecycle BookInvariant BookShape OrderBook Dispatch DemoWorld Market BookHistory Conservation Balances Effects Trades Backing Backed.

(* ------------------------------------------------------------------ *)
(** ** The size of the new offer *)

(** The collateral and the fee buffer of [n] contracts fit the free balance. *)
Definition affords (bucket bps free n : Z) : Prop :=
  n * bucket + n * bucket * bps / 10000 <= free.
(** [n] is the greatest number, of at most [u16] contracts, that does; 0 when none does. *)
Definition greatest_affordable (bucket bps free n : Z) : Prop :=
  0 <= n <= U16_MAX /\ (n <> 0 -> affords bucket bps free n) /\
  forall j, n < j <= U16_MAX -> ~ affords bucket bps free j.

Section size.
Context {R : Runtime} (bucket bps free : Z).

Lemma affordable_greatest n k w w' : affordable n bucket bps free w = (Ok k, w') ->
  (k <= n)%nat /\ (k <> 0%nat -> affords bucket bps free (Z.of_nat k)) /\
  forall j, Z.of_nat k < j <= Z.of_nat n -> ~ affords bucket bps free j.
Proof.
  induction n as [|n IH]; intros E; cbn [affordable] in E.
  { injection E as <-. split_and!; [lia|done|lia]. }
  inv_world. checked_facts.
  match goal with H : (if ?s <=? free then _ else _) _ = _ |- _ => destruct (Z.leb_spec s free); rename H into E end.
  - injection E as <-. split_and!; [lia| |lia]. intros _. unfold affords.
    match goal with H : fee_buffer_for _ _ _ = _ |- _ => apply fee_buffer_exact in H as [-> _] end. lia.
  - destruct (IH E) as (Hk & Ha & Hno). split_and!; [lia|done|]. intros j Hj.
    destruct (decide (j = Z.of_nat (S n))) as [->|]; [|apply Hno; lia].
    unfold affords.
    match goal with H : fee_buffer_for _ _ _ = _ |- _ => apply fee_buffer_exact in H as [-> _] end. lia.
Qed.

(** Beyond the quotient of the free balance nothing is affordable. *)
Lemma quotient_bounds j : 0 < bucket -> 0 <= free -> 0 <= bps -> free / bucket < j ->
  ~ affords bucket bps free j.
Proof.
  unfold affords. intros Hb Hf Hbps Hj Hle. pose proof (Z.mul_succ_div_gt free bucket Hb).
  pose proof (Z.div_pos free bucket Hf Hb).
  assert (0 <= j * bucket * bps / 10000) 
    by (apply Z.div_pos; [repeat apply Z.mul_nonneg_nonneg; lia|lia]). nia.
Qed.
End size.

Lemma reentry_size_greatest {R : Runtime} bucket free bk b w size w' :
  let bps := b.(header).(cached_max_fee_bps) in
  0 < bucket -> 0 <= free -> 0 <= bps -> holds bk (DBook b) w ->
  reentry_size free bucket bk w = (Ok size, w') ->
  match size with
  | None => greatest_affordable bucket bps free 0
  | Some (n, reserve, fee, total) =>
      n <> 0 /\ greatest_affordable bucket bps free n /\ fee = n * bucket * bps / 10000
  end.
Proof.
  cbv zeta. intros Hb Hf Hbps Hbk E. unfold reentry_size in E. inv_world.
  match goal with H : checked_div_u _ _ = Some _ |- _ =>
    unfold checked_div_u in H; rewrite (proj2 (Z.eqb_neq bucket 0)) in H by lia; injection H as <- end.
  assert (Hq : 0 <= free / bucket) by (by apply Z.div_pos).
  destruct (Z.eqb_spec (free / bucket) 0) as [H0|H0].
  { injection E as <- _. split_and!; [mlia..|done|]. intros j Hj. apply quotient_bounds; lia. }
  inv_world. unfold holds in Hbk. match goal with H : acc_data _ = inj (T := Book) _ |- _ =>
    rewrite Hbk in H; injection H as <- end. checked_facts.
  set (bps := b.(header).(cached_max_fee_bps)) in *.
  assert (Hbig : forall j, Z.min (free / bucket) U16_MAX < j <= U16_MAX -> ~ affords bucket bps free j)
    by (intros j Hj; apply quotient_bounds; lia).
  case_match eqn:Et.
  - apply bind_ok_inv in E as (k & w1 & Ha & E). apply affordable_greatest in Ha as (Hk & Hk' & Hno).
    rewrite Z2Nat.id in Hno by mlia.
    assert (Hg : greatest_affordable bucket bps free (Z.of_nat k)).
    { split_and!; [lia|mlia|intros Hn; apply Hk'; lia|]. intros j Hj.
      destruct (Z.le_gt_cases j (Z.min (free / bucket) U16_MAX)); [apply Hno|apply Hbig]; lia. }
    destruct (Nat.eqb_spec k 0) as [->|Hk0]; [by injection E as <- _|].
    unfold reservation in E. inv_world.
    match goal with H : fee_buffer_for _ _ _ = _ |- _ => apply fee_buffer_exact in H as [-> _] end.
    split_and!; [lia|done|done].
  - injection E as <- _. apply Z.ltb_ge in Et.
    match goal with H : fee_buffer_for _ _ _ = _ |- _ => apply fee_buffer_exact in H as [-> _] end.
    split_and!; [mlia|split_and!; [mlia..| |done]|done]. intros _. unfold affords. lia.
Qed.

(* ------------------------------------------------------------------ *)
(** ** The instruction *)

Section reentry.
Context {R : Runtime} {L : RuntimeLaws}.

(** The bit of [pm_flags] that is a side's right to re-enter. *)
Definition right_bit (side : Z) : Z := if side =? SIDE_LONG then 0 else 1.
(** The right is used up: its bit was set and is not any more; every other flag, the owners, the
    status and the terms stay. *)
Definition right_used (side : Z) (p p' : Pmlc) : Prop :=
  Z.testbit p.(pm_flags) (right_bit side) = true /\
  Z.testbit p'.(pm_flags) (right_bit side) = false /\
  (forall j, 0 <= j < 8 -> j <> right_bit side ->
     Z.testbit p'.(pm_flags) j = Z.testbit p.(pm_flags) j) /\
  p'.(pm_status) = p.(pm_status) /\ p'.(close_reason) = p.(close_reason) /\
  p'.(long_owner) = p.(long_owner) /\ p'.(short_owner) = p.(short_owner) /\ same_terms p p'.

Lemma bit_set x i : 0 <= i -> Z.land x (2 ^ i) <> 0 -> Z.testbit x i = true.
Proof.
  intros Hi Hx. destruct (Z.testbit x i) eqn:E; [done|]. destruct Hx. apply Z.bits_inj'. intros n Hn.
  rewrite Z.land_spec, Z.testbit_0_l. destruct (decide (i = n)) as [<-|Hne].
  - by rewrite E.
  - by rewrite Z.pow2_bits_false, andb_false_r.
Qed.
Lemma flag_cleared side p : side = SIDE_LONG \/ side = SIDE_SHORT ->
  Z.land p.(pm_flags) (reentry_mask side) <> 0 -> right_used side p (clear_flag (reentry_mask side) p).
Proof.
  intros Hs Hl. split; [apply bit_set; [destruct Hs as [-> | ->]; done|]; by destruct Hs as [-> | ->]|].
  assert (Hbits : forall j, 0 <= j < 8 ->
    Z.testbit (U8_MAX - reentry_mask side) j = negb (j =? right_bit side)).
  { intros j Hj. assert (j = 0 \/ j = 1 \/ j = 2 \/ j = 3 \/ j = 4 \/ j = 5 \/ j = 6 \/ j = 7) as Hc by lia.
    destruct Hs as [-> | ->]; repeat destruct Hc as [-> |Hc]; try reflexivity; by subst. }
  cbn [clear_flag set_pm_state pm_flags]. split.
  { rewrite Z.land_spec, Hbits by (destruct Hs as [-> | ->]; done). rewrite Z.eqb_refl. apply andb_false_r. }
  split; [|by split_and!]. intros j Hj Hne. rewrite Z.land_spec, Hbits by done.
  rewrite (proj2 (Z.eqb_neq _ _) Hne). apply andb_true_r.
Qed.

Lemma cleared mask k p w u w' :
  with_mut k (modify (clear_flag mask)) w = (Ok u, w') -> holds k (DPmlc p) w ->
  holds k (DPmlc (clear_flag mask p)) w'.
Proof.
  intros (v & v' & Hd & [= _ <-] & ->)%with_mut_ok_inv Hh. unfold holds in *.
  rewrite Hh in Hd. injection Hd as ->. by rewrite acct_set_eq.
Qed.
Lemma repost_runs pmlc book margin owner side price mask expiration n reserve fee p b w w' :
  holds pmlc (DPmlc p) w -> holds book (DBook b) w -> whole b -> (side = SIDE_LONG \/ side = SIDE_SHORT) ->
  (acct w margin).(acc_owner) = program_id ->
  repost pmlc book margin owner side price mask expiration (Some (n, reserve, fee, reserve + fee)) w = (Ok tt, w') ->
  holds pmlc (DPmlc (clear_flag mask p)) w' /\
  moved [(margin, shift (- (reserve + fee)) (reserve + fee) 0)] w w' /\
  exists b' id seq, whole b' /\ holds book (DBook b') w' /\ offers b !! id = None /\
    offers b' = <[id := {| of_owner := owner; of_side := side; of_flags := INTENT_FLAG_REENTRY;
      of_price := price; of_total := n; of_left := n; of_expiry := expiration; of_seq := seq;
      of_reserved := reserve; of_fee := fee |}]> (offers b).
Proof.
  intros Hp Hb Hw Hside Ho E. unfold repost in E. inv_world.
  match goal with
  | Hm : with_mut _ (move_free_to_reserved _) w = (_, ?w1), Hi : with_mut book _ ?w1 = (_, ?w2),
    Hc : with_mut pmlc _ ?w2 = _ |- _ =>
      pose proof (with_mut_kept _ _ _ _ _ _ _ Hm Hp ltac:(done)) as Hp1;
      pose proof (with_mut_kept _ _ _ _ _ _ _ Hi Hp1 ltac:(done)) as Hp2;
      pose proof (with_mut_kept _ _ _ _ _ _ _ Hm Hb ltac:(done)) as Hb1;
      destruct (book_run _ _ _ _ _ _ _ Hb1 (place_refines b _ _ _ _ _ _ _ _ Hw Hside) Hi)
        as (b' & (Hw' & _ & _ & Hfresh & Hoff) & Hb2 & Hm2); clear Hi;
      pose proof (with_mut_kept _ _ _ _ _ _ _ Hc Hb2 ltac:(done)) as Hb3;
      split; [by eapply cleared|]
  end.
  split; [eapply moved_eq; [follow|done]|]. exists b'. do 2 eexists. by split_and!.
Qed.

(** C26: re-entry. A claim that succeeds was signed by the owner of that side of a contract
    that has ended and whose right to re-enter was not used, and uses it up: the flag is
    cleared, so no second claim can succeed, and nothing else of the contract changes. It posts
    one offer on that side, at the price the contract recorded for it and for the greatest number
    of contracts (a [u16]) whose collateral and fee buffer, the book's highest fee on it, the free
    balance covers, moves exactly those two from the free to the reserved balance, and changes no
    other margin account; with a free balance that affords none it posts nothing and leaves every
    balance alone. *)
Theorem claim_reenters owner cfg pmlc inst_ai book margin rest side expiration p inst b a w w' :
  holds pmlc.(key) (DPmlc p) w -> holds inst_ai.(key) (DInstrument inst) w ->
  holds book.(key) (DBook b) w -> holds margin.(key) (DMargin a) w ->
  whole b -> 0 < inst.(collateral_bucket) -> 0 <= b.(header).(cached_max_fee_bps) -> margin_wf a ->
  process_claim_reentry (owner :: cfg :: pmlc :: inst_ai :: book :: margin :: rest) side expiration w
    = (Ok tt, w') ->
  let c := inst.(collateral_bucket) in
  let bps := b.(header).(cached_max_fee_bps) in
  (side = SIDE_LONG \/ side = SIDE_SHORT) /\ owner.(is_signer) = true /\
  owner.(key) = (if side =? SIDE_LONG then p.(long_owner) else p.(short_owner)) /\
  p.(pm_status) <> PMLC_STATUS_LIVE /\ clock_slot < expiration /\
  (exists p', holds pmlc.(key) (DPmlc p') w' /\ right_used side p p') /\
  exists n, greatest_affordable c bps a.(free_collateral) n /\
    (n = 0 -> moved [] w w' /\ holds book.(key) (DBook b) w') /\
    (n <> 0 ->
       let fee := n * c * bps / 10000 in
       moved [(margin.(key), shift (- (n * c + fee)) (n * c + fee) 0)] w w' /\
       exists b' id seq, whole b' /\ holds book.(key) (DBook b') w' /\ offers b !! id = None /\
         offers b' = <[id := {| of_owner := owner.(key); of_side := side; of_flags := 1;
           of_price := if side =? SIDE_LONG then p.(long_reentry_price_fp) else p.(short_reentry_price_fp);
           of_total := n; of_left := n; of_expiry := expiration; of_seq := seq;
           of_reserved := n * c; of_fee := fee |}]> (offers b)).
Proof.
  intros Hp Hi Hb Ha Hw Hc Hbps Hwf E c bps. unfold process_claim_reentry in E. handler_run.
  assert (Hside : side = SIDE_LONG \/ side = SIDE_SHORT) by (by apply sides_ok).
  repeat match goal with H : acc_data (acct w ?k) = inj ?v, H' : holds ?k ?d w |- _ =>
    progress (assert (Heq : d = inj v) by (by rewrite <- H', H)); injection Heq as <-; clear H end.
  match goal with H : reentry_size _ _ _ _ = (Ok ?size, _) |- _ =>
    pose proof (reentry_size_greatest _ _ _ b _ _ _ Hc (proj1 (proj1 Hwf)) Hbps Hb H) as Hsize;
    apply reads_reentry in H as Hsame; subst; rename H into Er; destruct size as [[[[n reserve] fee] total]|] end.
  all: split; [done|]; split; [done|]; split; [done|]; split; [done|]; split; [done|].
  - destruct Hsize as (Hn & Hg & Hfee). apply reentry_size_ok in Er as (_ & _ & -> & _ & _ & ->).
    destruct (repost_runs _ _ margin.(key) _ _ _ _ _ _ _ _ p b _ _ Hp Hb Hw Hside ltac:(done) E)
      as (Hpm & Hm & b' & id & seq & ? & ? & ? & Hoff).
    split; [eexists; split; [exact Hpm|by apply flag_cleared]|]. exists n. split; [done|]. split; [done|].
    intros _. subst fee. split; [exact Hm|]. by exists b', id, seq.
  - split; [eexists; split; [by eapply cleared|by apply flag_cleared]|].
    exists 0. split; [done|]. split; [intros _|done]. unfold repost in E.
    split; [|by eapply (with_mut_kept _ _ _ _ _ _ _ E Hb)]. eapply moved_eq; [follow|done].
Qed.
End reentry.

(** Alice re-enters on the long side of a contract that was liquidated, at her own limit, with all
    six contracts her winnings pay for. *)
Lemma claim_reenters_witness :
  let R := demo 100 1700100000 [] in
  let w := demo_liquidate demo_world in
  let run := process_claim_reentry (R := R) [signer ALICE; readonly CONFIG; writable (PMLC 101);
    readonly INSTRUMENT; writable BOOK; writable (MARGIN ALICE)] SIDE_LONG 5000 w in
  fst run = Ok tt /\
  moved (R := R) [(MARGIN ALICE, shift (-6000000) 6000000 0)] w (snd run) /\
  exists b' id seq, holds BOOK (DBook b') (snd run) /\
    offers b' !! id = Some {| of_owner := ALICE; of_side := SIDE_LONG; of_flags := 1;
      of_price := PRICE_ONE / 2; of_total := 6; of_left := 6; of_expiry := 5000; of_seq := seq;
      of_reserved := 6000000; of_fee := 0 |}.
Proof.
  intros R w run. assert (E : fst run = Ok tt) by (vm_compute; reflexivity). split; [exact E|].
  pose proof (ran run _ E) as Er. unfold run in Er at 1.
  destruct (acct w (PMLC 101)).(acc_data) as [| | | | p | | | | | | | | | |] eqn:Ep; try (vm_compute in Ep; discriminate Ep).
  destruct (acct w (MARGIN ALICE)).(acc_data) as [| a | | | | | | | | | | | | |] eqn:Ea; try (vm_compute in Ea; discriminate Ea).
  assert (Hwf : margin_wf a /\ a.(free_collateral) = 6990000)
    by (vm_compute in Ea; injection Ea as <-; split; [split_and!; vm_compute; discriminate|reflexivity]).
  destruct Hwf as [Hwf Hfree].
  assert (Hprice : p.(long_reentry_price_fp) = PRICE_ONE / 2)
    by (vm_compute in Ep; injection Ep as <-; reflexivity).
  apply (claim_reenters (R := R) _ _ _ _ _ _ _ _ _ p demo_instrument demo_book a) in Er;
    [|exact Ep|vm_compute; reflexivity|vm_compute; reflexivity|exact Ea|exact demo_book_whole|vm_compute; reflexivity|
      vm_compute; discriminate|exact Hwf].
  destruct Er as (_ & _ & _ & _ & _ & _ & n & Hg & _ & Hn).
  assert (n = 6) as ->.
  { rewrite Hfree in Hg. destruct Hg as (Hr & Ha & Hno).
    change (header demo_book).(cached_max_fee_bps) with 0 in *. change demo_instrument.(collateral_bucket) with 1000000 in *.
    unfold affords in *. destruct (Z.lt_trichotomy n 6) as [Hlt|[Heq|Hgt]]; [|exact Heq|].
    - destruct (Hno 6); [revert Hlt; unfold_bounds; lia|]. vm_compute. discriminate.
    - specialize (Ha ltac:(lia)). rewrite Z.mul_0_r in Ha. change (0 / 10000) with 0 in Ha. lia. }
  destruct (Hn ltac:(discriminate)) as (Hm & b' & id & seq & _ & Hb & _ & Ho).
  split; [exact Hm|]. exists b', id, seq. split; [exact Hb|]. rewrite Ho, <- Hprice. apply lookup_insert_eq.
Defined.
