(* ===== verification/Recovery.v ===== *)
(** * What a trader reserves can always be recovered

    From [Backed]: a trader's margin account holds at least what any of their offers has
    reserved, so taking the offer down never fails; and what each side of a live contract has
    locked ([Maturity] settles it). *)
From S2P Require Import Prelude IntentBook Ledger Governance Attestation World Demo Footprint Totals Solvency MatchIx Intent BookInvariant BookShape OrderBook Dispatch DemoWorld Market BookHistory Conservation Balances Evolution Lifetimes Invariants Backing Backed.

(* ------------------------------------------------------------------ *)
(** ** One of many offers *)

Lemma share_nonneg o c f : 0 < c -> 0 < f.(of_left) -> 0 <= f.(of_fee) ->
  f.(of_reserved) = f.(of_left) * c -> 0 <= share o f.
Proof. intros. unfold share. case_match; nia. Qed.

Lemma held_for_nonneg o c (offs : gmap Z Offer) : 0 < c -> sized c offs -> 0 <= held_for o offs.
Proof.
  intros Hc. induction offs as [|id f offs Hn IH] using map_ind; [done|]. intros Hs.
  apply map_Forall_insert in Hs as [(Hl & Hf & Hr) Hs]; [|done]. rewrite held_for_insert by done.
  pose proof (share_nonneg o c f Hc Hl Hf Hr). specialize (IH Hs). lia.
Qed.
Lemma held_for_one o c (offs : gmap Z Offer) id f : 0 < c -> sized c offs -> offs !! id = Some f ->
  share o f <= held_for o offs.
Proof.
  intros Hc Hs Hf. rewrite <- (Z.add_0_r (share o f)).
  assert (H : 0 <= held_for o (delete id offs)) by (eapply held_for_nonneg; [exact Hc|by apply map_Forall_delete]).
  rewrite (held_for_delete _ _ _ f) in H by done. lia.
Qed.

(* ------------------------------------------------------------------ *)
(** ** The one margin account of a trader in a mint *)

Section backed.
Context {R : Runtime} (G : Terms) (w : World) (Hb : backed program_id G w).

#[local] Instance offered_vanishes o m : Vanishes (offered_in G o m).
Proof. by intros k. Qed.

Lemma terms_positive k m c : G !! k = Some (m, c) -> 0 < c.
Proof. intros Hk. by destruct (bk_terms _ _ _ Hb k m c Hk). Qed.

(** A trader's bucket in a mint: [reserved_in] and [locked_in] are of this form. *)
Definition bucket_in (f : MarginAccount -> Z) (o m _k : Pubkey) (d : AccountData) : Z :=
  match d with
  | DMargin a => if (a.(ma_owner) =? o) && (a.(ma_collateral_mint) =? m) then f a else 0
  | _ => 0
  end.
#[local] Instance bucket_vanishes f o m : Vanishes (bucket_in f o m).
Proof. by intros k. Qed.

(** Nothing of the trader's in the mint is held elsewhere: what they have in the bucket is in
    the one account at the derived address. *)
Lemma bucket_elsewhere f o m k : k <> (G.(tm_margin) o m).1 ->
  counted program_id (bucket_in f o m) k (acct w k) = 0.
Proof.
  intros Hk. unfold counted. case_match eqn:Eo; [|done]. apply Z.eqb_eq in Eo.
  pose proof (bk_fits _ _ _ Hb k Eo) as Hf. destruct (acct w k).(acc_data) as [| a | | | | | | | | | | | | |];
    try done. cbn in *. case_match eqn:E; [|done]. apply andb_true_iff in E as [E1%Z.eqb_eq E2%Z.eqb_eq].
  by rewrite E1, E2 in Hf; rewrite Hf in Hk.
Qed.
Lemma sole_margin f o m x : 0 < x <= sum_over program_id (bucket_in f o m) w ->
  exists k bump a, G.(tm_margin) o m = (k, bump) /\ margin_at k a w /\ a.(ma_owner) = o /\
    a.(ma_collateral_mint) = m /\ a.(ma_bump) = bump /\ x <= f a.
Proof.
  rewrite (sum_single program_id (bucket_in f o m) (G.(tm_margin) o m).1 w)
    by first [exact _|intros k; apply bucket_elsewhere].
  destruct (G.(tm_margin) o m) as [k bump] eqn:Eg. cbn. intros Hx.
  unfold counted in Hx. case_match eqn:Eo; [|lia]. apply Z.eqb_eq in Eo.
  pose proof (bk_fits _ _ _ Hb k Eo) as Hfit. destruct (acct w k).(acc_data) as [| a | | | | | | | | | | | | |] eqn:Ed;
    try (cbn in Hx; lia). cbn in Hx, Hfit. case_match eqn:E; [|lia].
  apply andb_true_iff in E as [E1%Z.eqb_eq E2%Z.eqb_eq]. exists k, bump, a.
  rewrite E1, E2, Eg in Hfit. injection Hfit as Hbump. split_and!; try done. lia.
Qed.

Lemma offered_nonneg o m k : 0 <= counted program_id (offered_in G o m) k (acct w k).
Proof.
  unfold counted. case_match eqn:Eo; [|done]. apply Z.eqb_eq in Eo.
  pose proof (bk_fits _ _ _ Hb k Eo) as Hf. destruct (acct w k).(acc_data) as [| | | b | | | | | | | | | | |];
    try done. cbn in *. unfold trades_in. destruct (G !! k) as [[m' c]|] eqn:Eg; [|done]. cbn.
  case_match; [|done]. destruct Hf as [_ Hs]. eapply held_for_nonneg; [by eapply terms_positive|by eapply Hs].
Qed.

(** What an offer reserves is in its owner's margin account. *)
Lemma offer_is_reserved kb m c b id f :
  (acct w kb).(acc_owner) = program_id -> holds kb (DBook b) w -> G !! kb = Some (m, c) ->
  offers b !! id = Some f ->
  exists k bump a, G.(tm_margin) f.(of_owner) m = (k, bump) /\ margin_at k a w /\
    a.(ma_owner) = f.(of_owner) /\ a.(ma_collateral_mint) = m /\ a.(ma_bump) = bump /\
    0 < f.(of_reserved) + f.(of_fee) <= a.(reserved_collateral).
Proof.
  intros Ho Hh Hk Hf. set (o := f.(of_owner)). pose proof (terms_positive _ _ _ Hk) as Hc.
  destruct (fit_book G kb b w (bk_fits _ _ _ Hb) Ho Hh) as [_ Hs]. specialize (Hs m c Hk).
  destruct (Hs id f Hf) as (Hl & Hfee & Hr).
  assert (Hge : f.(of_reserved) + f.(of_fee) <= reserved_of program_id o m w).
  { rewrite (bk_reserved _ _ _ Hb). etrans; [|apply (sum_at_least program_id _ kb); [exact _|apply offered_nonneg]].
    unfold counted, holds in *. rewrite Ho, Z.eqb_refl, Hh. cbn. unfold trades_in. rewrite Hk. cbn.
    rewrite Z.eqb_refl. etrans; [|by apply (held_for_one o c _ id f)]. unfold share, o. by rewrite Z.eqb_refl. }
  assert (Hpos : 0 < f.(of_reserved) + f.(of_fee)) by nia.
  destruct (sole_margin reserved_collateral o m (f.(of_reserved) + f.(of_fee)))
    as (k & bump & a & ? & ? & ? & ? & ? & ?); [by split|]. by exists k, bump, a.
Qed.

(** ** Contracts *)

#[local] Instance staked_vanishes o m : Vanishes (staked_in o m).
Proof. by intros k. Qed.
Lemma stake_nonneg o p : 0 <= p.(collateral_per_side) -> 0 <= stake o p.
Proof. intros. unfold stake. repeat case_match; lia. Qed.
Lemma staked_nonneg o m k : 0 <= counted program_id (staked_in o m) k (acct w k).
Proof.
  unfold counted. case_match eqn:Eo; [|done]. apply Z.eqb_eq in Eo.
  pose proof (bk_fits _ _ _ Hb k Eo) as Hf. destruct (acct w k).(acc_data) as [| | | | p | | | | | | | | | |];
    try done. cbn in *. case_match eqn:E; [|done]. apply andb_true_iff in E as [E%Z.eqb_eq _].
  apply stake_nonneg. apply Hf, terms_positive in E. lia.
Qed.

(** A side's collateral in a live contract is locked in its owner's margin account. *)
Lemma contract_is_locked kp p o :
  (acct w kp).(acc_owner) = program_id -> holds kp (DPmlc p) w -> p.(pm_status) = PMLC_STATUS_LIVE ->
  o = p.(long_owner) \/ o = p.(short_owner) ->
  exists k bump a, G.(tm_margin) o p.(pm_collateral_mint) = (k, bump) /\ margin_at k a w /\
    a.(ma_owner) = o /\ a.(ma_collateral_mint) = p.(pm_collateral_mint) /\ a.(ma_bump) = bump /\
    0 < p.(collateral_per_side) <= a.(locked_collateral).
Proof.
  intros Ho Hp Hl Hside. pose proof (fit_contract G kp p w (bk_fits _ _ _ Hb) Ho Hp Hl) as Hk.
  pose proof (terms_positive _ _ _ Hk) as Hc.
  destruct (sole_margin locked_collateral o p.(pm_collateral_mint) p.(collateral_per_side))
    as (k & bump & a & ? & ? & ? & ? & ? & ?); [|by exists k, bump, a].
  split; [done|]. change (p.(collateral_per_side) <= locked_of program_id o p.(pm_collateral_mint) w).
  rewrite (bk_locked _ _ _ Hb).
  etrans; [|apply (sum_at_least program_id _ kp); [exact _|apply staked_nonneg]].
  unfold counted, holds in *. rewrite Ho, Z.eqb_refl, Hp. cbn. rewrite Hl, !Z.eqb_refl. cbn.
  unfold stake. destruct Hside as [<-|<-]; rewrite Z.eqb_refl; case_match; lia.
Qed.
End backed.

(* ------------------------------------------------------------------ *)
(** ** The cancellation runs *)

Section cancel.
Context {R : Runtime}.

(** The owner's margin takes the reservation back. *)
Definition released_margin (total : Z) (a : MarginAccount) : MarginAccount :=
  set_buckets a (a.(free_collateral) + total) (a.(reserved_collateral) - total) a.(locked_collateral).

Lemma release_runs a total : margin_wf a -> 0 <= total <= a.(reserved_collateral) ->
  a.(free_collateral) + total <= U64_MAX ->
  release_margin a.(ma_owner) a.(ma_collateral_mint) a.(ma_bump) total a = (Ok tt, released_margin total a).
Proof.
  intros (Hf & Hr & _) Ht Hfit. unfold release_margin, check_margin, move_reserved_to_free, debit_reserved,
    credit_free, mbind, M_bind, gets, bail_if, id. cbn. rewrite !Z.eqb_refl. cbn.
  rewrite (proj2 (checked_some U64_MAX _ (a.(reserved_collateral) - total))) by (split; [done|lia]). cbn.
  by rewrite (proj2 (checked_some U64_MAX _ (a.(free_collateral) + total))) by (split; [done|lia]).
Qed.

Lemma cancel_runs caller inst_ai book_ai margin_ai rest i b id f a bump w :
  caller.(is_signer) = true -> book_ai.(is_writable) = true -> margin_ai.(is_writable) = true ->
  (acct w inst_ai.(key)).(acc_owner) = program_id -> (acct w book_ai.(key)).(acc_owner) = program_id ->
  holds inst_ai.(key) (DInstrument i) w -> i.(intent_book) = book_ai.(key) ->
  holds book_ai.(key) (DBook b) w -> whole b -> offers b !! id = Some f ->
  caller.(key) = f.(of_owner) \/ f.(of_expiry) <= clock_slot ->
  find_program_address [SEED_MARGIN; key_seed f.(of_owner); key_seed i.(ic_collateral_mint)]
    = (margin_ai.(key), bump) ->
  margin_at margin_ai.(key) a w -> a.(ma_owner) = f.(of_owner) ->
  a.(ma_collateral_mint) = i.(ic_collateral_mint) -> a.(ma_bump) = bump -> margin_wf a ->
  0 <= f.(of_reserved) + f.(of_fee) <= a.(reserved_collateral) ->
  a.(free_collateral) + (f.(of_reserved) + f.(of_fee)) <= U64_MAX ->
  exists b', whole b' /\ offers b' = delete id (offers b) /\
    process_cancel_intent (caller :: inst_ai :: book_ai :: margin_ai :: rest) id w =
      (Ok tt, set_data margin_ai.(key) (DMargin (released_margin (f.(of_reserved) + f.(of_fee)) a))
                (set_data book_ai.(key) (DBook b') w)).
Proof.
  intros Hs Hbw Hmw Hoi Hob Hi Hib Hb Hw Hf Hok Hpda [Hm Hom] E1 E2 E3 Hwf Ht Hfit.
  assert (Hown : assert_owned [inst_ai; book_ai; margin_ai] w = (Ok tt, w)).
  { unfold assert_owned, mbind, M_bind, gets, bail_if. change (Datatypes.id w) with w. cbn [forallb].
    unfold owned. by rewrite Hoi, Hob, Hom, Z.eqb_refl. }
  pose proof (cancel_succeeds b id i.(ic_collateral_mint) margin_ai.(key) (owner_or_expired caller.(key)) f bump
    Hw Hf) as Hrun.
  apply runs_ok in Hrun as (r & b' & Hrun & -> & Hw' & Ho').
  - exists b'. split_and!; [done|done|]. unfold process_cancel_intent.
    do 4 rewrite (bind_ok _ _ w _ w) by reflexivity.
    rewrite (bind_ok _ _ w tt w) by (unfold assert_signer, bail_if; by rewrite Hs).
    do 2 rewrite (bind_ok _ _ w tt w) by (unfold assert_writable, bail_if; by rewrite ?Hbw, ?Hmw).
    rewrite (bind_ok _ _ w tt w) by exact Hown.
    rewrite (bind_ok _ _ w i w) by (by apply load_ok).
    rewrite (bind_ok _ _ w tt w) by (unfold bail_if; by rewrite Hib, Z.eqb_refl).
    erewrite bind_ok by (eapply with_mut_run; [exact Hb|exact Hrun]).
    rewrite <- E1, <- E2, <- E3. refine (with_mut_run _ _ _ a _ (released_margin _ a) _ (release_runs _ _ _ _ _)); try done.
    rewrite acct_set_ne; [exact Hm|]. intros E. unfold holds in *. congruence.
  - unfold owner_or_expired, bail_if. destruct Hok as [->|Hexp]; [by rewrite Z.eqb_refl|].
    apply Z.leb_le in Hexp. rewrite Hexp. by destruct (_ =? _).
  - done.
  - destruct Hwf as (_ & Hr & _). lia.
Qed.
End cancel.

(* ------------------------------------------------------------------ *)
(** ** In every history *)

Lemma plain_history_ok pid D w w' : rtc (plain_step pid D) w w' ->
  (forall k, data_ok (acct w k).(acc_data)) -> forall k, data_ok (acct w' k).(acc_data).
Proof.
  intros Hh. induction Hh as [|w w1 w2 (R & L & B & W & accounts & data & Hp & _ & _ & _ & Hw) _ IH]; [done|].
  intros Hok. apply IH. eapply (step_ok pid w w1); [|done]. by exists R, L, B, accounts, data.
Qed.

(** C6: an offer can always be taken down and what it reserved recovered. In every world
    reached from a backed one (the empty world is) by any history of transactions other than
    [ExpandIntentBook] and posts with an inline match: if an offer rests on the book of an
    instrument, then its owner's margin account in that mint exists and has at least the
    offer's collateral and fee buffer reserved, and [CancelIntent] by the owner, or by anyone
    once the offer has expired, succeeds, whatever the market's, the instrument's or the
    program's status: it removes that offer alone and moves exactly its reservation to the
    owner's free balance. The one condition is that the free balance stays a [u64]. *)
Theorem offers_are_recoverable {R : Runtime} G w0 w caller inst_ai book_ai margin_ai rest i b id f :
  backed program_id G w0 -> (forall k, data_ok (acct w0 k).(acc_data)) ->
  rtc (plain_step program_id G.(tm_margin)) w0 w -> derives G ->
  placed inst_ai.(key) (DInstrument i) w -> i.(intent_book) = book_ai.(key) ->
  holds book_ai.(key) (DBook b) w -> offers b !! id = Some f ->
  caller.(is_signer) = true -> book_ai.(is_writable) = true -> margin_ai.(is_writable) = true ->
  caller.(key) = f.(of_owner) \/ f.(of_expiry) <= clock_slot ->
  margin_ai.(key) = (G.(tm_margin) f.(of_owner) i.(ic_collateral_mint)).1 ->
  let total := f.(of_reserved) + f.(of_fee) in
  exists a, margin_at margin_ai.(key) a w /\ a.(ma_owner) = f.(of_owner) /\
    a.(ma_collateral_mint) = i.(ic_collateral_mint) /\ 0 < total <= a.(reserved_collateral) /\
    (a.(free_collateral) + total <= U64_MAX ->
     exists b', whole b' /\ offers b' = delete id (offers b) /\
       process_cancel_intent (caller :: inst_ai :: book_ai :: margin_ai :: rest) id w =
         (Ok tt, set_data margin_ai.(key) (DMargin (released_margin total a))
                   (set_data book_ai.(key) (DBook b') w))).
Proof.
  intros Hb0 Hok0 Hh HD [Hi Hoi] Hib Hb Hf Hs Hbw Hmw Hauth Hmk total.
  destruct (history_backed _ _ _ _ Hh Hb0) as (G' & [_ Eg] & Hbk).
  pose proof (plain_history_ok _ _ _ _ Hh Hok0 margin_ai.(key)) as Hdok.
  destruct (fit_instrument G' _ _ w (bk_fits _ _ _ Hbk) Hoi Hi) as [_ Hterms]. rewrite Hib in Hterms.
  destruct (bk_terms _ _ _ Hbk _ _ _ Hterms) as (_ & Hob & _).
  destruct (fit_book G' _ b w (bk_fits _ _ _ Hbk) Hob Hb) as [Hw _].
  destruct (offer_is_reserved G' w Hbk _ _ _ b id f Hob Hb Hterms Hf)
    as (k & bump & a & Ek & Hm & E1 & E2 & E3 & Ht).
  rewrite Eg in Ek. rewrite Ek in Hmk. cbn in Hmk. subst k. exists a. split_and!; try done; try lia.
  intros Hfit. eapply cancel_runs; try done.
  - by rewrite HD, Ek.
  - unfold margin_at, holds in Hm. destruct Hm as [Hm _]. by rewrite Hm in Hdok.
  - fold total. lia.
Qed.

Lemma offers_are_recoverable_witness :
  let w := demo_liquidate demo_world in
  let accounts := [signer ALICE; readonly INSTRUMENT; writable BOOK; writable (MARGIN ALICE)] in
  exists w', process_cancel_intent (R := demo 100 1700100000 []) accounts 1 w = (Ok tt, w').
Proof.
  intros w accounts. destruct (offers demo_book !! 1) as [f|] eqn:Ef; [|vm_compute in Ef; discriminate Ef].
  assert (Hown : f.(of_owner) = ALICE /\ f.(of_reserved) + f.(of_fee) = 2000000)
    by (vm_compute in Ef; injection Ef as <-; done).
  destruct Hown as [Hown Ht].
  destruct (offers_are_recoverable (R := demo 100 1700100000 []) demo_terms demo_world w
    (signer ALICE) (readonly INSTRUMENT) (writable BOOK) (writable (MARGIN ALICE)) [] demo_instrument
    demo_book 1 f demo_backed demo_world_ok) as (a & [Ha _] & _ & _ & _ & Hrun).
  - by apply rtc_once, demo_plain_step.
  - by intros o m.
  - split; vm_compute; reflexivity.
  - reflexivity.
  - vm_compute; reflexivity.
  - exact Ef.
  - reflexivity.
  - reflexivity.
  - reflexivity.
  - by left.
  - rewrite Hown. vm_compute. reflexivity.
  - destruct Hrun as (b' & _ & _ & E); [|by eexists].
    unfold holds in Ha. rewrite Ht. vm_compute in Ha. injection Ha as <-. done.
Defined.
