(* ===== verification/Maturity.v ===== *)
(** * What is locked is settled

    From [Recovery]: both sides' collateral of a live contract is locked in their margin
    accounts, so once the market's outcome is attested the resolution never fails. *)
From S2P Require Import Prelude Fixed Ledger Governance Attestation World Demo Footprint Totals Solvency MatchIx Intent Settlement BookInvariant OrderBook Dispatch DemoWorld BookHistory Conservation Balances Effects Evolution Lifetimes Invariants Backing Backed Recovery.

(* ------------------------------------------------------------------ *)
(** ** The payments run *)

(** A margin account after the settlement of one side. *)
Definition settled (c e : Z) (a : MarginAccount) : MarginAccount :=
  set_realized_pnl (sat_i64 (a.(realized_pnl) + (e - c)))
    (set_free (a.(free_collateral) + e) (set_locked (a.(locked_collateral) - c) a)).

(** The side can be paid: its collateral is locked, and the credit and the difference fit. *)
Definition payable (c e : Z) (a : MarginAccount) : Prop :=
  margin_wf a /\ 0 <= c <= a.(locked_collateral) /\ 0 <= e /\ c <= I64_MAX /\ e <= I64_MAX /\
  a.(free_collateral) + e <= U64_MAX.

Lemma settle_runs c e a : payable c e a -> settle_equity c e a = (Ok tt, settled c e a).
Proof.
  intros ((Hf & _ & Hl) & Hc & He & Hci & Hei & Hfit).
  unfold settle_equity, debit_locked, credit_free, add_pnl, mbind, M_bind, gets, modify, id.
  rewrite (proj2 (checked_some U64_MAX _ (a.(locked_collateral) - c))) by (split; [done|lia]). cbn.
  rewrite (proj2 (checked_some U64_MAX _ (a.(free_collateral) + e))) by (split; [done|lia]). cbn.
  rewrite !as_i_small by (unfold_bounds; lia). unfold checked_i64.
  replace (in_i64 (e - c)) with true; [done|]. symmetry. unfold in_i64. unfold_bounds. lia.
Qed.

Section maturity.
Context {R : Runtime}.

Lemma holds_set_ne k k' d d' w : holds k' d' w -> k <> k' -> holds k' d' (set_data k d w).
Proof. intros Hh Hne. unfold holds. by rewrite acct_set_ne. Qed.
Lemma apart k k' d d' w : holds k d w -> holds k' d' w -> d <> d' -> k <> k'.
Proof. intros H H' Hd ->. unfold holds in *. congruence. Qed.

Lemma pay_equities_runs long short c el es a b w :
  holds long (DMargin a) w -> holds short (DMargin b) w -> long <> short ->
  payable c el a -> payable c es b ->
  pay_equities long short c el es w =
    (Ok tt, set_data short (DMargin (settled c es b)) (set_data long (DMargin (settled c el a)) w)).
Proof.
  intros Ha Hb Hne Hpa Hpb. unfold pay_equities.
  erewrite bind_ok by exact (with_mut_run _ _ w a _ _ Ha (settle_runs _ _ _ Hpa)).
  rewrite (bind_ok _ _ _ tt (set_data long (DMargin (settled c el a)) w))
    by (unfold bail_if; by rewrite (proj2 (Z.eqb_neq _ _) Hne)).
  by refine (with_mut_run _ _ _ b _ _ (holds_set_ne _ _ _ _ _ Hb Hne) (settle_runs _ _ _ Hpb)).
Qed.

Lemma margin_pda_runs k o m bump a w :
  find_program_address [SEED_MARGIN; key_seed o; key_seed m] = (k, bump) -> holds k (DMargin a) w ->
  a.(ma_owner) = o -> a.(ma_collateral_mint) = m -> a.(ma_bump) = bump ->
  validate_margin_pda k o m w = (Ok tt, w).
Proof.
  intros Hpda Ha <- <- <-. unfold validate_margin_pda.
  erewrite bind_ok by (unfold assert_pda; rewrite Hpda; unfold mbind, M_bind, bail_if; rewrite Z.eqb_refl; reflexivity).
  rewrite (bind_ok _ _ w a w) by by apply load_ok. unfold bail_if. by rewrite !Z.eqb_refl.
Qed.

Lemma attested_runs config sysvar offset att w :
  Effects.attested config sysvar offset att w ->
  exists signer, load_attestation_signer config w = (Ok signer, w) /\
    verified_attestation sysvar signer offset w = (Ok att, w).
Proof.
  intros (cfg & bytes & Hc & Hp & Hv & Ha). exists cfg.(attestation_signer). split.
  - unfold load_attestation_signer. rewrite (bind_ok _ _ w cfg w) by by apply load_ok.
    unfold mbind, M_bind, bail_if. by rewrite Hp.
  - unfold verified_attestation, lift. rewrite Hv. unfold mbind, M_bind. by rewrite Ha.
Qed.

Lemma live_contract_runs k p w : holds k (DPmlc p) w -> p.(pm_status) = PMLC_STATUS_LIVE ->
  load_live_pmlc k p.(Governance.instrument) p.(pm_market_id) p.(pm_collateral_mint) w = (Ok p, w).
Proof.
  intros Hp Hl. unfold load_live_pmlc. rewrite (bind_ok _ _ w p w) by by apply load_ok.
  rewrite (bind_ok _ _ w tt w) by (unfold require_live; by rewrite Hl).
  unfold mbind, M_bind, bail_if. by rewrite !Z.eqb_refl.
Qed.

(** The nonce account after it recorded a resolution. *)
Definition resolved_nonce (att : Attestation) (outcome : Z) (n : MarketNonceAccount) : MarketNonceAccount :=
  set_nonce n 1 (nonce att) n.(last_accepted_twap_fp) now_unix outcome.
Lemma accept_runs att outcome market staleness n :
  validate_freshness_and_nonce att market n.(last_accepted_cre_nonce) now_unix staleness = Ok tt ->
  att_final_outcome_bps att = Ok outcome ->
  (accept_nonce att market now_unix staleness;;
   outcome ← lift (att_final_outcome_bps att); set_outcome outcome) n = (Ok tt, resolved_nonce att outcome n).
Proof.
  intros Hv Ho. unfold accept_nonce, set_outcome, mbind, M_bind, lift, modify, gets, id. by rewrite Hv, Ho.
Qed.

Lemma finish_runs k status reason p w : holds k (DPmlc p) w ->
  with_mut k (finish_pmlc status reason) w =
    (Ok tt, set_data k (DPmlc (set_pm_state p status reason p.(pm_flags) clock_slot
                                p.(long_owner) p.(short_owner))) w).
Proof. intros Hp. exact (with_mut_run k _ w p _ _ Hp eq_refl). Qed.

Lemma owned_runs ais w : Forall (fun ai => (acct w ai.(key)).(acc_owner) = program_id) ais ->
  assert_owned ais w = (Ok tt, w).
Proof.
  intros Hf. unfold assert_owned, mbind, M_bind, gets, bail_if, id.
  replace (forallb (owned w) ais) with true; [done|]. symmetry. apply forallb_forall.
  intros ai Hin. apply Z.eqb_eq. rewrite Forall_forall in Hf. by apply Hf, list_elem_of_In.
Qed.

Lemma resolve_runs caller cfg sysvar inst_ai pmlc nonce_ai long short rest args
    att outcome final pnl el es inst p n a b nb lb sb w :
  let c := p.(collateral_per_side) in
  let accounts := caller :: cfg :: sysvar :: inst_ai :: pmlc :: nonce_ai :: long :: short :: rest in
  caller.(is_signer) = true -> pmlc.(is_writable) = true -> nonce_ai.(is_writable) = true ->
  long.(is_writable) = true -> short.(is_writable) = true ->
  Forall (fun ai => (acct w ai.(key)).(acc_owner) = program_id) [cfg; inst_ai; pmlc; nonce_ai; long; short] ->
  Effects.attested cfg.(key) sysvar args.(attestation_ix_offset) att w ->
  attestation_type att = ATT_TYPE_RESOLUTION -> att_final_outcome_bps att = Ok outcome ->
  final_mark outcome = Ok final ->
  holds inst_ai.(key) (DInstrument inst) w -> holds nonce_ai.(key) (DNonce n) w ->
  find_program_address [SEED_MARKET_NONCE; key_seed inst.(ic_market_id)] = (nonce_ai.(key), nb) ->
  validate_freshness_and_nonce att inst.(ic_market_id) n.(last_accepted_cre_nonce) now_unix
    inst.(max_staleness_secs) = Ok tt ->
  holds pmlc.(key) (DPmlc p) w -> p.(pm_status) = PMLC_STATUS_LIVE ->
  p.(Governance.instrument) = inst_ai.(key) -> p.(pm_market_id) = inst.(ic_market_id) ->
  p.(pm_collateral_mint) = inst.(ic_collateral_mint) ->
  resolution_pnl outcome p final = Ok pnl -> equities c pnl = (el, es) ->
  holds long.(key) (DMargin a) w -> holds short.(key) (DMargin b) w -> long.(key) <> short.(key) ->
  a.(ma_owner) = p.(long_owner) -> a.(ma_collateral_mint) = p.(pm_collateral_mint) -> a.(ma_bump) = lb ->
  b.(ma_owner) = p.(short_owner) -> b.(ma_collateral_mint) = p.(pm_collateral_mint) -> b.(ma_bump) = sb ->
  find_program_address [SEED_MARGIN; key_seed p.(long_owner); key_seed p.(pm_collateral_mint)] = (long.(key), lb) ->
  find_program_address [SEED_MARGIN; key_seed p.(short_owner); key_seed p.(pm_collateral_mint)] = (short.(key), sb) ->
  payable c el a -> payable c es b ->
  exists p', p' = set_pm_state p PMLC_STATUS_RESOLVED CLOSE_REASON_RESOLVED p.(pm_flags) clock_slot
                    p.(long_owner) p.(short_owner) /\
    process_resolve accounts args w =
      (Ok tt, set_data pmlc.(key) (DPmlc p')
        (set_data short.(key) (DMargin (settled c es b))
          (set_data long.(key) (DMargin (settled c el a))
            (set_data nonce_ai.(key) (DNonce (resolved_nonce att outcome n)) w)))).
Proof.
  intros c accounts Hs W1 W2 W3 W4 Hown Hatt Ht Hout Hfin Hi Hn Hnp Hv Hp Hl Ei Em Ec Hpnl Heq Ha Hb Hne
    A1 A2 A3 B1 B2 B3 Hpa Hpb Pa Pb.
  eexists. split; [reflexivity|]. destruct (attested_runs _ _ _ _ _ Hatt) as (signer & Hsig & Hver).
  set (w1 := set_data nonce_ai.(key) _ w).
  assert (Hp1 : holds pmlc.(key) (DPmlc p) w1) by (apply holds_set_ne; [done|by eapply apart]).
  assert (Ha1 : holds long.(key) (DMargin a) w1) by (apply holds_set_ne; [done|by eapply apart]).
  assert (Hb1 : holds short.(key) (DMargin b) w1) by (apply holds_set_ne; [done|by eapply apart]).
  unfold process_resolve, accounts.
  do 8 rewrite (bind_ok _ _ w _ w) by reflexivity.
  rewrite (bind_ok _ _ w tt w) by (unfold assert_signer, bail_if; by rewrite Hs).
  do 4 rewrite (bind_ok _ _ w tt w) by (unfold assert_writable, bail_if; by rewrite ?W1, ?W2, ?W3, ?W4).
  rewrite (bind_ok _ _ w tt w) by by apply owned_runs.
  rewrite (bind_ok _ _ w signer w) by exact Hsig.
  rewrite (bind_ok _ _ w inst w) by by apply load_ok.
  rewrite (bind_ok _ _ w att w) by exact Hver.
  rewrite (bind_ok _ _ w tt w) by (unfold bail_if; by rewrite Ht).
  erewrite bind_ok by (unfold assert_pda; rewrite Hnp; unfold mbind, M_bind, bail_if; rewrite Z.eqb_refl; reflexivity).
  rewrite (bind_ok _ _ w tt w1) by exact (with_mut_run _ _ w n _ _ Hn (accept_runs _ _ _ _ _ Hv Hout)).
  rewrite (bind_ok _ _ w1 outcome w1) by (unfold lift; by rewrite Hout).
  rewrite (bind_ok _ _ w1 final w1) by (unfold lift; by rewrite Hfin).
  rewrite <- Ei, <- Em, <- Ec. rewrite (bind_ok _ _ w1 p w1) by by apply live_contract_runs.
  rewrite (bind_ok _ _ w1 pnl w1) by (unfold lift; by rewrite Hpnl).
  fold c. rewrite Heq.
  do 2 rewrite (bind_ok _ _ w1 tt w1) by by eapply margin_pda_runs.
  erewrite bind_ok by (apply pay_equities_runs; try done; exact Ha1).
  apply finish_runs, holds_set_ne; [apply holds_set_ne; [done|]|]; by eapply apart.
Qed.
End maturity.

(* ------------------------------------------------------------------ *)
(** ** In every history *)

(** C7: what is locked comes back. In every world reached from a backed one (the empty world
    is) by any history of transactions other than [ExpandIntentBook] and posts with an inline
    match: a live contract between two traders has both sides' collateral locked in their
    margin accounts, and once the attestor signs the market's outcome (with a fresh nonce, in
    time, while the program is not paused) [Resolve] succeeds for anyone who calls it: it
    ends the contract, unlocks both collaterals and credits each side its equity, and records
    the nonce, and nothing else. The conditions are those of the machine: the pot is an [i64],
    the free balances stay [u64]s, and the attested profit an [i128]. *)
Theorem contracts_are_settleable {R : Runtime} G w0 w caller cfg sysvar inst_ai pmlc nonce_ai long short rest
    args att outcome final pnl el es inst p n nb :
  let c := p.(collateral_per_side) in
  backed program_id G w0 -> (forall k, data_ok (acct w0 k).(acc_data)) ->
  rtc (plain_step program_id G.(tm_margin)) w0 w -> derives G ->
  placed pmlc.(key) (DPmlc p) w -> p.(pm_status) = PMLC_STATUS_LIVE -> p.(long_owner) <> p.(short_owner) ->
  2 * c <= I64_MAX ->
  placed inst_ai.(key) (DInstrument inst) w -> p.(Governance.instrument) = inst_ai.(key) ->
  p.(pm_market_id) = inst.(ic_market_id) -> placed nonce_ai.(key) (DNonce n) w ->
  find_program_address [SEED_MARKET_NONCE; key_seed inst.(ic_market_id)] = (nonce_ai.(key), nb) ->
  long.(key) = (G.(tm_margin) p.(long_owner) p.(pm_collateral_mint)).1 ->
  short.(key) = (G.(tm_margin) p.(short_owner) p.(pm_collateral_mint)).1 ->
  (acct w cfg.(key)).(acc_owner) = program_id ->
  caller.(is_signer) = true -> pmlc.(is_writable) = true -> nonce_ai.(is_writable) = true ->
  long.(is_writable) = true -> short.(is_writable) = true ->
  Effects.attested cfg.(key) sysvar args.(attestation_ix_offset) att w ->
  attestation_type att = ATT_TYPE_RESOLUTION -> att_final_outcome_bps att = Ok outcome ->
  final_mark outcome = Ok final -> resolution_pnl outcome p final = Ok pnl -> equities c pnl = (el, es) ->
  validate_freshness_and_nonce att inst.(ic_market_id) n.(last_accepted_cre_nonce) now_unix
    inst.(max_staleness_secs) = Ok tt ->
  exists a b, margin_at long.(key) a w /\ margin_at short.(key) b w /\
    a.(ma_owner) = p.(long_owner) /\ b.(ma_owner) = p.(short_owner) /\
    0 < c <= a.(locked_collateral) /\ c <= b.(locked_collateral) /\ el + es = 2 * c /\
    (a.(free_collateral) + el <= U64_MAX -> b.(free_collateral) + es <= U64_MAX ->
     exists p', p' = set_pm_state p PMLC_STATUS_RESOLVED CLOSE_REASON_RESOLVED p.(pm_flags) clock_slot
                      p.(long_owner) p.(short_owner) /\
       process_resolve (caller :: cfg :: sysvar :: inst_ai :: pmlc :: nonce_ai :: long :: short :: rest) args w =
         (Ok tt, set_data pmlc.(key) (DPmlc p')
           (set_data short.(key) (DMargin (settled c es b))
             (set_data long.(key) (DMargin (settled c el a))
               (set_data nonce_ai.(key) (DNonce (resolved_nonce att outcome n)) w))))).
Proof.
  intros c Hb0 Hok0 Hh HD [Hp Hop] Hl Hne Hpot [Hi Hoi] Ei Em [Hn Hon] Hnp Hlk Hsk Hoc. intros.
  destruct (history_backed _ _ _ _ Hh Hb0) as (G' & [_ EG] & Hbk).
  pose proof (plain_history_ok _ _ _ _ Hh Hok0) as Hok.
  pose proof (fit_contract G' _ p w (bk_fits _ _ _ Hbk) Hop Hp Hl) as Hterms.
  destruct (fit_instrument G' _ _ w (bk_fits _ _ _ Hbk) Hoi Hi) as [Hti _].
  rewrite Ei, Hti in Hterms. injection Hterms as Ec _.
  destruct (contract_is_locked G' w Hbk _ p p.(long_owner) Hop Hp Hl) as (kl & lb & a & El & [Ha Hoa] & A1 & A2 & A3 & Hca); [by left|].
  destruct (contract_is_locked G' w Hbk _ p p.(short_owner) Hop Hp Hl) as (ks & sb & b & Es & [Hb Hob] & B1 & B2 & B3 & Hcb); [by right|].
  rewrite EG in El, Es. rewrite El in Hlk. rewrite Es in Hsk. cbn in Hlk, Hsk. subst kl ks.
  assert (Hsum : el + es = 2 * c) by (eapply equities_share; [| |eassumption]; unfold_bounds; lia).
  destruct (equities_nonneg c pnl el es) as [Hel Hes]; [done|].
  exists a, b. split_and!; try done; try lia. intros Hfl Hfs.
  pose proof (Hok long.(key)) as Wa. pose proof (Hok short.(key)) as Wb.
  pose proof Ha as Ha'. pose proof Hb as Hb'. unfold holds in Ha', Hb'. rewrite Ha' in Wa. rewrite Hb' in Wb.
  eapply (resolve_runs _ _ _ _ _ _ _ _ _ _ att outcome final pnl el es inst p n a b nb lb sb);
    try eassumption; try done.
  - repeat (apply Forall_cons; split; [done|]). by apply Forall_nil.
  - intros E. apply Hne. rewrite <- A1, <- B1. unfold holds in *. congruence.
  - by rewrite HD.
  - by rewrite HD.
  - fold c. split_and!; [done|lia..].
  - fold c. split_and!; [done|lia..].
Qed.

Definition demo_resolution : Attestation :=
  {| att_bytes := build_attestation ATT_TYPE_RESOLUTION MARKET 1700099990 1 (le_bytes 2 10000) |}.

(** Carol resolves the contract of Alice and Bob, after a withdrawal. *)
Lemma contracts_are_settleable_witness :
  let R := demo 100 1700100000 [resolution 10000 1 1700099990] in
  let w := demo_tx 1700100000 [] demo_withdraw TWithdraw (le_bytes 8 700000) demo_world in
  exists w', process_resolve (R := R)
    [signer CAROL; readonly CONFIG; readonly SYSVAR_INSTRUCTIONS_ID; readonly INSTRUMENT;
     writable (PMLC 101); writable NONCE; writable (MARGIN ALICE); writable (MARGIN BOB)]
    {| attestation_ix_offset := 0 |} w = (Ok tt, w').
Proof.
  intros R w.
  destruct (contracts_are_settleable (R := R) demo_terms demo_world w (signer CAROL) (readonly CONFIG)
    (readonly SYSVAR_INSTRUCTIONS_ID) (readonly INSTRUMENT) (writable (PMLC 101)) (writable NONCE)
    (writable (MARGIN ALICE)) (writable (MARGIN BOB)) [] {| attestation_ix_offset := 0 |}
    demo_resolution 10000 (PRICE_ONE - 1) 2000000 2000000 0 demo_instrument (demo_pmlc 101)
    (nonce_init MARKET 255) 255) as (a & b & [Ha _] & [Hb _] & _ & _ & _ & _ & _ & Hrun).
  - exact demo_backed.
  - exact demo_world_ok.
  - apply rtc_once, demo_plain_step; [discriminate|reflexivity].
  - by intros o m.
  - split; vm_compute; reflexivity.
  - reflexivity.
  - vm_compute. discriminate.
  - vm_compute. discriminate.
  - split; vm_compute; reflexivity.
  - reflexivity.
  - reflexivity.
  - split; vm_compute; reflexivity.
  - vm_compute. reflexivity.
  - vm_compute. reflexivity.
  - vm_compute. reflexivity.
  - vm_compute. reflexivity.
  - reflexivity.
  - reflexivity.
  - reflexivity.
  - reflexivity.
  - reflexivity.
  - exists demo_config, demo_resolution.(att_bytes). split_and!; vm_compute; reflexivity.
  - vm_compute. reflexivity.
  - vm_compute. reflexivity.
  - vm_compute. reflexivity.
  - vm_compute. reflexivity.
  - vm_compute. reflexivity.
  - vm_compute. reflexivity.
  - destruct Hrun as (p' & _ & E); [| |by eexists].
    + unfold holds in Ha. vm_compute in Ha. injection Ha as <-. vm_compute. discriminate.
    + unfold holds in Hb. vm_compute in Hb. injection Hb as <-. vm_compute. discriminate.
Defined.
