(* ===== verification/Tokens.v ===== *)
(** * The token program

    What the program relies on of it, the accounts of the other side of custody, and what the
    instructions that do not call it leave of them: every balance and every supply. *)
From S2P Require Import Prelude Ledger Governance Attestation World Demo Footprint Authority Dispatch Bystanders Evolution.

(* ------------------------------------------------------------------ *)
(** ** The token program *)

(** What the token program holds at an address: the account and its delegate. *)
Definition token_at (unpack : list Z -> Res TokenAccount) (delegate : list Z -> option Pubkey)
    (k : Pubkey) (w : World) : option (TokenAccount * option Pubkey) :=
  if (acct w k).(acc_owner) =? SPL_TOKEN_ID then
    match (acct w k).(acc_data) with
    | DBytes bs => match unpack bs with Ok t => Some (t, delegate bs) | _ => None end
    | _ => None
    end
  else None.

(** The supply of the mint at an address. *)
Definition supply_at (unpack : list Z -> option Z) (k : Pubkey) (w : World) : option Z :=
  if (acct w k).(acc_owner) =? SPL_TOKEN_ID then
    if (acct w k).(acc_data) is DBytes bs then unpack bs else None
  else None.

Definition thawed (frozen : list Z -> bool) (k : Pubkey) (w : World) : Prop :=
  match (acct w k).(acc_data) with DBytes bs => frozen bs = false | _ => True end.

(** What a call takes from an account on the word of an authority, and adds to one. *)
Definition debits (c : Cpi) : option (Pubkey * Pubkey * Z) :=
  match c with
  | TokenTransfer src _ authority n => Some (src, authority, n)
  | TokenBurn account _ authority n => Some (account, authority, n)
  | _ => None
  end.
Definition credits (c : Cpi) : option (Pubkey * Z) :=
  match c with
  | TokenTransfer _ dst _ n => Some (dst, n)
  | TokenMintTo _ account _ n => Some (account, n)
  | _ => None
  end.
Definition change (c : Cpi) (k : Pubkey) : Z :=
  (if credits c is Some (dst, n) then if dst =? k then n else 0 else 0)
  - (if debits c is Some (src, _, n) then if src =? k then n else 0 else 0).
Definition add_amount (x : Z) (t : TokenAccount) : TokenAccount :=
  {| ta_mint := t.(ta_mint); ta_owner := t.(ta_owner); ta_amount := t.(ta_amount) + x |}.

(** What a call mints and burns of a mint, and the mint it initialises. *)
Definition issued (c : Cpi) (k : Pubkey) : Z :=
  match c with
  | TokenMintTo mint _ _ n => if mint =? k then n else 0
  | TokenBurn _ mint _ n => if mint =? k then - n else 0
  | _ => 0
  end.
Definition initialises (c : Cpi) : option Pubkey :=
  match c with InitializeMint2 mint _ _ _ => Some mint | _ => None end.

Lemma add_nothing (o : option Z) : (fun n => n + 0) <$> o = o.
Proof. destruct o as [n|]; [|done]. change (Some (n + 0) = Some n). by rewrite Z.add_0_r. Qed.

(** Documented behaviour of the token program: tokens leave an account on the word of its
    owner or its delegate only; a transfer, mint or burn adds to the balances named in the
    call and takes from them, changes no mint or owner and appoints no delegate; a transfer
    between accounts of one mint, neither frozen, that the source's owner signs (a program
    signs for the addresses it derives) succeeds when the source has the amount and the
    destination room for it; amounts are [u64]s. No call makes an account a token account,
    which is at least 165 bytes long. A mint's supply starts at zero when it is initialised and
    changes by what is minted and burned; no other call makes an account a mint. *)
Class TokenLaws `{Runtime} := {
  token_delegate : list Z -> option Pubkey;
  debit_authorised c seeds w w' src authority n : debits c = Some (src, authority, n) ->
    invoke c seeds w = Some w' ->
    exists t d, token_at unpack_token_account token_delegate src w = Some (t, d) /\ (t.(ta_owner) = authority \/ d = Some authority);
  credit_u64 c seeds w w' dst n : credits c = Some (dst, n) -> invoke c seeds w = Some w' -> is_u64 n;
  debit_u64 c seeds w w' src authority n : debits c = Some (src, authority, n) ->
    invoke c seeds w = Some w' -> is_u64 n;
  token_effect c seeds w w' k t d : token_call c = true -> invoke c seeds w = Some w' ->
    token_at unpack_token_account token_delegate k w = Some (t, d) ->
    exists d', token_at unpack_token_account token_delegate k w' = Some (add_amount (change c k) t, d') /\ (d = None -> d' = None);
  token_frozen : list Z -> bool;
  amount_u64 bs t : unpack_token_account bs = Ok t -> is_u64 t.(ta_amount);
  transfer_accepted src dst authority bump n seeds w s d t d' :
    find_program_address seeds = (authority, bump) ->
    token_at unpack_token_account token_delegate src w = Some (s, d) ->
    token_at unpack_token_account token_delegate dst w = Some (t, d') ->
    s.(ta_owner) = authority -> s.(ta_mint) = t.(ta_mint) -> thawed token_frozen src w ->
    thawed token_frozen dst w -> 0 <= n <= s.(ta_amount) -> t.(ta_amount) + n <= U64_MAX ->
    exists w', invoke (TokenTransfer src dst authority n) (seeds ++ [[bump]]) w = Some w';
  credit_account c seeds w w' dst n : credits c = Some (dst, n) -> invoke c seeds w = Some w' ->
    token_at unpack_token_account token_delegate dst w <> None;
  account_stays_none c seeds w w' k : token_call c = true -> invoke c seeds w = Some w' ->
    token_at unpack_token_account token_delegate k w = None ->
    token_at unpack_token_account token_delegate k w' = None;
  account_length bs t : unpack_token_account bs = Ok t -> (165 <= length bs)%nat;
  unpack_supply : list Z -> option Z;
  supply_effect c seeds w w' k : token_call c = true -> initialises c <> Some k ->
    invoke c seeds w = Some w' ->
    supply_at unpack_supply k w' = (fun n => n + issued c k) <$> supply_at unpack_supply k w;
  supply_starts mint authority freeze decimals seeds w w' :
    invoke (InitializeMint2 mint authority freeze decimals) seeds w = Some w' ->
    supply_at unpack_supply mint w' = Some 0;
}.

(* ------------------------------------------------------------------ *)
(** ** What the other instructions leave *)

Section tokens.
Context {R : Runtime} {L : RuntimeLaws} {T : TokenLaws} {B : Borsh}.
Abbreviation tokens := (token_at unpack_token_account token_delegate).

(** No account becomes a token account by the program's own writes. *)
Lemma not_raw_no_token k w : ~ raw_token (acct w k) -> tokens k w = None.
Proof.
  unfold token_at, raw_token. intros Hn. case_match eqn:E; [|done]. apply Z.eqb_eq in E.
  destruct (acct w k).(acc_data) as [| | | | | | | | | | | | | |bs]; try done. exfalso. eauto.
Qed.
Lemma tokens_alike k w w' : alike (acct w k) (acct w' k) -> tokens k w' = tokens k w.
Proof. unfold token_at. by intros [-> ->]. Qed.
#[export] Instance no_token_bystander k : Bystander (fun _ => True) (fun w => tokens k w = None).
Proof.
  split; [done| |].
  - intros j w w' _ Ha Hr Hk. destruct (decide (k = j)) as [->|Hne]; [by apply not_raw_no_token|].
    by rewrite (tokens_alike k w w') by by apply Ha.
  - intros w w' Ha Hk. by rewrite (tokens_alike k w w').
Qed.

Lemma some_token_raw k w t : tokens k w = Some t -> raw_token (acct w k).
Proof.
  unfold token_at, raw_token. case_match eqn:E; [|done]. apply Z.eqb_eq in E.
  destruct (acct w k).(acc_data) as [| | | | | | | | | | | | | |bs]; try done. eauto.
Qed.
#[export] Instance token_bystander k t : Bystander (fun j => j <> k) (fun w => tokens k w = Some t).
Proof.
  split.
  - intros j w Hk%some_token_raw Hr ->. done.
  - intros j w w' Hj Ha _ Hk. by rewrite (tokens_alike k w w') by (apply Ha; congruence).
  - intros w w' Ha Hk. by rewrite (tokens_alike k w w').
Qed.

Lemma passive_tokens k w w' : (forall ok pre, Bystander ok pre -> pre w -> pre w') -> tokens k w' = tokens k w.
Proof.
  intros H. destruct (tokens k w) as [t|] eqn:E.
  - by eapply (H _ _ (token_bystander k t)).
  - by eapply (H _ _ (no_token_bystander k)).
Qed.

(** Neither does one become a mint. *)
Abbreviation mint_supply := (supply_at unpack_supply).
Lemma not_raw_no_mint k w : ~ raw_token (acct w k) -> mint_supply k w = None.
Proof.
  unfold supply_at, raw_token. intros Hn. case_match eqn:E; [|done]. apply Z.eqb_eq in E.
  destruct (acct w k).(acc_data) as [| | | | | | | | | | | | | |bs]; try done. exfalso. eauto.
Qed.
Lemma mint_alike k w w' : alike (acct w k) (acct w' k) -> mint_supply k w' = mint_supply k w.
Proof. unfold supply_at. by intros [-> ->]. Qed.
#[export] Instance mint_bystander k n : Bystander (fun j => j <> k) (fun w => mint_supply k w = Some n).
Proof.
  split.
  - intros j w Hk Hr ->. by rewrite not_raw_no_mint in Hk.
  - intros j w w' Hj Ha _ Hk. by rewrite (mint_alike k w w') by (apply Ha; congruence).
  - intros w w' Ha Hk. by rewrite (mint_alike k w w').
Qed.
(** No mint, or one that nothing is minted of yet. *)
Definition unissued (k : Pubkey) (w : World) : Prop := mint_supply k w = None \/ mint_supply k w = Some 0.
#[export] Instance no_mint_bystander k : Bystander (fun _ => True) (fun w => mint_supply k w = None).
Proof.
  split; [done| |].
  - intros j w w' _ Ha Hr Hk. destruct (decide (k = j)) as [->|Hne]; [by apply not_raw_no_mint|].
    by rewrite (mint_alike k w w') by by apply Ha.
  - intros w w' Ha Hk. by rewrite (mint_alike k w w').
Qed.
#[export] Instance unissued_bystander k : Bystander (fun _ => True) (unissued k).
Proof.
  split; [done| |].
  - intros j w w' _ Ha Hr Hk. destruct (decide (k = j)) as [->|Hne]; [left; by apply not_raw_no_mint|].
    unfold unissued. by rewrite (mint_alike k w w') by by apply Ha.
  - intros w w' Ha Hk. unfold unissued. by rewrite (mint_alike k w w').
Qed.
Lemma passive_supply k w w' : (forall ok pre, Bystander ok pre -> pre w -> pre w') -> mint_supply k w' = mint_supply k w.
Proof.
  intros H. destruct (mint_supply k w) as [n|] eqn:E.
  - by eapply (H _ _ (mint_bystander k n)).
  - by eapply (H _ _ (no_mint_bystander k)).
Qed.

Lemma other_instruction_passive t accounts payload w u w' : calls_tokens t = false ->
  run_instruction t accounts payload w = (Ok u, w') -> forall ok pre, Bystander ok pre -> pre w -> pre w'.
Proof. intros Ht E ok pre Y. exact (instruction_passive ok pre t accounts payload Ht _ _ _ E). Qed.

(** ** The mint of the wrapped stablecoin *)

(** An account keeps its balance, its owner and being without a delegate. *)
Definition kept (k : Pubkey) (t : TokenAccount) (d : option Pubkey) (w : World) : Prop :=
  exists d', tokens k w = Some (t, d') /\ (d = None -> d' = None).
#[export] Instance kept_bystander k t d : Bystander (fun j => j <> k) (kept k t d).
Proof.
  split.
  - intros j w (d' & Hk & _) Hr. by eapply (bystander_ok (Bystander := token_bystander k (t, d'))).
  - intros j w w' Hj Ha Hr (d' & Hk & Hd). exists d'. split; [|done].
    by eapply (bystander_write (Bystander := token_bystander k (t, d')) j w).
  - intros w w' Ha (d' & Hk & Hd). exists d'. split; [|done]. by rewrite (tokens_alike k w w').
Qed.

(** All token accounts are kept, and nothing becomes one. *)
Definition undisturbed (k : Pubkey) (w w' : World) : Prop :=
  (forall t d, tokens k w = Some (t, d) -> kept k t d w') /\ (tokens k w = None -> tokens k w' = None).
#[export] Instance undisturbed_preorder k : PreOrder (undisturbed k).
Proof.
  split; [intros w; split; [by intros t d; exists d|done]|]. intros w1 w2 w3 [H1 H2] [H3 H4]. split; [|by auto].
  intros t d (d1 & Hk & Hd)%H1. destruct (H3 _ _ Hk) as (d2 & Hk2 & Hd2). exists d2. auto.
Qed.
Lemma undisturbed_same k w w' : tokens k w' = tokens k w -> undisturbed k w w'.
Proof. intros E; split; unfold kept; rewrite E; [intros t d; by exists d|done]. Qed.
Lemma passive_undisturbed k w w' :
  (forall ok pre, Bystander ok pre -> pre w -> pre w') -> undisturbed k w w'.
Proof.
  intros Hp. split.
  - intros t d Hk. apply (Hp _ _ (kept_bystander k t d)). by exists d.
  - by eapply (Hp _ _ (no_token_bystander k)).
Qed.

Lemma undisturbed_init k mint a f d seeds w w' :
  invoke (InitializeMint2 mint a f d) seeds w = Some w' -> undisturbed k w w'.
Proof.
  intros E. split; [|by apply (account_stays_none (InitializeMint2 _ _ _ _) _ _ _ _ eq_refl E)].
  intros t d0 Ht. destruct (token_effect (InitializeMint2 _ _ _ _) _ _ _ _ _ _ eq_refl E Ht) as (d' & Ht' & Hd).
  exists d'. split; [|done]. rewrite Ht'. unfold change, add_amount. cbn. rewrite Z.add_0_r. by destruct t.
Qed.
Lemma undisturbed_mint_account k from mint lam seeds w w' :
  invoke (CreateAccount from mint lam MINT_LEN SPL_TOKEN_ID) seeds w = Some w' -> undisturbed k w w'.
Proof.
  intros E. apply undisturbed_same. destruct (decide (k = mint)) as [->|Hne].
  - apply create_fresh in E as (Hs & _ & Hd & Ho). unfold token_at. rewrite Hs, Hd, Ho. cbn.
    destruct (unpack_token_account _) as [t| | |] eqn:Et; try done.
    apply account_length in Et. rewrite length_replicate in Et. unfold MINT_LEN in Et. lia.
  - destruct (create_frame _ _ _ _ _ _ _ _ k E Hne) as [E1 E2]. unfold token_at. by rewrite E1, E2.
Qed.
Lemma undisturbed_create_mint k admin mint authority bump decimals w u w' :
  create_wusd_mint admin mint authority bump decimals w = (Ok u, w') -> undisturbed k w w'.
Proof.
  intros E. unfold create_wusd_mint in E. inv_world. unfold when in E. case_match; [|by injection E as <-].
  inv_world. etrans; [by eapply undisturbed_mint_account|by eapply undisturbed_init].
Qed.

(** The rest of the instruction disturbs no bystander. *)
Lemma init_stables_run accounts decimals mints w u w' :
  process_init_stablecoin_registry accounts decimals mints w = (Ok u, w') ->
  exists admin mint authority bump mint_bump w1 w2,
    find_program_address [SEED_WUSD_MINT] = (mint, mint_bump) /\
    find_program_address [SEED_WUSD_AUTHORITY] = (authority, bump) /\
    (forall ok pre, Bystander ok pre -> pre w -> pre w1) /\
    create_wusd_mint admin mint authority mint_bump decimals w1 = (Ok tt, w2) /\
    (forall ok pre, Bystander ok pre -> pre w -> pre w2 -> pre w').
Proof.
  intros E. unfold process_init_stablecoin_registry in E. inv_world.
  match goal with Ha : authorize _ _ w = _, Hc : create_if_empty ?p ?k ?s ?l ?b ?w0 = _, Hm : create_wusd_mint _ _ _ _ _ _ = _ |- _ =>
    rename Ha into Ea, Hc into Ec, Hm into Em end.
  do 7 eexists. split; [eassumption|]. split; [eassumption|]. split; [|split; [exact Em|]].
  - intros ok pre Y Hw. eapply (passive_create_if_empty ok pre _ _ _ _ _ _ _ _ Ec).
    by eapply (passive_authorize pre _ _ _ _ _ Ea).
  - intros ok pre Y Hw Hw2. pose proof (passive_authorize pre _ _ _ _ _ Ea Hw) as Hw0.
    pose proof (finds_create_if_empty ok pre _ _ _ _ _ _ _ _ Hw0 Ec) as Hk.
    by eapply (passive_init ok pre _ (stablecoins_init _ _ _ _) Hk); [|exact E|].
Qed.
Lemma undisturbed_init_stables k accounts decimals mints w u w' :
  process_init_stablecoin_registry accounts decimals mints w = (Ok u, w') -> undisturbed k w w'.
Proof.
  intros (admin & mint & authority & bump & mbump & w1 & w2 & _ & _ & H1 & Hm & H2)%init_stables_run.
  assert (U1 : undisturbed k w w1) by by apply passive_undisturbed.
  pose proof (undisturbed_create_mint k _ _ _ _ _ _ _ _ Hm) as U2.
  assert (U : undisturbed k w w2) by by etrans.
  split.
  - intros t d Hk. apply (H2 _ _ (kept_bystander k t d)); [by exists d|by apply U].
  - intros Hn. apply (H2 _ _ (no_token_bystander k)); [done|by apply U].
Qed.
End tokens.

(* ------------------------------------------------------------------ *)
(** ** The demo token program *)

Lemma demo_set_amount_token bs t a : demo_token bs = Ok t -> is_u64 a ->
  demo_token (demo_set_amount bs a) = Ok {| ta_mint := t.(ta_mint); ta_owner := t.(ta_owner); ta_amount := a |}.
Proof.
  unfold demo_token, demo_set_amount. intros Ht Ha. destruct (Nat.eqb_spec (length bs) 165) as [Hl|]; [|done].
  cbn [andb] in Ht. case_match; [|done]. injection Ht as <-. cbn [ta_mint ta_owner].
  assert (H8 : length (le_bytes 8 a) = 8%nat) by apply length_le_bytes.
  assert (H64 : length (take 64 bs) = 64%nat) by (rewrite length_take; lia).
  replace (length _ =? 165)%nat with true; cycle 1.
  { symmetry. apply Nat.eqb_eq. rewrite !length_app, H8, H64, length_drop. lia. }
  replace (le_num _) with a; cycle 1.
  { symmetry. rewrite drop_app_length' by done. rewrite take_app_length' by done. apply le_num_small.
    change (256 ^ Z.of_nat 8) with (U64_MAX + 1). lia. }
  replace (in_u U64_MAX a) with true by (symmetry; by apply in_u_spec). cbn [andb].
  f_equal. f_equal.
  - rewrite take_app_le by lia. by rewrite take_take.
  - rewrite drop_app_le by lia. rewrite take_app_le by (rewrite length_drop; lia).
    by rewrite !skipn_firstn_comm, take_take.
Qed.

Section demo.
Context (slot now : Z) (ixs : list Instruction).
Abbreviation demo_at := (token_at demo_token (fun _ => None)).

Lemma demo_at_set k bs w j : (acct w k).(acc_owner) = SPL_TOKEN_ID ->
  demo_at j (set_data k (DBytes bs) w) =
  if k =? j then match demo_token bs with Ok t => Some (t, None) | _ => None end else demo_at j w.
Proof.
  intros Ho. unfold token_at. rewrite owner_set. destruct (Z.eqb_spec k j) as [<-|Hk].
  - by rewrite Ho, acct_set_eq, Z.eqb_refl.
  - by rewrite acct_set_ne.
Qed.
Lemma demo_add_effect k x w w' j t d : demo_add k x w = Some w' -> demo_at j w = Some (t, d) ->
  demo_at j w' = Some (add_amount (if k =? j then x else 0) t, d).
Proof.
  unfold demo_add. intros H Ht. case_match eqn:Eo; [|done]. apply Z.eqb_eq in Eo.
  destruct (acct w k).(acc_data) as [| | | | | | | | | | | | | |bs] eqn:Eb; try done.
  destruct (demo_token bs) as [t0|e| |] eqn:Et; try done.
  destruct (in_u U64_MAX _) eqn:Eu; [|done]. apply in_u_spec in Eu. injection H as <-.
  rewrite demo_at_set by done. destruct (Z.eqb_spec k j) as [<-|].
  - rewrite (demo_set_amount_token _ _ _ Et Eu). unfold token_at in Ht. rewrite Eo, Z.eqb_refl, Eb, Et in Ht.
    by injection Ht as <- <-.
  - rewrite Ht. unfold add_amount. rewrite Z.add_0_r. by destruct t.
Qed.
Lemma demo_take_token k a x w w' : demo_take k a x w = Some w' ->
  exists t d, demo_at k w = Some (t, d) /\ t.(ta_owner) = a.
Proof.
  intros (_ & Ha & bs & t & Hd & Ht & Ho)%demo_take_some. exists t, None. split; [|done].
  unfold demo_add in Ha. unfold token_at. case_match; [|done]. by rewrite Hd, Ht.
Qed.

Lemma demo_add_runs k x w t d : demo_at k w = Some (t, d) -> is_u64 (t.(ta_amount) + x) ->
  exists w', demo_add k x w = Some w'.
Proof.
  unfold token_at, demo_add. intros Ht Hx. case_match; [|done].
  destruct (acct w k).(acc_data) as [| | | | | | | | | | | | | |bs]; try done.
  destruct (demo_token bs) as [t0|e| |] eqn:Et; try done. injection Ht as -> _.
  apply in_u_spec in Hx. rewrite Hx. by eexists.
Qed.
Lemma demo_take_runs k x w t d : demo_at k w = Some (t, d) -> 0 <= x <= t.(ta_amount) ->
  is_u64 t.(ta_amount) -> exists w', demo_take k t.(ta_owner) x w = Some w' /\ demo_add k (- x) w = Some w'.
Proof.
  intros Ht Hx Hu. destruct (demo_add_runs k (- x) w t d Ht) as [w' Hw]; [lia|]. exists w'. split; [|done].
  unfold token_at in Ht. case_match; [|done]. unfold demo_take.
  destruct (acct w k).(acc_data) as [| | | | | | | | | | | | | |bs]; try done.
  destruct (demo_token bs) as [t0|e| |] eqn:Et; try done. injection Ht as -> _.
  rewrite Z.eqb_refl. by replace (in_u U64_MAX x) with true by (symmetry; apply in_u_spec; lia).
Qed.
Lemma demo_token_u64 bs t : demo_token bs = Ok t -> is_u64 t.(ta_amount).
Proof.
  unfold demo_token. intros H. case_match eqn:E; [|done]. apply andb_true_iff in E as [_ E%in_u_spec].
  by injection H as <-.
Qed.

(** Accounts that hold no token account, and mints. *)
Definition still (k : Pubkey) (bs : list Z) (w : World) : Prop :=
  (acct w k).(acc_owner) = SPL_TOKEN_ID /\ (acct w k).(acc_data) = DBytes bs.
Lemma demo_at_none bs k w : still k bs w -> length bs <> 165%nat -> demo_at k w = None.
Proof.
  unfold token_at, demo_token. intros [-> ->] Hl. rewrite Z.eqb_refl. destruct (Nat.eqb_spec (length bs) 165); [done|].
  reflexivity.
Qed.
Lemma demo_add_at k x w w' : demo_add k x w = Some w' -> exists t d, demo_at k w = Some (t, d).
Proof.
  unfold demo_add, token_at. intros H. case_match; [|done].
  destruct (acct w k).(acc_data) as [| | | | | | | | | | | | | |bs]; try done.
  destruct (demo_token bs); try done. eauto.
Qed.
Lemma demo_add_other k x w w' j : demo_add k x w = Some w' -> k <> j -> alike (acct w j) (acct w' j).
Proof.
  unfold demo_add. intros H Hne. repeat case_match; simplify_eq. rewrite acct_set_ne by done. apply alike_refl.
Qed.
Lemma demo_add_none k x w w' j : demo_add k x w = Some w' -> demo_at j w = None -> demo_at j w' = None.
Proof.
  intros H Hj. destruct (demo_add_at _ _ _ _ H) as (t & d & Hk). destruct (decide (k = j)) as [->|Hne]; [congruence|].
  unfold token_at in *. by destruct (demo_add_other _ _ _ _ _ H Hne) as [-> ->].
Qed.
Abbreviation demo_supply_at := (supply_at demo_supply).
Lemma token_no_supply bs t : demo_token bs = Ok t -> demo_supply bs = None.
Proof. unfold demo_token, demo_supply. by destruct (Nat.eqb_spec (length bs) 165) as [->|]. Qed.
Lemma demo_add_supply k x w w' j : demo_add k x w = Some w' -> demo_supply_at j w' = demo_supply_at j w.
Proof.
  intros H. destruct (decide (k = j)) as [<-|Hne]; cycle 1.
  { unfold supply_at. by destruct (demo_add_other _ _ _ _ _ H Hne) as [-> ->]. }
  unfold demo_add in H. case_match eqn:Eo; [|done].
  destruct (acct w k).(acc_data) as [| | | | | | | | | | | | | |bs] eqn:Eb; try done.
  destruct (demo_token bs) as [t|e| |] eqn:Et; try done. destruct (in_u U64_MAX _) eqn:Eu; [|done].
  apply in_u_spec in Eu. injection H as <-. unfold supply_at. rewrite owner_set, Eo, acct_set_eq, Eb. cbn [acc_data with_data].
  by rewrite (token_no_supply _ _ Et), (token_no_supply _ _ (demo_set_amount_token _ _ _ Et Eu)).
Qed.

Lemma demo_supply_write bs n v : demo_supply bs = Some n -> is_u64 v ->
  demo_supply (take 36 bs ++ le_bytes 8 v ++ drop 44 bs) = Some v.
Proof.
  unfold demo_supply. destruct (Nat.eqb_spec (length bs) 82) as [Hl|]; [|done]. intros _ Hv.
  assert (H36 : length (take 36 bs) = 36%nat) by (rewrite length_take; lia).
  assert (H8 : length (le_bytes 8 v) = 8%nat) by apply length_le_bytes.
  rewrite !length_app, H8, H36, length_drop, Hl. cbn [Nat.sub Nat.add Nat.eqb]. f_equal.
  rewrite drop_app_length' by done. rewrite take_app_length' by done. apply le_num_small.
  change (256 ^ Z.of_nat 8) with (U64_MAX + 1). lia.
Qed.
Lemma demo_issue_some m x w w' : demo_issue m x w = Some w' ->
  exists bs bs' n, still m bs w /\ demo_supply bs = Some n /\ demo_supply bs' = Some (n + x) /\
    w' = set_data m (DBytes bs') w.
Proof.
  unfold demo_issue. intros H. case_match eqn:Eo; [|done]. apply Z.eqb_eq in Eo.
  destruct (acct w m).(acc_data) as [| | | | | | | | | | | | | |bs] eqn:Eb; try done.
  destruct (demo_supply bs) as [n|] eqn:En; [|done]. destruct (in_u U64_MAX (n + x)) eqn:Eu; [|done].
  apply in_u_spec in Eu. exists bs, (take 36 bs ++ le_bytes 8 (n + x) ++ drop 44 bs), n.
  split; [by split|]. split; [done|]. split; [by eapply demo_supply_write|congruence].
Qed.
Lemma supply_not_token bs n : demo_supply bs = Some n -> length bs <> 165%nat.
Proof. unfold demo_supply. destruct (Nat.eqb_spec (length bs) 82); [lia|done]. Qed.
Lemma demo_issue_at m x w w' j : demo_issue m x w = Some w' -> demo_at j w' = demo_at j w.
Proof.
  intros (bs & bs' & n & Hm & Hn & Hn' & ->)%demo_issue_some. destruct (decide (m = j)) as [<-|Hne].
  - rewrite (demo_at_none bs m w) by (done || by eapply supply_not_token). apply (demo_at_none bs').
    + split; [by rewrite owner_set; apply Hm|by rewrite acct_set_eq].
    + by eapply supply_not_token.
  - unfold token_at. by rewrite acct_set_ne.
Qed.
Lemma demo_still bs j w : still j bs w -> demo_supply_at j w = demo_supply bs.
Proof. unfold supply_at. by intros [-> ->]. Qed.
Lemma still_set j bs w : (acct w j).(acc_owner) = SPL_TOKEN_ID -> still j bs (set_data j (DBytes bs) w).
Proof. intros Ho. split; [by rewrite owner_set|by rewrite acct_set_eq]. Qed.
Lemma demo_issue_supply m x w w' j : demo_issue m x w = Some w' ->
  demo_supply_at j w' = (fun n => n + if m =? j then x else 0) <$> demo_supply_at j w.
Proof.
  intros (bs & bs' & n & Hm & Hn & Hn' & ->)%demo_issue_some. destruct (Z.eqb_spec m j) as [<-|Hne].
  - rewrite (demo_still bs' m), (demo_still bs m), Hn, Hn' by (done || by apply still_set, Hm). done.
  - unfold supply_at. rewrite acct_set_ne by done. case_match; [|done]. case_match; try done.
    by rewrite add_nothing.
Qed.

(** Initialising a mint. *)
Lemma demo_init_some m a f d seeds w w' : demo_invoke (InitializeMint2 m a f d) seeds w = Some w' ->
  exists bs bs', still m bs w /\ length bs = 82%nat /\ demo_supply bs' = Some 0 /\ w' = set_data m (DBytes bs') w.
Proof.
  cbn. intros H. destruct (acct w m).(acc_data) as [| | | | | | | | | | | | | |bs] eqn:Eb; try done.
  case_match eqn:E; [|done]. apply andb_true_iff in E as [Eo%Z.eqb_eq El%Nat.eqb_eq]. injection H as <-.
  exists bs, (replicate 44 0 ++ [d] ++ replicate 37 0). split; [by split|]. split; [done|].
  split; reflexivity.
Qed.
Lemma demo_init_at m a f d seeds w w' j : demo_invoke (InitializeMint2 m a f d) seeds w = Some w' ->
  demo_at j w' = demo_at j w.
Proof.
  intros (bs & bs' & Hm & Hl & Hs & ->)%demo_init_some. destruct (decide (m = j)) as [<-|Hne].
  - rewrite (demo_at_none bs m w) by first [done|lia]. apply (demo_at_none bs').
    + split; [by rewrite owner_set; apply Hm|by rewrite acct_set_eq].
    + by eapply supply_not_token.
  - unfold token_at. by rewrite acct_set_ne.
Qed.

(** ** The laws hold *)

Lemma demo_debit c seeds w w' src a n : debits c = Some (src, a, n) -> demo_invoke c seeds w = Some w' ->
  is_u64 n /\ exists t d, demo_at src w = Some (t, d) /\ (t.(ta_owner) = a \/ d = Some a).
Proof.
  intros Hd E. destruct c; try done; injection Hd as -> -> ->; cbn in E;
    apply bind_Some in E as (w1 & E & _); (split; [by apply demo_take_some in E as [? _]|]);
    destruct (demo_take_token _ _ _ _ _ E) as (t & d & ? & ?); eauto.
Qed.
Lemma demo_credit c seeds w w' dst n : credits c = Some (dst, n) -> demo_invoke c seeds w = Some w' ->
  is_u64 n /\ demo_at dst w <> None.
Proof.
  intros Hc E. destruct c; try done; injection Hc as -> ->; cbn in E.
  - apply bind_Some in E as (w1 & (Hu & E1 & _)%demo_take_some & E2). split; [exact Hu|].
    apply demo_add_at in E2 as (t & d & Ht). intros Hn. by rewrite (demo_add_none _ _ _ _ _ E1 Hn) in Ht.
  - case_match eqn:Eu; [|done]. apply bind_Some in E as (w1 & (t & d & Ht)%demo_add_at & _).
    split; [by apply in_u_spec|]. by rewrite Ht.
Qed.
Lemma demo_effect c seeds w w' k t d : token_call c = true -> demo_invoke c seeds w = Some w' ->
  demo_at k w = Some (t, d) -> demo_at k w' = Some (add_amount (change c k) t, d).
Proof.
  intros Hc E Ht. destruct c as [| |src dst a n|m0 k0 a n|k0 m0 a n|m0 a f n]; try done; unfold change; cbn [debits credits].
  - apply bind_Some in E as (w1 & (_ & E1 & _)%demo_take_some & E2).
    pose proof (demo_add_effect _ _ _ _ _ _ _ E1 Ht) as H1.
    rewrite (demo_add_effect _ _ _ _ _ _ _ E2 H1). unfold add_amount. cbn. do 3 f_equal. repeat case_match; lia.
  - cbn in E. case_match; [|done]. apply bind_Some in E as (w1 & E1 & E2). rewrite (demo_issue_at _ _ _ _ _ E2).
    rewrite (demo_add_effect _ _ _ _ _ _ _ E1 Ht). do 3 f_equal. lia.
  - apply bind_Some in E as (w1 & (_ & E1 & _)%demo_take_some & E2). rewrite (demo_issue_at _ _ _ _ _ E2).
    rewrite (demo_add_effect _ _ _ _ _ _ _ E1 Ht). do 3 f_equal. case_match; lia.
  - rewrite (demo_init_at _ _ _ _ _ _ _ _ E), Ht. unfold add_amount. rewrite Z.add_0_r. by destruct t.
Qed.
Lemma demo_stays_none c seeds w w' k : token_call c = true -> demo_invoke c seeds w = Some w' ->
  demo_at k w = None -> demo_at k w' = None.
Proof.
  intros Hc E Hk. destruct c as [| |src dst a n|m0 k0 a n|k0 m0 a n|m0 a f n]; try done.
  - apply bind_Some in E as (w1 & (_ & E1 & _)%demo_take_some & E2). by eapply demo_add_none, demo_add_none.
  - cbn in E. case_match; [|done]. apply bind_Some in E as (w1 & E1 & E2). rewrite (demo_issue_at _ _ _ _ _ E2).
    by eapply demo_add_none.
  - apply bind_Some in E as (w1 & (_ & E1 & _)%demo_take_some & E2). rewrite (demo_issue_at _ _ _ _ _ E2).
    by eapply demo_add_none.
  - by rewrite (demo_init_at _ _ _ _ _ _ _ _ E).
Qed.
Lemma demo_supply_effect c seeds w w' k : token_call c = true -> initialises c <> Some k ->
  demo_invoke c seeds w = Some w' ->
  demo_supply_at k w' = (fun n => n + issued c k) <$> demo_supply_at k w.
Proof.
  intros Hc Hi E. destruct c as [| |src dst a x|m0 k0 a x|k0 m0 a x|m0 a f x]; try done; cbn [issued].
  - apply bind_Some in E as (w1 & (_ & E1 & _)%demo_take_some & E2). rewrite add_nothing.
    by rewrite (demo_add_supply _ _ _ _ _ E2), (demo_add_supply _ _ _ _ _ E1).
  - cbn in E. case_match; [|done]. apply bind_Some in E as (w1 & E1 & E2).
    by rewrite (demo_issue_supply _ _ _ _ _ E2), (demo_add_supply _ _ _ _ _ E1).
  - apply bind_Some in E as (w1 & (_ & E1 & _)%demo_take_some & E2).
    by rewrite (demo_issue_supply _ _ _ _ _ E2), (demo_add_supply _ _ _ _ _ E1).
  - apply demo_init_some in E as (bs0 & bs' & _ & _ & _ & ->). rewrite add_nothing. cbn in Hi.
    unfold supply_at. by rewrite acct_set_ne by (intros ->; done).
Qed.
Lemma demo_at_u64 k w t d : demo_at k w = Some (t, d) -> is_u64 t.(ta_amount).
Proof. unfold token_at. intros H. repeat case_match; try done. injection H as <- _. by eapply demo_token_u64. Qed.
Lemma demo_transfer src dst a n seeds w s d t d' : demo_at src w = Some (s, d) -> demo_at dst w = Some (t, d') ->
  s.(ta_owner) = a -> 0 <= n <= s.(ta_amount) -> t.(ta_amount) + n <= U64_MAX ->
  exists w', demo_invoke (TokenTransfer src dst a n) seeds w = Some w'.
Proof.
  intros Hs Ht <- Hn Hroom. pose proof (demo_at_u64 _ _ _ _ Hs). pose proof (demo_at_u64 _ _ _ _ Ht).
  destruct (demo_take_runs src n w s d Hs Hn) as (w1 & Hw1 & E1); [done|]. cbn. rewrite Hw1. cbn.
  pose proof (demo_add_effect _ _ _ _ _ _ _ E1 Ht) as H1.
  destruct (demo_add_runs dst n w1 _ _ H1) as [w' Hw]; [|by exists w'].
  cbn. destruct (Z.eqb_spec src dst) as [<-|]; [|lia]. rewrite Hs in Ht. injection Ht as <- <-. lia.
Qed.

#[refine] Instance demo_tokens : @TokenLaws (demo slot now ixs) :=
  {| token_delegate _ := None; token_frozen _ := false; unpack_supply := demo_supply |}.
Proof.
  - intros c seeds w w' src a n Hd E. by apply (demo_debit c seeds w w' src a n).
  - intros c seeds w w' dst n Hc E. by apply (demo_credit c seeds w w' dst n).
  - intros c seeds w w' src a n Hd E. by apply (demo_debit c seeds w w' src a n).
  - intros c seeds w w' k t d Hc E Ht. exists d. split; [by eapply demo_effect|done].
  - exact demo_token_u64.
  - intros src dst a bump n seeds w s d t d' _ Hs Ht Ho _ _ _. by eapply demo_transfer.
  - intros c seeds w w' dst n Hc E. by apply (demo_credit c seeds w w' dst n).
  - exact demo_stays_none.
  - intros bs t Ht. cbn in Ht. unfold demo_token in Ht. destruct (Nat.eqb_spec (length bs) 165); [lia|done].
  - exact demo_supply_effect.
  - intros m a f d seeds w w' (bs & bs' & [Ho _] & _ & Hs & ->)%demo_init_some.
    by rewrite (demo_still bs') by by apply still_set.
Defined.
End demo.
