(* ===== verification/Vaults.v ===== *)
(** * The vault holds what the program owes

    The token side of custody: what each instruction does to the balance of a mint's vault,
    against what it does to the program's liabilities ([Conservation]). *)
From S2P Require Import Prelude IntentBook Ledger Governance Attestation World Demo Footprint Totals Solvency MatchIx Intent Settlement Lifecycle Authority Custody Dispatch Bystanders DemoWorld BookHistory Conservation Evolution Lifetimes Invariants Backing Backed Tokens.

(* ------------------------------------------------------------------ *)
(** ** One vault *)

Section vault.
Context {R : Runtime} {L : RuntimeLaws} {T : TokenLaws} (mint : Pubkey).

(** The vault of the mint and its authority, addresses the program derives. *)
Definition vault_authority : Pubkey := (find_program_address [SEED_VAULT; key_seed mint]).1.
Definition vault : Pubkey := get_associated_token_address vault_authority mint.

(** The vault exists, has no delegate, and holds [n]. *)
Definition vault_holds (n : Z) (w : World) : Prop :=
  token_at unpack_token_account token_delegate vault w =
  Some ({| ta_mint := mint; ta_owner := vault_authority; ta_amount := n |}, None).

(** A step after which it holds at least [x] more. *)
Definition gains (x : Z) (w w' : World) : Prop :=
  forall n, vault_holds n w -> exists n', vault_holds n' w' /\ n + x <= n'.

Lemma gains_refl w : gains 0 w w.
Proof. intros n Hn. exists n. split; [done|lia]. Qed.
Lemma gains_trans x y w1 w2 w3 : gains x w1 w2 -> gains y w2 w3 -> gains (x + y) w1 w3.
Proof.
  intros H1 H2 n Hn. destruct (H1 n Hn) as (n1 & Hn1 & ?). destruct (H2 n1 Hn1) as (n2 & Hn2 & ?).
  exists n2. split; [done|lia].
Qed.
#[export] Instance gains_preorder : PreOrder (gains 0).
Proof. split; [exact gains_refl|]. intros w1 w2 w3. apply (gains_trans 0 0). Qed.

Lemma vault_bytes n w : vault_holds n w ->
  (acct w vault).(acc_owner) = SPL_TOKEN_ID /\ exists bs, (acct w vault).(acc_data) = DBytes bs.
Proof.
  unfold vault_holds, token_at. case_match eqn:E; [|done]. apply Z.eqb_eq in E. intros H.
  split; [done|]. destruct (acc_data (acct w vault)); try done. by eexists.
Qed.

(** Writes elsewhere. *)
Lemma gains_same w w' :
  (acct w' vault).(acc_owner) = (acct w vault).(acc_owner) ->
  (acct w' vault).(acc_data) = (acct w vault).(acc_data) -> gains 0 w w'.
Proof. intros Ho Hd n Hn. exists n. split; [|lia]. unfold vault_holds, token_at in *. by rewrite Ho, Hd. Qed.
Lemma gains_set k d w : k <> vault -> gains 0 w (set_data k d w).
Proof. intros Hk. apply gains_same; [apply owner_set|by rewrite acct_set_ne]. Qed.
Lemma gains_mut `{AccountType A} {B} k (m : M A B) :
  (forall bs, proj (T := A) (DBytes bs) = None) -> respects (gains 0) (with_mut k m).
Proof.
  intros Hp. apply respects_with_mut; [exact _|]. intros w v r v' Hd _ n Hn. apply gains_set; [|done].
  intros ->. apply vault_bytes in Hn as [_ [bs Hb]]. rewrite Hb in Hd.
  specialize (Hp bs). by rewrite Hd, proj_inj in Hp.
Qed.

(** ** Calls *)

Lemma gains_call c seeds w w' x : token_call c = true -> invoke c seeds w = Some w' ->
  (forall n, vault_holds n w -> x <= change c vault) -> gains x w w'.
Proof.
  intros Hc E Hx n Hn. destruct (token_effect c seeds w w' _ _ _ Hc E Hn) as (d' & Hv & Hd).
  rewrite (Hd eq_refl) in Hv. exists (n + change c vault). split; [exact Hv|]. specialize (Hx n Hn). lia.
Qed.
(** Only the vault's authority takes from it. *)
Lemma not_debited c seeds w w' src a n m : debits c = Some (src, a, n) -> invoke c seeds w = Some w' ->
  a <> vault_authority -> vault_holds m w -> src <> vault.
Proof.
  intros Hd E Ha Hm ->. destruct (debit_authorised c seeds w w' _ _ _ Hd E) as (t & d & Ht & Hor).
  unfold vault_holds in Hm. rewrite Hm in Ht. injection Ht as <- <-. cbn in Hor. by destruct Hor as [<-|].
Qed.
Lemma not_transferred src dst a n seeds w w' m : invoke (TokenTransfer src dst a n) seeds w = Some w' ->
  a <> vault_authority -> vault_holds m w -> src <> vault.
Proof. by apply (not_debited (TokenTransfer src dst a n) _ _ _ _ _ n). Qed.
(** What a call adds to it. *)
Lemma credited_nonneg c seeds w w' : invoke c seeds w = Some w' ->
  0 <= if credits c is Some (dst, x) then if dst =? vault then x else 0 else 0.
Proof.
  intros E. destruct (credits c) as [[dst x]|] eqn:Ec; [|done]. case_match; [|done].
  by apply (credit_u64 c seeds w w' dst x Ec) in E as [? _].
Qed.

Lemma gains_call_other c seeds w w' : token_call c = true ->
  (forall src a n, debits c = Some (src, a, n) -> a <> vault_authority) ->
  invoke c seeds w = Some w' -> gains 0 w w'.
Proof.
  intros Hc Ha E. eapply gains_call; [exact Hc|exact E|]. intros n Hn. unfold change.
  pose proof (credited_nonneg _ _ _ _ E) as Hcr. destruct (debits c) as [[[src a] x]|] eqn:Ed; [|lia].
  pose proof (not_debited c seeds w w' src a x n Ed E (Ha _ _ _ eq_refl) Hn) as Hne.
  rewrite (proj2 (Z.eqb_neq _ _) Hne). lia.
Qed.
Lemma gains_transfer src dst a n seeds w w' x : invoke (TokenTransfer src dst a n) seeds w = Some w' ->
  (0 <= n -> x <= (if dst =? vault then n else 0) - (if src =? vault then n else 0)) -> gains x w w'.
Proof.
  intros E Hx. eapply gains_call; [|exact E|]; [done|]. intros _ _. cbn. apply Hx.
  by apply (credit_u64 (TokenTransfer src dst a n) seeds w w' dst n eq_refl).
Qed.

(** ** Custody *)

(** No account the program derives signs a transaction: there is no key for it. *)
Definition keyless (k : Pubkey) (accounts : list AccountInfo) : Prop :=
  Forall (fun ai => ai.(is_signer) = true -> ai.(key) <> k) accounts.

Lemma signer_not k accounts i ai : keyless k accounts -> accounts !! i = Some ai -> ai.(is_signer) = true ->
  ai.(key) <> k.
Proof. intros Hk Hi. exact (Forall_lookup_1 _ _ _ _ Hk Hi). Qed.

Lemma gains_margin {A} k (m : M MarginAccount A) : yields (gains 0) (with_mut k m).
Proof. by apply yields_respects, gains_mut. Qed.
Lemma gains_treasury {A} k (m : M FeeTreasury A) : yields (gains 0) (with_mut k m).
Proof. by apply yields_respects, gains_mut. Qed.

(** What the program reads of a token account is what the token program holds. *)
Lemma vault_read n w bs t : vault_holds n w -> holds vault (DBytes bs) w -> unpack_token_account bs = Ok t ->
  t.(ta_mint) = mint /\ t.(ta_owner) = vault_authority.
Proof.
  unfold vault_holds, token_at, holds. intros Hn Hb Ht. case_match; [|done]. rewrite Hb, Ht in Hn.
  by injection Hn as ->.
Qed.

Lemma gains_deposit accounts amount w u w' : keyless vault_authority accounts ->
  process_deposit accounts amount w = (Ok u, w') ->
  exists ai, accounts !! 2%nat = Some ai /\ gains (if ai.(key) =? mint then amount else 0) w w'.
Proof.
  intros Hk E. unfold process_deposit, require_token_program, validate_vault in E. inv_world.
  eexists. split; [done|].
  lazymatch goal with
  | Hs : is_signer ?o = true, Hi : invoke (TokenTransfer ?src _ (key ?o) _) _ w = Some ?w1,
    Ho : accounts !! _ = Some ?o, Hm : with_mut _ _ ?w1 = _ |- gains ?x _ _ =>
      intros n Hn;
      assert (Hne : src <> vault) by (by eapply not_transferred; [exact Hi|by eapply signer_not|exact Hn]);
      revert n Hn; change (gains x w w'); replace x with (x + 0) by lia;
      apply (gains_trans x 0 w w1); [|by eapply gains_margin];
      apply (gains_transfer _ _ _ _ _ _ _ _ Hi); intros Hnn
  end.
  rewrite (proj2 (Z.eqb_neq _ _) Hne).
  destruct (Z.eqb_spec (key x5) mint) as [E'|]; [|case_match; lia].
  match goal with Hf : find_program_address [SEED_VAULT; _] = (?a, _), Hv : _ = get_associated_token_address _ _ |- _ =>
    rewrite Hv; unfold vault, vault_authority; rewrite E' in Hf |- *; rewrite Hf end.
  cbn. rewrite Z.eqb_refl. lia.
Qed.

(** Tokens paid out of an account of some mint. *)
Lemma gains_payout src dst a n seeds m t bs w w1 w2 :
  holds src (DBytes bs) w -> unpack_token_account bs = Ok t -> t.(ta_mint) = m -> gains 0 w w1 ->
  invoke (TokenTransfer src dst a n) seeds w1 = Some w2 ->
  gains (if m =? mint then - n else 0) w w2.
Proof.
  intros Hb Ht Hm Hg E k Hk.
  assert (Hs : src = vault -> m = mint).
  { intros ->. destruct (vault_read _ _ _ _ Hk Hb Ht) as [<- _]. done. }
  assert (H : gains (if m =? mint then - n else 0) w1 w2).
  { apply (gains_transfer _ _ _ _ _ _ _ _ E). intros Hn.
    destruct (Z.eqb_spec m mint), (Z.eqb_spec src vault); repeat case_match; lia. }
  replace (if m =? mint then - n else 0) with (0 + (if m =? mint then - n else 0)) by lia.
  by apply (gains_trans 0 _ w w1 w2).
Qed.

Lemma gains_withdraw accounts amount w u w' : process_withdraw accounts amount w = (Ok u, w') ->
  exists ai, accounts !! 2%nat = Some ai /\ gains (if ai.(key) =? mint then - amount else 0) w w'.
Proof.
  intros E. unfold process_withdraw, require_token_program, validate_vault in E. inv_world.
  eexists. split; [done|]. eapply gains_payout; [eassumption..| |eassumption]. by eapply gains_margin.
Qed.
Lemma gains_sweep accounts amount w u w' : process_sweep_fees accounts amount w = (Ok u, w') ->
  exists ai, accounts !! 5%nat = Some ai /\ gains (if ai.(key) =? mint then - amount else 0) w w'.
Proof.
  intros E. unfold process_sweep_fees, require_token_program, require_admin in E. inv_world.
  eexists. split; [done|]. eapply gains_payout; [eassumption..| |eassumption]. by eapply gains_treasury.
Qed.

(** Wrapping and unwrapping move other tokens. *)
Lemma gains_wrap accounts amount : keyless vault_authority accounts ->
  yields (gains 0) (process_wrap_stablecoin accounts amount).
Proof.
  intros Hk w u w' E. unfold process_wrap_stablecoin, require_token_program, check_accepted, check_reserve in E.
  inv_world. etrans; (eapply gains_call_other; cycle 2; [eassumption|reflexivity|]); [|done]. intros src a n [= <- <- <-].
  by eapply signer_not.
Qed.
Lemma gains_unwrap accounts amount : keyless vault_authority accounts ->
  vault_authority <> (find_program_address [SEED_WUSD_AUTHORITY]).1 ->
  yields (gains 0) (process_unwrap_stablecoin accounts amount).
Proof.
  intros Hk Hne w u w' E.
  unfold process_unwrap_stablecoin, require_token_program, check_accepted, check_reserve in E.
  inv_world. etrans; (eapply gains_call_other; cycle 2; [eassumption|reflexivity|]); intros src a n [= <- <- <-];
    [by eapply signer_not|].
  match goal with H : find_program_address [SEED_WUSD_AUTHORITY] = _ |- _ => rewrite H in Hne end. done.
Qed.

(* ------------------------------------------------------------------ *)
(** ** Every instruction *)

Context {B : Borsh}.

(** What moves no tokens leaves the vault as it is. *)
Lemma gains_tokens w w' :
  token_at unpack_token_account token_delegate vault w' = token_at unpack_token_account token_delegate vault w ->
  gains 0 w w'.
Proof. intros E n Hn. exists n. split; [unfold vault_holds; by rewrite E|lia]. Qed.
Lemma gains_undisturbed w w' : undisturbed vault w w' -> gains 0 w w'.
Proof.
  intros [H _] n Hn. destruct (H _ _ Hn) as (d & Hv & Hd). rewrite Hd in Hv by done. exists n. split; [done|lia].
Qed.
Lemma flow_other t accounts payload : calls_tokens t = false -> flow mint accounts (tag_byte t :: payload) = 0.
Proof. intros Ht. unfold flow. rewrite tag_try_from_byte. by destruct t. Qed.

Lemma instruction_gains t accounts payload w w' :
  keyless vault_authority accounts -> vault_authority <> (find_program_address [SEED_WUSD_AUTHORITY]).1 ->
  run_instruction t accounts payload w = (Ok tt, w') ->
  gains (flow mint accounts (tag_byte t :: payload)) w w'.
Proof.
  intros Hk Hne E. destruct (calls_tokens t) eqn:Ht; cycle 1.
  { rewrite flow_other by done. eapply gains_tokens, passive_tokens, other_instruction_passive; done. }
  unfold flow. rewrite tag_try_from_byte. destruct t; try discriminate Ht; cbn [run_instruction] in E;
    apply bind_ok_inv in E as (args & w0 & [Hd ->]%decode_ok_inv & E); try rewrite Hd;
    try destruct args as [decimals mints].
  - apply gains_deposit in E as (? & -> & E); done.
  - apply gains_withdraw in E as (? & -> & E). by case_match.
  - apply gains_sweep in E as (? & -> & E). by case_match.
  - by eapply gains_undisturbed, undisturbed_init_stables.
  - by eapply gains_wrap.
  - by eapply gains_unwrap.
Qed.

(** What the vault holds above what the program owes never falls. *)
Lemma surplus_kept accounts data w n :
  keyless vault_authority accounts -> vault_authority <> (find_program_address [SEED_WUSD_AUTHORITY]).1 ->
  sane w -> inline_match data = false -> vault_holds n w ->
  let w' := transaction accounts data w in
  exists n', vault_holds n' w' /\ n - liabilities mint w <= n' - liabilities mint w'.
Proof.
  intros Hk Hne Hs Hi Hn. cbv zeta. unfold transaction.
  destruct (process accounts data w) as [[[]|e| |] w'] eqn:E; try (by exists n; split; [done|lia]).
  unfold process in E. destruct data as [|b payload]; [done|].
  apply bind_ok_inv in E as (t & w0 & Ht & E). apply lift_ok_inv in Ht as [Ht%tag_try_from_ok ->]. subst b.
  destruct (instruction_gains _ _ _ _ _ Hk Hne E n Hn) as (n' & Hn' & Hle). exists n'. split; [done|].
  destruct (instruction_books mint _ _ _ _ _ Hs Hi E) as [_ Hl]. rewrite Hl. lia.
Qed.
End vault.

(* ------------------------------------------------------------------ *)
(** ** Histories *)

(** What stays the same from transaction to transaction: the program, the addresses it
    derives, and how token accounts and mints are read. *)
Record Deployment := {
  dp_program : Pubkey;
  dp_derive : list (list Z) -> Pubkey * Z;
  dp_ata : Pubkey -> Pubkey -> Pubkey;
  dp_unpack : list Z -> Res TokenAccount;
  dp_delegate : list Z -> option Pubkey;
  dp_supply : list Z -> option Z;
}.
Definition deployment (R : Runtime) (T : TokenLaws) : Deployment := {|
  dp_program := program_id; dp_derive := find_program_address; dp_ata := get_associated_token_address;
  dp_unpack := unpack_token_account; dp_delegate := token_delegate;
  dp_supply := unpack_supply |}.

Section deployment.
Context (D : Deployment) (mint : Pubkey).

Definition margin_address (o m : Pubkey) : Pubkey * Z :=
  D.(dp_derive) [SEED_MARGIN; key_seed o; key_seed m].
Definition authority_of_vault : Pubkey := (D.(dp_derive) [SEED_VAULT; key_seed mint]).1.

(** What the vault of the mint holds, if it is a token account of the mint under the vault
    authority, without a delegate. *)
Definition vault_balance (w : World) : option Z :=
  match token_at D.(dp_unpack) D.(dp_delegate) (D.(dp_ata) authority_of_vault mint) w with
  | Some (t, None) =>
      if (t.(ta_owner) =? authority_of_vault) && (t.(ta_mint) =? mint) then Some t.(ta_amount) else None
  | _ => None
  end.
(** What the program owes in the mint. *)
Definition owed (w : World) : Z := sum_over D.(dp_program) (fun _ => data_holding mint) w.

(** A transaction in which no address the program derives for the vault signs, of any
    instruction but [ExpandIntentBook], a post with an inline match, and the creation of an
    instrument on unsound terms. *)
Definition sound_step (w w' : World) : Prop :=
  exists (R : Runtime) (_ : RuntimeLaws) (T : TokenLaws) (B : Borsh) (_ : BorshWidths) accounts data,
    deployment R T = D /\ keyless authority_of_vault accounts /\
    (forall payload, data <> tag_byte TExpandIntentBook :: payload) /\
    inline_match data = false /\ sound_create data /\ w' = transaction accounts data w.
End deployment.

Lemma vault_balance_holds (R : Runtime) (T : TokenLaws) mint n w :
  vault_balance (deployment R T) mint w = Some n <-> vault_holds mint n w.
Proof.
  unfold vault_balance, vault_holds, vault. cbn [dp_unpack dp_delegate dp_ata deployment].
  change (authority_of_vault (deployment R T) mint) with (vault_authority mint).
  destruct (token_at _ _ _ w) as [[[m o x] [d|]]|]; cbn; [by split|split|by split].
  - destruct (Z.eqb_spec o (vault_authority mint)), (Z.eqb_spec m mint); cbn; try done.
    intros [= <-]. by subst.
  - intros [= -> -> ->]. by rewrite !Z.eqb_refl.
Qed.

(** Terms on which the accounts are sane. *)
Lemma backed_sane `{R : Runtime} G w : backed program_id G w -> sound_terms G -> sane w.
Proof.
  intros Hb Hs. split; intros k v Ho Hv.
  - intros Hl. pose proof (fit_contract G k v w (bk_fits _ _ _ Hb) Ho Hv Hl) as Hc.
    destruct (bk_terms _ _ _ Hb _ _ _ Hc) as [Hpos _], (Hs _ _ _ Hc) as [H2 _]. split; lia.
  - pose proof (bk_fits _ _ _ Hb k Ho) as Hf. unfold holds in Hv. rewrite Hv in Hf.
    destruct Hf as (Hk & _ & <-). by destruct (Hs _ _ _ Hk).
Qed.

Lemma sound_step_keeps D mint G w w' n :
  authority_of_vault D mint <> (D.(dp_derive) [SEED_WUSD_AUTHORITY]).1 ->
  G.(tm_margin) = margin_address D -> sound_step D mint w w' ->
  backed D.(dp_program) G w -> sound_terms G -> vault_balance D mint w = Some n ->
  exists G' n', G ⊆ G' /\ backed D.(dp_program) G' w' /\ sound_terms G' /\
    vault_balance D mint w' = Some n' /\ n - owed D mint w <= n' - owed D mint w'.
Proof.
  intros Hne HG (R & L & T & B & W & accounts & data & <- & Hk & He & Hi & Hc & ->) Hb Hs Hn.
  destruct (transaction_backed G accounts data w) as (G' & Hsub & Hb' & Hs'); [|done..|].
  { intros o m. by rewrite HG. }
  apply vault_balance_holds in Hn.
  destruct (surplus_kept mint accounts data w n Hk Hne (backed_sane _ _ Hb Hs) Hi Hn) as (n' & Hn' & Hle).
  exists G', n'. split_and!; [done|done|by apply Hs'|by apply vault_balance_holds|exact Hle].
Qed.

(** A world without accounts of the program. *)
Lemma fresh_backed pid D w : (forall k, (acct w k).(acc_owner) <> pid) ->
  backed pid (no_terms D) w /\ sound_terms (no_terms D) /\ forall m, sum_over pid (fun _ => data_holding m) w = 0.
Proof.
  intros Hf.
  assert (Hz : forall h `{!Vanishes h}, sum_over pid h w = 0).
  { intros h Hv. refine (sum_zero pid h w _). intros k. unfold counted. by rewrite (proj2 (Z.eqb_neq _ _) (Hf k)). }
  split; [split|split].
  - intros k Ho. by apply Hf in Ho.
  - done.
  - intros o m. unfold reserved_of, offered_by. by rewrite !Hz by (by intros ?).
  - intros o m. unfold locked_of, staked_by. by rewrite !Hz by (by intros ?).
  - done.
  - intros m. apply Hz. by intros ?.
Qed.

Lemma sound_history D mint G w w' n :
  authority_of_vault D mint <> (D.(dp_derive) [SEED_WUSD_AUTHORITY]).1 ->
  G.(tm_margin) = margin_address D -> backed D.(dp_program) G w -> sound_terms G ->
  rtc (sound_step D mint) w w' -> vault_balance D mint w = Some n -> owed D mint w <= n ->
  exists G' n', G ⊆ G' /\ backed D.(dp_program) G' w' /\
    vault_balance D mint w' = Some n' /\ owed D mint w' <= n' /\
    n - owed D mint w <= n' - owed D mint w'.
Proof.
  intros Hne HG Hb Hs Hh. revert G n HG Hb Hs.
  induction Hh as [w|w w1 w2 Hstep Hh IH]; intros G n HG Hb Hs Hn Hle; [exists G, n; by split_and!|].
  destruct (sound_step_keeps D mint G w w1 n Hne HG Hstep Hb Hs Hn)
    as (G1 & n1 & Hsub & Hb1 & Hs1 & Hn1 & Hle1).
  destruct (IH G1 n1) as (G2 & n' & Hsub2 & ? & ? & ? & ?); [by destruct Hsub as [_ ->]|done..|lia|].
  exists G2, n'. split_and!; try done; [by etrans|lia].
Qed.
Lemma sound_history_ok D mint w w' : rtc (sound_step D mint) w w' ->
  (forall k, data_ok (acct w k).(acc_data)) -> forall k, data_ok (acct w' k).(acc_data).
Proof.
  intros Hh. induction Hh as [|w w1 w2 (R & L & T & B & W & accounts & data & HD & _ & _ & _ & _ & Hw) _ IH]; [done|].
  intros Hok. apply IH. eapply (step_ok D.(dp_program) w w1); [|done].
  exists R, L, B, accounts, data. split; [by rewrite <- HD|done].
Qed.

(** C1: the program can always pay what it owes. In every world reached by any history of
    transactions, whatever accounts, data, clocks and attestations they carry, the vault of a
    mint holds at least what the program owes in it (the free, reserved and locked balances
    of all margin accounts and the fees accrued), if it did at the start: what it holds above
    that never falls. A world without accounts of the program is such a start, and owes
    nothing. The exceptions, each shown by example elsewhere or not about value: an
    instrument whose bounty exceeds the pot, a post with an inline match, and
    [ExpandIntentBook]. The assumptions: tokens leave an account only on its owner's or
    delegate's word, no address the program derives signs a transaction, and the vault's
    authority is not that of the wrapped stablecoin. *)
Theorem vault_covers_liabilities D mint :
  (forall w, (forall k, (acct w k).(acc_owner) <> D.(dp_program)) ->
     backed D.(dp_program) (no_terms (margin_address D)) w /\
     sound_terms (no_terms (margin_address D)) /\ owed D mint w = 0) /\
  forall G w w' n,
    authority_of_vault D mint <> (D.(dp_derive) [SEED_WUSD_AUTHORITY]).1 ->
    G.(tm_margin) = margin_address D -> backed D.(dp_program) G w -> sound_terms G ->
    rtc (sound_step D mint) w w' -> vault_balance D mint w = Some n -> owed D mint w <= n ->
    exists n', vault_balance D mint w' = Some n' /\ owed D mint w' <= n' /\
      n - owed D mint w <= n' - owed D mint w'.
Proof.
  split.
  - intros w Hw. destruct (fresh_backed _ (margin_address D) _ Hw) as (H1 & H2 & H3).
    split_and!; [done|done|exact (H3 mint)].
  - intros G w w' n Hne HG Hb Hs Hh Hn Hle.
    destruct (sound_history D mint G w w' n Hne HG Hb Hs Hh Hn Hle) as (G' & n' & _ & _ & ?).
    by exists n'.
Qed.

(* ------------------------------------------------------------------ *)
(** ** On the demo world *)

Definition demo_deployment : Deployment := deployment (demo 100 1700100000 []) (demo_tokens 100 1700100000 []).

Lemma demo_sound : sound_terms demo_terms.
Proof.
  intros k m c Hk. unfold lookup, terms_lookup in Hk. cbn in Hk. unfold_bounds. cbn [tm_bounty demo_terms].
  apply lookup_insert_Some in Hk as [[_ [= <- <-]]|[_ [_ [= <- <-]]%lookup_singleton_Some]]; lia.
Qed.

(** Alice withdraws. *)
Lemma demo_withdraw_sound :
  sound_step demo_deployment USD demo_world
    (demo_tx 1700100000 [] demo_withdraw TWithdraw (le_bytes 8 700000) demo_world).
Proof.
  exists (demo 100 1700100000 []), (demo_laws 100 1700100000 []),
    (demo_tokens 100 1700100000 []), demo_borsh, demo_widths.
  exists demo_withdraw, (tag_byte TWithdraw :: le_bytes 8 700000). split_and!; [reflexivity| | |reflexivity|exact I|reflexivity].
  - unfold keyless, demo_withdraw.
    repeat (apply Forall_cons; split; [intros [=]; vm_compute; discriminate|]). by apply Forall_nil.
  - intros payload [=].
Qed.

Lemma vault_covers_liabilities_witness :
  let w' := demo_tx 1700100000 [] demo_withdraw TWithdraw (le_bytes 8 700000) demo_world in
  vault_balance demo_deployment USD w' = Some 49300000 /\
  exists n', vault_balance demo_deployment USD w' = Some n' /\ owed demo_deployment USD w' <= n'.
Proof.
  intros w'. split; [vm_compute; reflexivity|].
  destruct (proj2 (vault_covers_liabilities demo_deployment USD) demo_terms demo_world w' 50000000)
    as (n' & Hn & Hle & _); [| | | | | | |exact (ex_intro _ n' (conj Hn Hle))].
  - vm_compute. discriminate.
  - reflexivity.
  - exact demo_backed.
  - exact demo_sound.
  - by apply rtc_once, demo_withdraw_sound.
  - vm_compute. reflexivity.
  - vm_compute. discriminate.
Defined.
