(* ===== verification/Wrapped.v ===== *)
(** * The wrapped stablecoin is covered

    What is minted of the wrapped stablecoin against what its authority holds of the accepted
    ones: the reserves move with the supply, and nothing else takes from them. *)
From S2P Require Import Prelude Ledger Governance Attestation World Demo Footprint Totals Lifecycle Authority Custody Dispatch Bystanders DemoWorld BookHistory Conservation Evolution Tokens Vaults.

(* ------------------------------------------------------------------ *)
(** ** Supply and reserves *)

Section defs.
Context (D : Deployment) (trusted : gset Pubkey).

Definition wusd_mint_of : Pubkey := (D.(dp_derive) [SEED_WUSD_MINT]).1.
Definition wusd_authority_of : Pubkey := (D.(dp_derive) [SEED_WUSD_AUTHORITY]).1.

(** How much of the wrapped stablecoin is in circulation, once its mint exists. *)
Definition supply (w : World) : option Z := supply_at D.(dp_supply) wusd_mint_of w.

(** A reserve: an account of the authority, of a trusted stablecoin. *)
Definition is_reserve (t : TokenAccount) : bool :=
  (t.(ta_owner) =? wusd_authority_of) && bool_decide (t.(ta_mint) ∈ trusted).
Definition reserve_at (d : AccountData) : option Z :=
  match d with
  | DBytes bs =>
      match D.(dp_unpack) bs with Ok t => if is_reserve t then Some t.(ta_amount) else None | _ => None end
  | _ => None
  end.
Definition reserves (w : World) : Z := sum_over SPL_TOKEN_ID (fun _ d => default 0 (reserve_at d)) w.

(** The authority never appointed a delegate. *)
Definition undelegated (w : World) : Prop := forall k t d,
  token_at D.(dp_unpack) D.(dp_delegate) k w = Some (t, d) -> t.(ta_owner) = wusd_authority_of -> d = None.

(** No account of the transaction is a mint whose vault has this authority. *)
Definition distinct_vaults (accounts : list AccountInfo) : Prop :=
  Forall (fun ai => authority_of_vault D ai.(key) <> wusd_authority_of) accounts.

(** The stablecoins the program accepts are trusted. *)
Definition accepts_trusted (w : World) : Prop := forall k (reg : StablecoinRegistry) m,
  (acct w k).(acc_owner) = D.(dp_program) -> (acct w k).(acc_data) = inj reg ->
  is_accepted reg m = true -> m ∈ trusted.

(** No more is in circulation than the reserves cover. *)
Definition covered (w : World) : Prop := if supply w is Some n then n <= reserves w else True.
(** A step after which the reserves are ahead of the supply by at least as much. *)
Definition covers (w w' : World) : Prop := undelegated w ->
  undelegated w' /\
  match supply w with
  | Some n => exists n', supply w' = Some n' /\ reserves w - n <= reserves w' - n'
  | None => supply w' = None \/ supply w' = Some 0
  end.
End defs.

(* ------------------------------------------------------------------ *)
(** ** A call of the token program *)

Section wrapped.
Context {R : Runtime} {L : RuntimeLaws} {T : TokenLaws} (trusted : gset Pubkey).
Abbreviation D := (deployment R T).
Abbreviation tokens := (token_at unpack_token_account token_delegate).
Abbreviation mint_supply := (supply_at unpack_supply).
Abbreviation reserve := (reserve_at D trusted).

(** An address without an account is no reserve. *)
Lemma no_reserve : reserve no_account.(acc_data) = None.
Proof.
  cbn. destruct (unpack_token_account []) as [t| | |] eqn:Et; try done. apply account_length in Et. cbn in Et. lia.
Qed.
#[local] Instance reserve_vanishes (x : Z -> Pubkey -> Z) :
  Vanishes (fun k d => if reserve d is Some n then x n k else 0).
Proof. intros k. by rewrite no_reserve. Qed.

(** What the token program holds decides what counts. *)
Definition reserve_in (w : World) (k : Pubkey) : option Z :=
  if tokens k w is Some (t, _) then if is_reserve D trusted t then Some t.(ta_amount) else None else None.
Lemma counted_reserve (x : Z -> Pubkey -> Z) w k :
  counted SPL_TOKEN_ID (fun k d => if reserve d is Some n then x n k else 0) k (acct w k) =
  if reserve_in w k is Some n then x n k else 0.
Proof.
  unfold counted, reserve_in, token_at, reserve_at. case_match; [|done].
  destruct (acc_data (acct w k)) as [| | | | | | | | | | | | | |bs]; try done. cbn [dp_unpack deployment].
  by destruct (unpack_token_account bs).
Qed.
Definition sum_reserves (x : Z -> Pubkey -> Z) (w : World) : Z :=
  sum_over SPL_TOKEN_ID (fun k d => if reserve d is Some n then x n k else 0) w.
Lemma reserves_sum w : reserves D trusted w = sum_reserves (fun n _ => n) w.
Proof.
  apply sum_ext; [exact _|by intros k; rewrite no_reserve|]. intros k. unfold counted. by repeat case_match.
Qed.

Lemma sum_reserves_ext x x' w w' :
  (forall k, (if reserve_in w' k is Some n then x' n k else 0) = (if reserve_in w k is Some n then x n k else 0)) ->
  sum_reserves x' w' = sum_reserves x w.
Proof. intros H. apply sum_ext; [exact _..|]. intros k. by rewrite !counted_reserve. Qed.
Lemma sum_reserves_at x k w : (forall n j, j <> k -> x n j = 0) ->
  sum_reserves x w = if reserve_in w k is Some n then x n k else 0.
Proof.
  intros H. unfold sum_reserves. rewrite (sum_single _ _ k); [apply counted_reserve|exact _|].
  intros j Hj. rewrite counted_reserve. case_match; [by apply H|done].
Qed.
Lemma sum_reserves_sub x y w :
  sum_reserves (fun n k => x n k - y n k) w = sum_reserves x w - sum_reserves y w.
Proof.
  unfold sum_reserves. rewrite <- sum_sub. apply sum_ext.
  - intros k. by rewrite no_reserve.
  - exact _.
  - intros k. unfold counted. repeat case_match; lia.
Qed.

(** What a call adds to the reserves and takes from them. *)
Definition put_in (c : Cpi) (w : World) : Z :=
  if credits c is Some (dst, n) then if reserve_in w dst is Some _ then n else 0 else 0.
Definition taken_from (c : Cpi) (w : World) : Z :=
  if debits c is Some (src, _, n) then if reserve_in w src is Some _ then n else 0 else 0.

Lemma call_reserve c seeds w w' k : token_call c = true -> invoke c seeds w = Some w' ->
  reserve_in w' k = (n ← reserve_in w k; Some (n + change c k)).
Proof.
  intros Hc E. unfold reserve_in. destruct (tokens k w) as [[t d]|] eqn:Ek.
  - destruct (token_effect c seeds w w' k t d Hc E Ek) as (d' & -> & _).
    change (is_reserve D trusted (add_amount _ t)) with (is_reserve D trusted t). by case_match.
  - by rewrite (account_stays_none c seeds w w' k Hc E Ek).
Qed.
Lemma call_reserves c seeds w w' : token_call c = true -> invoke c seeds w = Some w' ->
  reserves D trusted w' = reserves D trusted w + put_in c w - taken_from c w.
Proof.
  intros Hc E. rewrite !reserves_sum.
  set (cr := fun k => if credits c is Some (dst, n) then if dst =? k then n else 0 else 0).
  set (db := fun k => if debits c is Some (src, _, n) then if src =? k then n else 0 else 0).
  assert (H : sum_reserves (fun n _ => n) w' = sum_reserves (fun n k => n - (db k - cr k)) w).
  { apply sum_reserves_ext. intros k. rewrite (call_reserve c seeds w w' k Hc E).
    destruct (reserve_in w k); cbn; [|done]. unfold change, cr, db. lia. }
  rewrite H, !sum_reserves_sub. clear H.
  assert (Hcr : sum_reserves (fun _ k => cr k) w = put_in c w).
  { unfold put_in, cr. destruct (credits c) as [[dst n]|].
    - rewrite (sum_reserves_at _ dst); [by rewrite Z.eqb_refl|].
      intros _ j Hj. by rewrite (proj2 (Z.eqb_neq dst j)) by congruence.
    - rewrite (sum_reserves_at _ 0) by done. by case_match. }
  assert (Hdb : sum_reserves (fun _ k => db k) w = taken_from c w).
  { unfold taken_from, db. destruct (debits c) as [[[src a] n]|].
    - rewrite (sum_reserves_at _ src); [by rewrite Z.eqb_refl|].
      intros _ j Hj. by rewrite (proj2 (Z.eqb_neq src j)) by congruence.
    - rewrite (sum_reserves_at _ 0) by done. by case_match. }
  rewrite Hcr, Hdb. lia.
Qed.

Lemma call_undelegated c seeds w w' : token_call c = true -> invoke c seeds w = Some w' ->
  undelegated D w -> undelegated D w'.
Proof.
  intros Hc E Hu k t' d' Hk Ho. cbn [dp_unpack dp_delegate deployment] in Hk.
  destruct (tokens k w) as [[t d]|] eqn:Ek; cycle 1.
  { by rewrite (account_stays_none c seeds w w' k Hc E Ek) in Hk. }
  destruct (token_effect c seeds w w' k t d Hc E Ek) as (d0 & Hk' & Hd). rewrite Hk' in Hk. injection Hk as <- <-.
  apply Hd. by apply (Hu k t d).
Qed.

(** Only the authority takes from its accounts. *)
Lemma taken_by_other c seeds w w' : invoke c seeds w = Some w' -> undelegated D w ->
  (forall src a n, debits c = Some (src, a, n) -> a <> wusd_authority_of D) -> taken_from c w = 0.
Proof.
  intros E Hu Ha. unfold taken_from. destruct (debits c) as [[[src a] n]|] eqn:Ed; [|done].
  destruct (debit_authorised c seeds w w' _ _ _ Ed E) as (t & d & Ht & Hor). unfold reserve_in. rewrite Ht.
  destruct (is_reserve D trusted t) eqn:Er; [|done]. apply andb_true_iff in Er as [Ho%Z.eqb_eq _].
  rewrite (Hu _ _ _ Ht Ho) in Hor. destruct Hor as [<-|]; [|done]. by destruct (Ha _ _ _ eq_refl).
Qed.
Lemma put_in_nonneg c seeds w w' : invoke c seeds w = Some w' -> 0 <= put_in c w.
Proof.
  intros E. unfold put_in. destruct (credits c) as [[dst n]|] eqn:Ec; [|done].
  apply (credit_u64 c seeds w w' dst n Ec) in E as [? _]. by case_match.
Qed.

(* ------------------------------------------------------------------ *)
(** ** Steps *)

(** A step that puts [r] into the reserves and [s] into circulation. *)
Definition moves (r s : Z) (w w' : World) : Prop := undelegated D w ->
  undelegated D w' /\ reserves D trusted w + r <= reserves D trusted w' /\
  supply D w' = (fun n => n + s) <$> supply D w.

Lemma moves_trans r s r' s' w1 w2 w3 : moves r s w1 w2 -> moves r' s' w2 w3 -> moves (r + r') (s + s') w1 w3.
Proof.
  intros H1 H2 Hu. destruct (H1 Hu) as (Hu2 & Hr1 & Hs1), (H2 Hu2) as (Hu3 & Hr2 & Hs2).
  split_and!; [done|lia|]. rewrite Hs2, Hs1. destruct (supply D w1); [|done]. cbn. f_equal. lia.
Qed.
#[export] Instance moves_preorder : PreOrder (moves 0 0).
Proof.
  split; [|intros w1 w2 w3; apply (moves_trans 0 0 0 0)].
  intros w Hu. split_and!; [done|lia|]. by rewrite add_nothing.
Qed.

Lemma moves_call c seeds w w' r : token_call c = true -> initialises c <> Some (wusd_mint_of D) ->
  invoke c seeds w = Some w' -> (undelegated D w -> r <= put_in c w - taken_from c w) ->
  moves r (issued c (wusd_mint_of D)) w w'.
Proof.
  intros Hc Hi E Hr Hu. split_and!; [by eapply call_undelegated| |].
  - rewrite (call_reserves c seeds w w' Hc E). specialize (Hr Hu). lia.
  - by eapply supply_effect.
Qed.
Lemma moves_passive w w' : (forall ok pre, Bystander ok pre -> pre w -> pre w') -> moves 0 0 w w'.
Proof.
  intros H Hu. pose proof (fun k => passive_tokens k w w' H) as Ht. split_and!.
  - intros k t d. cbn [dp_unpack dp_delegate deployment]. rewrite Ht. apply Hu.
  - rewrite !reserves_sum. rewrite (sum_reserves_ext (fun n _ => n) (fun n _ => n) w w'); [lia|].
    intros k. unfold reserve_in. by rewrite Ht.
  - rewrite add_nothing. by apply passive_supply.
Qed.
Lemma moves_mut `{AccountType A} {B} k (m : M A B) w r w' : (forall bs, proj (T := A) (DBytes bs) = None) ->
  with_mut k m w = (r, w') -> moves 0 0 w w'.
Proof. intros Hp E. apply moves_passive. intros ok pre Y. by apply (passive_mut ok pre k m Hp _ _ _ E). Qed.

(** A transfer or a burn on the word of anyone else. *)
Lemma moves_other c seeds w w' : token_call c = true -> initialises c <> Some (wusd_mint_of D) ->
  (forall src a n, debits c = Some (src, a, n) -> a <> wusd_authority_of D) ->
  invoke c seeds w = Some w' -> moves 0 (issued c (wusd_mint_of D)) w w'.
Proof.
  intros Hc Hi Ha E. eapply moves_call; [done|done|exact E|]. intros Hu.
  rewrite (taken_by_other c seeds w w' E Hu Ha). pose proof (put_in_nonneg c seeds w w' E). lia.
Qed.
Lemma moves_transfer src dst a n seeds w w' : a <> wusd_authority_of D ->
  invoke (TokenTransfer src dst a n) seeds w = Some w' -> moves 0 0 w w'.
Proof.
  intros Ha. apply (moves_other (TokenTransfer src dst a n)); [done..|]. by intros ? ? ? [= _ <- _].
Qed.

(* ------------------------------------------------------------------ *)
(** ** The handlers *)

(** The vaults' authorities are others, and the transaction is signed by no derived address. *)
Section handlers.
Context (accounts : list AccountInfo) (Hkeyless : keyless (wusd_authority_of D) accounts)
  (Hvaults : distinct_vaults D accounts).

Lemma vault_authority_other i ai a bump : find_program_address [SEED_VAULT; key_seed ai.(key)] = (a, bump) ->
  accounts !! i = Some ai -> a <> wusd_authority_of D.
Proof.
  intros E Hi. pose proof (Forall_lookup_1 _ _ _ _ Hvaults Hi) as H. cbv beta in H.
  change (authority_of_vault D ai.(key)) with (find_program_address [SEED_VAULT; key_seed ai.(key)]).1 in H.
  by rewrite E in H.
Qed.

Ltac by_mut :=
  match goal with H : with_mut _ _ _ = _ |- _ => refine (moves_mut _ _ _ _ _ _ H); intros ?; reflexivity end.
Ltac by_transfer H := eapply moves_transfer; cycle 1; [eassumption|by eapply H].

Lemma moves_deposit amount w u w' : process_deposit accounts amount w = (Ok u, w') -> moves 0 0 w w'.
Proof.
  intros E. unfold process_deposit, require_token_program, validate_vault in E. inv_world.
  etrans; [by_transfer signer_not|by_mut].
Qed.
Lemma moves_withdraw amount w u w' : process_withdraw accounts amount w = (Ok u, w') -> moves 0 0 w w'.
Proof.
  intros E. unfold process_withdraw, require_token_program, validate_vault in E. inv_world.
  etrans; [by_mut|by_transfer vault_authority_other].
Qed.
Lemma moves_sweep amount w u w' : process_sweep_fees accounts amount w = (Ok u, w') -> moves 0 0 w w'.
Proof.
  intros E. unfold process_sweep_fees, require_token_program, require_admin in E. inv_world.
  etrans; [by_mut|by_transfer vault_authority_other].
Qed.

(** Wrapping puts a trusted stablecoin into a reserve before it mints. *)
Lemma reserve_checked w k bs t m : holds k (DBytes bs) w -> unpack_token_account bs = Ok t ->
  t.(ta_owner) = wusd_authority_of D -> t.(ta_mint) = m -> m ∈ trusted -> tokens k w <> None ->
  is_Some (reserve_in w k).
Proof.
  unfold holds, reserve_in, token_at. intros Hb Ht Ho Hm Hin Hk. case_match eqn:E; [|done].
  rewrite Hb, Ht. unfold is_reserve. rewrite Ho, Hm, Z.eqb_refl, bool_decide_true by done. by eexists.
Qed.
Lemma moves_in src dst a n w w' : a <> wusd_authority_of D -> invoke (TokenTransfer src dst a n) [] w = Some w' ->
  is_Some (reserve_in w dst) -> moves n 0 w w'.
Proof.
  intros Ha E [x Hx]. eapply (moves_call (TokenTransfer src dst a n)); [done|done|exact E|]. intros Hu.
  rewrite (taken_by_other _ _ _ _ E Hu) by (by intros ? ? ? [= _ <- _]). unfold put_in. cbn. rewrite Hx. lia.
Qed.
Lemma wusd_mint_is m b : find_program_address [SEED_WUSD_MINT] = (m, b) -> wusd_mint_of D = m.
Proof. by intros H%(f_equal fst). Qed.
Lemma wusd_authority_is a b : find_program_address [SEED_WUSD_AUTHORITY] = (a, b) -> wusd_authority_of D = a.
Proof. by intros H%(f_equal fst). Qed.
Lemma moves_mint m dst a n seeds w w' : invoke (TokenMintTo m dst a n) seeds w = Some w' ->
  wusd_mint_of D = m -> moves 0 n w w'.
Proof.
  intros E Hm. replace n with (issued (TokenMintTo m dst a n) (wusd_mint_of D)) at 1 by by rewrite Hm; cbn; rewrite Z.eqb_refl.
  by eapply moves_other.
Qed.
Lemma moves_burn src m a n seeds w w' : invoke (TokenBurn src m a n) seeds w = Some w' ->
  a <> wusd_authority_of D -> wusd_mint_of D = m -> moves 0 (- n) w w'.
Proof.
  intros E Ha Hm. replace (- n) with (issued (TokenBurn src m a n) (wusd_mint_of D)) by by rewrite Hm; cbn; rewrite Z.eqb_refl.
  eapply moves_other; [done|done| |exact E]. by intros ? ? ? [= _ <- _].
Qed.
Lemma moves_out src dst a n seeds w w' : invoke (TokenTransfer src dst a n) seeds w = Some w' -> moves (- n) 0 w w'.
Proof.
  intros E. pose proof (credit_u64 (TokenTransfer src dst a n) _ _ _ _ _ eq_refl E) as [? _].
  eapply (moves_call (TokenTransfer src dst a n)); [done|done|exact E|]. intros _. unfold put_in, taken_from. cbn.
  repeat case_match; lia.
Qed.

Lemma moves_wrap amount w u w' : accepts_trusted D trusted w ->
  process_wrap_stablecoin accounts amount w = (Ok u, w') -> moves amount amount w w'.
Proof.
  intros Htr E. unfold process_wrap_stablecoin, require_token_program, check_accepted, check_reserve in E. inv_world.
  match goal with
  | Ht : invoke (TokenTransfer _ _ _ _) _ w = Some ?w1, Hm : find_program_address [SEED_WUSD_MINT] = _,
    Ha : find_program_address [SEED_WUSD_AUTHORITY] = _, Hb : holds _ _ w, Ho : forallb _ _ = true,
    Hr : is_accepted _ _ = true |- _ =>
      apply wusd_mint_is in Hm; apply wusd_authority_is in Ha; cbn in Ho; apply andb_true_iff in Ho as [Ho%owned_spec _];
      replace amount with (amount + 0) at 1 by lia; replace amount with (0 + amount) at 2 by lia;
      apply (moves_trans _ _ _ _ w w1 w'); [|by eapply moves_mint];
      eapply moves_in; cycle 1; [exact Ht| |by eapply signer_not];
      eapply reserve_checked; [exact Hb|eassumption|congruence|eassumption|by eapply Htr|];
      by eapply (credit_account (TokenTransfer _ _ _ _))
  end.
Qed.
Lemma moves_unwrap amount w u w' : process_unwrap_stablecoin accounts amount w = (Ok u, w') ->
  moves (- amount) (- amount) w w'.
Proof.
  intros E. unfold process_unwrap_stablecoin, require_token_program, check_accepted, check_reserve in E. inv_world.
  match goal with
  | Hb : invoke (TokenBurn _ _ _ _) _ w = Some ?w1, Hm : find_program_address [SEED_WUSD_MINT] = _ |- _ =>
      apply wusd_mint_is in Hm; replace (- amount) with (0 + - amount) at 1 by lia;
      replace (- amount) with (- amount + 0) at 2 by lia; apply (moves_trans _ _ _ _ w w1 w'); [|by eapply moves_out];
      eapply (moves_burn _ _ _ _ _ _ _ Hb); [|done]
  end.
  by eapply signer_not.
Qed.

End handlers.

(** Initialising the registry leaves a mint that exists as it is. *)
Lemma undisturbed_reserves w w' : (forall k, undisturbed k w w') -> undelegated D w ->
  undelegated D w' /\ reserves D trusted w' = reserves D trusted w.
Proof.
  intros Hk Hu. split.
  - intros k t d' Ht' Ho. destruct (Hk k) as [H1 H2]. cbn [dp_unpack dp_delegate deployment] in Ht'.
    destruct (tokens k w) as [[t0 d0]|] eqn:E; [|by rewrite H2 in Ht'].
    destruct (H1 _ _ eq_refl) as (d & Ht & Hd). rewrite Ht in Ht'. injection Ht' as <- <-. by apply Hd, (Hu k t0).
  - rewrite !reserves_sum. apply sum_reserves_ext.
    intros k. destruct (Hk k) as [H1 H2]. unfold reserve_in. destruct (tokens k w) as [[t d]|].
    + by destruct (H1 _ _ eq_refl) as (d' & -> & _).
    + by rewrite H2.
Qed.
Lemma create_mint_run admin mint authority bump decimals w u w' :
  create_wusd_mint admin mint authority bump decimals w = (Ok u, w') ->
  w' = w \/ mint_supply mint w = None /\ mint_supply mint w' = Some 0.
Proof.
  intros E. unfold create_wusd_mint in E. inv_world. unfold when in E. case_match; [|left; by injection E as <-].
  inv_world. right. split; [|by eapply supply_starts]. unfold supply_at.
  match goal with H : invoke (CreateAccount _ _ _ _ _) _ _ = _ |- _ => apply create_fresh in H as (-> & _) end.
  done.
Qed.
Lemma init_stables_supply accounts decimals mints w u w' :
  process_init_stablecoin_registry accounts decimals mints w = (Ok u, w') ->
  match supply D w with Some n => supply D w' = Some n | None => unissued (wusd_mint_of D) w' end.
Proof.
  intros (admin & mint & authority & bump & mbump & w1 & w2 & Hm%wusd_mint_is & _ & H1 & Hc & H2)%init_stables_run.
  unfold supply. cbn [dp_supply deployment]. rewrite Hm. apply create_mint_run in Hc.
  destruct (mint_supply mint w) as [n|] eqn:En.
  - pose proof (H1 _ _ (mint_bystander mint n) En) as H. apply (H2 _ _ (mint_bystander mint n)); [done|].
    destruct Hc as [->|[Hn _]]; [done|congruence].
  - apply (H2 _ _ (unissued_bystander mint)); [by left|].
    destruct Hc as [->|[_ Hn]]; [|by right]. left. by apply (H1 _ _ (no_mint_bystander mint)).
Qed.

(* ------------------------------------------------------------------ *)
(** ** Every instruction *)

Lemma moves_covers r s w w' : moves r s w w' -> s <= r -> covers D trusted w w'.
Proof.
  intros Hm Hle Hu. destruct (Hm Hu) as (Hu' & Hr & Hs). split; [done|]. destruct (supply D w) as [n|].
  - exists (n + s). split; [exact Hs|lia].
  - by left.
Qed.
Lemma reserves_nonneg w : 0 <= reserves D trusted w.
Proof.
  rewrite reserves_sum. apply sum_nonneg; [exact _|]. intros k. rewrite (counted_reserve (fun n _ => n)).
  unfold reserve_in, token_at. destruct (_ =? _); [|reflexivity].
  destruct (acc_data (acct w k)) as [| | | | | | | | | | | | | |bs]; try reflexivity.
  destruct (unpack_token_account bs) as [t| | |] eqn:Et; try reflexivity. apply amount_u64 in Et as [? _].
  by destruct (is_reserve D trusted t).
Qed.
Context {B : Borsh}.

Lemma instruction_covers t accounts payload w w' : keyless (wusd_authority_of D) accounts ->
  distinct_vaults D accounts -> accepts_trusted D trusted w ->
  run_instruction t accounts payload w = (Ok tt, w') -> covers D trusted w w'.
Proof.
  intros Hk Hv Ha E. destruct (calls_tokens t) eqn:Ht; cycle 1.
  { apply (moves_covers 0 0); [|done]. by eapply moves_passive, other_instruction_passive. }
  destruct t; try discriminate Ht; cbn [run_instruction] in E;
    apply bind_ok_inv in E as (args & w0 & [Hd ->]%decode_ok_inv & E); try destruct args as [decimals mints].
  - by eapply (moves_covers 0 0), Z.le_refl; eapply moves_deposit.
  - by eapply (moves_covers 0 0), Z.le_refl; eapply moves_withdraw.
  - by eapply (moves_covers 0 0), Z.le_refl; eapply moves_sweep.
  - intros Hu. pose proof (init_stables_supply _ _ _ _ _ _ E) as Hs.
    destruct (undisturbed_reserves w w') as [Hu' Hr]; [intros k; by eapply undisturbed_init_stables|done|].
    split; [done|]. destruct (supply D w) as [n|]; [|done]. exists n. split; [done|lia].
  - by eapply moves_covers, Z.le_refl; eapply moves_wrap.
  - by eapply moves_covers, Z.le_refl; eapply moves_unwrap.
Qed.
Lemma transaction_covers accounts data w : keyless (wusd_authority_of D) accounts ->
  distinct_vaults D accounts -> accepts_trusted D trusted w ->
  covers D trusted w (transaction accounts data w).
Proof.
  intros Hk Hv Ha. unfold transaction.
  destruct (process accounts data w) as [[[]|e| |] w'] eqn:E; try (apply (moves_covers 0 0); [reflexivity|done]).
  unfold process in E. destruct data as [|b payload]; [done|].
  apply bind_ok_inv in E as (t & w0 & Ht & E). apply lift_ok_inv in Ht as [_ ->]. by eapply instruction_covers.
Qed.
(** Calls of the token program by others. *)
Lemma outside_covers c seeds w w' : token_call c = true -> initialises c <> Some (wusd_mint_of D) ->
  (forall src a n, debits c = Some (src, a, n) -> a <> wusd_authority_of D) ->
  (forall account a n, c <> TokenMintTo (wusd_mint_of D) account a n) ->
  invoke c seeds w = Some w' -> covers D trusted w w'.
Proof.
  intros Hc Hi Ha Hm E. apply (moves_covers 0 (issued c (wusd_mint_of D))); [by eapply moves_other|].
  destruct c as [| |src dst a n|m k a n|k m a n|m a f n]; cbn [issued]; try lia.
  - destruct (Z.eqb_spec m (wusd_mint_of D)) as [->|]; [by destruct (Hm k a n)|lia].
  - apply (debit_u64 (TokenBurn _ _ _ _) _ _ _ _ _ _ eq_refl) in E as [? _]. case_match; lia.
Qed.
End wrapped.

(* ------------------------------------------------------------------ *)
(** ** Histories *)

(** A transaction of the program, with whatever instruction, that no derived address signs;
    or a call of the token program by anyone else, who does not speak for the authority. *)
Inductive wrapped_step (D : Deployment) (trusted : gset Pubkey) (w : World) : World -> Prop :=
  | WrappedTransaction (R : Runtime) (L : RuntimeLaws) (T : TokenLaws) (B : Borsh) accounts data :
      deployment R T = D -> keyless (wusd_authority_of D) accounts -> distinct_vaults D accounts ->
      accepts_trusted D trusted w -> wrapped_step D trusted w (transaction accounts data w)
  | WrappedOutside (R : Runtime) (L : RuntimeLaws) (T : TokenLaws) c seeds w' :
      deployment R T = D -> token_call c = true -> initialises c <> Some (wusd_mint_of D) ->
      (forall src a n, debits c = Some (src, a, n) -> a <> wusd_authority_of D) ->
      (forall account a n, c <> TokenMintTo (wusd_mint_of D) account a n) ->
      invoke c seeds w = Some w' -> wrapped_step D trusted w w'.

Lemma wrapped_step_covers D trusted w w' : wrapped_step D trusted w w' ->
  undelegated D w -> covered D trusted w ->
  undelegated D w' /\ covered D trusted w' /\
  forall n, supply D w = Some n ->
    exists n', supply D w' = Some n' /\ reserves D trusted w - n <= reserves D trusted w' - n'.
Proof.
  intros H Hu Hw.
  assert (Hc : covers D trusted w w' /\ 0 <= reserves D trusted w').
  { destruct H as [R L T B accounts data <- Hk Hv Ha|R L T c seeds w' <- Hc Hi Ha Hm E].
    - split; [by eapply transaction_covers|apply reserves_nonneg].
    - split; [by eapply outside_covers|apply reserves_nonneg]. }
  destruct Hc as [Hc Hpos]. destruct (Hc Hu) as [Hu' Hs]. split; [done|]. unfold covered in *.
  destruct (supply D w) as [n|].
  - destruct Hs as (n' & -> & Hle). split; [lia|]. intros _ [= <-]. by exists n'.
  - split; [|done]. by destruct Hs as [-> | ->].
Qed.

(** C5: the wrapped stablecoin is covered. In every world reached by any history, its supply
    is at most what its authority holds of trusted stablecoins, if it was at the start, and
    the reserves stay ahead of the supply by at least as much as they were: each wrap pays in
    what it mints, each unwrap burns what it pays out, and no other instruction, nor anyone
    else's call of the token program, takes from the reserves or mints. A world without token
    accounts is such a start. Trusted is any set with the stablecoins that the registries
    accept along the way. The assumptions: tokens leave an account only on its owner's or
    delegate's word, no address the program derives signs a transaction, the authority never
    appointed a delegate, and no vault's authority is the same address. *)
Theorem wusd_is_covered D trusted :
  (forall w, (forall k, (acct w k).(acc_owner) <> SPL_TOKEN_ID) -> undelegated D w /\ covered D trusted w) /\
  forall w w', rtc (wrapped_step D trusted) w w' -> undelegated D w -> covered D trusted w ->
    undelegated D w' /\ covered D trusted w' /\
    forall n, supply D w = Some n ->
      exists n', supply D w' = Some n' /\ reserves D trusted w - n <= reserves D trusted w' - n'.
Proof.
  split.
  - intros w Hw. split.
    + intros k t d. unfold token_at. by rewrite (proj2 (Z.eqb_neq _ _) (Hw k)).
    + unfold covered, supply, supply_at. by rewrite (proj2 (Z.eqb_neq _ _) (Hw _)).
  - intros w w' Hh. induction Hh as [w|w w1 w2 Hstep _ IH]; intros Hu Hc.
    + split_and!; [done|done|]. intros n Hn. exists n. split; [done|lia].
    + destruct (wrapped_step_covers D trusted w w1 Hstep Hu Hc) as (Hu1 & Hc1 & Hs1).
      destruct (IH Hu1 Hc1) as (Hu2 & Hc2 & Hs2). split_and!; [done|done|].
      intros n (n1 & Hn1 & ?)%Hs1. destruct (Hs2 n1 Hn1) as (n2 & ? & ?). exists n2. split; [done|lia].
Qed.

(* ------------------------------------------------------------------ *)
(** ** On the demo world *)

Definition REGISTRY : Pubkey := Eval vm_compute in pda [SEED_STABLECOIN_REGISTRY].
Definition WUSD : Pubkey := Eval vm_compute in pda [SEED_WUSD_MINT].
Definition WUSD_AUTHORITY : Pubkey := Eval vm_compute in pda [SEED_WUSD_AUTHORITY].
Definition RESERVE : Pubkey := 3100.
Definition ALICE_WUSD : Pubkey := 3101.

(** A registry that accepts USD, 200000 wUSD in circulation, 500000 in the reserve. *)
Definition wrapping_world : World :=
  <[REGISTRY := program_account (DStables (stablecoins_init WUSD 6 [USD] 255))]>
  (<[WUSD := {| acc_owner := SPL_TOKEN_ID; acc_lamports := 10 ^ 7;
               acc_data := DBytes (replicate 36 0 ++ le_bytes 8 200000 ++ [6] ++ replicate 37 0) |}]>
  (<[RESERVE := token_account WUSD_AUTHORITY 500000]>
  (<[ALICE_WUSD := {| acc_owner := SPL_TOKEN_ID; acc_lamports := 10 ^ 7;
                     acc_data := demo_token_data ALICE WUSD 200000 |}]> demo_world))).
Definition alice_wraps (w : World) : World :=
  demo_tx 1700100000 []
    [signer ALICE; readonly REGISTRY; readonly USD; writable WUSD; readonly WUSD_AUTHORITY;
     writable ALICE_ATA; writable RESERVE; writable ALICE_WUSD; readonly SPL_TOKEN_ID] TWrapStablecoin
    (le_bytes 8 300000) w.

Example alice_wrapped :
  supply demo_deployment (alice_wraps wrapping_world) = Some 500000 /\
  reserves demo_deployment {[USD]} (alice_wraps wrapping_world) = 800000.
Proof. split; vm_compute; reflexivity. Qed.

Lemma wrapping_accepts : accepts_trusted demo_deployment {[USD]} wrapping_world.
Proof.
  assert (Hd : forall k (reg : StablecoinRegistry), (acct demo_world k).(acc_data) <> inj reg).
  { intros k reg. apply (world_forall (fun _ a => a.(acc_data) <> DStables reg)); [by intros _|].
    repeat (apply Forall_cons; split; [discriminate|]). by apply Forall_nil. }
  intros k reg m _ Hk Hm. unfold wrapping_world in Hk.
  destruct (decide (REGISTRY = k)) as [<-|H1].
  - rewrite acct_insert_eq in Hk. injection Hk as <-. apply bool_decide_eq_true in Hm.
    change (m ∈ [USD]) in Hm. apply elem_of_singleton. by apply list_elem_of_singleton in Hm.
  - rewrite acct_insert_ne in Hk by done.
    destruct (decide (WUSD = k)) as [<-|H2]; [by rewrite acct_insert_eq in Hk|rewrite acct_insert_ne in Hk by done].
    destruct (decide (RESERVE = k)) as [<-|H3]; [by rewrite acct_insert_eq in Hk|rewrite acct_insert_ne in Hk by done].
    destruct (decide (ALICE_WUSD = k)) as [<-|H4]; [by rewrite acct_insert_eq in Hk|rewrite acct_insert_ne in Hk by done].
    by destruct (Hd k reg).
Qed.
Lemma demo_undelegated w : undelegated demo_deployment w.
Proof. intros k t d Hk _. unfold token_at in Hk. repeat case_match; try done. by injection Hk as _ <-. Qed.
Lemma alice_wraps_step : wrapped_step demo_deployment {[USD]} wrapping_world (alice_wraps wrapping_world).
Proof.
  apply (WrappedTransaction _ _ _ (demo 100 1700100000 []) (demo_laws 100 1700100000 [])
    (demo_tokens 100 1700100000 []) demo_borsh); [reflexivity|..|exact wrapping_accepts].
  - repeat (apply Forall_cons; split; [intros [=]; vm_compute; discriminate|]). by apply Forall_nil.
  - repeat (apply Forall_cons; split; [vm_compute; discriminate|]). by apply Forall_nil.
Qed.
Lemma wusd_is_covered_witness :
  covered demo_deployment {[USD]} (alice_wraps wrapping_world) /\
  exists n, supply demo_deployment (alice_wraps wrapping_world) = Some n /\
    500000 - 200000 <= reserves demo_deployment {[USD]} (alice_wraps wrapping_world) - n.
Proof.
  destruct (proj2 (wusd_is_covered demo_deployment {[USD]}) wrapping_world (alice_wraps wrapping_world))
    as (_ & Hc & Hs).
  - apply rtc_once, alice_wraps_step.
  - apply demo_undelegated.
  - unfold covered. vm_compute. discriminate.
  - split; [exact Hc|]. apply (Hs 200000). vm_compute. reflexivity.
Defined.
