(* ===== verification/Exit.v ===== *)
(** * What is free can always be withdrawn

    From [Vaults]: the vault of a mint holds at least what the program owes in it, and so at
    least any one trader's free balance; the withdrawal of it never fails. *)
From S2P Require Import Prelude IntentBook Ledger Governance Attestation World Demo Footprint Totals Solvency MatchIx Intent Settlement Lifecycle Authority Custody Dispatch DemoWorld BookHistory Conservation Balances Evolution Lifetimes Invariants Backing Backed Tokens Vaults.

(* ------------------------------------------------------------------ *)
(** ** What the program owes covers each account *)

Section owed.
Context (D : Deployment) (mint : Pubkey) (w : World) (Hok : forall k, data_ok (acct w k).(acc_data)).

Lemma holding_nonneg d : data_ok d -> 0 <= data_holding mint d.
Proof.
  destruct d; cbn; try done; case_match; try done; unfold total, margin_wf, treasury_ok; lia.
Qed.
Lemma owed_at_least k a : holds k (DMargin a) w -> (acct w k).(acc_owner) = D.(dp_program) ->
  a.(ma_collateral_mint) = mint -> a.(free_collateral) <= owed D mint w.
Proof.
  intros Hh Ho Hm. pose proof (Hok k) as Hk. unfold holds in Hh. rewrite Hh in Hk. destruct Hk as (Hf & Hr & Hl).
  etrans; [|apply (sum_at_least D.(dp_program) _ k)]; [|exact _|].
  - unfold counted. rewrite Ho, Z.eqb_refl, Hh. cbn. rewrite Hm, Z.eqb_refl. unfold total. lia.
  - intros k'. unfold counted. case_match; [|done]. apply holding_nonneg, Hok.
Qed.
End owed.

(* ------------------------------------------------------------------ *)
(** ** The withdrawal runs *)

Section withdraw.
Context {R : Runtime} {L : RuntimeLaws} {T : TokenLaws}.
Abbreviation tokens := (token_at unpack_token_account token_delegate).

Definition paid_out (amount : Z) (a : MarginAccount) : MarginAccount := set_free (a.(free_collateral) - amount) a.

Lemma load_token_run k t d w : tokens k w = Some (t, d) -> load_token k w = (Ok t, w).
Proof.
  unfold token_at, load_token. intros H. case_match; [|done].
  rewrite (bind_ok _ _ w (acct w k).(acc_data) w) by reflexivity.
  destruct (acct w k).(acc_data) as [| | | | | | | | | | | | | |bs]; try done.
  destruct (unpack_token_account bs); try done. by injection H as <- _.
Qed.
Lemma debit_runs a bump amount : is_u64 a.(free_collateral) -> 0 <= amount <= a.(free_collateral) ->
  a.(ma_bump) = bump ->
  (check_margin a.(ma_owner) a.(ma_collateral_mint) bump;; debit_free amount) a = (Ok tt, paid_out amount a).
Proof.
  intros Hf Ha <-. unfold check_margin, debit_free, mbind, M_bind, gets, bail_if, id. cbn.
  rewrite !Z.eqb_refl. cbn.
  by rewrite (proj2 (checked_some U64_MAX _ (a.(free_collateral) - amount))) by (split; [done|lia]).
Qed.
(** Writes to an account of the program leave token accounts alone. *)
Lemma tokens_set k v j w : (acct w k).(acc_owner) = program_id -> tokens j (set_data k v w) = tokens j w.
Proof.
  intros Ho. unfold token_at. rewrite owner_set. destruct (decide (j = k)) as [->|]; [|by rewrite acct_set_ne].
  by rewrite Ho, (proj2 (Z.eqb_neq _ _) program_not_token).
Qed.
Lemma thawed_set frozen k v j t w : (acct w k).(acc_owner) = program_id -> tokens j w = Some t ->
  thawed frozen j w -> thawed frozen j (set_data k v w).
Proof.
  intros Ho Ht. unfold thawed. destruct (decide (j = k)) as [->|]; [|by rewrite acct_set_ne].
  unfold token_at in Ht. by rewrite Ho, (proj2 (Z.eqb_neq _ _) program_not_token) in Ht.
Qed.

Lemma withdraw_runs owner margin mint ata vault_ai authority token rest a amount n t d w :
  owner.(is_signer) = true -> margin.(is_writable) = true -> ata.(is_writable) = true ->
  vault_ai.(is_writable) = true -> token.(key) = SPL_TOKEN_ID ->
  authority.(key) = vault_authority mint.(key) -> vault_ai.(key) = vault mint.(key) ->
  margin_at margin.(key) a w -> a.(ma_owner) = owner.(key) -> a.(ma_collateral_mint) = mint.(key) ->
  find_program_address [SEED_MARGIN; key_seed owner.(key); key_seed mint.(key)] = (margin.(key), a.(ma_bump)) ->
  is_u64 a.(free_collateral) -> 0 < amount <= a.(free_collateral) ->
  vault_holds mint.(key) n w -> amount <= n ->
  tokens ata.(key) w = Some (t, d) -> t.(ta_mint) = mint.(key) -> t.(ta_amount) + amount <= U64_MAX ->
  thawed token_frozen ata.(key) w -> thawed token_frozen (vault mint.(key)) w ->
  exists w', process_withdraw (owner :: margin :: mint :: ata :: vault_ai :: authority :: token :: rest) amount w
      = (Ok tt, w') /\
    holds margin.(key) (DMargin (paid_out amount a)) w' /\
    exists d', tokens ata.(key) w' = Some (add_amount (if vault mint.(key) =? ata.(key) then 0 else amount) t, d').
Proof.
  intros Hs Hmw Haw Hvw Htok Hauth Hva [Hm Hom] Eo Em Hpda Hf Ha Hv Hn Ht Htm Hroom Hth Hvt.
  set (w1 := set_data margin.(key) (DMargin (paid_out amount a)) w).
  destruct (find_program_address [SEED_VAULT; key_seed mint.(key)]) as [va bump] eqn:Ev.
  assert (Eva : vault_authority mint.(key) = va) by (unfold vault_authority; by rewrite Ev).
  destruct (transfer_accepted (vault mint.(key)) ata.(key) va bump amount
    [SEED_VAULT; key_seed mint.(key)] w1 {| ta_mint := mint.(key); ta_owner := va; ta_amount := n |} None t d)
    as [w' Hw']; try done; try (cbn; lia).
  { unfold w1. rewrite tokens_set by done. unfold vault_holds in Hv. by rewrite Eva in Hv. }
  { unfold w1. by rewrite tokens_set. }
  { by eapply thawed_set. }
  { by eapply thawed_set. }
  exists w'. split_and!.
  - unfold process_withdraw. rewrite (bind_ok _ _ w tt w) by (unfold bail_if; by destruct (Z.eqb_spec amount 0); [lia|]).
    do 7 rewrite (bind_ok _ _ w _ w) by reflexivity.
    rewrite (bind_ok _ _ w tt w) by (unfold assert_signer, bail_if; by rewrite Hs).
    do 3 rewrite (bind_ok _ _ w tt w) by (unfold assert_writable, bail_if; by rewrite ?Hmw, ?Haw, ?Hvw).
    rewrite (bind_ok _ _ w tt w) by (unfold assert_owned, mbind, M_bind, gets, bail_if, owned, id; cbn; by rewrite Hom, Z.eqb_refl).
    rewrite (bind_ok _ _ w tt w) by (unfold require_token_program, bail_if; by rewrite Htok).
    erewrite bind_ok by (unfold assert_pda; rewrite Hpda; unfold mbind, M_bind, bail_if; rewrite Z.eqb_refl; reflexivity).
    erewrite bind_ok by (unfold assert_pda; rewrite Ev, Hauth, Eva; unfold mbind, M_bind, bail_if; rewrite Z.eqb_refl; reflexivity).
    rewrite (bind_ok _ _ w tt w); cycle 1.
    { unfold validate_vault. rewrite Hva, Hauth.
      rewrite (bind_ok _ _ w tt w) by (unfold bail_if, vault; by rewrite Z.eqb_refl).
      erewrite bind_ok by (by eapply load_token_run). unfold mbind, M_bind, bail_if. cbn. by rewrite !Z.eqb_refl. }
    rewrite (bind_ok _ _ w tt w1); cycle 1.
    { rewrite <- Eo, <- Em. refine (with_mut_run _ _ w a _ _ Hm (debit_runs _ _ _ _ _ _)); [done|lia|done]. }
    rewrite Hva, Hauth, Eva. unfold invoke_signed. cbv [app] in Hw'. by rewrite Hw'.
  - destruct (token_frame (TokenTransfer _ _ _ _) _ _ _ margin.(key) I Hw') as (_ & Hd & _). unfold holds. rewrite Hd.
    + unfold w1. by rewrite acct_set_eq.
    + unfold w1. rewrite owner_set, Hom. exact program_not_token.
  - destruct (token_effect (TokenTransfer _ _ _ _) _ _ _ ata.(key) t d eq_refl Hw') as (d' & Hd' & _).
    { unfold w1. by rewrite tokens_set. }
    exists d'. rewrite Hd'. do 3 f_equal. unfold change. cbn. rewrite Z.eqb_refl. case_match; lia.
Qed.
End withdraw.

(* ------------------------------------------------------------------ *)
(** ** In every history *)

(** C4: a trader can always leave. In every world reached from a backed one whose vault covers
    what is owed (the empty world owes nothing) by any history of sound transactions, the
    owner of a margin account can withdraw any part of its free balance, whatever the other
    traders' positions and whatever the program's status: [Withdraw] succeeds, the free
    balance falls by the amount and nothing else of the account changes, and the amount
    arrives in the token account named. What it asks of the outside: the destination is a
    token account of the mint with room for the amount, and the token program has frozen
    neither it nor the vault. *)
Theorem free_balances_are_withdrawable {R : Runtime} {L : RuntimeLaws} {T : TokenLaws}
    G w0 n0 w owner margin mint ata vault_ai authority token rest a amount t d :
  let D := deployment R T in
  authority_of_vault D mint.(key) <> (find_program_address [SEED_WUSD_AUTHORITY]).1 ->
  G.(tm_margin) = margin_address D -> backed program_id G w0 -> sound_terms G ->
  (forall k, data_ok (acct w0 k).(acc_data)) ->
  vault_balance D mint.(key) w0 = Some n0 -> owed D mint.(key) w0 <= n0 ->
  rtc (sound_step D mint.(key)) w0 w ->
  margin_at margin.(key) a w -> a.(ma_owner) = owner.(key) -> a.(ma_collateral_mint) = mint.(key) ->
  0 < amount <= a.(free_collateral) ->
  owner.(is_signer) = true -> margin.(is_writable) = true -> ata.(is_writable) = true ->
  vault_ai.(is_writable) = true -> token.(key) = SPL_TOKEN_ID ->
  authority.(key) = vault_authority mint.(key) -> vault_ai.(key) = vault mint.(key) ->
  token_at unpack_token_account token_delegate ata.(key) w = Some (t, d) ->
  t.(ta_mint) = mint.(key) -> t.(ta_amount) + amount <= U64_MAX ->
  thawed token_frozen ata.(key) w -> thawed token_frozen (vault mint.(key)) w ->
  exists w', process_withdraw (owner :: margin :: mint :: ata :: vault_ai :: authority :: token :: rest) amount w
      = (Ok tt, w') /\
    holds margin.(key) (DMargin (paid_out amount a)) w' /\
    exists d', token_at unpack_token_account token_delegate ata.(key) w'
      = Some (add_amount (if vault mint.(key) =? ata.(key) then 0 else amount) t, d').
Proof.
  intros D Hne HG Hb Hs Hok0 Hn0 Hle Hh Hm Eo Em Ha. intros.
  destruct (sound_history D mint.(key) G w0 w n0 Hne HG Hb Hs Hh Hn0 Hle)
    as (G' & n & [_ EG] & Hb' & Hn & Hon & _).
  pose proof (sound_history_ok _ _ _ _ Hh Hok0) as Hok. destruct Hm as [Hm Hom].
  pose proof (owed_at_least D mint.(key) w Hok _ a Hm Hom Em) as Hfree.
  pose proof (Hok margin.(key)) as Hwf. pose proof (bk_fits _ _ _ Hb' _ Hom) as Hfit.
  unfold holds in Hm. rewrite Hm in Hwf, Hfit. destruct Hwf as [Hf _]. cbn in Hfit.
  rewrite EG, HG, Eo, Em in Hfit.
  eapply (withdraw_runs _ _ _ _ _ _ _ _ a amount n); try eassumption; try done.
  - apply vault_balance_holds. exact Hn.
  - lia.
Qed.

(** Alice withdraws a part, and then can withdraw all the rest. *)
Lemma free_balances_are_withdrawable_witness :
  let w := demo_tx 1700100000 [] demo_withdraw TWithdraw (le_bytes 8 700000) demo_world in
  exists a w', margin_at (R := demo 100 1700100000 []) (MARGIN ALICE) a w /\ 0 < a.(free_collateral) /\
    process_withdraw (R := demo 100 1700100000 []) demo_withdraw a.(free_collateral) w = (Ok tt, w').
Proof.
  intros w.
  destruct (acct w (MARGIN ALICE)).(acc_data) as [| a | | | | | | | | | | | | |] eqn:Ea; try (vm_compute in Ea; discriminate Ea).
  assert (Hw : a.(ma_owner) = ALICE /\ a.(ma_collateral_mint) = USD /\ 0 < a.(free_collateral) <= 100000000)
    by (vm_compute in Ea; injection Ea as <-; repeat split; vm_compute; (reflexivity || discriminate)).
  destruct Hw as (Ho & Hc & Hf). exists a.
  destruct (free_balances_are_withdrawable (R := demo 100 1700100000 []) (L := demo_laws 100 1700100000 []) (T := demo_tokens 100 1700100000 [])
    demo_terms demo_world 50000000 w (signer ALICE) (writable (MARGIN ALICE)) (readonly USD)
    (writable ALICE_ATA) (writable VAULT) (readonly VAULT_AUTHORITY) (readonly SPL_TOKEN_ID) [] a
    a.(free_collateral) {| ta_mint := USD; ta_owner := ALICE; ta_amount := 3700000 |} None) as (w' & Hw' & _).
  - vm_compute. discriminate.
  - reflexivity.
  - exact demo_backed.
  - exact demo_sound.
  - exact demo_world_ok.
  - vm_compute. reflexivity.
  - vm_compute. discriminate.
  - apply rtc_once. exact demo_withdraw_sound.
  - split; [exact Ea|vm_compute; reflexivity].
  - exact Ho.
  - exact Hc.
  - lia.
  - reflexivity.
  - reflexivity.
  - reflexivity.
  - reflexivity.
  - reflexivity.
  - vm_compute. reflexivity.
  - vm_compute. reflexivity.
  - vm_compute. reflexivity.
  - reflexivity.
  - unfold_bounds. cbn [ta_amount]. lia.
  - vm_compute. reflexivity.
  - vm_compute. reflexivity.
  - exists w'. split_and!; [split; [exact Ea|vm_compute; reflexivity]|lia|exact Hw'].
Defined.
